(* ===== verification/_CoqProject ===== *)
-Q . S2P
Prelude.v
GoStrings.v
Protocol.v
Domain.v
Pipeline.v
PipelineJSON.v
Agent.v
Llm.v
Tools.v
Adapters.v
Anthropic.v
OpenAI.v
FakeModel.v
PathGuard.v
Output.v
Splitting.v
Paths.v
ToolCalls.v
AgentDef.v
Workspace.v
Repository.v
GitModel.v
Isolation.v
Cleanup.v
Prepare.v
Snapshot.v
Scm.v
Publish.v
Release.v
Store.v
Event.v
Bus.v
Notify.v
Runner.v
Conversation.v
History.v
Derived.v
Approval.v
Task.v
Commit.v
Flow.v
Effects.v
Settled.v
System.v
Announce.v
Hub.v
Orchestrator.v
Scheduling.v
Flight.v
Sha256.v
Auth.v
Config.v
Boot.v
Http.v
