(* ===== verification/Prelude.v ===== *)
(** * DevSquad: a verification development

    DevSquad (Go, under [src/]) runs software tasks as pipelines of stages.  Each stage is
    worked on by an agent in two modes, [plan] and [execute]; the result of a mode may need a
    person's approval.  This development translates the server into Rocq and proves what makes
    it correct.

    ** The program's parts

    - [internal/domain] holds the entities and the state machines of tasks and stages;
      [internal/pipeline] parses a pipeline and computes its levels; [internal/agentdef] loads
      a task's pipeline with its agents and checks that no two stages write the same files.
    - [internal/store] is a PostgreSQL database: one transaction at a time per task (each
      transaction that writes locks the task's row first), hooks that run after the commit.
    - [internal/event] numbers, stores and publishes the events of a task on an in-process bus;
      [internal/ws] streams them to dashboards, [internal/notify] hands them to a notifier.
    - [internal/app] are the services behind the routes of [internal/httpapi]: tasks,
      approvals, budgets, projects; [internal/auth] guards the routes.
      [internal/orchestrator] claims stages, runs agents, commits their results and publishes
      approved work.  Services and orchestrator share nothing but the database and the hooks.
    - [internal/stage] drives a model ([internal/llm]) through the turns of a stage; what the
      model asks for is done by [internal/tools] within the limits of [internal/pathguard].
    - [internal/workspace] keeps a task's files in a git repository; [internal/scm] opens pull
      requests.

    ** The files

    The common ground:
    - [Prelude]: notations, errors ([error], [errors_is], [errors_as]), the result and state
      monads with their inversion tactics, [follows R m] (every successful run of [m] relates
      its states by [R]) with its hint database, triples, machine integers, JSON values, list
      lemmas.  [Protocol]: automata over logs of actions.
    - [GoStrings]: the string functions of the Go library that the code uses, on UTF-8 bytes;
      [Splitting]: [strings.Split], [Cut] and [Fields] undo what joins; [Paths]: what
      [filepath.Join] gives; [Sha256]: [sha256.Sum256].

    Tasks and their state:
    - [Domain]: [domain/model.go] and [domain/state.go].  [Pipeline], [PipelineJSON]:
      [pipeline/pipeline.go], with the JSON snapshot that a task stores.
    - [Store]: tables and queries of [store/sqlc], [store/store.go].  A query is a function
      on a database value, with the constraints of the migrations; [WithTx] takes a [Fate]:
      the commit is acknowledged, its acknowledgement is lost, or the connection is.
    - [Event]: [event/emitter.go] and the well-formedness of the log.
    - [History]: the order [db_le] in which databases evolve, and that each statement
      follows it ([evolves], [logs]).
    - [Derived], [Approval], [Task], [Commit]: the transactions and operations of
      [app/approval.go], [app/task.go], [app/budget.go], [app/project.go] and
      [orchestrator/orchestrator.go].
    - [Flow]: the abstract specification of a stage: [phase], [phase_step], the steps
      [flow_step] on stages and approvals and the invariant [flow_inv] they preserve.
    - [Effects]: each transaction, on a row that may be stale, is a sequence of [flow_step]s.
      [Settled]: each keeps terminal tasks terminal and completed tasks approved.
    - [System]: requests and goroutines interleave transactions with stale rows, any fate and
      crashes ([step]); the theorems hold in every reachable state.

    The orchestrator:
    - [Orchestrator]: the registry of goroutines, [Reconcile], [run], [Recover], [Wake],
      [Cancel], [Close] of [orchestrator/orchestrator.go] over [System].  [Scheduling]: all it
      does is steps of [System].  [Flight]: a stage has one goroutine at most, and none that
      can run is left without one.
    - [Publish]: [orchestrator/publish.go] over an interface for the store, git and GitHub.
      [Scm]: [scm/body.go], [scm/github.go], [scm/publisher.go].  [Release]: the publisher at work
      in a repository.

    Events:
    - [Bus]: [event/bus.go] and the histories of its subscriptions.  [Notify]:
      [notify/notifier.go].  [Announce]: a commit publishes what it stored.  [Hub]:
      [ws/hub.go], a connection beside the running system and the bus.

    Agents:
    - [Agent]: the data of [agentdef/loader.go] and [stage/runner.go].  [AgentDef]:
      [agentdef/loader.go] and [conflicts.go].  [Llm]: [llm/llm.go].  [Adapters], [Anthropic],
      [OpenAI]: [llm/anthropic], [llm/openai] over interfaces for the providers' packages.
      [FakeModel]: [llm/fake].
    - [Tools], [ToolCalls], [Output]: [tools/sandbox.go]: the tools of a profile, their calls on
      a disk interface, the bounded output of a test run.  [PathGuard]: [pathguard/path.go].
    - [Runner]: [stage/runner.go] over an interface for the model, the sandbox and the events.
      [Conversation]: what a run sends to its model.

    Workspaces:
    - [Workspace]: [workspace/git.go] over a machine that runs git.  [Repository]: what git
      promises and what the operations then do to trees and commits.  [GitModel]: an executable
      repository that keeps those promises.  [Isolation]: what each stage sees of a workspace that
      all share.  [Cleanup]: the removal of old workspaces.
      [Prepare]: [workspace/prepare.go] over a file system with laws.  [Snapshot]: the file
      with a task's definition.

    The server:
    - [Auth]: [auth/auth.go].  [Config]: [config/config.go] and the authenticator that
      [main.go] makes of it.  [Http]: [httpapi/http.go] and [httpapi/auth.go], the routes and
      what they call.  [Boot]: the life of a process in [main.go] with [store/instance.go] and
      [store/migrate.go].

    ** The theorems

    - On every interleaving ([System]): approvals match the stages under review, dependencies
      come first, the log is contiguous, terminal rows are final and identities fixed, a stale
      run cannot commit, and stages follow the abstract life cycle.  [Store.WithTx_atomic] is the transaction
      contract they rest on.
    - The orchestrator refines that system, whatever the outside does between its accesses to
      the database; a stage is in flight at most once, and no stage that can run is left idle: after
      [Reconcile] there is a goroutine for it, or the task was failed.
    - A run of an agent follows a protocol and ends within its limit of turns; what it sends to
      the model is a conversation that the provider accepts; its tool calls open, list
      and write only what its agent may, and run nothing but its test command, and no two stages may touch the same one.
    - A workspace is an exact copy of the permitted files of its source; accepting, resetting
      and branching act on exactly the files of a stage or role, as long as no file of the one has
      the name of a directory of another's, so that each stage works as if
      it were alone there ([Isolation]); cleaning up spares what is known or recent; the
      publisher follows a protocol, opens no pull request twice even when requests fail, and
      publishes exactly what was approved.
    - No subscription loses an event silently, a connection is sent every event of its task
      once and in order, and a replay is exactly what was missed.
    - Of all processes on a database one works on it at a time, unless it has lost its session.
      A request without a valid token changes nothing and sees only the open routes, the
      documentation of the API among them; a session
      is worth what the login said.
    - Parsing accepts the valid pipelines only; levels are topological layers and exist exactly
      when there is no cycle; no valid pipeline gets stuck; the outcome of every decision and
      error is fixed; definitions survive their files; test output does not depend on how it is
      cut into chunks.

    ** Parameters, bounds and fuel

    Code that is not under [src/] is an interface, with what it documents as laws where a
    theorem needs them: [Platform] (UUIDs, the clock, the collation of the database, the text
    of a JSON value), [Unicode] (case mapping and printability), [Matchers] (globs, regular
    expressions of a search, splitting of command lines), [Machine] with [Git] (git), [Disk],
    [Host], [Files] with [Filesystem] and [FilesLaws] (the file system), [Api] (the providers'
    packages), [JWT] with [JWTLaws] (tokens), [Huma] with [HumaLaws] (decoding of requests and the
    documentation routes), [Transport] with [GitHubServer] (the hosting service, over the
    requests as they are sent) and the YAML decoders.  The laws of [Git] hold of paths and
    names that git itself produces; a file and a directory of one name exclude each other in
    them as they do in git.  Every law that a theorem uses is satisfied by the
    concrete instance of its witness.

    Integers are [Z] with Go's wrap-around ([int64]) or the column's range check ([in_int4],
    [in_int8]) where the code meets them.  [levels_loop] has fuel [length stages]: each round
    adds a stage, and [Levels_decides] shows that it never runs out.  [turns] has the limit of
    turns as fuel, which is the loop's own bound.  [drain] has the length of the pending bytes
    as fuel; every rune takes at least one.  The loops of a serving
    process ([watch], [recoveryLoop]) take the number of rounds in its life.  [walk] has any fuel from the depth of the tree
    on.  [replay] has any fuel above the number of
    batches of missed events in [Hub.replay_exact].

    ** Not modelled

    - The generated connection type of [store/sqlc/db.go]; what the driver, the migration tool
      and [errgroup] do inside; signals, metrics and log lines.
    - Concurrency is interleaving at the accesses to the database and the bus ([System], [Hub],
      [Scheduling]); within one run of a stage, one connection or one operation of the
      workspace, which holds a lock, actions come one after the other.
    - The documents of [encoding/json] are values; their text is a parameter.  The framework's
      checks of request fields, and what its documentation routes say, are its own.
    - A repository nested in a workspace, and the pruning of its own. *)
From stdpp Require Export base tactics option list strings gmap fin_maps sorting pretty.
From Stdlib Require Export ZArith Lia ZifyBool ZifyN ZifyNat.

(** ** Notations *)
Declare Scope devsquad_scope.
Delimit Scope devsquad_scope with ds.
(** [a == b] on Go strings, as a boolean that computes. *)
Notation "a =? b" := (String.eqb a b) : devsquad_scope.
Notation "a ≠? b" := (negb (String.eqb a b)) (at level 70) : devsquad_scope.
#[global] Open Scope devsquad_scope.

(** Case analysis on a test of two strings that occurs in the goal. *)
Ltac case_eqb :=
  match goal with
  | |- context [String.eqb ?a ?b] =>
      destruct (String.eqb_spec a b); try subst; simplify_eq/=
  end.

(** ** Errors

    The values of Go's [error] interface that the services build, wrap and tell
    apart.  [Fault] is [domain.Error] (its [Details] is always the empty object);
    the other constructors are the sentinel values and the wrapper types of the
    packages, and [ErrorText] is an error known only by its text. *)
Inductive error : Type :=
  | Fault (status : Z) (code message : string)
  | ErrStale
  | ErrNoRows
  | ErrBudgetExceeded
  | ErrCanceled
  | ErrBadPassword
  | ErrNoRemote
  | ErrNotExist (path : string)
  | ErrDB (constraint : string)
  | ErrorText (message : string)
  | CommitError (cause : error)
  | PublishError (cause : error)
  | ErrorWrap (prefix : string) (cause : error)
  | ErrorSuffix (cause : error) (suffix : string).

#[global] Instance error_eq_dec : EqDecision error.
Proof. solve_decision. Defined.

(** [e.Error()]. *)
Fixpoint error_text (e : error) : string :=
  match e with
  | Fault _ _ message => message
  | ErrStale => "stale stage attempt"
  | ErrNoRows => "no rows in result set"
  | ErrBudgetExceeded => "token budget exceeded"
  | ErrCanceled => "context canceled"
  | ErrBadPassword => "invalid password"
  | ErrNoRemote => "workspace has no remote repository"
  | ErrNotExist path => path +:+ ": no such file or directory"
  | ErrDB constraint => constraint
  | ErrorText message => message
  | CommitError e => "commit acknowledgement failed: " +:+ error_text e
  | PublishError e => error_text e
  | ErrorWrap prefix e => prefix +:+ ": " +:+ error_text e
  | ErrorSuffix e suffix => error_text e +:+ ": " +:+ suffix
  end.

(** The chain of [errors.Unwrap], outermost first. *)
Fixpoint error_chain (e : error) : list error :=
  e :: match e with
       | CommitError e | PublishError e | ErrorWrap _ e | ErrorSuffix e _ => error_chain e
       | _ => []
       end.

(** [errors.Is] against a sentinel value. *)
Definition errors_is (e target : error) : bool := bool_decide (target ∈ error_chain e).

Definition is_fault (e : error) : bool := if e is Fault _ _ _ then true else false.
(** [os.IsNotExist] *)
Definition is_not_exist (e : error) : bool := if e is ErrNotExist _ then true else false.
Definition is_commit_error (e : error) : bool := if e is CommitError _ then true else false.
Definition is_publish_error (e : error) : bool := if e is PublishError _ then true else false.

(** [errors.As]: the first error of the chain with the wanted dynamic type. *)
Definition errors_as (p : error → bool) (e : error) : option error :=
  snd <$> list_find (λ e, Is_true (p e)) (error_chain e).

(** ** Results and state passing *)
Inductive result (A : Type) : Type :=
  | Ok (a : A)
  | Err (e : error).
Arguments Ok {A} a.
Arguments Err {A} e.

#[global] Instance result_eq_dec `{EqDecision A} : EqDecision (result A).
Proof. solve_decision. Defined.

#[global] Instance result_ret : MRet result := @Ok.
#[global] Instance result_bind : MBind result :=
  λ A B f r, match r with Ok a => f a | Err e => Err e end.

#[global] Instance result_fmap : FMap result :=
  λ A B f r, match r with Ok a => Ok (f a) | Err e => Err e end.

Definition is_ok {A} (r : result A) : bool := if r is Ok _ then true else false.
Definition result_of_option {A} (e : error) (o : option A) : result A :=
  match o with Some a => Ok a | None => Err e end.

(** A computation over a state [S] that returns a value or an error; an error
    drops the state, which is how a transaction rolls back. *)
Definition state (S A : Type) : Type := S → result (A * S).

#[global] Instance state_ret {S} : MRet (state S) := λ A a σ, Ok (a, σ).
#[global] Instance state_bind {S} : MBind (state S) :=
  λ A B f m σ, match m σ with Ok (a, σ) => f a σ | Err e => Err e end.

Section state.
Context {S : Type}.
Definition fail {A} (e : error) : state S A := λ _, Err e.
Definition lift {A} (r : result A) : state S A :=
  λ σ, match r with Ok a => Ok (a, σ) | Err e => Err e end.
Definition get : state S S := λ σ, Ok (σ, σ).
Definition put (σ : S) : state S unit := λ _, Ok (tt, σ).
Definition modify (f : S → S) : state S unit := λ σ, Ok (tt, f σ).

(** [for _, x := range xs { if e := f(x); e != nil { return e } }] *)
Fixpoint for_each {A} (f : A → state S unit) (xs : list A) : state S unit :=
  match xs with
  | [] => mret tt
  | x :: xs => f x;; for_each f xs
  end.
End state.

(** ** Inversion of successful runs *)
Lemma bind_ok {S A B} (m : state S A) (f : A → state S B) σ b σ' :
  (m ≫= f) σ = Ok (b, σ') → ∃ a σ1, m σ = Ok (a, σ1) ∧ f a σ1 = Ok (b, σ').
Proof. unfold mbind, state_bind. destruct (m σ) as [[a σ1]|e]; naive_solver. Qed.

Lemma ret_ok {S A} (a : A) (σ : S) b σ' : mret (M:=state S) a σ = Ok (b, σ') → b = a ∧ σ' = σ.
Proof. by intros [= -> ->]. Qed.

Lemma lift_ok {S A} (r : result A) (σ : S) b σ' : lift r σ = Ok (b, σ') → r = Ok b ∧ σ' = σ.
Proof. unfold lift. destruct r; naive_solver. Qed.

Lemma get_ok {S} (σ σ' b : S) : get σ = Ok (b, σ') → b = σ ∧ σ' = σ.
Proof. by intros [= -> ->]. Qed.

Lemma modify_ok {S} (f : S → S) (σ σ' : S) b : modify f σ = Ok (b, σ') → σ' = f σ.
Proof. by intros [= <- <-]. Qed.

Lemma result_bind_ok {A B} (r : result A) (f : A → result B) b :
  r ≫= f = Ok b → ∃ a, r = Ok a ∧ f a = Ok b.
Proof. destruct r; [by eauto | done]. Qed.

Lemma result_of_option_ok {A} e (o : option A) a :
  result_of_option e o = Ok a → o = Some a.
Proof. destruct o; naive_solver. Qed.

Lemma bind_run {S A B} (m : state S A) (f : A → state S B) σ a σ1 :
  m σ = Ok (a, σ1) → (m ≫= f) σ = f a σ1.
Proof. unfold mbind, state_bind. by intros ->. Qed.

Lemma bind_err {S A B} (m : state S A) (f : A → state S B) σ e :
  m σ = Err e → (m ≫= f) σ = Err e.
Proof. unfold mbind, state_bind. by intros ->. Qed.

(** One step of symbolic execution of a hypothesis [m σ = Ok (a, σ')]. *)
Ltac inv_step :=
  match goal with
  | H : (_ ≫= _) _ = Ok (_, _) |- _ =>
      let H' := fresh H in apply bind_ok in H as (?&?&H'&H); cbn beta in H
  | H : mret _ _ = Ok (_, _) |- _ => apply ret_ok in H as [??]; subst
  | H : lift _ _ = Ok (_, _) |- _ => apply lift_ok in H as [H ?]; subst
  | H : get _ = Ok (_, _) |- _ => apply get_ok in H as [??]; subst
  | H : modify _ _ = Ok (_, _) |- _ => apply modify_ok in H; subst
  | H : fail _ _ = Ok (_, _) |- _ => discriminate H
  | H : Err _ = Ok _ |- _ => discriminate H
  | H : Ok _ = Ok _ |- _ => injection H as ?; subst
  | H : result_of_option _ _ = Ok _ |- _ => apply result_of_option_ok in H
  | H : (if decide ?P then _ else _) _ = Ok (_, _) |- _ => destruct (decide P)
  | H : (if decide ?P then _ else _) = Ok _ |- _ => destruct (decide P)
  | H : (if ?a =? ?b then _ else _) _ = Ok (_, _) |- _ => destruct (String.eqb_spec a b)
  | H : (if ?a =? ?b then _ else _) = Ok _ |- _ => destruct (String.eqb_spec a b)
  | H : (if ?b then _ else _) _ = Ok (_, _) |- _ => destruct b eqn:?
  | H : (match ?x with _ => _ end) _ = Ok (_, _) |- _ => destruct x eqn:?
  | H : (match ?x with _ => _ end) = Ok _ |- _ => destruct x eqn:?
  end.
Ltac inv_run := repeat inv_step.

(** ** Computations that move the state along a preorder

    [follows R m]: every successful run of [m] relates its initial and final
    state by [R].  With [R σ σ' := I σ → I σ'] it says that [m] keeps the
    invariant [I]; with an order it says that [m] only moves the state up. *)
Definition follows {S A} (R : relation S) (m : state S A) : Prop :=
  ∀ σ a σ', m σ = Ok (a, σ') → R σ σ'.
Definition keeps {S} (I : S → Prop) : relation S := λ σ σ', I σ → I σ'.
Abbreviation preserves I m := (follows (keeps I) m).

#[export] Instance keeps_preorder {S} (I : S → Prop) : PreOrder (keeps I).
Proof. unfold keeps. split; [by intros ?? | intros ?????; tauto]. Qed.

Create HintDb follows.
Section follows.
Context {S : Type} (R : relation S) `{!PreOrder R}.

Lemma follows_ret {A} (a : A) : follows R (mret (M:=state S) a).
Proof. intros σ b σ' [-> ->]%ret_ok. reflexivity. Qed.
Lemma follows_fail {A} e : follows R (fail (A:=A) e).
Proof. by intros σ b σ'. Qed.
Lemma follows_lift {A} (r : result A) : follows R (lift r).
Proof. intros σ b σ' [? ->]%lift_ok. reflexivity. Qed.
Lemma follows_get : follows R get.
Proof. intros σ b σ' [? ->]%get_ok. reflexivity. Qed.
Lemma follows_bind {A B} (m : state S A) (f : A → state S B) :
  follows R m → (∀ a, follows R (f a)) → follows R (m ≫= f).
Proof.
  intros Hm Hf σ b σ' (a & σ1 & H1 & H2)%bind_ok.
  transitivity σ1; [by eapply Hm | by eapply Hf].
Qed.
(** Descending below a pure result remembers it. *)
Lemma follows_bind_lift {A B} (r : result A) (f : A → state S B) :
  (∀ a, r = Ok a → follows R (f a)) → follows R (lift r ≫= f).
Proof.
  intros Hf σ b σ' (a & σ1 & [-> ->]%lift_ok & H2)%bind_ok. by eapply Hf.
Qed.
Lemma follows_for_each {A} (f : A → state S unit) xs :
  (∀ x, follows R (f x)) → follows R (for_each f xs).
Proof.
  intros Hf. induction xs as [|x xs IH]; simpl; [apply follows_ret|].
  apply follows_bind; [apply Hf | by intros _].
Qed.
Lemma follows_modify (f : S → S) : (∀ σ, R σ (f σ)) → follows R (modify f).
Proof. intros Hf σ b σ' ->%modify_ok. apply Hf. Qed.
End follows.

Lemma follows_run {S A} (R : relation S) (m : state S A) σ a σ' :
  m σ = Ok (a, σ') → follows R m → R σ σ'.
Proof. intros H Hm. by eapply Hm. Qed.
Lemma follows_weaken {S A} (R R' : relation S) (m : state S A) :
  (∀ σ σ', R σ σ' → R' σ σ') → follows R m → follows R' m.
Proof. intros HR Hm σ a σ' H. by eapply HR, Hm. Qed.

Lemma follows_preserves {S A} (R : relation S) (I : S → Prop) (m : state S A) :
  (∀ σ σ', R σ σ' → I σ → I σ') → follows R m → preserves I m.
Proof. intros HR. by apply follows_weaken. Qed.

#[export] Hint Resolve follows_ret follows_fail follows_lift follows_get : follows.

(** Descend through binds, loops and branches; the leaves go to the database. *)
Ltac solve_follows :=
  repeat first
    [ solve [eauto with follows typeclass_instances]
    | apply follows_bind_lift; [intros ? ?]
    | apply follows_bind; [exact _ | | intros ?]
    | apply follows_for_each; [exact _ | intros ?]
    | case_decide
    | case_match ].

(** ** Effects that survive an error

    Outside transactions an error does not undo anything: a computation returns
    its result, good or bad, and the state it reached. *)
Definition io (S A : Type) : Type := S → result A * S.

#[global] Instance io_ret {S} : MRet (io S) := λ A a σ, (Ok a, σ).
#[global] Instance io_bind {S} : MBind (io S) :=
  λ A B f m σ, match m σ with (Ok a, σ) => f a σ | (Err e, σ) => (Err e, σ) end.

Section io.
Context {S : Type}.
Definition raise {A} (e : error) : io S A := λ σ, (Err e, σ).
Definition give {A} (r : result A) : io S A := λ σ, (r, σ).
(** The result of a computation as a value, for code that looks at the error. *)
Definition attempt {A} (m : io S A) : io S (result A) := λ σ, let '(r, σ) := m σ in (Ok r, σ).
(** [for _, x := range xs { if e := f(x); e != nil { return e } }] *)
Fixpoint each {A} (f : A → io S unit) (xs : list A) : io S unit :=
  match xs with
  | [] => mret tt
  | x :: xs => f x;; each f xs
  end.
(** The same with a value carried from one iteration to the next. *)
Fixpoint each_fold {A B} (f : B → A → io S B) (b : B) (xs : list A) : io S B :=
  match xs with
  | [] => mret b
  | x :: xs => b ← f b x; each_fold f b xs
  end.
End io.

(** [conducts R m]: every run of [m], failed ones included, relates its initial
    and final state by [R]. *)
Definition conducts {S A} (R : relation S) (m : io S A) : Prop :=
  ∀ σ r σ', m σ = (r, σ') → R σ σ'.

Create HintDb conducts.
Section conducts.
Context {S : Type} (R : relation S) `{!PreOrder R}.

Lemma conducts_ret {A} (a : A) : conducts R (mret (M:=io S) a).
Proof. intros σ r σ' [= _ <-]. reflexivity. Qed.
Lemma conducts_raise {A} e : conducts R (raise (A:=A) e).
Proof. intros σ r σ' [= _ <-]. reflexivity. Qed.
Lemma conducts_give {A} (r : result A) : conducts R (give r).
Proof. intros σ r' σ' [= _ <-]. reflexivity. Qed.
Lemma conducts_bind {A B} (m : io S A) (f : A → io S B) :
  conducts R m → (∀ a, conducts R (f a)) → conducts R (m ≫= f).
Proof.
  intros Hm Hf σ r σ'. unfold mbind, io_bind.
  destruct (m σ) as [[a|e] σ1] eqn:E; intros H.
  - transitivity σ1; [by eapply Hm | by eapply Hf].
  - injection H as _ <-. by eapply Hm.
Qed.
Lemma conducts_attempt {A} (m : io S A) : conducts R m → conducts R (attempt m).
Proof.
  intros Hm σ r σ'. unfold attempt. destruct (m σ) as [r1 σ1] eqn:E. intros [= _ <-].
  by eapply Hm.
Qed.
Lemma conducts_each {A} (f : A → io S unit) xs :
  (∀ x, conducts R (f x)) → conducts R (each f xs).
Proof.
  intros Hf. induction xs as [|x xs IH]; simpl; [apply conducts_ret|].
  apply conducts_bind; [apply Hf | by intros _].
Qed.
Lemma conducts_each_fold {A B} (f : B → A → io S B) xs b :
  (∀ b x, conducts R (f b x)) → conducts R (each_fold f b xs).
Proof.
  intros Hf. revert b. induction xs as [|x xs IH]; intros b; simpl; [apply conducts_ret|].
  apply conducts_bind; [apply Hf | apply IH].
Qed.
End conducts.
#[export] Hint Resolve conducts_ret conducts_raise conducts_give : conducts.

Ltac solve_conducts :=
  repeat first
    [ solve [eauto with conducts typeclass_instances]
    | apply conducts_bind; [exact _ | | intros ?]
    | apply conducts_attempt
    | apply conducts_each; [exact _ | intros ?]
    | apply conducts_each_fold; [exact _ | intros ? ?]
    | case_decide
    | case_match ].

(** Under a condition that the relation keeps. *)
Definition under {S} (P : S → Prop) (R : relation S) : relation S := λ σ σ', P σ → R σ σ' ∧ P σ'.
#[export] Instance under_preorder {S} (P : S → Prop) (R : relation S) `{!PreOrder R} :
  PreOrder (under P R).
Proof.
  split; [by intros σ HP|]. intros σ1 σ2 σ3 H12 H23 HP.
  destruct (H12 HP) as [H1 HP2], (H23 HP2). split; [by etransitivity|done].
Qed.
Lemma conducts_under {S A} (P : S → Prop) R (m : io S A) :
  (∀ σ σ', P σ → R σ σ' → P σ') → conducts R m → conducts (under P R) m.
Proof. intros HP Hm σ r σ' H Hσ. pose proof (Hm _ _ _ H). eauto. Qed.
Lemma conducts_given {S A} (P : S → Prop) R (m : io S A) :
  (∀ σ, P σ) → conducts (under P R) m → conducts R m.
Proof. intros HP Hm σ r σ' H. by apply (Hm _ _ _ H). Qed.
Lemma conducts_weaken {S A} (P P' : S → Prop) R (m : io S A) :
  (∀ σ, P σ → P' σ) → (∀ σ σ', P σ → R σ σ' → P σ') → conducts (under P' R) m →
  conducts (under P R) m.
Proof. intros HP HR Hm σ r σ' H Hσ. destruct (Hm _ _ _ H (HP _ Hσ)). eauto. Qed.
Lemma conducts_under2 {S A} (P Q : S → Prop) R (m : io S A) :
  (∀ σ σ', P σ → R σ σ' → P σ') → conducts (under Q R) m → conducts (under Q (under P R)) m.
Proof. intros HP Hm σ r σ' H Hq. destruct (Hm _ _ _ H Hq). split; [intros Hp; eauto|done]. Qed.
Lemma conducts_each_in {S A} (R : relation S) `{!PreOrder R} (f : A → io S unit) xs :
  (∀ x, x ∈ xs → conducts R (f x)) → conducts R (each f xs).
Proof.
  induction xs as [|x xs IH]; intros Hf; simpl; [by apply conducts_ret|].
  apply conducts_bind; [exact _|apply Hf, list_elem_of_here|intros _].
  apply IH. intros y Hy. apply Hf. by apply list_elem_of_further.
Qed.
(** A fact about the value and the state that the rest of a computation starts from. *)
Lemma conducts_bind_post {S A B} (R : relation S) `{!PreOrder R} (Q : A → S → Prop)
    (m : io S A) (f : A → io S B) :
  conducts R m → (∀ σ a σ', m σ = (Ok a, σ') → Q a σ') →
  (∀ a, conducts (under (Q a) R) (f a)) → conducts R (m ≫= f).
Proof.
  intros Hm HQ Hf σ r σ'. unfold mbind, io_bind.
  destruct (m σ) as [[a|e] σ1] eqn:E; intros H.
  - transitivity σ1; [by eapply Hm|]. by eapply Hf, HQ.
  - injection H as _ <-. by eapply Hm.
Qed.

(** [fails_in F m]: every error of [m] is in [F]. *)
Definition fails_in {S A} (F : error → Prop) (m : io S A) : Prop :=
  ∀ σ e σ', m σ = (Err e, σ') → F e.
Create HintDb fails_in.
Section fails_in.
Context {S : Type} (F : error → Prop).
Lemma fails_ret {A} (a : A) : fails_in F (mret (M:=io S) a).
Proof. by intros σ e σ'. Qed.
Lemma fails_raise {A} e : F e → fails_in F (raise (S:=S) (A:=A) e).
Proof. by intros He σ e' σ' [= <- _]. Qed.
Lemma fails_give {A} (r : result A) : (∀ e, r = Err e → F e) → fails_in F (give (S:=S) r).
Proof. intros Hr σ e σ' [= E _]. by apply Hr. Qed.
Lemma fails_bind {A B} (m : io S A) (f : A → io S B) :
  fails_in F m → (∀ a, fails_in F (f a)) → fails_in F (m ≫= f).
Proof.
  intros Hm Hf σ e σ'. unfold mbind, io_bind.
  destruct (m σ) as [[a|e'] σ1] eqn:E; [by apply Hf|]. intros [= <- _]. by eapply Hm.
Qed.
Lemma fails_attempt {A} (m : io S A) : fails_in F (attempt m).
Proof. intros σ e σ'. unfold attempt. by destruct (m σ). Qed.
Lemma fails_each {A} (f : A → io S unit) xs : (∀ x, fails_in F (f x)) → fails_in F (each f xs).
Proof.
  intros Hf. induction xs as [|x xs IH]; simpl; [apply fails_ret|].
  by apply fails_bind; [apply Hf|intros u].
Qed.
Lemma fails_each_fold {A B} (f : B → A → io S B) xs b :
  (∀ b x, fails_in F (f b x)) → fails_in F (each_fold f b xs).
Proof.
  intros Hf. revert b. induction xs as [|x xs IH]; intros b; simpl; [apply fails_ret|].
  apply fails_bind; [apply Hf|apply IH].
Qed.
End fails_in.
#[export] Hint Resolve fails_ret fails_attempt : fails_in.

Ltac solve_fails :=
  repeat first
    [ solve [eauto with fails_in typeclass_instances]
    | apply fails_bind; [|intros ?]
    | apply fails_each; intros ?
    | apply fails_each_fold; intros ? ?
    | case_decide
    | case_match ].

(** Inversion of a successful run. *)
Lemma io_bind_ok {S A B} (m : io S A) (f : A → io S B) σ b σ' :
  (m ≫= f) σ = (Ok b, σ') → ∃ a σ1, m σ = (Ok a, σ1) ∧ f a σ1 = (Ok b, σ').
Proof. unfold mbind, io_bind. destruct (m σ) as [[a|e] σ1]; naive_solver. Qed.
Lemma io_bind_run {S A B} (m : io S A) (f : A → io S B) σ a σ1 :
  m σ = (Ok a, σ1) → (m ≫= f) σ = f a σ1.
Proof. unfold mbind, io_bind. by intros ->. Qed.
Lemma io_bind_err {S A B} (m : io S A) (f : A → io S B) σ e σ1 :
  m σ = (Err e, σ1) → (m ≫= f) σ = (Err e, σ1).
Proof. unfold mbind, io_bind. by intros ->. Qed.

(** [triple P m Q E]: from a state in [P], [m] either returns a value and a state in
    [Q] or fails with an error and a state in [E]. *)
Definition triple {S A} (P : S → Prop) (m : io S A) (Q : A → S → Prop)
    (E : error → S → Prop) : Prop :=
  ∀ σ r σ', P σ → m σ = (r, σ') → match r with Ok a => Q a σ' | Err e => E e σ' end.

Section triples.
Context {S : Type}.
Implicit Types (P : S → Prop) (E : error → S → Prop).
Lemma triple_ret {A} (a : A) Q E : triple (Q a) (mret (M:=io S) a) Q E.
Proof. by intros σ r σ' HP [= <- <-]. Qed.
Lemma triple_raise {A} e (Q : A → S → Prop) E : triple (E e) (raise e) Q E.
Proof. by intros σ r σ' HP [= <- <-]. Qed.
Lemma triple_give {A} (r : result A) P E :
  triple (λ σ, P σ ∧ ∀ e, E e σ) (give r) (λ a σ, r = Ok a ∧ P σ) E.
Proof. intros σ r' σ' [HP HE] [= <- <-]. destruct r; [done|apply HE]. Qed.
Lemma triple_bind {A B} (m : io S A) (f : A → io S B) P M Q E :
  triple P m M E → (∀ a, triple (M a) (f a) Q E) → triple P (m ≫= f) Q E.
Proof.
  intros Hm Hf σ r σ' HP. unfold mbind, io_bind.
  destruct (m σ) as [[a|e] σ1] eqn:H1; intros H.
  - eapply Hf; [|exact H]. exact (Hm _ _ _ HP H1).
  - injection H as <- <-. exact (Hm _ _ _ HP H1).
Qed.
Lemma triple_attempt {A} (m : io S A) P Q E E' :
  triple P m Q E → triple P (attempt m) (λ r σ, match r with Ok a => Q a σ | Err e => E e σ end) E'.
Proof.
  intros Hm σ r σ' HP. unfold attempt. destruct (m σ) as [r1 σ1] eqn:H1. intros [= <- <-].
  exact (Hm _ _ _ HP H1).
Qed.
Lemma triple_conseq {A} (m : io S A) (P P' : S → Prop) (Q Q' : A → S → Prop) (E E' : error → S → Prop) :
  triple P m Q E → (∀ σ, P' σ → P σ) → (∀ a σ, Q a σ → Q' a σ) → (∀ e σ, E e σ → E' e σ) →
  triple P' m Q' E'.
Proof.
  intros Hm HP HQ HE σ r σ' HP' H. pose proof (Hm _ _ _ (HP _ HP') H) as Hr.
  destruct r; auto.
Qed.
Lemma triple_from {A} (m : io S A) (P P' : S → Prop) (Q : A → S → Prop) E :
  (∀ σ, P' σ → P σ) → triple P m Q E → triple P' m Q E.
Proof. intros HP Hm. by eapply triple_conseq. Qed.
Lemma triple_done {A} (a : A) P (Q : A → S → Prop) E :
  (∀ σ, P σ → Q a σ) → triple P (mret (M:=io S) a) Q E.
Proof. intros HP. eapply triple_from; [exact HP|apply triple_ret]. Qed.
Lemma triple_pre {A} (m : io S A) (φ : Prop) P Q E :
  (φ → triple P m Q E) → triple (λ σ, φ ∧ P σ) m Q E.
Proof. intros Hm σ r σ' [Hφ HP]. by apply Hm. Qed.
Lemma triple_each_fold {A B} (f : B → A → io S B) (I : B → S → Prop) E xs b :
  (∀ b x, x ∈ xs → triple (I b) (f b x) I E) → triple (I b) (each_fold f b xs) I E.
Proof.
  revert b. induction xs as [|x xs IH]; intros b Hf; simpl; [apply triple_ret|].
  eapply triple_bind; [apply Hf, list_elem_of_here|]. intros b'. apply IH.
  intros b1 y Hy. apply Hf. by apply list_elem_of_further.
Qed.
End triples.

(** ** Integers at their width *)
Definition wrap (w z : Z) : Z := (z + 2 ^ (w - 1)) `mod` 2 ^ w - 2 ^ (w - 1).
(** Go's [int] and [int64] on the supported platforms. *)
Definition int64 (z : Z) : Z := wrap 64 z.
(** PostgreSQL's [integer] and [bigint] refuse a value out of range. *)
Definition in_int4 (z : Z) : Prop := (-2 ^ 31 ≤ z < 2 ^ 31)%Z.
Definition in_int8 (z : Z) : Prop := (-2 ^ 63 ≤ z < 2 ^ 63)%Z.
#[export] Instance in_int4_dec z : Decision (in_int4 z).
Proof. unfold in_int4. apply _. Defined.
#[export] Instance in_int8_dec z : Decision (in_int8 z).
Proof. unfold in_int8. apply _. Defined.

Arguments wrap : simpl never.
Arguments int64 : simpl never.

Lemma int64_id z : in_int8 z → int64 z = z.
Proof. unfold in_int8, int64, wrap. intros. rewrite Z.mod_small; simpl; lia. Qed.
Lemma int64_range z : in_int8 (int64 z).
Proof.
  unfold in_int8, int64, wrap.
  pose proof (Z.mod_pos_bound (z + 2 ^ (64 - 1)) (2 ^ 64) ltac:(done)).
  change (64 - 1)%Z with 63%Z in *. lia.
Qed.
Lemma int4_int8 z : in_int4 z → in_int8 z.
Proof. unfold in_int4, in_int8. lia. Qed.
#[export] Hint Resolve int64_range int4_int8 : core.

(** ** JSON documents

    An object is its members in the order the source writes them; numbers are
    the integers the services put there. *)
#[local] Unset Elimination Schemes.
Inductive json : Type :=
  | JNull
  | JBool (b : bool)
  | JNum (n : Z)
  | JStr (s : string)
  | JArr (elements : list json)
  | JObj (members : list (string * json)).
#[local] Set Elimination Schemes.

#[global] Instance json_eq_dec : EqDecision json.
Proof.
  refine (fix go a b := let _ : EqDecision _ := @go in
    match a, b with
    | JNull, JNull => left _
    | JBool x, JBool y => cast_if (decide (x = y))
    | JNum x, JNum y => cast_if (decide (x = y))
    | JStr x, JStr y => cast_if (decide (x = y))
    | JArr x, JArr y => cast_if (decide (x = y))
    | JObj x, JObj y => cast_if (decide (x = y))
    | _, _ => right _
    end); congruence.
Defined.
Definition json_field (key : string) (j : json) : option json :=
  match j with
  | JObj members => (λ m, m.2.2) <$> list_find (λ m, m.1 = key) members
  | _ => None
  end.
Definition json_string (j : json) : option string := if j is JStr s then Some s else None.
Definition json_num (j : json) : option Z := if j is JNum n then Some n else None.
Definition JOpt (s : option string) : json := if s is Some s then JStr s else JNull.
Definition JStrs (l : list string) : json := JArr (JStr <$> l).

(** ** Slices

    A nil slice is [None], so that the code's [s == nil] tests read as written. *)
Definition elems {A} (s : option (list A)) : list A := default [] s.

(** ** Lists *)
Lemma NoDup_fmap_inj {A B} (f : A → B) (l : list A) x y :
  NoDup (f <$> l) → x ∈ l → y ∈ l → f x = f y → x = y.
Proof.
  induction l as [|z l IH]; [by intros _ ?%elem_of_nil|].
  rewrite fmap_cons, NoDup_cons, !elem_of_cons. intros [Hz Hn] Hx Hy Hxy.
  destruct Hx as [->|Hx], Hy as [->|Hy]; [done| | |by apply IH].
  - destruct Hz. rewrite Hxy. by apply list_elem_of_fmap_2.
  - destruct Hz. rewrite <- Hxy. by apply list_elem_of_fmap_2.
Qed.

Lemma existsb_elem {A} (f : A → bool) l : existsb f l = true ↔ ∃ x, x ∈ l ∧ f x = true.
Proof. rewrite existsb_exists. by setoid_rewrite list_elem_of_In. Qed.
Lemma forallb_elem {A} (f : A → bool) l : forallb f l = true ↔ ∀ x, x ∈ l → f x = true.
Proof. rewrite forallb_forall. by setoid_rewrite list_elem_of_In. Qed.

Lemma existsb_false_elem {A} (f : A → bool) l : existsb f l = false → ∀ x, x ∈ l → f x = false.
Proof.
  intros Hf x Hx. apply not_true_iff_false. intros Ht. apply not_true_iff_false in Hf.
  apply Hf, existsb_elem. by exists x.
Qed.

Lemma elem_of_concat {A} (ls : list (list A)) (x : A) : x ∈ concat ls ↔ ∃ l, l ∈ ls ∧ x ∈ l.
Proof. rewrite list_elem_of_In, in_concat. by setoid_rewrite <- list_elem_of_In. Qed.

Lemma filter_none {A} (P : A → Prop) `{!∀ x, Decision (P x)} (l : list A) :
  (∀ x, x ∈ l → ¬ P x) → filter P l = [].
Proof.
  induction l as [|x l IH]; intros Hl; [done|]. rewrite filter_cons, decide_False by set_solver.
  apply IH. set_solver.
Qed.
Lemma filter_all {A} (P : A → Prop) `{!∀ x, Decision (P x)} (l : list A) :
  (∀ x, x ∈ l → P x) → filter P l = l.
Proof.
  induction l as [|x l IH]; intros Hl; [done|]. rewrite filter_cons, decide_True by set_solver.
  f_equal. apply IH. set_solver.
Qed.
(** Two orderings of distinct keys that agree on the keys agree. *)
Lemma perm_fmap_eq {A B} (f : A → B) (l k : list A) :
  l ≡ₚ k → NoDup (f <$> k) → f <$> l = f <$> k → l = k.
Proof.
  intros Hp Hn Hf. apply list_eq_same_length with (length k); [done|by rewrite Hp|].
  intros i x y _ Hx Hy. apply (NoDup_fmap_inj f k); try done.
  - rewrite <- Hp. by eapply list_elem_of_lookup_2.
  - by eapply list_elem_of_lookup_2.
  - assert ((f <$> l) !! i = (f <$> k) !! i) as E by by rewrite Hf.
    rewrite !list_lookup_fmap, Hx, Hy in E. by injection E.
Qed.

(** Closed membership and distinctness goals on lists of strings. *)
Ltac solve_elem := cbn; repeat (rewrite elem_of_cons); intuition (reflexivity || discriminate).
Ltac solve_nodup :=
  cbn; repeat (apply NoDup_cons; split;
    [rewrite ?not_elem_of_cons; split_and?; try discriminate; apply not_elem_of_nil|]);
  apply NoDup_nil_2.
