(* ===== verification/GoStrings.v ===== *)
(** * The operations of Go's [strings], [unicode/utf8] and [fmt] the services use

    A Go string is a sequence of bytes, here Rocq's [string]; a rune is a code
    point in [N].  Decoding follows [utf8.DecodeRune]: an invalid or truncated
    sequence is one byte wide and decodes to U+FFFD. *)
From S2P Require Import Prelude.

Abbreviation byte_of c := (Ascii.N_of_ascii c).
Abbreviation chr n := (Ascii.ascii_of_N n).

(** ** Runes *)
Definition rune_error : N := 65533.
Definition cont (lo hi : N) (c : Ascii.ascii) : bool :=
  ((lo <=? byte_of c) && (byte_of c <=? hi))%N.
Definition low6 (c : Ascii.ascii) : N := (byte_of c `mod` 64)%N.

(** The range of the second byte that [utf8.acceptRanges] allows after [b0]. *)
Definition second_range (b0 : N) : N * N :=
  if (b0 =? 224)%N then (160, 191)%N else
  if (b0 =? 237)%N then (128, 159)%N else
  if (b0 =? 240)%N then (144, 191)%N else
  if (b0 =? 244)%N then (128, 143)%N else (128, 191)%N.

(** [utf8.DecodeRune]: the first rune and its width in bytes. *)
Definition decode_rune (s : string) : N * nat :=
  match s with
  | EmptyString => (rune_error, 0%nat)
  | String c0 s1 =>
    let b0 := byte_of c0 in
    let '(lo, hi) := second_range b0 in
    if (b0 <? 128)%N then (b0, 1%nat) else
    match s1 with
    | String c1 s2 =>
      if negb (cont lo hi c1) then (rune_error, 1%nat) else
      if ((194 <=? b0) && (b0 <? 224))%N then ((b0 - 192) * 64 + low6 c1, 2%nat)%N else
      match s2 with
      | String c2 s3 =>
        if negb (cont 128 191 c2) then (rune_error, 1%nat) else
        if ((224 <=? b0) && (b0 <? 240))%N then
          ((b0 - 224) * 4096 + low6 c1 * 64 + low6 c2, 3%nat)%N else
        match s3 with
        | String c3 _ =>
          if (cont 128 191 c3 && (240 <=? b0) && (b0 <=? 244))%N then
            ((b0 - 240) * 262144 + low6 c1 * 4096 + low6 c2 * 64 + low6 c3, 4%nat)%N
          else (rune_error, 1%nat)
        | _ => (rune_error, 1%nat)
        end
      | _ => (rune_error, 1%nat)
      end
    | _ => (rune_error, 1%nat)
    end
  end.

(** [[]rune(s)]: [skip] counts the bytes of the current rune still to pass. *)
Fixpoint runes_from (skip : nat) (s : string) : list N :=
  match s, skip with
  | EmptyString, _ => []
  | String _ s', S skip => runes_from skip s'
  | String _ s', O => let '(r, n) := decode_rune s in r :: runes_from (pred n) s'
  end.
Definition runes (s : string) : list N := runes_from 0 s.

(** Scalar values: what UTF-8 can encode. *)
Definition valid_rune (r : N) : bool :=
  ((r <? 55296) || ((57344 <=? r) && (r <? 1114112)))%N.

(** [utf8.AppendRune]: an invalid code point is written as U+FFFD. *)
Definition encode_rune (r : N) : string :=
  let r := if valid_rune r then r else rune_error in
  let tail k := chr (128 + (r / 64 ^ k) `mod` 64)%N in
  if (r <? 128)%N then String (chr r) EmptyString else
  if (r <? 2048)%N then String (chr (192 + r / 64)) (String (tail 0%N) EmptyString) else
  if (r <? 65536)%N then
    String (chr (224 + r / 4096)) (String (tail 1%N) (String (tail 0%N) EmptyString))
  else
    String (chr (240 + r / 262144))
      (String (tail 2%N) (String (tail 1%N) (String (tail 0%N) EmptyString))).

(** [string(rs)]. *)
Fixpoint of_runes (rs : list N) : string :=
  match rs with [] => "" | r :: rs => encode_rune r +:+ of_runes rs end.

Example runes_hangul : runes "승인 ok" = [49849; 51064; 32; 111; 107]%N.
Proof. vm_compute. reflexivity. Qed.
Example runes_invalid : runes (String (chr 237) (String (chr 160) "a")) = [65533; 65533; 97]%N.
Proof. vm_compute. reflexivity. Qed.

(** ** Searching and splitting *)
Definition HasPrefix (s p : string) : bool := String.prefix p s.
Definition Index (s sub : string) : option nat := String.index 0 sub s.
Definition Contains (s sub : string) : bool := if Index s sub is Some _ then true else false.
Definition drop_string (n : nat) (s : string) : string := String.substring n (String.length s - n) s.
Definition take_string (n : nat) (s : string) : string := String.substring 0 n s.

(** [strings.Cut] *)
Definition Cut (s sep : string) : option (string * string) :=
  (λ i, (take_string i s, drop_string (i + String.length sep) s)) <$> Index s sep.
Definition CutPrefix (s p : string) : option string :=
  if HasPrefix s p then Some (drop_string (String.length p) s) else None.

(** [strings.Split(s, sep)] for a separator of one byte. *)
Fixpoint Split (c : Ascii.ascii) (s : string) : list string :=
  match s with
  | EmptyString => [""]
  | String a s =>
    if decide (a = c) then "" :: Split c s
    else match Split c s with
         | p :: ps => String a p :: ps
         | [] => [String a ""]
         end
  end.

(** [strings.SplitN(s, sep, n)] for [n > 0]. *)
Fixpoint SplitN (s sep : string) (n : nat) : list string :=
  match n with
  | O => []
  | 1%nat => [s]
  | S n => match Cut s sep with
           | Some (a, b) => a :: SplitN b sep n
           | None => [s]
           end
  end.

(** [strings.Join] *)
Fixpoint Join (sep : string) (l : list string) : string :=
  match l with
  | [] => ""
  | [x] => x
  | x :: l => x +:+ sep +:+ Join sep l
  end.

(** [strings.ReplaceAll(s, old, new)] for an [old] of one byte. *)
Fixpoint ReplaceAll (old : Ascii.ascii) (new s : string) : string :=
  match s with
  | EmptyString => ""
  | String a s =>
    if decide (a = old) then new +:+ ReplaceAll old new s
    else String a (ReplaceAll old new s)
  end.

(** ** Trimming *)
Fixpoint strip_prefixes (fuel : nat) (ps : list string) (s : string) : string :=
  match fuel with
  | O => s
  | S fuel =>
    match list_find (λ p, Is_true (HasPrefix s p)) ps with
    | Some (_, p) => strip_prefixes fuel ps (drop_string (String.length p) s)
    | None => s
    end
  end.
Definition trim_left (ps : list string) (s : string) : string :=
  strip_prefixes (String.length s) ps s.
Definition trim_right (ps : list string) (s : string) : string :=
  String.rev (trim_left (String.rev <$> ps) (String.rev s)).

(** The encodings of the code points [unicode.IsSpace] accepts. *)
Definition spaces : list string :=
  encode_rune <$> [9; 10; 11; 12; 13; 32; 133; 160; 5760; 8192; 8193; 8194; 8195; 8196;
    8197; 8198; 8199; 8200; 8201; 8202; 8232; 8233; 8239; 8287; 12288]%N.
Definition TrimSpace (s : string) : string := trim_right spaces (trim_left spaces s).
Definition TrimRight (s cutset_byte : string) : string := trim_right [cutset_byte] s.
Definition Trim (s cutset_byte : string) : string :=
  trim_right [cutset_byte] (trim_left [cutset_byte] s).

Example TrimSpace_ex : TrimSpace "  승인 
 " = "승인".
Proof. vm_compute. reflexivity. Qed.

(** ** Case *)
Definition lower_ascii (n : N) : N := if ((65 <=? n) && (n <=? 90))%N then (n + 32)%N else n.
Definition upper_ascii (n : N) : N := if ((97 <=? n) && (n <=? 122))%N then (n - 32)%N else n.
Definition is_ascii (s : string) : bool := forallb (λ r, (r <? 128)%N) (runes s).

(** The Unicode tables outside ASCII: the simple lower case and [unicode.IsPrint]. *)
Class Unicode := { unicode_lower : N → N; unicode_print : N → bool }.

(** [strings.ToLower]: rune by rune. *)
Definition ToLower {UC : Unicode} (s : string) : string :=
  of_runes (map (λ r, if (r <? 128)%N then lower_ascii r else unicode_lower r) (runes s)).

(** ** Formatting: [%d] and [%q] *)
Definition fmt_d (z : Z) : string := pretty z.

Definition hex_digit (n : N) : string :=
  String (chr (if (n <? 10)%N then 48 + n else 87 + n)%N) EmptyString.
Fixpoint hex (digits : nat) (n : N) : string :=
  match digits with
  | O => ""
  | S d => hex d (n / 16)%N +:+ hex_digit (n `mod` 16)%N
  end.
Definition quote_mark : string := String (chr 34) EmptyString.

(** [strconv.Quote]: the escape of the rune [r], read from a byte [c] with [width]. *)
Definition escape {UC : Unicode} (r : N) (width : nat) (c : Ascii.ascii) : string :=
  if ((r =? rune_error)%N && (width =? 1)%nat) then "\x" +:+ hex 2 (byte_of c) else
  if ((r =? 34) || (r =? 92))%N then "\" +:+ encode_rune r else
  if (if r <? 128 then (32 <=? r) && (r <? 127) else unicode_print r)%N then encode_rune r else
  if (r =? 7)%N then "\a" else if (r =? 8)%N then "\b" else if (r =? 12)%N then "\f" else
  if (r =? 10)%N then "\n" else if (r =? 13)%N then "\r" else if (r =? 9)%N then "\t" else
  if (r =? 11)%N then "\v" else
  if ((r <? 32) || (r =? 127))%N then "\x" +:+ hex 2 r else
  if (r <? 65536)%N then "\u" +:+ hex 4 r else "\U" +:+ hex 8 r.
Fixpoint quote_from {UC : Unicode} (skip : nat) (s : string) : string :=
  match s, skip with
  | EmptyString, _ => ""
  | String _ s', S skip => quote_from skip s'
  | String c s', O =>
    let '(r, n) := decode_rune s in escape r n c +:+ quote_from (pred n) s'
  end.
Definition Quote {UC : Unicode} (s : string) : string :=
  quote_mark +:+ quote_from 0 s +:+ quote_mark.
(** [fmt.Sprintf("%q", l)] for a slice of strings. *)
Definition fmt_q_strings {UC : Unicode} (l : list string) : string :=
  "[" +:+ Join " " (map Quote l) +:+ "]".

(** ** UTF-8 round trip *)
Lemma byte_chr n : (n < 256)%N → byte_of (chr n) = n.
Proof. apply Ascii.N_ascii_embedding. Qed.

(** The three six-bit digits below the leading one. *)
Lemma rune_digits r :
  (r = 64 * (r / 64) + r mod 64 ∧ r / 64 = 64 * (r / 4096) + (r / 64) mod 64 ∧
   r / 4096 = 64 * (r / 262144) + (r / 4096) mod 64 ∧
   r mod 64 < 64 ∧ (r / 64) mod 64 < 64 ∧ (r / 4096) mod 64 < 64)%N.
Proof.
  change 4096%N with (64 * 64)%N. change 262144%N with (64 * (64 * 64))%N.
  rewrite <- !N.Div0.div_div. repeat split; try apply N.mod_upper_bound; try done;
    by apply N.div_mod.
Qed.

Ltac split_bool :=
  match goal with
  | |- context [(?a =? ?b)%N] => destruct (N.eqb_spec a b)
  | |- context [(?a <? ?b)%N] => destruct (N.ltb_spec a b)
  | |- context [(?a <=? ?b)%N] => destruct (N.leb_spec a b)
  end; try (exfalso; lia); cbn [andb orb negb].

Lemma low6_chr k : (k < 64)%N → low6 (chr (128 + k)) = k.
Proof.
  intros. unfold low6. rewrite byte_chr by lia.
  replace (128 + k)%N with (k + 2 * 64)%N by lia.
  rewrite N.Div0.mod_add. by apply N.mod_small.
Qed.

Lemma cont_chr lo hi k : (k < 64 → cont lo hi (chr (128 + k)) = (lo <=? 128 + k) && (128 + k <=? hi))%N.
Proof. intros. unfold cont. by rewrite byte_chr by lia. Qed.

Lemma decode_encode r s :
  valid_rune r = true →
  decode_rune (encode_rune r +:+ s) = (r, String.length (encode_rune r)).
Proof.
  intros Hv. unfold encode_rune. rewrite Hv.
  assert (r < 55296 ∨ 57344 ≤ r < 1114112)%N as Hr by (unfold valid_rune in Hv; lia).
  clear Hv. change (64 ^ 0)%N with 1%N. change (64 ^ 1)%N with 64%N.
  change (64 ^ 2)%N with 4096%N. rewrite N.div_1_r.
  pose proof (rune_digits r) as Hd. revert Hd.
  generalize (r mod 64)%N, ((r / 64) mod 64)%N, ((r / 4096) mod 64)%N.
  generalize (r / 64)%N, (r / 4096)%N, (r / 262144)%N.
  intros q1 q2 q3 d0 d1 d2 (?&?&?&?&?&?).
  repeat split_bool; simpl; unfold second_range; rewrite ?byte_chr by lia;
    repeat split_bool; rewrite ?cont_chr, ?low6_chr by lia; repeat split_bool; f_equal; lia.
Qed.

Lemma runes_skip n s t : String.length s = n → runes_from n (s +:+ t) = runes_from 0 t.
Proof. revert n. induction s as [|c s IH]; intros [|n]; simpl; naive_solver. Qed.

Lemma encode_rune_length r : (1 ≤ String.length (encode_rune r) ≤ 4)%nat.
Proof. unfold encode_rune. repeat case_match; simpl; lia. Qed.

Lemma runes_encode r s :
  valid_rune r = true → runes (encode_rune r +:+ s) = r :: runes s.
Proof.
  intros Hv. pose proof (decode_encode r s Hv) as Hd.
  pose proof (encode_rune_length r) as Hl. unfold runes.
  destruct (encode_rune r) as [|c e] eqn:He; [simpl in Hl; lia|].
  change (runes_from 0 (String c e +:+ s)) with
    (let '(r, n) := decode_rune (String c e +:+ s) in r :: runes_from (pred n) (e +:+ s)).
  rewrite Hd. simpl. f_equal. by apply runes_skip.
Qed.

(** Decoding what was encoded gives the runes back. *)
Lemma runes_of_runes rs : Forall (λ r, valid_rune r = true) rs → runes (of_runes rs) = rs.
Proof. induction 1 as [|r rs Hr _ IH]; simpl; [done|]. by rewrite runes_encode, IH. Qed.

Lemma string_app_assoc (a b c : string) : a +:+ (b +:+ c) = (a +:+ b) +:+ c.
Proof. induction a as [|x a IH]; [done|]. exact (f_equal (String x) IH). Qed.
Lemma string_length_app (a b : string) :
  String.length (a +:+ b) = (String.length a + String.length b)%nat.
Proof. induction a as [|x a IH]; [done|]. exact (f_equal S IH). Qed.
Lemma of_runes_app rs rs' : of_runes (rs ++ rs') = of_runes rs +:+ of_runes rs'.
Proof. induction rs as [|r rs IH]; simpl; [done|]. by rewrite IH, string_app_assoc. Qed.

(** A continuation byte is 128 plus its low six bits. *)
Lemma low6_cont lo hi c :
  cont lo hi c = true → (128 ≤ lo → hi ≤ 191 → lo ≤ 128 + low6 c ≤ hi)%N.
Proof.
  unfold cont, low6. intros ???.
  replace (byte_of c `mod` 64)%N with (byte_of c - 128)%N; [lia|].
  apply (N.mod_unique _ _ 2); lia.
Qed.

(** What decoding yields is always a scalar value. *)
Lemma decode_rune_valid s : valid_rune (decode_rune s).1 = true.
Proof.
  unfold decode_rune, second_range. destruct s as [|c0 s]; [done|].
  repeat (case_match; simplify_eq/=; try done);
    repeat match goal with
      | H : negb (cont ?lo ?hi ?c) = false |- _ =>
          apply negb_false_iff in H; apply low6_cont in H; [|lia..]
      | H : cont ?lo ?hi ?c && _ && _ = true |- _ =>
          apply andb_true_iff in H as [[H ?]%andb_true_iff ?]; apply low6_cont in H; [|lia..]
      end; unfold valid_rune; lia.
Qed.

Arguments decode_rune : simpl never.

Lemma runes_from_valid n s : Forall (λ r, valid_rune r = true) (runes_from n s).
Proof.
  revert n. induction s as [|c s IH]; intros [|n]; simpl; try constructor; [|apply IH].
  pose proof (decode_rune_valid (String c s)) as Hv.
  destruct (decode_rune (String c s)) as [r k]. by constructor.
Qed.
Lemma runes_valid s : Forall (λ r, valid_rune r = true) (runes s).
Proof. apply runes_from_valid. Qed.
#[export] Hint Resolve runes_valid : core.

(** The tables of an ASCII-only world, for examples. *)
Definition ascii_unicode : Unicode := {| unicode_lower r := r; unicode_print r := true |}.
Example Quote_ex : Quote (UC:=ascii_unicode) ("a" +:+ quote_mark +:+ "\" +:+ String (chr 10) "승")
  = quote_mark +:+ "a\" +:+ quote_mark +:+ "\\\n승" +:+ quote_mark.
Proof. vm_compute. reflexivity. Qed.
