(* ===== verification/Protocol.v ===== *)
(** * Protocols of effectful code

    Code that acts through an interface leaves a log of its actions, each with whether it
    succeeded.  A protocol is an automaton over such logs: [delta] takes one logged action,
    [protocol] a whole log.  The rules here prove that a computation follows an automaton,
    whatever the actions themselves do to the state. *)
From S2P Require Import Prelude.

Lemma triple_ex {S A X} (m : io S A) (P : X → S → Prop) (Q : A → S → Prop) (E : error → S → Prop) :
  (∀ x, triple (P x) m Q E) → triple (λ σ, ∃ x, P x σ) m Q E.
Proof. intros Hm σ r σ' [x HP]. by apply (Hm x). Qed.

Lemma triple_facts {S A} (m : io S A) (φ : A → Prop) (P : S → Prop) Q E :
  (∀ σ a σ', m σ = (Ok a, σ') → φ a) → triple P m Q E → triple P m (λ a σ, φ a ∧ Q a σ) E.
Proof.
  intros Hφ Hm σ r σ' HP H. pose proof (Hm _ _ _ HP H) as Hr. destruct r; [|done].
  split; [by eapply Hφ|done].
Qed.

Section protocol.
Context {O P : Type} (delta : P → O * bool → option P) (start : P).
Context {S : Type}.
Abbreviation Log := (list (O * bool)).

(** [m] as one action [o] of the log. *)
Definition record {A} (o : O) (m : io S A) : io (S * Log) A :=
  λ '(σ, l), let '(r, σ') := m σ in (r, (σ', l ++ [(o, is_ok r)])).
(** The same, where the action also tells what [m] returned. *)
Definition record_as {A} (o : result A → O) (m : io S A) : io (S * Log) A :=
  λ '(σ, l), let '(r, σ') := m σ in (r, (σ', l ++ [(o r, is_ok r)])).
(** [m] without a trace in the log. *)
Definition silent {A} (m : io S A) : io (S * Log) A :=
  λ '(σ, l), let '(r, σ') := m σ in (r, (σ', l)).

Fixpoint progress (p : P) (l : Log) : option P :=
  match l with
  | [] => Some p
  | e :: l => match delta p e with Some p => progress p l | None => None end
  end.
Definition protocol (l : Log) : option P := progress start l.

Lemma progress_app p l l' :
  progress p (l ++ l') = match progress p l with Some p => progress p l' | None => None end.
Proof. revert p. induction l as [|e l IH]; intros p; simpl; [done|]. by destruct (delta _ _). Qed.
Lemma protocol_snoc l e : protocol (l ++ [e]) = p ← protocol l; delta p e.
Proof.
  unfold protocol. rewrite progress_app. destruct (progress _ l); [|done]. simpl.
  by destruct (delta _ _).
Qed.

(** The log so far is a run of the automaton that reached [p]; or any state, after an error. *)
Definition at_ (p : P) (σ : S * Log) : Prop := protocol σ.2 = Some p.
Definition legal (e : error) (σ : S * Log) : Prop := is_Some (protocol σ.2).
Lemma at_legal p e σ : at_ p σ → legal e σ.
Proof. intros H. by exists p. Qed.
Lemma at_start σ l : l = [] → at_ start (σ, l).
Proof. by intros ->. Qed.

(** One recorded action takes the automaton one step. *)
Lemma triple_record {A} o (m : io S A) p q :
  delta p (o, true) = Some q → is_Some (delta p (o, false)) →
  triple (at_ p) (record o m) (λ _, at_ q) legal.
Proof.
  intros Hq [q' Hq'] [σ l] r σ' Hp. unfold record, at_, legal in *. simpl in Hp.
  destruct (m σ) as [r' σ1]. intros [= <- <-]. simpl. rewrite protocol_snoc, Hp. simpl.
  destruct r'; simpl; [done|by exists q'].
Qed.
Lemma record_ok {A} o (m : io S A) σ a σ' :
  record o m σ = (Ok a, σ') → ∃ σ0 σ1, m σ0 = (Ok a, σ1).
Proof.
  destruct σ as [σ l]. unfold record. destruct (m σ) as [r σ1] eqn:E. intros [= -> _]. eauto.
Qed.
(** An action whose failure is looked at. *)
Lemma triple_tried {A} o (m : io S A) p (q : bool → P) E :
  (∀ ok, delta p (o, ok) = Some (q ok)) →
  triple (at_ p) (attempt (record o m)) (λ r, at_ (q (is_ok r))) E.
Proof.
  intros Hq [σ l] r σ' Hp. unfold attempt, record, at_ in *. simpl in Hp.
  destruct (m σ) as [r' σ1]. intros [= <- <-]. simpl. rewrite protocol_snoc, Hp. apply Hq.
Qed.
Lemma triple_record_as {A} o (m : io S A) p q :
  (∀ a, delta p (o (Ok a), true) = Some (q a)) → (∀ e, is_Some (delta p (o (Err e), false))) →
  triple (at_ p) (record_as o m) (λ a, at_ (q a)) legal.
Proof.
  intros Hq Hq' [σ l] r σ' Hp. unfold record_as, at_, legal in *. simpl in Hp.
  destruct (m σ) as [r' σ1]. intros [= <- <-]. simpl.
  destruct r' as [a|e]; rewrite protocol_snoc, Hp; [apply Hq|apply Hq'].
Qed.
Lemma triple_tried_as {A} o (m : io S A) p (q : result A → P) E :
  (∀ r, delta p (o r, is_ok r) = Some (q r)) →
  triple (at_ p) (attempt (record_as o m)) (λ r, at_ (q r)) E.
Proof.
  intros Hq [σ l] r σ' Hp. unfold attempt, record_as, at_ in *. simpl in Hp.
  destruct (m σ) as [r' σ1]. intros [= <- <-]. simpl. rewrite protocol_snoc, Hp. apply Hq.
Qed.
Lemma triple_silent {A} (m : io S A) p : triple (at_ p) (silent m) (λ _, at_ p) legal.
Proof.
  intros [σ l] r σ' Hp. unfold silent, at_, legal in *. destruct (m σ) as [r' σ1].
  intros [= <- <-]. destruct r'; [done|by exists p].
Qed.
Lemma legal_raise {A} p e (Q : A → S * Log → Prop) : triple (at_ p) (raise e) Q legal.
Proof. eapply triple_from; [apply at_legal|apply triple_raise]. Qed.
Lemma triple_give_at {A} (r : result A) p :
  triple (at_ p) (give r) (λ a σ, r = Ok a ∧ at_ p σ) legal.
Proof.
  eapply triple_from; [|apply (triple_give r (at_ p) legal)].
  intros σ H. split; [done|]. intros e. by eapply at_legal.
Qed.
End protocol.

(** An action that the automaton takes from a known state. *)
Ltac one_step := eapply triple_record; [reflexivity|by eexists].
