(* ===== verification/Domain.v ===== *)
(** * Entities and the task and stage state machines ([internal/domain])

    The records carry the columns the services read; a Go pointer is an [option].
    Statuses, kinds and decisions are the strings the code compares. *)
From S2P Require Import Prelude GoStrings.

(** ** Entities ([model.go]) *)
(** src: internal/domain/model.go 8-18 ProjectEntity *)
Record ProjectEntity := MkProject {
  p_ID : string; p_Name : string; p_GithubOwner : string; p_GithubRepo : string;
  p_DefaultBranch : string; p_InstallationID : option Z; p_ContextPath : string;
  p_LocalPath : option string; p_TokenBudget : Z }.

(** src: internal/domain/model.go 19-33 TaskEntity *)
Record TaskEntity := MkTask {
  t_Pipeline : json; t_Workspace : string; t_Version : Z; t_EventSeq : Z;
  t_TokenBudget : Z; t_ID : string; t_ProjectID : string; t_Command : string;
  t_Status : string; t_CreatedBy : string; t_CreatedAt : Z; t_UpdatedAt : Z;
  t_DiscordThreadID : option string }.

(** src: internal/domain/model.go 34-51 StageEntity *)
Record StageEntity := MkStage {
  s_Plan : option string; s_PlanRetryNo : Z; s_DeliverableRef : option string;
  s_DeliverableSummary : option string; s_DeliverableRetryNo : Z;
  s_LastFeedback : option string; s_BlockedReason : option string;
  s_Attempt : Z; s_Version : Z; s_ID : string; s_TaskID : string;
  s_StageKey : string; s_Role : string; s_Status : string;
  s_DependsOn : list string; s_RetryCount : Z }.

(** src: internal/domain/model.go 52-69 ApprovalEntity *)
Record ApprovalEntity := MkApproval {
  a_Version : Z; a_ID : string; a_TaskID : string; a_StageID : string; a_Kind : string;
  a_RetryNo : Z; a_Status : string; a_Title : string; a_Content : option string;
  a_DecisionFeedback : option string; a_EditedContent : option string;
  a_DecidedBy : option string; a_DecidedVia : option string;
  a_RequestedAt : Z; a_DecidedAt : option Z; a_ResumePending : bool }.

(** src: internal/domain/model.go 70-79 Event *)
Record Event := MkEvent {
  ev_EventID : string; ev_TaskID : string; ev_Seq : Z; ev_TS : Z;
  ev_StageKey : option string; ev_Agent : option string; ev_Type : string;
  ev_Payload : json }.

#[global] Instance StageEntity_eq_dec : EqDecision StageEntity.
Proof. solve_decision. Defined.
#[global] Instance ApprovalEntity_eq_dec : EqDecision ApprovalEntity.
Proof. solve_decision. Defined.

(** Assignments to one field of a stage, as the code's [s.F = v]. *)
Section stage_fields.
Context (s : StageEntity).
Definition with_Plan v := MkStage v (s_PlanRetryNo s) (s_DeliverableRef s)
  (s_DeliverableSummary s) (s_DeliverableRetryNo s) (s_LastFeedback s) (s_BlockedReason s)
  (s_Attempt s) (s_Version s) (s_ID s) (s_TaskID s) (s_StageKey s) (s_Role s) (s_Status s)
  (s_DependsOn s) (s_RetryCount s).
Definition with_PlanRetryNo v := MkStage (s_Plan s) v (s_DeliverableRef s)
  (s_DeliverableSummary s) (s_DeliverableRetryNo s) (s_LastFeedback s) (s_BlockedReason s)
  (s_Attempt s) (s_Version s) (s_ID s) (s_TaskID s) (s_StageKey s) (s_Role s) (s_Status s)
  (s_DependsOn s) (s_RetryCount s).
Definition with_Deliverable ref summary := MkStage (s_Plan s) (s_PlanRetryNo s) ref
  summary (s_DeliverableRetryNo s) (s_LastFeedback s) (s_BlockedReason s)
  (s_Attempt s) (s_Version s) (s_ID s) (s_TaskID s) (s_StageKey s) (s_Role s) (s_Status s)
  (s_DependsOn s) (s_RetryCount s).
Definition with_DeliverableRetryNo v := MkStage (s_Plan s) (s_PlanRetryNo s)
  (s_DeliverableRef s) (s_DeliverableSummary s) v (s_LastFeedback s) (s_BlockedReason s)
  (s_Attempt s) (s_Version s) (s_ID s) (s_TaskID s) (s_StageKey s) (s_Role s) (s_Status s)
  (s_DependsOn s) (s_RetryCount s).
Definition with_LastFeedback v := MkStage (s_Plan s) (s_PlanRetryNo s) (s_DeliverableRef s)
  (s_DeliverableSummary s) (s_DeliverableRetryNo s) v (s_BlockedReason s)
  (s_Attempt s) (s_Version s) (s_ID s) (s_TaskID s) (s_StageKey s) (s_Role s) (s_Status s)
  (s_DependsOn s) (s_RetryCount s).
Definition with_BlockedReason v := MkStage (s_Plan s) (s_PlanRetryNo s) (s_DeliverableRef s)
  (s_DeliverableSummary s) (s_DeliverableRetryNo s) (s_LastFeedback s) v
  (s_Attempt s) (s_Version s) (s_ID s) (s_TaskID s) (s_StageKey s) (s_Role s) (s_Status s)
  (s_DependsOn s) (s_RetryCount s).
Definition with_Status v := MkStage (s_Plan s) (s_PlanRetryNo s) (s_DeliverableRef s)
  (s_DeliverableSummary s) (s_DeliverableRetryNo s) (s_LastFeedback s) (s_BlockedReason s)
  (s_Attempt s) (s_Version s) (s_ID s) (s_TaskID s) (s_StageKey s) (s_Role s) v
  (s_DependsOn s) (s_RetryCount s).
Definition with_RetryCount v := MkStage (s_Plan s) (s_PlanRetryNo s) (s_DeliverableRef s)
  (s_DeliverableSummary s) (s_DeliverableRetryNo s) (s_LastFeedback s) (s_BlockedReason s)
  (s_Attempt s) (s_Version s) (s_ID s) (s_TaskID s) (s_StageKey s) (s_Role s) (s_Status s)
  (s_DependsOn s) v.
Definition with_claim status attempt version := MkStage (s_Plan s) (s_PlanRetryNo s)
  (s_DeliverableRef s) (s_DeliverableSummary s) (s_DeliverableRetryNo s) (s_LastFeedback s)
  (s_BlockedReason s) attempt version (s_ID s) (s_TaskID s) (s_StageKey s) (s_Role s)
  status (s_DependsOn s) (s_RetryCount s).
End stage_fields.

(** ** The state machines ([state.go]) *)
(** src: internal/domain/state.go 14-14 Fault *)
Definition FaultE {A} (status : Z) (code message : string) : result A :=
  Err (Fault status code message).

(** src: internal/domain/state.go 15-20 Text *)
Definition Text (s : option string) : string := default "" s.

(** src: internal/domain/state.go 22-24 Terminal *)
Definition Terminal (status : string) : bool :=
  (status =? "completed") || (status =? "failed")
  || (status =? "cancelled").

(** src: internal/domain/state.go 25-45 TaskTransition *)
Definition TaskTransition (status action : string) : result string :=
  let refuse := FaultE 409 "INVALID_TRANSITION"
                  ("cannot " +:+ action +:+ " task in " +:+ status) in
  if action =? "start" then
    if status =? "queued" then Ok "running" else refuse
  else if action =? "pause" then
    if (status =? "running") || (status =? "waiting_approval") then Ok "paused" else refuse
  else if action =? "resume" then
    if (status =? "paused") || (status =? "blocked") then Ok "running" else refuse
  else if action =? "cancel" then
    if negb (Terminal status) then Ok "cancelled" else refuse
  else refuse.

(** src: internal/domain/state.go 46-60 Ready *)
Definition Ready (s : StageEntity) (stages : list StageEntity) : bool :=
  forallb (λ dep, existsb (λ p, (s_StageKey p =? dep)
                                && (s_Status p =? "approved")) stages)
    (s_DependsOn s).

(** The four flags of [Derive], accumulated over the stages.
    src: internal/domain/state.go 65-65 Derive (flags) *)
Record flags := MkFlags { f_review : bool; f_runnable : bool; f_blocked : bool; f_all : bool }.

(** src: internal/domain/state.go 66-71 Derive (loop body) *)
Definition derive_step (stages : list StageEntity) (f : flags) (s : StageEntity) : flags :=
  let st := s_Status s in
  MkFlags
    (f_review f || (st =? "plan_review") || (st =? "deliverable_review"))
    (f_runnable f || (st =? "planning") || (st =? "executing")
     || ((st =? "pending") && Ready s stages))
    (f_blocked f || (st =? "blocked"))
    (f_all f && (st =? "approved")).

(** src: internal/domain/state.go 61-85 Derive *)
Definition Derive (status : string) (stages : list StageEntity) : string :=
  if Terminal status || (status =? "paused") || (status =? "queued")
  then status else
  let f := fold_left (derive_step stages) stages
             (MkFlags false false false (bool_decide (0 < length stages)%nat)) in
  if f_review f then "waiting_approval" else
  if f_all f then "completed" else
  if f_runnable f then "running" else
  if f_blocked f then "blocked" else status.

(** src: internal/domain/state.go 86-103 ValidateDecision *)
Definition ValidateDecision (decision : string) (feedback edited : option string) : result unit :=
  if decision =? "approve" then Ok tt
  else if decision =? "reject" then
    if TrimSpace (Text feedback) =? ""
    then FaultE 400 "FEEDBACK_REQUIRED" "reject requires feedback" else Ok tt
  else if decision =? "edit" then
    if TrimSpace (Text edited) =? ""
    then FaultE 400 "EDITED_CONTENT_REQUIRED" "edit requires edited_content" else Ok tt
  else FaultE 400 "BAD_REQUEST" "invalid decision".

(** The reject branch; [retry] is the counter that [kind] selects.
    src: internal/domain/state.go 112-124 Decide (reject) *)
Definition decide_reject (s : StageEntity) (kind : string) (maxRetries : Z) : StageEntity :=
  let s := with_Status s (if kind =? "deliverable" then "executing" else "planning") in
  let retry := int64 (1 + if kind =? "deliverable"
                          then s_DeliverableRetryNo s else s_PlanRetryNo s) in
  let s := if kind =? "deliverable"
           then with_DeliverableRetryNo s retry else with_PlanRetryNo s retry in
  let s := with_RetryCount s (int64 (s_PlanRetryNo s + s_DeliverableRetryNo s)) in
  if (maxRetries <=? retry)%Z
  then with_BlockedReason (with_Status s "blocked") (Some kind) else s.

(** src: internal/domain/state.go 104-137 Decide *)
Definition Decide (s : StageEntity) (kind decision : string) (feedback edited : option string)
    (maxRetries : Z) : result StageEntity :=
  _ ← ValidateDecision decision feedback edited;
  if s_Status s ≠? kind +:+ "_review"
  then FaultE 409 "INVALID_TRANSITION" "stage is not awaiting this approval" else
  let s := with_LastFeedback s feedback in
  Ok (if decision =? "reject" then decide_reject s kind maxRetries
      else if kind =? "plan" then
        let s := with_Status s "executing" in
        if decision =? "edit" then with_Plan s edited else s
      else
        let s := with_Status s "approved" in
        if decision =? "edit" then with_Deliverable s (s_DeliverableRef s) edited else s).

(** ** The legal values ([ck_task_status], [ck_stage_status])
    src: internal/store/migrations/00002_orchestrator.sql 16-16 ck_task_status *)
Definition task_statuses : list string :=
  ["queued"; "running"; "waiting_approval"; "paused"; "blocked"; "completed"; "failed";
   "cancelled"].
(** src: internal/store/migrations/00002_orchestrator.sql 17-17 ck_stage_status *)
Definition stage_statuses : list string :=
  ["pending"; "planning"; "plan_review"; "executing"; "deliverable_review"; "approved";
   "blocked"].

(** ** Task transitions *)
Definition allowed_transitions : list (string * string * string) :=
  [("queued", "start", "running"); ("queued", "cancel", "cancelled");
   ("running", "pause", "paused"); ("running", "cancel", "cancelled");
   ("waiting_approval", "pause", "paused"); ("waiting_approval", "cancel", "cancelled");
   ("paused", "resume", "running"); ("paused", "cancel", "cancelled");
   ("blocked", "resume", "running"); ("blocked", "cancel", "cancelled")].

Lemma Terminal_spec st :
  Terminal st = true ↔ st = "completed" ∨ st = "failed" ∨ st = "cancelled".
Proof. unfold Terminal. rewrite !orb_true_iff, !String.eqb_eq. tauto. Qed.
Lemma Terminal_false st :
  Terminal st = false ↔ st ≠ "completed" ∧ st ≠ "failed" ∧ st ≠ "cancelled".
Proof. unfold Terminal. rewrite !orb_false_iff, !String.eqb_neq. tauto. Qed.

(** On the legal statuses the task actions are exactly the documented table: an
    action succeeds with the table's target, and everything else is the 409 fault. *)
Theorem TaskTransition_table st action :
  st ∈ task_statuses →
  TaskTransition st action =
  match list_find (λ t, t.1 = (st, action)) allowed_transitions with
  | Some (_, (_, to)) => Ok to
  | None => Err (Fault 409 "INVALID_TRANSITION"
                   ("cannot " +:+ action +:+ " task in " +:+ st))
  end.
Proof.
  intros Hst. destruct (decide (action ∈ ["start"; "pause"; "resume"; "cancel"])) as [Ha|Ha].
  - unfold task_statuses in Hst.
    repeat (apply elem_of_cons in Hst as [->|Hst]); [..|by apply elem_of_nil in Hst];
      repeat (apply elem_of_cons in Ha as [->|Ha]); try (by apply elem_of_nil in Ha);
      reflexivity.
  - rewrite !not_elem_of_cons in Ha. destruct Ha as (?&?&?&?&_).
    assert (list_find (λ t, t.1 = (st, action)) allowed_transitions = None) as ->.
    { apply list_find_None. unfold allowed_transitions. repeat constructor; naive_solver. }
    unfold TaskTransition, FaultE.
    by repeat match goal with H : action ≠ ?a |- _ => apply String.eqb_neq in H; rewrite H; clear H end.
Qed.

Lemma TaskTransition_table_witness :
  TaskTransition "blocked" "resume" = Ok "running" ∧
  TaskTransition "completed" "cancel" =
    Err (Fault 409 "INVALID_TRANSITION" "cannot cancel task in completed").
Proof.
  split; rewrite TaskTransition_table; try reflexivity; unfold task_statuses; set_solver.
Defined.

(** No action leaves a terminal status. *)
Lemma TaskTransition_terminal st action to :
  Terminal st = true → TaskTransition st action ≠ Ok to.
Proof.
  intros Ht. unfold TaskTransition, FaultE. rewrite Ht. apply Terminal_spec in Ht.
  destruct Ht as [-> | [-> | ->]]; simpl; repeat case_eqb; done.
Qed.

(** ** Derived task status *)
Definition in_review (s : StageEntity) : bool :=
  (s_Status s =? "plan_review") || (s_Status s =? "deliverable_review").
Definition is_approved (s : StageEntity) : bool := (s_Status s =? "approved").
Definition is_blocked (s : StageEntity) : bool := (s_Status s =? "blocked").
Definition is_runnable (stages : list StageEntity) (s : StageEntity) : bool :=
  (s_Status s =? "planning") || (s_Status s =? "executing")
  || ((s_Status s =? "pending") && Ready s stages).
(** The statuses [Derive] recomputes: neither terminal nor paused nor queued. *)
Definition derivable (status : string) : bool :=
  negb (Terminal status || (status =? "paused") || (status =? "queued")).

Lemma derive_flags all ss f :
  fold_left (derive_step all) ss f =
  MkFlags (f_review f || existsb in_review ss) (f_runnable f || existsb (is_runnable all) ss)
    (f_blocked f || existsb is_blocked ss) (f_all f && forallb is_approved ss).
Proof.
  revert f. induction ss as [|s ss IH]; intros [r u b a]; simpl;
    [by rewrite !orb_false_r, andb_true_r|].
  rewrite IH. unfold derive_step, in_review, is_runnable, is_blocked, is_approved. simpl.
  f_equal; by rewrite ?orb_assoc, ?andb_assoc.
Qed.

(** The priority order of [Derive] on an open status. *)
Lemma Derive_open st ss :
  derivable st = true →
  Derive st ss =
  if existsb in_review ss then "waiting_approval" else
  if bool_decide (ss ≠ []) && forallb is_approved ss then "completed" else
  if existsb (is_runnable ss) ss then "running" else
  if existsb is_blocked ss then "blocked" else st.
Proof.
  unfold derivable, Derive. intros ->%negb_true_iff. rewrite derive_flags. simpl.
  replace (bool_decide (ss ≠ [])) with (bool_decide (0 < length ss)%nat); [done|].
  apply bool_decide_ext. destruct ss; simpl; split; try done; lia.
Qed.
Lemma Derive_closed st ss : derivable st = false → Derive st ss = st.
Proof. unfold derivable, Derive. by intros ->%negb_false_iff. Qed.

(** Recomputing the status of a task from the same stages changes nothing more: a
    second [derive] transaction, of a repeated wake-up or a recovery pass, is a no-op. *)
Theorem Derive_idempotent st ss : Derive (Derive st ss) ss = Derive st ss.
Proof.
  destruct (derivable st) eqn:Hd; [|by rewrite !(Derive_closed st)].
  rewrite (Derive_open st) by done. repeat case_match; try done;
    rewrite Derive_open by done; repeat case_match; congruence.
Qed.

Lemma Derive_completed_iff st ss :
  derivable st = true →
  Derive st ss = "completed" ↔ ss ≠ [] ∧ ∀ s, s ∈ ss → s_Status s = "approved".
Proof.
  intros Hd. rewrite Derive_open by done.
  assert (st ≠ "completed") by (intros ->; by apply negb_true_iff in Hd).
  assert (forallb is_approved ss = true ↔ ∀ s, s ∈ ss → s_Status s = "approved") as Hall.
  { rewrite forallb_elem. unfold is_approved. by setoid_rewrite String.eqb_eq. }
  rewrite <- Hall. destruct (existsb in_review ss) eqn:Hr.
  - split; [done|]. intros [_ Ha]. pose proof (proj1 Hall Ha) as Ha'.
    apply existsb_elem in Hr as (s & Hs & Hr).
    unfold in_review in Hr. by rewrite (Ha' s Hs) in Hr.
  - clear Hall. case_bool_decide; simpl; repeat case_match; naive_solver.
Qed.

(** A task is derived [completed] exactly when it has stages and every one of them is
    approved, whatever its open status was; so no stage is skipped. *)
Theorem Derive_completed st ss :
  derivable st = true →
  Derive st ss = "completed" ↔ ss ≠ [] ∧ ∀ s, s ∈ ss → s_Status s = "approved".
Proof. apply Derive_completed_iff. Qed.

Lemma Derive_completed_witness :
  Derive "running" [MkStage None 0 None None 0 None None 1 1 "s" "t" "k" "r" "approved" [] 0]
  = "completed".
Proof. apply Derive_completed; [done|]. set_solver. Defined.

Lemma Ready_spec s ss :
  Ready s ss = true ↔
  ∀ dep, dep ∈ s_DependsOn s → ∃ p, p ∈ ss ∧ s_StageKey p = dep ∧ s_Status p = "approved".
Proof.
  unfold Ready. rewrite forallb_elem. setoid_rewrite existsb_elem.
  setoid_rewrite andb_true_iff. by setoid_rewrite String.eqb_eq.
Qed.

(** ** Decisions *)
(** The counter a decision of [kind] counts its rejections in. *)
Definition retry_no (kind : string) (s : StageEntity) : Z :=
  if kind =? "deliverable" then s_DeliverableRetryNo s else s_PlanRetryNo s.
(** Where the work goes back to when a decision of [kind] rejects it. *)
Definition redo_status (kind : string) : string :=
  if kind =? "deliverable" then "executing" else "planning".
Definition next_status (kind : string) : string :=
  if kind =? "plan" then "executing" else "approved".

(** What a decision may never change. *)
Definition same_stage (s s' : StageEntity) : Prop :=
  s_ID s' = s_ID s ∧ s_TaskID s' = s_TaskID s ∧ s_StageKey s' = s_StageKey s ∧
  s_Role s' = s_Role s ∧ s_DependsOn s' = s_DependsOn s ∧ s_Attempt s' = s_Attempt s ∧
  s_Version s' = s_Version s.

Lemma ValidateDecision_ok decision feedback edited :
  ValidateDecision decision feedback edited = Ok tt →
  decision = "approve" ∨ decision = "reject" ∨ decision = "edit".
Proof. unfold ValidateDecision, FaultE. repeat case_eqb; intros; simplify_eq; tauto. Qed.

Lemma Decide_ok_inv s kind decision feedback edited m s' :
  Decide s kind decision feedback edited m = Ok s' →
  ValidateDecision decision feedback edited = Ok tt ∧ s_Status s = kind +:+ "_review".
Proof.
  unfold Decide, FaultE. intros ([]&Hv&H)%result_bind_ok. revert H. by case_eqb.
Qed.

(** A counter of the database can be incremented, and two of them added, in an [int]. *)
Lemma int4_succ x : in_int4 x → int64 (1 + x) = (x + 1)%Z.
Proof. intros. rewrite int64_id; unfold in_int4, in_int8 in *; lia. Qed.
Lemma int4_add x y : in_int4 x → in_int4 y → int64 (x + 1 + y) = (x + 1 + y)%Z.
Proof. intros. rewrite int64_id; unfold in_int4, in_int8 in *; lia. Qed.
Lemma int4_add_r x y : in_int4 x → in_int4 y → int64 (x + (y + 1)) = (x + (y + 1))%Z.
Proof. intros. rewrite int64_id; unfold in_int4, in_int8 in *; lia. Qed.
Ltac counters := rewrite ?int4_succ, ?int4_add, ?int4_add_r by assumption.

(** C36: what a successful decision does to the stage: approve and edit move it on, reject
    sends it back to the phase that produced the work or, when the retry counter reaches
    the limit, blocks it with the reason; the feedback is stored, an edit replaces exactly
    the text that was reviewed, and identity, attempt and version stay untouched. *)
Theorem Decide_outcome s kind decision feedback edited m s' :
  kind = "plan" ∨ kind = "deliverable" →
  in_int4 (s_PlanRetryNo s) → in_int4 (s_DeliverableRetryNo s) →
  Decide s kind decision feedback edited m = Ok s' →
  same_stage s s' ∧ s_LastFeedback s' = feedback ∧ s_DeliverableRef s' = s_DeliverableRef s ∧
  (decision = "reject" →
     retry_no kind s' = (retry_no kind s + 1)%Z ∧
     s_RetryCount s' = (s_PlanRetryNo s' + s_DeliverableRetryNo s')%Z ∧
     s_Plan s' = s_Plan s ∧ s_DeliverableSummary s' = s_DeliverableSummary s ∧
     if (m <=? retry_no kind s + 1)%Z
     then s_Status s' = "blocked" ∧ s_BlockedReason s' = Some kind
     else s_Status s' = redo_status kind ∧ s_BlockedReason s' = s_BlockedReason s) ∧
  (decision ≠ "reject" →
     s_Status s' = next_status kind ∧ retry_no kind s' = retry_no kind s ∧
     s_RetryCount s' = s_RetryCount s ∧ s_BlockedReason s' = s_BlockedReason s ∧
     s_Plan s' = (if (decision =? "edit") && (kind =? "plan") then edited else s_Plan s) ∧
     s_DeliverableSummary s' =
       if (decision =? "edit") && (kind =? "deliverable") then edited
       else s_DeliverableSummary s).
Proof.
  intros Hk H1 H2 H. pose proof (Decide_ok_inv _ _ _ _ _ _ _ H) as [Hv Hs].
  unfold Decide in H. rewrite Hv in H. simpl in H.
  rewrite Hs, String.eqb_refl in H. injection H as <-.
  unfold decide_reject, same_stage, retry_no, redo_status, next_status.
  apply ValidateDecision_ok in Hv. clear Hs.
  destruct Hv as [-> | [-> | ->]], Hk as [-> | ->].
  all: cbn.
  all: counters.
  all: try (destruct (m <=? _)%Z; cbn).
  all: split_and!.
  all: try reflexivity.
  all: intros Hd; try discriminate Hd; try (by destruct Hd).
  all: split_and!; reflexivity.
Qed.

Definition review_stage (kind : string) (retry : Z) : StageEntity :=
  MkStage (Some "p") retry (Some "f") (Some "sum") retry None None 1 3 "s1" "t1" "design"
    "planner" (kind +:+ "_review") [] (2 * retry).
Lemma Decide_outcome_witness :
  ∃ s', Decide (review_stage "plan" 2) "plan" "reject" (Some "again") None 3 = Ok s' ∧
    s_Status s' = "blocked" ∧ s_BlockedReason s' = Some "plan".
Proof.
  eexists. split; [reflexivity|].
  eapply (Decide_outcome (review_stage "plan" 2) "plan" "reject" (Some "again") None 3);
    [by left|by vm_compute|by vm_compute|reflexivity|reflexivity].
Defined.

(** A decision fails exactly when it is malformed (a 400 fault: unknown decision, or a
    blank feedback or text where one is needed) or when the stage is not under review for
    that kind (the 409 fault); nothing else can go wrong. *)
Theorem Decide_errors s kind decision feedback edited m e :
  Decide s kind decision feedback edited m = Err e →
  (e = Fault 400 "BAD_REQUEST" "invalid decision" ∧
     decision ∉ ["approve"; "reject"; "edit"]) ∨
  (e = Fault 400 "FEEDBACK_REQUIRED" "reject requires feedback" ∧ decision = "reject" ∧
     TrimSpace (Text feedback) = "") ∨
  (e = Fault 400 "EDITED_CONTENT_REQUIRED" "edit requires edited_content" ∧
     decision = "edit" ∧ TrimSpace (Text edited) = "") ∨
  (e = Fault 409 "INVALID_TRANSITION" "stage is not awaiting this approval" ∧
     s_Status s ≠ kind +:+ "_review").
Proof.
  unfold Decide, ValidateDecision, FaultE. intros H.
  revert H. simpl. repeat case_eqb; intros [= <-]; rewrite ?not_elem_of_cons, ?elem_of_nil; tauto.
Qed.

Lemma Decide_errors_witness :
  TrimSpace (Text (Some "  ")) = "".
Proof.
  destruct (Decide_errors (review_stage "plan" 0) "plan" "reject" (Some "  ") None 3
    (Fault 400 "FEEDBACK_REQUIRED" "reject requires feedback") eq_refl)
    as [[H _]|[[_ [_ H]]|[[H _]|[H _]]]]; [discriminate H|exact H|discriminate H|discriminate H].
Defined.

(** A stage under review for [kind], rejected again and again: each round the work is
    redone and put back under review. *)
Fixpoint reject_rounds (n : nat) (kind : string) (m : Z) (s : StageEntity) : StageEntity :=
  match n with
  | O => s
  | S n =>
    match Decide s kind "reject" (Some "again") None m with
    | Ok s' => if s_Status s' =? "blocked" then s'
               else reject_rounds n kind m (with_Status s' (kind +:+ "_review"))
    | Err _ => s
    end
  end.

Definition small_counters (s : StageEntity) : Prop :=
  in_int4 (s_PlanRetryNo s) ∧ in_int4 (s_DeliverableRetryNo s).

Lemma reject_succeeds s kind m :
  s_Status s = kind +:+ "_review" →
  Decide s kind "reject" (Some "again") None m =
  Ok (decide_reject (with_LastFeedback s (Some "again")) kind m).
Proof. intros Hs. unfold Decide. cbn -[TrimSpace]. by rewrite Hs, String.eqb_refl. Qed.

(** One round below the limit counts one rejection and nothing else. *)
Lemma reject_round kind m s :
  kind = "plan" ∨ kind = "deliverable" → small_counters s → in_int4 m →
  s_Status s = kind +:+ "_review" → (retry_no kind s + 1 < m)%Z →
  ∃ s', (∀ n, reject_rounds (S n) kind m s = reject_rounds n kind m s') ∧ small_counters s' ∧
    s_Status s' = kind +:+ "_review" ∧ retry_no kind s' = (retry_no kind s + 1)%Z.
Proof.
  intros Hk [H1 H2] Hm Hs Hr. cbn [reject_rounds]. rewrite reject_succeeds by done.
  unfold decide_reject, small_counters, retry_no in *.
  destruct Hk as [-> | ->]; simpl in *; counters;
    rewrite (proj2 (Z.leb_gt m _)) by lia; simpl;
    (eexists; split; [reflexivity|]; simpl; split_and!; try reflexivity; try assumption; unfold in_int4 in *; lia).
Qed.

Lemma reject_limit kind m s n :
  kind = "plan" ∨ kind = "deliverable" → small_counters s →
  s_Status s = kind +:+ "_review" → (m = retry_no kind s + 1)%Z →
  ∃ s', reject_rounds (S n) kind m s = s' ∧ s_Status s' = "blocked" ∧
    s_BlockedReason s' = Some kind ∧ retry_no kind s' = m.
Proof.
  intros Hk [H1 H2] Hs Hr. cbn [reject_rounds]. rewrite reject_succeeds by done.
  unfold decide_reject, small_counters, retry_no in *.
  destruct Hk as [-> | ->]; simpl in *; counters;
    rewrite (proj2 (Z.leb_le m _)) by lia; simpl;
    (eexists; split; [reflexivity|]; simpl; split_and!; try reflexivity; try assumption; unfold in_int4 in *; lia).
Qed.

(** C37: the retry limit terminates the review loop: a stage with [n] rejections left stays
    reviewable for fewer than [n] rejections and the [n]-th blocks it, with the kind as the
    reason and the counter at the limit. *)
Theorem reject_rounds_terminate n kind m s :
  kind = "plan" ∨ kind = "deliverable" → small_counters s → in_int4 m →
  s_Status s = kind +:+ "_review" →
  (0 < n)%nat → (m = retry_no kind s + Z.of_nat n)%Z →
  s_Status (reject_rounds n kind m s) = "blocked" ∧
  s_BlockedReason (reject_rounds n kind m s) = Some kind ∧
  retry_no kind (reject_rounds n kind m s) = m ∧
  ∀ k, (k < n)%nat → s_Status (reject_rounds k kind m s) = kind +:+ "_review".
Proof.
  intros Hk Hc Hm. revert s Hc. induction n as [|n IH]; intros s Hc Hs Hn Hr; [lia|].
  destruct (decide (n = 0%nat)) as [->|Hn0].
  - destruct (reject_limit kind m s 0) as (s' & -> & ? & ? & ?); [done..|lia|].
    split_and!; try done. intros k Hk'. by replace k with 0%nat by lia.
  - destruct (reject_round kind m s) as (s' & HS & Hc' & Hs' & Hr'); [done..|lia|].
    destruct (IH s') as (?&?&?&IHk); [done|done|lia|lia|]. rewrite HS.
    split_and!; try done. intros [|k] Hk'; [done|]. rewrite HS. apply IHk. lia.
Qed.

Lemma reject_rounds_terminate_witness :
  s_Status (reject_rounds 3 "plan" 3 (review_stage "plan" 0)) = "blocked".
Proof.
  apply (reject_rounds_terminate 3 "plan" 3 (review_stage "plan" 0));
    [by left|by vm_compute|by vm_compute|reflexivity|lia|reflexivity].
Defined.
