(* ===== verification/Pipeline.v ===== *)
(** * The stage DAG of a task ([internal/pipeline])

    The YAML decoder is a parameter: [ParsePipeline] is given the function that fills a
    pipeline from a document, starting from the defaults the code passes it. *)
From S2P Require Import Prelude GoStrings Domain.

(** src: internal/pipeline/pipeline.go 11-18 StageSpec *)
Record StageSpec := MkSpec {
  ss_ID : string; ss_Agent : string; ss_DependsOn : option (list string);
  ss_Approvals : option (list string); ss_Model : string; ss_Tools : option (list string) }.

(** src: internal/pipeline/pipeline.go 19-28 Policy *)
Record Policy := MkPolicy {
  MaxRetries : Z; MaxIterations : Z; DefaultModel : string; po_TokenBudget : option Z;
  PR_Mode : string; PR_BaseBranch : string }.

(** src: internal/pipeline/pipeline.go 29-33 Pipeline *)
Record Pipeline := MkPipeline {
  pl_Version : Z; pl_Stages : list StageSpec; pl_Policy : Policy }.

(** ** Levels: the topological layers *)
Definition deps (s : StageSpec) : list string := elems (ss_DependsOn s).

(** Go's order on strings, as [slices.Sort] uses it. *)
Definition string_le (a b : string) : Prop := String.leb a b = true.
#[global] Instance string_le_dec a b : Decision (string_le a b).
Proof. unfold string_le. apply _. Defined.
Definition sort_strings (l : list string) : list string := merge_sort string_le l.

(** The stages of one round: not done, and every dependency done.
    src: internal/pipeline/pipeline.go 90-104 Pipeline.Levels (inner loop) *)
Definition level (stages : list StageSpec) (done_ : gset string) : list string :=
  map ss_ID (filter (λ s, (ss_ID s ∉ done_) ∧ Forall (λ d, d ∈ done_) (deps s)) stages).

(** [len(done) < len(p.Stages)] bounds the rounds: each one that goes on adds to [done].
    src: internal/pipeline/pipeline.go 87-114 Pipeline.Levels (rounds) *)
Fixpoint levels_loop (fuel : nat) (stages : list StageSpec) (done_ : gset string)
    (out : list (list string)) : result (list (list string)) :=
  if decide (size done_ < length stages)%nat then
    match fuel with
    | O => Err (ErrorText "out of fuel")
    | S fuel =>
      let lv := level stages done_ in
      if decide (lv = []) then Err (ErrorText "pipeline contains a cycle") else
      let lv := sort_strings lv in
      levels_loop fuel stages (done_ ∪ list_to_set lv) (out ++ [lv])
    end
  else Ok out.
(** src: internal/pipeline/pipeline.go 86-115 Pipeline.Levels *)
Definition Levels (p : Pipeline) : result (list (list string)) :=
  levels_loop (length (pl_Stages p)) (pl_Stages p) ∅ [].

(** ** Validation *)
Definition ident_head (c : Ascii.ascii) : bool := cont 97 122 c.
Definition ident_tail (c : Ascii.ascii) : bool := cont 97 122 c || cont 48 57 c || cont 95 95 c.
(** [identifier], the regular expression of stage and agent names.
    src: internal/pipeline/pipeline.go 35-35 identifier *)
Definition identifier (s : string) : bool :=
  match s with
  | String c s => ident_head c && forallb ident_tail (String.list_ascii_of_string s)
  | EmptyString => false
  end.

(** The stage list is not modified by an empty or repeated kind of approval.
    src: internal/pipeline/pipeline.go 66-72 ParsePipeline (approvals loop) *)
Fixpoint check_approvals (id : string) (kinds : list string) (seen : gset string) : result unit :=
  match kinds with
  | [] => Ok tt
  | kind :: kinds =>
    if (negb ((kind =? "plan") || (kind =? "deliverable"))) || bool_decide (kind ∈ seen)
    then Err (ErrorText ("invalid approvals for " +:+ id))
    else check_approvals id kinds ({[kind]} ∪ seen)
  end.

(** A nil approval list means both gates, a nil dependency list none.
    src: internal/pipeline/pipeline.go 60-65 ParsePipeline (defaults) *)
Definition fill_defaults (s : StageSpec) : StageSpec :=
  MkSpec (ss_ID s) (ss_Agent s) (Some (deps s))
    (Some (default ["plan"; "deliverable"] (ss_Approvals s))) (ss_Model s) (ss_Tools s).

(** src: internal/pipeline/pipeline.go 54-73 ParsePipeline (stage loop) *)
Fixpoint check_stages (stages : list StageSpec) (seen : gset string)
    : result (list StageSpec * gset string) :=
  match stages with
  | [] => Ok ([], seen)
  | s :: stages =>
    if negb (identifier (ss_ID s)) || (ss_ID s =? "finalize") || negb (identifier (ss_Agent s))
       || bool_decide (ss_ID s ∈ seen)
    then Err (ErrorText ("invalid or duplicate stage/agent: " +:+ ss_ID s)) else
    _ ← check_approvals (ss_ID s) (elems (ss_Approvals s)) ∅;
    '(rest, seen) ← check_stages stages ({[ss_ID s]} ∪ seen);
    Ok (fill_defaults s :: rest, seen)
  end.

(** src: internal/pipeline/pipeline.go 75-81 ParsePipeline (dependencies of a stage) *)
Fixpoint check_deps (id : string) (ds : list string) (known seen : gset string) : result unit :=
  match ds with
  | [] => Ok tt
  | d :: ds =>
    if negb (bool_decide (d ∈ known)) || (d =? id) || bool_decide (d ∈ seen)
    then Err (ErrorText ("invalid dependency " +:+ id +:+ " -> " +:+ d))
    else check_deps id ds known ({[d]} ∪ seen)
  end.
(** src: internal/pipeline/pipeline.go 74-82 ParsePipeline (dependency loop) *)
Fixpoint check_all_deps (stages : list StageSpec) (known : gset string) : result unit :=
  match stages with
  | [] => Ok tt
  | s :: stages => _ ← check_deps (ss_ID s) (deps s) known ∅; check_all_deps stages known
  end.

(** src: internal/pipeline/pipeline.go 38-38 ParsePipeline (defaults) *)
Definition default_pipeline : Pipeline := MkPipeline 0 [] (MkPolicy 3 40 "" None "" "").

(** src: internal/pipeline/pipeline.go 48-50 ParsePipeline (token_budget) *)
Definition bad_budget (budget : option Z) : bool :=
  match budget with Some b => (b <? 1)%Z | None => false end.

(** src: internal/pipeline/pipeline.go 37-85 ParsePipeline *)
Definition ParsePipeline (unmarshal : string → Pipeline → result Pipeline) (data : string)
    : result Pipeline :=
  p ← unmarshal data default_pipeline;
  let po := pl_Policy p in
  if negb (pl_Version p =? 1)%Z || bool_decide (pl_Stages p = [])
  then Err (ErrorText "pipeline requires version: 1 and at least one stage") else
  if ((MaxRetries po <? 1) || (10 <? MaxRetries po) || (MaxIterations po <? 1)
      || (500 <? MaxIterations po))%Z
  then Err (ErrorText "invalid retry or iteration limit") else
  if bad_budget (po_TokenBudget po)
  then Err (ErrorText "invalid token_budget") else
  if negb ((PR_Mode po =? "") || (PR_Mode po =? "per-role") || (PR_Mode po =? "single"))
  then Err (ErrorText "invalid pr mode") else
  '(stages, seen) ← check_stages (pl_Stages p) ∅;
  let p := MkPipeline (pl_Version p) stages po in
  _ ← check_all_deps stages seen;
  _ ← Levels p;
  Ok p.

Definition demo_spec (id : string) (ds : list string) : StageSpec :=
  MkSpec id id (Some ds) None "" None.
Definition demo_pipeline : Pipeline :=
  MkPipeline 1 [demo_spec "backend" ["design"]; demo_spec "design" ["plan"];
    demo_spec "plan" []; demo_spec "qa" ["backend"; "design"]] (MkPolicy 3 40 "fake" None "" "").
Example Levels_demo : Levels demo_pipeline = Ok [["plan"]; ["design"]; ["backend"]; ["qa"]].
Proof. vm_compute. reflexivity. Qed.
Example Levels_cycle :
  Levels (MkPipeline 1 [demo_spec "a" ["b"]; demo_spec "b" ["a"]] (pl_Policy demo_pipeline)) =
  Err (ErrorText "pipeline contains a cycle").
Proof. vm_compute. reflexivity. Qed.
Example Parse_demo :
  is_ok (ParsePipeline (λ _ _, Ok demo_pipeline) "") = true.
Proof. vm_compute. reflexivity. Qed.

(** ** The layers are a topological order *)
#[export] Instance string_le_total : Total string_le.
Proof. intros a b. apply String.leb_total. Qed.
#[export] Instance string_le_antisymm : AntiSymm (=) string_le.
Proof. intros a b. apply String.leb_antisym. Qed.

Definition stage_ids (stages : list StageSpec) : list string := map ss_ID stages.

Lemma elem_of_sort x l : x ∈ sort_strings l ↔ x ∈ l.
Proof. unfold sort_strings. by rewrite merge_sort_Permutation. Qed.

Lemma elem_of_level stages done_ id :
  id ∈ level stages done_ ↔
  (id ∉ done_) ∧ ∃ s, s ∈ stages ∧ ss_ID s = id ∧ ∀ d, d ∈ deps s → d ∈ done_.
Proof.
  unfold level. rewrite list_elem_of_fmap. setoid_rewrite list_elem_of_filter.
  setoid_rewrite Forall_forall. naive_solver.
Qed.

Lemma level_nodup stages done_ : NoDup (stage_ids stages) → NoDup (level stages done_).
Proof.
  intros Hnd. eapply sublist_NoDup; [exact Hnd|]. unfold level, stage_ids.
  apply fmap_sublist, sublist_filter.
Qed.

(** Every stage named in layer [i] depends only on stages of earlier layers. *)
Definition layered (stages : list StageSpec) (out : list (list string)) : Prop :=
  ∀ i lv s, out !! i = Some lv → s ∈ stages → ss_ID s ∈ lv →
    ∀ d, d ∈ deps s → d ∈ concat (take i out).

(** The state of the loop: what is done is what has been output. *)
Record levels_inv (stages : list StageSpec) (done_ : gset string) (out : list (list string))
    : Prop := {
  li_done : ∀ x, x ∈ done_ ↔ x ∈ concat out;
  li_nodup : NoDup (concat out);
  li_known : ∀ x, x ∈ concat out → x ∈ stage_ids stages;
  li_layered : layered stages out;
  li_levels : Forall (λ lv, lv ≠ [] ∧ Sorted string_le lv) out }.

Lemma levels_inv_init stages : levels_inv stages ∅ [].
Proof. split; simpl; [set_solver|apply NoDup_nil_2|set_solver|by intros ??? ?|done]. Qed.

Lemma levels_inv_step stages done_ out :
  NoDup (stage_ids stages) → levels_inv stages done_ out → level stages done_ ≠ [] →
  let lv := sort_strings (level stages done_) in
  levels_inv stages (done_ ∪ list_to_set lv) (out ++ [lv]).
Proof.
  intros Hnd [Hd Hn Hk Hl Hs] Hne lv.
  assert (concat (out ++ [lv]) = concat out ++ lv) as Hc by (by rewrite concat_app; simpl; rewrite app_nil_r).
  split; rewrite ?Hc.
  - intros x. rewrite elem_of_union, elem_of_list_to_set, elem_of_app, Hd. done.
  - apply NoDup_app. split_and!; [done| |].
    + intros x Hx. unfold lv. rewrite elem_of_sort, elem_of_level. intros [H _]. by apply H, Hd.
    + unfold lv, sort_strings. rewrite merge_sort_Permutation. by apply level_nodup.
  - intros x [Hx|Hx]%elem_of_app; [by apply Hk|]. unfold lv in Hx.
    apply elem_of_sort, elem_of_level in Hx as (_ & s & Hs' & <- & _).
    by apply list_elem_of_fmap_2.
  - intros i lv' s Hi Hin Hid d Hdep.
    destruct (decide (i < length out)%nat) as [Hlt|Hge].
    + rewrite lookup_app_l in Hi by done. rewrite take_app_le by lia. by eapply Hl.
    + rewrite lookup_app_r in Hi by lia. apply list_lookup_singleton_Some in Hi as [? <-].
      rewrite take_app_length' by lia. apply Hd.
      unfold lv in Hid. apply elem_of_sort, elem_of_level in Hid as (_ & s' & Hs' & Heq & Hdeps).
      apply Hdeps. by rewrite (NoDup_fmap_inj ss_ID stages s' s).
  - apply Forall_app. split; [done|]. repeat constructor.
    + intros Hnil. apply Hne. apply Permutation_nil_r. rewrite <- Hnil. unfold lv, sort_strings.
      by rewrite merge_sort_Permutation.
    + apply Sorted_merge_sort. apply _.
Qed.

Lemma levels_loop_sound fuel stages done_ out ls :
  NoDup (stage_ids stages) → levels_inv stages done_ out →
  levels_loop fuel stages done_ out = Ok ls →
  ∃ done', levels_inv stages done' ls ∧ (length stages ≤ size done')%nat.
Proof.
  intros Hnd. revert done_ out.
  induction fuel as [|fuel IH]; intros done_ out Hinv; simpl;
    (case_decide; [|intros [= <-]; exists done_; split; [done|lia]]); [done|].
  case_decide; [done|]. apply IH. by apply levels_inv_step.
Qed.

Lemma levels_inv_size stages done_ out :
  levels_inv stages done_ out → size done_ = length (concat out).
Proof.
  intros [Hd Hn _ _ _]. replace done_ with (list_to_set (concat out) : gset string);
    [by apply size_list_to_set|]. apply set_eq. intros x. by rewrite elem_of_list_to_set, Hd.
Qed.

(** C32: a successful layering names every stage exactly once, in sorted non-empty layers,
    and every dependency of a stage lies in an earlier layer. *)
Theorem Levels_topological p ls :
  NoDup (stage_ids (pl_Stages p)) → Levels p = Ok ls →
  concat ls ≡ₚ stage_ids (pl_Stages p) ∧ layered (pl_Stages p) ls ∧
  Forall (λ lv, lv ≠ [] ∧ Sorted string_le lv) ls.
Proof.
  intros Hnd H. destruct (levels_loop_sound _ _ _ _ _ Hnd (levels_inv_init _) H)
    as (d & Hinv & Hsize). pose proof (levels_inv_size _ _ _ Hinv) as Hs.
  destruct Hinv as [_ Hn Hk Hl Hlv]. split_and!; [|done..].
  apply submseteq_length_Permutation; [by apply NoDup_submseteq|].
  unfold stage_ids. rewrite length_map. lia.
Qed.

Lemma Levels_topological_witness :
  concat [["plan"]; ["design"]; ["backend"]; ["qa"]] ≡ₚ stage_ids (pl_Stages demo_pipeline).
Proof.
  apply (Levels_topological demo_pipeline); [solve_nodup|vm_compute; reflexivity].
Defined.

(** *** Termination and completeness *)
Lemma level_grows stages done_ :
  level stages done_ ≠ [] →
  (size done_ < size (done_ ∪ list_to_set (sort_strings (level stages done_))))%nat.
Proof.
  intros Hne. apply subset_size.
  assert (∃ x, x ∈ level stages done_) as [x Hx].
  { destruct (level stages done_) as [|x l]; [done|]. exists x. by left. }
  pose proof (proj1 (elem_of_level _ _ _) Hx) as [Hx' _].
  apply strict_spec_alt. split; [set_solver|]. intros Heq. apply Hx'. rewrite Heq.
  by apply elem_of_union_r, elem_of_list_to_set, elem_of_sort.
Qed.

Lemma levels_loop_fuel fuel stages done_ out :
  (length stages ≤ fuel + size done_)%nat →
  levels_loop fuel stages done_ out ≠ Err (ErrorText "out of fuel").
Proof.
  revert done_ out. induction fuel as [|fuel IH]; intros done_ out Hf; simpl;
    (case_decide; [|done]); [lia|]. case_decide as Hl; [done|].
  apply IH. pose proof (level_grows stages done_ Hl). lia.
Qed.

Lemma levels_loop_cycle fuel stages done_ out e :
  levels_loop fuel stages done_ out = Err e → e ≠ ErrorText "out of fuel" →
  e = ErrorText "pipeline contains a cycle".
Proof.
  revert done_ out. induction fuel as [|fuel IH]; intros done_ out; simpl;
    (case_decide; [|done]); [naive_solver|]. case_decide; [naive_solver|apply IH].
Qed.

(** A dependency order: every dependency is a stage and has a smaller rank. *)
Definition ranked (stages : list StageSpec) (rank : string → nat) : Prop :=
  ∀ s d, s ∈ stages → d ∈ deps s → d ∈ stage_ids stages ∧ (rank d < rank (ss_ID s))%nat.

(** While a stage of a ranked DAG is not done, some stage is ready. *)
Lemma ranked_level stages rank done_ n s :
  ranked stages rank → (rank (ss_ID s) < n)%nat → s ∈ stages → ss_ID s ∉ done_ →
  level stages done_ ≠ [].
Proof.
  intros Hr. revert s. induction n as [|n IH]; intros s Hn Hs Hd; [lia|].
  destruct (decide (Forall (λ d, d ∈ done_) (deps s))) as [Hall|Hex].
  - intros Hnil. apply (elem_of_nil (ss_ID s)). rewrite <- Hnil, elem_of_level.
    split; [done|]. exists s. by rewrite <- Forall_forall.
  - apply not_Forall_Exists, Exists_exists in Hex as (d & Hdep & Hnd); [|apply _].
    destruct (Hr s d Hs Hdep) as [(s' & -> & Hs')%list_elem_of_fmap Hlt].
    apply (IH s'); [lia|done|done].
Qed.

Lemma levels_loop_complete fuel stages rank done_ out :
  NoDup (stage_ids stages) → ranked stages rank → levels_inv stages done_ out →
  (length stages ≤ fuel + size done_)%nat →
  ∃ ls, levels_loop fuel stages done_ out = Ok ls.
Proof.
  intros Hnd Hr. revert done_ out.
  induction fuel as [|fuel IH]; intros done_ out Hinv Hf; simpl;
    (case_decide as Hlt; [|by eexists]); [lia|].
  case_decide as Hnil; [exfalso|].
  - destruct (decide (Exists (λ s, ss_ID s ∉ done_) stages)) as [Hex|Hall].
    + apply Exists_exists in Hex as (s & Hs & Hd). by apply (ranked_level stages rank done_ (S (rank (ss_ID s))) s Hr (Nat.lt_succ_diag_r _) Hs Hd).
    + apply not_Exists_Forall in Hall; [|intros s; apply _].
      enough (stage_ids stages ⊆+ concat out) as Hl%submseteq_length.
      { rewrite <- (levels_inv_size _ _ _ Hinv) in Hl. unfold stage_ids in Hl.
        rewrite length_map in Hl. lia. }
      apply NoDup_submseteq; [done|]. intros x (s & -> & Hs)%list_elem_of_fmap.
      apply (li_done _ _ _ Hinv). rewrite Forall_forall in Hall. by apply dec_stable, Hall.
  - apply IH; [by apply levels_inv_step|]. pose proof (level_grows stages done_ Hnil). lia.
Qed.

(** The rank read off a layering: the index of the layer. *)
Definition layer_of (ls : list (list string)) (id : string) : nat :=
  match list_find (λ lv, id ∈ lv) ls with Some (i, _) => i | None => length ls end.

Lemma layer_of_lt ls id i : id ∈ concat (take i ls) → (layer_of ls id < i)%nat.
Proof.
  rewrite elem_of_concat. intros (lv & (j & Hj)%list_elem_of_lookup & Hid).
  apply lookup_take_Some in Hj as [Hj Hji]. unfold layer_of.
  destruct (list_find _ ls) as [[k lv']|] eqn:Hf.
  - apply list_find_Some in Hf as (_ & _ & Hmin).
    destruct (decide (k ≤ j)%nat); [lia|]. exfalso. apply (Hmin j lv); [done|lia|done].
  - apply list_find_None in Hf. rewrite Forall_forall in Hf.
    exfalso. apply (Hf lv); [|done]. apply list_elem_of_lookup. by exists j.
Qed.

Lemma layer_of_elem ls id :
  id ∈ concat ls → ∃ lv, ls !! layer_of ls id = Some lv ∧ id ∈ lv.
Proof.
  rewrite elem_of_concat. intros (lv & Hlv & Hid). unfold layer_of.
  destruct (list_find _ ls) as [[k lv']|] eqn:Hf.
  - apply list_find_Some in Hf as (? & ? & _). by exists lv'.
  - apply list_find_None in Hf. rewrite Forall_forall in Hf. by destruct (Hf lv).
Qed.

Lemma concat_take_sub ls i (x : string) : x ∈ concat (take i ls) → x ∈ concat ls.
Proof.
  intros Hx. rewrite <- (take_drop i ls), concat_app. apply elem_of_app. by left.
Qed.

(** Layering terminates with an answer that is right both ways: it never runs out of
    rounds, it succeeds exactly when the dependencies are known stages without a cycle (a
    rank decreases along them), and otherwise it reports the cycle. *)
Theorem Levels_decides p :
  NoDup (stage_ids (pl_Stages p)) →
  ((∃ ls, Levels p = Ok ls) ↔ ∃ rank, ranked (pl_Stages p) rank) ∧
  ((¬ ∃ rank, ranked (pl_Stages p) rank) →
     Levels p = Err (ErrorText "pipeline contains a cycle")).
Proof.
  intros Hnd.
  assert ((∃ ls, Levels p = Ok ls) ↔ ∃ rank, ranked (pl_Stages p) rank) as Hiff.
  { split.
    - intros [ls Hls]. destruct (levels_loop_sound _ _ _ _ _ Hnd (levels_inv_init _) Hls)
        as (d & Hinv & Hsize). pose proof (levels_inv_size _ _ _ Hinv) as Hs.
      destruct Hinv as [_ Hn Hk Hl _]. exists (layer_of ls). intros s dep Hin Hdep.
      assert (concat ls ≡ₚ stage_ids (pl_Stages p)) as Hp.
      { apply submseteq_length_Permutation; [by apply NoDup_submseteq|].
        unfold stage_ids. rewrite length_map. lia. }
      destruct (layer_of_elem ls (ss_ID s)) as (lv & Hlv & Hid).
      { rewrite Hp. by apply list_elem_of_fmap_2. }
      pose proof (Hl _ _ _ Hlv Hin Hid dep Hdep) as Hd.
      split; [by eapply Hk, concat_take_sub|by apply layer_of_lt].
    - intros [rank Hr]. eapply levels_loop_complete; [done|done|apply levels_inv_init|lia]. }
  split; [done|]. intros Hno. destruct (Levels p) as [ls|e] eqn:Hls.
  - destruct Hno. apply Hiff. by eexists.
  - f_equal. eapply levels_loop_cycle; [exact Hls|].
    intros ->. revert Hls. apply levels_loop_fuel. lia.
Qed.

Lemma Levels_decides_witness :
  ∃ ls, Levels demo_pipeline = Ok ls.
Proof.
  apply (Levels_decides demo_pipeline).
  - solve_nodup.
  - exists (λ id, if id =? "plan" then 0%nat else if id =? "design" then 1%nat else
      if id =? "backend" then 2%nat else 3%nat).
    intros s d Hs Hd. simpl in Hs. repeat (apply elem_of_cons in Hs as [->|Hs]);
      try (by apply elem_of_nil in Hs); simpl in Hd;
      repeat (apply elem_of_cons in Hd as [->|Hd]); try (by apply elem_of_nil in Hd);
      (split; [solve_elem|vm_compute; lia]).
Defined.

(** ** What validation accepts *)
Record valid_spec (ids : list string) (s : StageSpec) : Prop := {
  vs_id : identifier (ss_ID s) = true;
  vs_final : ss_ID s ≠ "finalize";
  vs_agent : identifier (ss_Agent s) = true;
  vs_approvals : ∃ l, ss_Approvals s = Some l ∧ NoDup l ∧
    ∀ k, k ∈ l → k = "plan" ∨ k = "deliverable";
  vs_deps : ∃ l, ss_DependsOn s = Some l ∧ NoDup l ∧ (ss_ID s ∉ l) ∧ ∀ d, d ∈ l → d ∈ ids }.

Record valid_pipeline (p : Pipeline) : Prop := {
  vp_version : pl_Version p = 1%Z;
  vp_nonempty : pl_Stages p ≠ [];
  vp_retries : (1 ≤ MaxRetries (pl_Policy p) ≤ 10)%Z;
  vp_iterations : (1 ≤ MaxIterations (pl_Policy p) ≤ 500)%Z;
  vp_budget : ∀ b, po_TokenBudget (pl_Policy p) = Some b → (1 ≤ b)%Z;
  vp_mode : PR_Mode (pl_Policy p) ∈ [""; "per-role"; "single"];
  vp_nodup : NoDup (stage_ids (pl_Stages p));
  vp_specs : ∀ s, s ∈ pl_Stages p → valid_spec (stage_ids (pl_Stages p)) s;
  vp_acyclic : ∃ rank, ranked (pl_Stages p) rank }.

Lemma check_approvals_ok id kinds seen :
  check_approvals id kinds seen = Ok tt ↔
  NoDup kinds ∧ ∀ k, k ∈ kinds → (k = "plan" ∨ k = "deliverable") ∧ (k ∉ seen).
Proof.
  revert seen. induction kinds as [|k kinds IH]; intros seen; simpl;
    [split; [intros _; split; [apply NoDup_nil_2|by intros k ?%elem_of_nil]|done]|].
  rewrite NoDup_cons. setoid_rewrite elem_of_cons.
  case_bool_decide as Hk; [rewrite orb_true_r; naive_solver|]. rewrite orb_false_r.
  destruct (negb _) eqn:Hn; [|rewrite IH; apply negb_false_iff in Hn].
  - apply negb_true_iff, orb_false_iff in Hn as [H1%String.eqb_neq H2%String.eqb_neq].
    naive_solver.
  - apply orb_true_iff in Hn. rewrite !String.eqb_eq in Hn. set_solver.
Qed.

Lemma check_deps_ok id ds known seen :
  check_deps id ds known seen = Ok tt ↔
  NoDup ds ∧ (id ∉ ds) ∧ ∀ d, d ∈ ds → d ∈ known ∧ (d ∉ seen).
Proof.
  revert seen. induction ds as [|d ds IH]; intros seen; simpl;
    [split; [intros _; split_and!; [apply NoDup_nil_2|by intros ?%elem_of_nil|by intros k ?%elem_of_nil]|done]|].
  rewrite NoDup_cons, not_elem_of_cons. setoid_rewrite elem_of_cons.
  destruct (String.eqb_spec d id); [rewrite orb_true_r; naive_solver|].
  case_bool_decide as Hk; [|naive_solver]. case_bool_decide; [naive_solver|]. simpl.
  rewrite IH. set_solver.
Qed.

Lemma check_all_deps_ok stages known :
  check_all_deps stages known = Ok tt ↔
  ∀ s, s ∈ stages →
    NoDup (deps s) ∧ (ss_ID s ∉ deps s) ∧ ∀ d, d ∈ deps s → d ∈ known.
Proof.
  induction stages as [|s stages IH]; simpl; [by split; [intros _ s ?%elem_of_nil|]|].
  setoid_rewrite elem_of_cons. split.
  - intros ([] & H1%check_deps_ok & H2)%result_bind_ok.
    intros s' [->|Hs']; [|by apply (proj1 IH H2)]. set_solver.
  - intros H. assert (check_deps (ss_ID s) (deps s) known ∅ = Ok tt) as ->.
    { apply check_deps_ok. destruct (H s); set_solver. }
    simpl. apply IH. naive_solver.
Qed.

Definition stage_checked (s : StageSpec) : Prop :=
  identifier (ss_ID s) = true ∧ ss_ID s ≠ "finalize" ∧ identifier (ss_Agent s) = true ∧
  NoDup (elems (ss_Approvals s)) ∧
  ∀ k, k ∈ elems (ss_Approvals s) → k = "plan" ∨ k = "deliverable".

Lemma check_stages_ok stages seen rest seen' :
  check_stages stages seen = Ok (rest, seen') ↔
  rest = map fill_defaults stages ∧ seen' = seen ∪ list_to_set (stage_ids stages) ∧
  NoDup (stage_ids stages) ∧
  ∀ s, s ∈ stages → stage_checked s ∧ (ss_ID s ∉ seen).
Proof.
  revert seen rest seen'. induction stages as [|s stages IH]; intros seen rest seen'; simpl.
  { split; [intros [= <- <-]|intros (-> & -> & _)].
    - split_and!; [done|set_solver|apply NoDup_nil_2|by intros s ?%elem_of_nil].
    - f_equal. f_equal. set_solver. }
  rewrite NoDup_cons. setoid_rewrite elem_of_cons. split.
  - destruct (identifier (ss_ID s)) eqn:Hi; simpl; [|done].
    destruct (String.eqb_spec (ss_ID s) "finalize"); simpl; [done|].
    destruct (identifier (ss_Agent s)) eqn:Ha; simpl; [|done].
    case_bool_decide; [done|].
    intros ([] & [? ?]%check_approvals_ok & Hok)%result_bind_ok.
    apply result_bind_ok in Hok as ([rest' seen''] & (-> & -> & ? & Hrest)%IH & [= <- <-]).
    split_and!; [done|set_solver|..].
    + intros (s' & Heq & Hs')%list_elem_of_fmap. destruct (Hrest s' Hs'); set_solver.
    + done.
    + intros s' [->|Hs']; [split; [split_and!; set_solver|done]|].
      destruct (Hrest s' Hs'). set_solver.
  - intros (-> & -> & [Hni Hnd] & Hall).
    destruct (Hall s (or_introl eq_refl)) as [(-> & Hf & -> & Hn & Hk) Hs].
    rewrite (proj2 (String.eqb_neq _ _) Hf), (bool_decide_eq_false_2 _ Hs). simpl.
    rewrite (proj2 (check_approvals_ok (ss_ID s) (elems (ss_Approvals s)) ∅)) by set_solver. simpl.
    assert (check_stages stages ({[ss_ID s]} ∪ seen) =
      Ok (map fill_defaults stages, {[ss_ID s]} ∪ seen ∪ list_to_set (stage_ids stages))) as ->.
    { apply IH. split_and!; [done..|]. intros s' Hs'.
      destruct (Hall s' (or_intror Hs')) as [Hc Hn']. split; [done|].
      apply not_elem_of_union. split; [|done]. apply not_elem_of_singleton. intros Heq.
      apply Hni. rewrite <- Heq. by apply list_elem_of_fmap_2. }
    simpl. f_equal. f_equal. set_solver.
Qed.

Lemma fill_defaults_fixed s ids : valid_spec ids s → fill_defaults s = s.
Proof.
  intros [_ _ _ (l & Hl & _) (ds & Hds & _)]. destruct s; simpl in *. subst. reflexivity.
Qed.
Lemma map_fill_ids stages : stage_ids (map fill_defaults stages) = stage_ids stages.
Proof. unfold stage_ids. rewrite map_map. by apply map_ext. Qed.

(** Validation of a decoded document, by its outcome. *)
Lemma ParsePipeline_inv um data p :
  ParsePipeline um data = Ok p →
  ∃ q, um data default_pipeline = Ok q ∧ valid_pipeline p ∧ pl_Policy p = pl_Policy q ∧
    pl_Stages p = map fill_defaults (pl_Stages q).
Proof.
  unfold ParsePipeline. intros (q & Hq & H)%result_bind_ok.
  destruct (negb _ || _) eqn:E1 in H; [done|].
  apply orb_false_iff in E1 as [E1%negb_false_iff%Z.eqb_eq E1'%bool_decide_eq_false].
  destruct (_ || _ || _ || _) eqn:E2 in H; [done|].
  destruct (bad_budget _) eqn:E3 in H; [done|].
  destruct (negb _) eqn:E4 in H; [done|].
  apply negb_false_iff in E4. rewrite !orb_true_iff, !String.eqb_eq in E4.
  apply result_bind_ok in H as ([stages seen] & Hst & H).
  apply check_stages_ok in Hst as (-> & -> & Hnd & Hall).
  apply result_bind_ok in H as ([] & Hdeps & H).
  apply result_bind_ok in H as (ls & Hls & [= <-]).
  exists q. split_and!; [done| |done..].
  pose proof (proj1 (check_all_deps_ok _ _) Hdeps) as Hd.
  split; simpl; rewrite ?map_fill_ids; try done; try lia.
  - by intros Hnil%fmap_nil_inv.
  - intros b Hb. rewrite Hb in E3. simpl in E3. lia.
  - set_solver.
  - intros s (s0 & -> & Hs0)%list_elem_of_fmap. destruct (Hall s0 Hs0) as [(?&?&?&?&?) _].
    assert (fill_defaults s0 ∈ map fill_defaults (pl_Stages q)) as Hin
      by by apply list_elem_of_fmap_2.
    destruct (Hd _ Hin) as (?&?&?). split; try done.
    + eexists. split; [done|]. destruct (ss_Approvals s0); simpl in *; [done|].
      split; [solve_nodup|]. set_solver.
    + eexists. split; [done|]. split_and!; try done. set_solver.
  - apply (Levels_decides (MkPipeline (pl_Version q) _ (pl_Policy q))).
    + simpl. by rewrite map_fill_ids.
    + by exists ls.
Qed.

(** C33: the pipelines a task can start from: whatever the decoder produced, an accepted
    document satisfies every limit and naming rule, has distinct stages with known, distinct,
    acyclic dependencies and explicit gates; and an already normal document that satisfies
    them is accepted unchanged. *)
Theorem ParsePipeline_accepts um data p :
  (ParsePipeline um data = Ok p → valid_pipeline p) ∧
  (um data default_pipeline = Ok p → valid_pipeline p → ParsePipeline um data = Ok p).
Proof.
  split; [intros H; by destruct (ParsePipeline_inv _ _ _ H) as (?&?&?&_)|].
  intros Hum [Hv Hne Hr Hi Hb Hm Hnd Hs Hrank]. unfold ParsePipeline. rewrite Hum. simpl.
  assert (map fill_defaults (pl_Stages p) = pl_Stages p) as Hfill.
  { rewrite <- (map_id (pl_Stages p)) at 2. apply map_ext_in. intros s Hs'%list_elem_of_In.
    eapply fill_defaults_fixed, Hs, Hs'. }
  rewrite Hv, (bool_decide_eq_false_2 _ Hne). simpl.
  replace (_ || _ || _ || _) with false by lia.
  replace (bad_budget _) with false
    by (destruct (po_TokenBudget _) as [b|]; [specialize (Hb b eq_refl); simpl; lia|done]).
  replace ((PR_Mode _ =? "") || _ || _) with true; [simpl|symmetry].
  2: { rewrite !orb_true_iff, !String.eqb_eq. set_solver. }
  rewrite (proj2 (check_stages_ok (pl_Stages p) ∅ (pl_Stages p)
    (list_to_set (stage_ids (pl_Stages p))))); simpl.
  2: { split_and!; [done|set_solver|done|]. intros s Hin.
    destruct (Hs s Hin) as [? ? ? (l & Hl & ?) _]. split; [|set_solver].
    unfold stage_checked. by rewrite Hl. }
  rewrite (proj2 (check_all_deps_ok _ _)); simpl.
  2: { intros s Hin. destruct (Hs s Hin) as [_ _ _ _ (ds & Hds & ?)]. unfold deps.
    rewrite Hds. simpl. set_solver. }
  destruct p as [v ss po]; simpl in *. subst v. rewrite ?Hfill.
  destruct (proj2 (proj1 (Levels_decides (MkPipeline 1 ss po) Hnd)) Hrank) as [ls ->].
  done.
Qed.

Lemma ParsePipeline_accepts_witness :
  valid_pipeline (MkPipeline 1 (map fill_defaults (pl_Stages demo_pipeline))
    (pl_Policy demo_pipeline)).
Proof.
  apply (ParsePipeline_accepts (λ _ _, Ok demo_pipeline) ""). vm_compute. reflexivity.
Defined.
