(* ===== verification/PipelineJSON.v ===== *)
(** * The stored form of a pipeline and the progress it guarantees

    A task row keeps the pipeline as the JSON document that [encoding/json] produces from
    the struct tags of [internal/pipeline], and the services decode it again.  The second
    half connects the validated DAG with the stage rows: a task never gets stuck. *)
From S2P Require Import Prelude GoStrings Domain Pipeline.

(** ** Encoding *)
Definition marshal_strings (l : option (list string)) : json :=
  match l with Some l => JStrs l | None => JNull end.
(** [omitempty] *)
Definition omit_empty (key : string) (s : string) : list (string * json) :=
  if s =? "" then [] else [(key, JStr s)].

(** src: internal/pipeline/pipeline.go 11-18 StageSpec (json tags) *)
Definition marshal_spec (s : StageSpec) : json :=
  JObj ([("id", JStr (ss_ID s)); ("agent", JStr (ss_Agent s));
         ("depends_on", marshal_strings (ss_DependsOn s));
         ("approvals", marshal_strings (ss_Approvals s))] ++
        omit_empty "model" (ss_Model s) ++ [("tools", marshal_strings (ss_Tools s))]).

(** src: internal/pipeline/pipeline.go 19-28 Policy (json tags) *)
Definition marshal_policy (po : Policy) : json :=
  JObj ([("max_retries_per_approval", JNum (MaxRetries po));
         ("execute_max_iterations", JNum (MaxIterations po));
         ("default_model", JStr (DefaultModel po))] ++
        match po_TokenBudget po with Some b => [("token_budget", JNum b)] | None => [] end ++
        [("pr", JObj [("mode", JStr (PR_Mode po)); ("base_branch", JStr (PR_BaseBranch po))])]).

(** src: internal/pipeline/pipeline.go 29-33 Pipeline (json tags) *)
Definition marshal_pipeline (p : Pipeline) : json :=
  JObj [("version", JNum (pl_Version p)); ("stages", JArr (map marshal_spec (pl_Stages p)));
        ("policy", marshal_policy (pl_Policy p))].

(** ** Decoding: an absent or null member leaves the zero value *)
Definition type_error {A} : result A := Err (ErrorText "json: cannot unmarshal value").
Definition member (key : string) (j : json) : json := default JNull (json_field key j).
Definition un_string (j : json) : result string :=
  match j with JNull => Ok "" | JStr s => Ok s | _ => type_error end.
Definition un_int (j : json) : result Z :=
  match j with
  | JNull => Ok 0%Z
  | JNum n => if decide (in_int8 n) then Ok n else type_error
  | _ => type_error
  end.
Definition un_int_ptr (j : json) : result (option Z) :=
  match j with JNull => Ok None | _ => Some <$> un_int j end.
Fixpoint un_list {A} (f : json → result A) (l : list json) : result (list A) :=
  match l with
  | [] => Ok []
  | j :: l => a ← f j; l ← un_list f l; Ok (a :: l)
  end.
Definition un_strings (j : json) : result (option (list string)) :=
  match j with
  | JNull => Ok None
  | JArr l => l ← un_list un_string l; Ok (Some l)
  | _ => type_error
  end.
Definition un_object {A} (zero : A) (f : json → result A) (j : json) : result A :=
  match j with JNull => Ok zero | JObj _ => f j | _ => type_error end.

(** src: internal/pipeline/pipeline.go 11-18 StageSpec (json tags, decoding) *)
Definition unmarshal_spec : json → result StageSpec :=
  un_object (MkSpec "" "" None None "" None) (λ j,
    id ← un_string (member "id" j); agent ← un_string (member "agent" j);
    ds ← un_strings (member "depends_on" j); ap ← un_strings (member "approvals" j);
    model ← un_string (member "model" j); tools ← un_strings (member "tools" j);
    Ok (MkSpec id agent ds ap model tools)).
(** src: internal/pipeline/pipeline.go 19-28 Policy (json tags, decoding) *)
Definition unmarshal_policy : json → result Policy :=
  un_object (MkPolicy 0 0 "" None "" "") (λ j,
    r ← un_int (member "max_retries_per_approval" j);
    i ← un_int (member "execute_max_iterations" j);
    m ← un_string (member "default_model" j); b ← un_int_ptr (member "token_budget" j);
    '(mode, base) ← un_object ("", "") (λ pr, mode ← un_string (member "mode" pr);
      base ← un_string (member "base_branch" pr); Ok (mode, base)) (member "pr" j);
    Ok (MkPolicy r i m b mode base)).

(** [json.Unmarshal(t.Pipeline, &p)].
    src: internal/app/approval.go 85-88 UpdateApproval (pipeline decoding) *)
Definition unmarshal_pipeline : json → result Pipeline :=
  un_object (MkPipeline 0 [] (MkPolicy 0 0 "" None "" "")) (λ j,
    v ← un_int (member "version" j);
    ss ← match member "stages" j with
         | JNull => Ok []
         | JArr l => un_list unmarshal_spec l
         | _ => type_error
         end;
    po ← unmarshal_policy (member "policy" j);
    Ok (MkPipeline v ss po)).

(** ** Round trip *)
Lemma un_strings_marshal l : un_strings (marshal_strings l) = Ok l.
Proof.
  destruct l as [l|]; [|done]. simpl. enough (un_list un_string (JStr <$> l) = Ok l) as -> by done.
  induction l as [|x l IH]; [done|]. rewrite fmap_cons. simpl. by rewrite IH.
Qed.
Lemma un_list_map {A B} (f : json → result A) (g : B → json) (h : B → A) l :
  (∀ x, f (g x) = Ok (h x)) → un_list f (map g l) = Ok (map h l).
Proof. intros Hfg. induction l as [|x l IH]; [done|]. simpl. by rewrite Hfg, IH. Qed.

Lemma unmarshal_spec_marshal s : unmarshal_spec (marshal_spec s) = Ok s.
Proof.
  destruct s as [id ag ds ap m t]. unfold unmarshal_spec, marshal_spec, omit_empty, member.
  simpl. destruct (String.eqb_spec m ""); subst; simpl; by rewrite !un_strings_marshal.
Qed.

Record pipeline_ints (p : Pipeline) : Prop := {
  pi_version : in_int8 (pl_Version p);
  pi_retries : in_int8 (MaxRetries (pl_Policy p));
  pi_iterations : in_int8 (MaxIterations (pl_Policy p));
  pi_budget : ∀ b, po_TokenBudget (pl_Policy p) = Some b → in_int8 b }.

Lemma unmarshal_pipeline_marshal p :
  pipeline_ints p → unmarshal_pipeline (marshal_pipeline p) = Ok p.
Proof.
  destruct p as [v ss [r i m b mode base]]. intros [Hv Hr Hi Hb]; simpl in *.
  unfold unmarshal_pipeline, marshal_pipeline, member. simpl.
  rewrite decide_True by done. simpl.
  rewrite (un_list_map _ _ id) by apply unmarshal_spec_marshal. rewrite map_id. simpl.
  unfold member; destruct b as [b|]; simpl; rewrite !decide_True by auto; done.
Qed.

(** The pipeline a task stores is the pipeline every later decision reads back: JSON
    encoding and decoding are inverse on all pipelines whose integers fit, including the
    difference between an absent and an empty tool list. *)
Theorem pipeline_roundtrip p :
  pipeline_ints p → unmarshal_pipeline (marshal_pipeline p) = Ok p.
Proof. apply unmarshal_pipeline_marshal. Qed.

Lemma pipeline_roundtrip_witness :
  unmarshal_pipeline (marshal_pipeline demo_pipeline) = Ok demo_pipeline.
Proof. apply pipeline_roundtrip. by split; [by vm_compute..|]. Defined.

(** ** Progress *)
(** The stage rows of a task created from these specifications. *)
Definition instance_of (specs : list StageSpec) (rows : list StageEntity) : Prop :=
  map (λ r, (s_StageKey r, s_DependsOn r)) rows ≡ₚ map (λ s, (ss_ID s, deps s)) specs.

Lemma instance_row specs rows r :
  instance_of specs rows → r ∈ rows →
  ∃ s, s ∈ specs ∧ ss_ID s = s_StageKey r ∧ deps s = s_DependsOn r.
Proof.
  intros Hi Hr. assert ((s_StageKey r, s_DependsOn r) ∈ map (λ s, (ss_ID s, deps s)) specs)
    as (s & [= H1 H2] & Hs)%list_elem_of_fmap; [|by exists s].
  rewrite <- Hi. by apply (list_elem_of_fmap_2 (λ r, (s_StageKey r, s_DependsOn r))).
Qed.
Lemma instance_spec specs rows id :
  instance_of specs rows → id ∈ stage_ids specs → ∃ r, r ∈ rows ∧ s_StageKey r = id.
Proof.
  intros Hi (s & -> & Hs)%list_elem_of_fmap.
  assert ((ss_ID s, deps s) ∈ map (λ r, (s_StageKey r, s_DependsOn r)) rows)
    as (r & [= H1 H2] & Hr)%list_elem_of_fmap; [|by exists r].
  rewrite Hi. by apply (list_elem_of_fmap_2 (λ s, (ss_ID s, deps s))).
Qed.

(** If every row is pending or approved, some pending row has all its dependencies. *)
Lemma pending_ready specs rows rank n r :
  ranked specs rank → instance_of specs rows →
  (∀ r, r ∈ rows → s_Status r = "pending" ∨ s_Status r = "approved") →
  r ∈ rows → s_Status r = "pending" → (rank (s_StageKey r) < n)%nat →
  ∃ r', r' ∈ rows ∧ s_Status r' = "pending" ∧ Ready r' rows = true.
Proof.
  intros Hrank Hi Hall. revert r. induction n as [|n IH]; intros r Hr Hp Hn; [lia|].
  destruct (Ready r rows) eqn:Hready; [by exists r|].
  apply not_true_iff_false in Hready. rewrite Ready_spec in Hready.
  destruct (instance_row _ _ _ Hi Hr) as (s & Hs & Hid & Hds).
  assert (Exists (λ d, ¬ Exists (λ p, s_StageKey p = d ∧ s_Status p = "approved") rows)
    (s_DependsOn r)) as (d & Hd & Hnd)%Exists_exists.
  { apply not_Forall_Exists; [intros d; apply _|]. intros Hf. apply Hready.
    intros d Hd. rewrite Forall_forall in Hf. by apply Exists_exists, Hf. }
  rewrite <- Hds in Hd. destruct (Hrank s d Hs Hd) as [Hknown Hlt].
  destruct (instance_spec _ _ _ Hi Hknown) as (r' & Hr' & <-).
  destruct (Hall r' Hr') as [Hp'|Ha]; [apply (IH r'); [done|done|rewrite Hid in Hlt; lia]|].
  destruct Hnd. apply Exists_exists. by exists r'.
Qed.

(** C35: a task whose stages come from an accepted pipeline is never stuck: as long as it is
    neither terminal, paused nor queued, its stages make [Derive] a definite answer (it
    waits for an approval, is completed, has a stage to run, or waits for a blocked one);
    the fall-through that keeps an old status is unreachable. *)
Theorem pipeline_never_stuck p rows status :
  valid_pipeline p → instance_of (pl_Stages p) rows →
  (∀ r, r ∈ rows → s_Status r ∈ stage_statuses) → derivable status = true →
  Derive status rows ∈ ["waiting_approval"; "completed"; "running"; "blocked"].
Proof.
  intros Hv Hi Hst Hd. rewrite Derive_open by done.
  destruct (existsb in_review rows) eqn:E1; [solve_elem|].
  destruct (bool_decide (rows ≠ []) && _) eqn:E2; [solve_elem|].
  destruct (existsb (is_runnable rows) rows) eqn:E3; [solve_elem|].
  destruct (existsb is_blocked rows) eqn:E4; [solve_elem|]. exfalso.
  assert (rows ≠ []) as Hne.
  { intros ->. apply (vp_nonempty _ Hv). unfold instance_of in Hi. simpl in Hi.
    apply Permutation_nil_l, symmetry, fmap_nil_inv in Hi. done. }
  rewrite bool_decide_eq_true_2 in E2 by done. simpl in E2.
  pose proof (existsb_false_elem _ _ E1) as H1. pose proof (existsb_false_elem _ _ E3) as H3.
  pose proof (existsb_false_elem _ _ E4) as H4.
  assert (∀ r, r ∈ rows → s_Status r = "pending" ∨ s_Status r = "approved") as Hall.
  { intros r Hr. specialize (H1 r Hr). specialize (H3 r Hr). specialize (H4 r Hr).
    specialize (Hst r Hr). unfold in_review, is_runnable, is_blocked in *.
    unfold stage_statuses in Hst. rewrite !elem_of_cons, elem_of_nil in Hst.
    destruct Hst as [E|[E|[E|[E|[E|[E|[E|[]]]]]]]]; rewrite E in *; by auto. }
  apply not_true_iff_false in E2. apply E2, forallb_elem. intros r Hr.
  destruct (Hall r Hr) as [Hp|Ha]; [exfalso|by unfold is_approved; rewrite Ha].
  destruct (vp_acyclic _ Hv) as [rank Hrank].
  destruct (pending_ready _ _ rank _ r Hrank Hi Hall Hr Hp (Nat.lt_succ_diag_r _))
    as (r' & Hr' & Hp' & Hready).
  specialize (H3 r' Hr'). unfold is_runnable in H3. by rewrite Hp', Hready in H3.
Qed.

Definition demo_rows (st : string) : list StageEntity :=
  map (λ s, MkStage None 0 None None 0 None None 0 0 (ss_ID s) "t" (ss_ID s) (ss_Agent s) st
              (deps s) 0) (pl_Stages demo_pipeline).

Lemma pipeline_never_stuck_witness :
  Derive "blocked" (demo_rows "pending") ∈
    ["waiting_approval"; "completed"; "running"; "blocked"].
Proof.
  apply (pipeline_never_stuck (MkPipeline 1 (map fill_defaults (pl_Stages demo_pipeline))
    (pl_Policy demo_pipeline))); [..|done].
  - destruct (ParsePipeline_inv (λ _ _, Ok demo_pipeline) "" (MkPipeline 1
      (map fill_defaults (pl_Stages demo_pipeline)) (pl_Policy demo_pipeline)))
      as (?&_&H&_); [vm_compute; reflexivity|exact H].
  - vm_compute. reflexivity.
  - intros r (s & -> & _)%list_elem_of_fmap. unfold stage_statuses. solve_elem.
Defined.
