(* ===== verification/Agent.v ===== *)
(** * Agent definitions and the input and result of a stage run
    ([internal/agentdef/loader.go], [internal/stage/runner.go]) *)
From S2P Require Import Prelude GoStrings Domain Pipeline.

(** src: internal/agentdef/loader.go 15-26 AgentSpec *)
Record AgentSpec := MkAgent {
  ag_Color : string; ag_Name : string; ag_DisplayName : string; ag_ToolProfile : string;
  ag_WritePaths : option (list string); ag_Model : string; ag_TestCommand : string;
  ag_Persona : string; ag_Conventions : string; ag_Knowledge : string }.
Definition no_agent : AgentSpec := MkAgent "" "" "" "" None "" "" "" "" "".

(** src: internal/agentdef/loader.go 27-32 Definition *)
Record Def := MkDef {
  df_Pipeline : Pipeline; df_Agents : gmap string AgentSpec; df_ProjectSpec : string;
  df_Workspace : string }.
(** Indexing a Go map gives the zero value for a missing key. *)
Definition agent_of (d : Def) (name : string) : AgentSpec :=
  default no_agent (df_Agents d !! name).

(** The callback [Emit] is not part of the value: the runner's events are a parameter of
    the code that runs it.
    src: internal/stage/runner.go 18-24 Input *)
Record Input := MkInput {
  in_TaskID : string; in_Command : string; in_Mode : string; in_Plan : string;
  in_Feedback : string; in_Inputs : string; in_Stage : StageSpec; in_Definition : Def;
  in_RetryNo : Z }.
(** src: internal/stage/runner.go 25-31 Result *)
Record Result := MkResult {
  r_Content : string; r_Ref : option string; r_WrittenPaths : option (list string);
  r_Iterations : Z; r_HitLimit : bool }.
Definition content_result (content : string) : Result := MkResult content None None 0 false.

(** src: internal/stage/runner.go 41-49 Model *)
Definition Model (d : Def) (s : StageSpec) : string :=
  if ss_Model s ≠? "" then ss_Model s
  else if ag_Model (agent_of d (ss_Agent s)) ≠? "" then ag_Model (agent_of d (ss_Agent s))
  else DefaultModel (pl_Policy (df_Pipeline d)).

(** src: internal/stage/runner.go 158-164 Truncate *)
Definition Truncate (s : string) (n : nat) : string :=
  let r := runes s in
  if decide (n < length r)%nat then of_runes (take n r) +:+ "…" else s.

(** truncation cuts at rune boundaries: the result holds at most [n] runes of the text
    and one ellipsis, all of them runes of the text in order, and a text of at most [n]
    runes is returned unchanged, invalid bytes included. *)
Theorem Truncate_runes s n :
  runes (Truncate s n) =
  if decide (n < length (runes s))%nat then take n (runes s) ++ [8230%N] else runes s.
Proof.
  unfold Truncate. case_decide; [|done].
  change "…" with (of_runes [8230%N]). rewrite <- of_runes_app, runes_of_runes; [done|].
  apply Forall_app. split; [by apply Forall_take|by repeat constructor].
Qed.
