(* ===== verification/Llm.v ===== *)
(** * Models: requests, responses and the registry ([internal/llm/llm.go])

    A model is what [Get] picked; the adapters of the providers are in files of their own. *)
From S2P Require Import Prelude GoStrings.

(** ** Messages *)
(** [json.RawMessage]: the text, and its value when the text is valid JSON, with member names
    as [encoding/json] matches them to a struct's fields. *)
Record RawMessage := MkRaw { raw_text : string; raw_json : option json }.
(** src: internal/llm/llm.go 11-15 ToolSpec *)
Record ToolSpec := MkToolSpec { ts_Name : string; ts_Description : string; ts_Schema : json }.
(** src: internal/llm/llm.go 16-19 ToolCall *)
Record ToolCall := MkToolCall { tc_ID : string; tc_Name : string; tc_Args : RawMessage }.
(** src: internal/llm/llm.go 20-23 Message *)
Record Message := MkMessage {
  ms_Role : string; ms_Text : string; ms_CallID : string; ms_Calls : list ToolCall }.
(** src: internal/llm/llm.go 24-29 Usage *)
Record Usage := MkTokens {
  us_Input : Z; us_Output : Z; us_CacheRead : Z; us_CacheWrite : Z }.
(** src: internal/llm/llm.go 30-35 ChatRequest *)
Record ChatRequest := MkChatRequest {
  cr_System : string; cr_Messages : list Message; cr_Tools : list ToolSpec; cr_MaxTokens : Z }.
(** src: internal/llm/llm.go 36-41 ChatResponse *)
Record ChatResponse := MkChatResponse {
  ch_Text : string; ch_ToolCalls : list ToolCall; ch_Model : string; ch_Usage : Usage }.

(** ** The registry *)
(** A provider is its name; the factories are the adapters.
    src: internal/llm/llm.go 46-50 Registry *)
Record Registry := MkRegistry { rg_Providers : list string; rg_ForceFake : bool }.
Definition fake_model (model : string) : bool :=
  (model =? "") || (model =? "fake") || (model =? "fake/echo").
(** What [Get] picks: the fake, or a provider's factory applied to a model name. *)
Inductive LLM := Fake | Provided (provider name : string).

Section registry.
Context {UC : Unicode}.
(** src: internal/llm/llm.go 52-61 Registry.Validate *)
Definition Validate (r : Registry) (model : string) : result unit :=
  if fake_model model then Ok tt else
  let refuse := Err (ErrorText ("model must be a supported 'provider/model': " +:+ Quote model)) in
  match Cut model "/" with
  | None => refuse
  | Some (provider, name) =>
    if (TrimSpace name =? "") || negb (existsb (λ p, p =? provider) (rg_Providers r))
    then refuse else Ok tt
  end.
(** src: internal/llm/llm.go 62-71 Registry.Get *)
Definition Get (r : Registry) (model : string) : result LLM :=
  _ ← Validate r model;
  if rg_ForceFake r || fake_model model then Ok Fake else
  match Cut model "/" with
  | Some (provider, name) => Ok (Provided provider name)
  | None => Ok (Provided "" "")
  end.

(** A model is served by a real provider only when the registry has it: [Get] succeeds
    on exactly the validated names, never calls a missing factory, and a forced fake is
    never bypassed. *)
Theorem Get_supported r model m :
  Get r model = Ok m ↔ Validate r model = Ok tt ∧
  ((m = Fake ∧ (rg_ForceFake r = true ∨ fake_model model = true)) ∨
   (rg_ForceFake r = false ∧ fake_model model = false ∧ ∃ provider name,
     m = Provided provider name ∧ Cut model "/" = Some (provider, name) ∧
     provider ∈ rg_Providers r ∧ TrimSpace name ≠ "")).
Proof.
  unfold Get. destruct (Validate r model) as [[]|] eqn:Hv; simpl; [|naive_solver].
  unfold Validate in Hv.
  destruct (rg_ForceFake r), (fake_model model) eqn:Hf; simpl; try naive_solver.
  destruct (Cut model "/") as [[p n]|]; [|done].
  destruct (String.eqb_spec (TrimSpace n) ""); [done|]. simpl in Hv.
  destruct (existsb _ _) eqn:He; [|done].
  apply existsb_elem in He as (x & Hx & ->%String.eqb_eq).
  split; [|naive_solver]. intros [= <-]. split; [done|]. right. eauto 10.
Qed.
End registry.
