(* ===== verification/Tools.v ===== *)
(** * The tools of a stage ([internal/tools/sandbox.go]) *)
From S2P Require Import Prelude GoStrings Domain Pipeline PipelineJSON Agent Llm.

(** src: internal/tools/sandbox.go 26-31 ToolArgs *)
Record ToolArgs := MkToolArgs {
  ta_Path : string; ta_Content : string; ta_Pattern : string; ta_Glob : string }.
(** [json.Unmarshal(raw, &args)].
    src: internal/tools/sandbox.go 174-177 Sandbox.Call (arguments) *)
Definition unmarshal_args (raw : RawMessage) : result ToolArgs :=
  match raw_json raw with
  | None => Err (ErrorText "json: invalid document")
  | Some j =>
    un_object (MkToolArgs "" "" "" "") (λ j,
      p ← un_string (member "path" j); c ← un_string (member "content" j);
      r ← un_string (member "pattern" j); g ← un_string (member "glob" j);
      Ok (MkToolArgs p c r g)) j
  end.
(** The root is the directory the stage works in; [Timeout] is in nanoseconds.
    src: internal/tools/sandbox.go 32-37 Sandbox *)
Record Sandbox := MkSandbox {
  sb_Root : string; sb_Agent : AgentSpec; sb_Timeout : Z; sb_Allowed : option (list string) }.

(** [fmt.Sprintf("%v", l)] of a string slice. *)
Definition fmt_v_strings (l : list string) : string := "[" +:+ Join " " l +:+ "]".
(** A JSON schema of an object with string properties. *)
Definition object_schema (properties required : list string) : json :=
  JObj ([("type", JStr "object");
         ("properties", JObj (map (λ p, (p, JObj [("type", JStr "string")])) properties))] ++
        if decide (required = []) then [] else [("required", JStrs required)]).
(** src: internal/tools/sandbox.go 104-129 Sandbox.Tools *)
Definition Tools (agent : AgentSpec) (allowed : option (list string)) : list ToolSpec :=
  let tools :=
    [MkToolSpec "read_file" "Read a repository file using a relative path."
       (object_schema ["path"] ["path"]);
     MkToolSpec "list_dir" "List repository files in a directory." (object_schema ["path"] []);
     MkToolSpec "search" "Search file contents with a regular expression."
       (object_schema ["pattern"; "glob"] ["pattern"])] ++
    (if (ag_ToolProfile agent ≠? "publisher")
        && bool_decide (0 < length (elems (ag_WritePaths agent)))%nat
     then [MkToolSpec "write_file"
             ("Write a file. Allowed paths: " +:+ fmt_v_strings (elems (ag_WritePaths agent)))
             (object_schema ["path"; "content"] ["path"; "content"])] else []) ++
    (if (ag_ToolProfile agent =? "code-writer") && (ag_TestCommand agent ≠? "")
     then [MkToolSpec "run_tests" "Run the repository's configured test command."
             (object_schema [] [])] else []) in
  match allowed with
  | None => tools
  | Some l => filter (λ t, existsb (λ name, ts_Name t =? name) l) tools
  end.
(** The names of the tools. *)
Definition tool_names (agent : AgentSpec) (allowed : option (list string)) : list string :=
  ts_Name <$> Tools agent allowed.

Lemma tool_names_all agent :
  tool_names agent None = ["read_file"; "list_dir"; "search"] ++
    (if (ag_ToolProfile agent ≠? "publisher")
        && bool_decide (0 < length (elems (ag_WritePaths agent)))%nat
     then ["write_file"] else []) ++
    (if (ag_ToolProfile agent =? "code-writer") && (ag_TestCommand agent ≠? "")
     then ["run_tests"] else []).
Proof. unfold tool_names, Tools. rewrite !fmap_app. by repeat case_match. Qed.
Lemma tool_names_allowed agent l t :
  t ∈ tool_names agent (Some l) ↔ t ∈ tool_names agent None ∧ t ∈ l.
Proof.
  unfold tool_names. rewrite !list_elem_of_fmap. split.
  - intros (s & -> & [Hs Hin]%list_elem_of_filter). split; [by exists s|].
    apply Is_true_true, existsb_elem in Hs as (x & Hx & E%String.eqb_eq). by rewrite E.
  - intros [(s & -> & Hin) Hl]. exists s. split; [done|]. apply list_elem_of_filter. split; [|done].
    apply Is_true_true, existsb_elem. exists (ts_Name s). by rewrite String.eqb_refl.
Qed.

(** The tools offered to a stage never exceed what its agent may do, whatever the stage
    allows: a publisher and an agent without write paths get no [write_file], only a
    [code-writer] with a test command gets [run_tests], the rest is read-only, and an
    allow-list only narrows. *)
Theorem Tools_least_privilege agent allowed t :
  t ∈ tool_names agent allowed →
  t ∈ tool_names agent None ∧ (∀ l, allowed = Some l → t ∈ l) ∧
  (t = "write_file" → ag_ToolProfile agent ≠ "publisher" ∧ elems (ag_WritePaths agent) ≠ []) ∧
  (t = "run_tests" → ag_ToolProfile agent = "code-writer" ∧ ag_TestCommand agent ≠ "") ∧
  t ∈ ["read_file"; "list_dir"; "search"; "write_file"; "run_tests"].
Proof.
  intros Ht. assert (t ∈ tool_names agent None) as Hn.
  { destruct allowed; [|done]. by apply tool_names_allowed in Ht as [? _]. }
  split_and!; [done| |clear Ht; rewrite tool_names_all in Hn; revert Hn..].
  - intros l ->. by apply tool_names_allowed in Ht as [_ ?].
  - intros Hn ->. revert Hn.
    destruct (String.eqb_spec (ag_ToolProfile agent) "publisher"), (elems (ag_WritePaths agent));
      simpl; case_match; simpl; rewrite ?elem_of_cons, ?elem_of_nil; naive_solver.
  - intros Hn ->. revert Hn.
    destruct (String.eqb_spec (ag_ToolProfile agent) "code-writer"),
      (String.eqb_spec (ag_TestCommand agent) "");
      simpl; case_match; simpl; rewrite ?elem_of_cons, ?elem_of_nil; naive_solver.
  - repeat case_match; set_solver.
Qed.

Lemma Tools_least_privilege_witness :
  "run_tests" ∈ tool_names (MkAgent "" "be" "" "code-writer" (Some ["src/**"]) "" "go test" "" ""
    "") (Some ["run_tests"; "rm"]) ∧ "go test" ≠ "".
Proof.
  assert ("run_tests" ∈ tool_names (MkAgent "" "be" "" "code-writer" (Some ["src/**"]) ""
    "go test" "" "" "") (Some ["run_tests"; "rm"])) as H by (vm_compute; constructor).
  split; [done|]. apply (Tools_least_privilege _ _ _ H). reflexivity.
Defined.
