(* ===== verification/Adapters.v ===== *)
(** * The model adapters ([internal/llm/anthropic], [internal/llm/openai])

    An adapter turns the messages of a run into a request of a provider's package and its
    answer into a turn of the model.  The packages are interfaces: what a request is made of,
    and how the provider answers. *)
From S2P Require Import Prelude GoStrings Domain Pipeline PipelineJSON Agent Llm.

(** ** What the packages take and give *)
(** Why a request failed: an HTTP status, or anything else. *)
Inductive failure := HTTPStatus (code : Z) | OtherFailure.
(** [api_err] is [ctx.Err()]; [api_schema] decodes the schema of a tool. *)
Record Api (S Request Response : Type) := MkApi {
  api_new : Request → S → (failure + Response) * S;
  api_err : S → option error;
  api_schema : json → result json }.
Arguments api_new {S Request Response}. Arguments api_err {S Request Response}.
Arguments api_schema {S Request Response}.
Definition tool_param : Type := string * string * json.

Definition max_tokens (r : ChatRequest) : Z :=
  if (cr_MaxTokens r =? 0)%Z then 8192%Z else cr_MaxTokens r.
Fixpoint tool_params (schema : json → result json) (specs : list ToolSpec)
    : result (list tool_param) :=
  match specs with
  | [] => Ok []
  | t :: specs =>
    s ← schema (ts_Schema t); l ← tool_params schema specs;
    Ok ((ts_Name t, ts_Description t, s) :: l)
  end.
(** A request to the provider, and what [ctx.Err()] says afterwards. *)
Definition send {S Request Response} (api : Api S Request Response) (p : Request)
    : io S (failure + Response) :=
  λ σ, let '(r, σ) := api_new api p σ in (Ok r, σ).
Definition cancelled {S Request Response} (api : Api S Request Response) : io S (option error) :=
  λ σ, (Ok (api_err api σ), σ).
