(* ===== verification/Anthropic.v ===== *)
(** * The Anthropic adapter ([internal/llm/anthropic/anthropic.go]) *)
From S2P Require Import Prelude GoStrings Domain Pipeline PipelineJSON Agent Llm Adapters.

(** The blocks of a message, as the package's constructors make them. *)
Inductive Block :=
  | TextBlock (text : string)
  | ToolUseBlock (id : string) (input : RawMessage) (name : string)
  | ToolResultBlock (id text : string) (is_error : bool).
Record Param := MkParam { pm_Role : string; pm_Content : list Block }.
Record Request := MkRequest {
  an_Model : string; an_MaxTokens : Z; an_System : string; an_Messages : list Param;
  an_Tools : list tool_param }.
(** A block of an answer by its type, of which two are looked at. *)
Inductive Answer :=
  | AnswerText (text : string)
  | AnswerToolUse (id name : string) (input : RawMessage)
  | AnswerOther.
Record Response := MkResponse {
  an_Content : list Answer; an_Input : Z; an_Output : Z; an_CacheRead : Z; an_CacheCreation : Z }.

(** src: internal/llm/anthropic/anthropic.go 33-33 Adapter.Chat (tool error) *)
Definition is_denial (text : string) : bool :=
  HasPrefix text "[denied]" || HasPrefix text "[bad args]" || HasPrefix text "[not found]".
(** A result joins the user message before it.
    src: internal/llm/anthropic/anthropic.go 32-40 Adapter.Chat (tool result) *)
Definition add_result (params : list Param) (m : Message) : list Param :=
  let block := ToolResultBlock (ms_CallID m) (ms_Text m) (is_denial (ms_Text m)) in
  match last params with
  | Some p =>
    if pm_Role p =? "user"
    then removelast params ++ [MkParam (pm_Role p) (pm_Content p ++ [block])]
    else params ++ [MkParam "user" [block]]
  | None => params ++ [MkParam "user" [block]]
  end.
(** src: internal/llm/anthropic/anthropic.go 45-50 Adapter.Chat (tool uses) *)
Fixpoint tool_uses (calls : list ToolCall) : result (list Block) :=
  match calls with
  | [] => Ok []
  | t :: calls =>
    match raw_json (tc_Args t) with
    | None => Err (ErrorText "invalid tool arguments")
    | Some _ => l ← tool_uses calls; Ok (ToolUseBlock (tc_ID t) (tc_Args t) (tc_Name t) :: l)
    end
  end.
(** src: internal/llm/anthropic/anthropic.go 41-44 Adapter.Chat (text) *)
Definition text_blocks (text : string) : list Block := if text =? "" then [] else [TextBlock text].
(** src: internal/llm/anthropic/anthropic.go 31-58 Adapter.Chat (message) *)
Definition add_message (params : list Param) (m : Message) : result (list Param) :=
  if ms_Role m =? "tool" then Ok (add_result params m) else
  uses ← tool_uses (ms_Calls m);
  let blocks := text_blocks (ms_Text m) ++ uses in
  if ms_Role m =? "assistant" then Ok (params ++ [MkParam "assistant" blocks])
  else if ms_Role m =? "user" then Ok (params ++ [MkParam "user" blocks])
  else Err (ErrorText ("unsupported message role: " +:+ ms_Role m)).
(** src: internal/llm/anthropic/anthropic.go 31-58 Adapter.Chat (messages) *)
Fixpoint add_messages (params : list Param) (messages : list Message) : result (list Param) :=
  match messages with
  | [] => Ok params
  | m :: messages => params ← add_message params m; add_messages params messages
  end.
(** src: internal/llm/anthropic/anthropic.go 26-65 Adapter.Chat (request) *)
Definition request (model : string) (schema : json → result json) (r : ChatRequest)
    : result Request :=
  messages ← add_messages [] (cr_Messages r);
  tools ← tool_params schema (cr_Tools r);
  Ok (MkRequest model (max_tokens r) (cr_System r) messages tools).
(** src: internal/llm/anthropic/anthropic.go 78-85 Adapter.Chat (content) *)
Definition add_answer (acc : string * list ToolCall) (b : Answer) : string * list ToolCall :=
  match b with
  | AnswerText text => (acc.1 +:+ text, acc.2)
  | AnswerToolUse id name input => (acc.1, acc.2 ++ [MkToolCall id name input])
  | AnswerOther => acc
  end.
(** src: internal/llm/anthropic/anthropic.go 77-86 Adapter.Chat (response) *)
Definition response (model : string) (res : Response) : ChatResponse :=
  let '(text, calls) := fold_left add_answer (an_Content res) ("", []) in
  MkChatResponse text calls ("anthropic/" +:+ model)
    (MkTokens (an_Input res) (an_Output res) (an_CacheRead res) (an_CacheCreation res)).
(** src: internal/llm/anthropic/anthropic.go 67-76 Adapter.Chat (failure) *)
Definition failed (cancelled : option error) (f : failure) : error :=
  match cancelled, f with
  | Some e, _ => e
  | None, HTTPStatus code => ErrorText ("anthropic request failed: HTTP " +:+ fmt_d code)
  | None, OtherFailure => ErrorText "anthropic request failed"
  end.
(** src: internal/llm/anthropic/anthropic.go 25-87 Adapter.Chat *)
Definition Chat {S} (api : Api S Request Response) (model : string) (r : ChatRequest)
    : io S ChatResponse :=
  p ← give (request model (api_schema api) r);
  r ← send api p;
  match r with
  | inl f => e ← cancelled api; raise (failed e f)
  | inr res => mret (response model res)
  end.
