(* ===== verification/OpenAI.v ===== *)
(** * The OpenAI adapter ([internal/llm/openai/openai.go]), also used for Ollama *)
From S2P Require Import Prelude GoStrings Domain Pipeline PipelineJSON Agent Llm Adapters.

Inductive Param :=
  | SystemMessage (text : string)
  | UserMessage (text : string)
  | ToolMessage (text id : string)
  | AssistantMessage (text : string) (calls : list (string * string * string)).
Record Request := MkRequest {
  oa_Model : string; oa_MaxTokens : Z; oa_Messages : list Param; oa_Tools : list tool_param }.
(** A tool call of an answer: its type, name, id and arguments. *)
Record Call := MkCall {
  oc_Type : string; oc_ID : string; oc_Name : string; oc_Arguments : RawMessage }.
Record Choice := MkChoice { och_Content : string; och_ToolCalls : list Call }.
Record Response := MkResponse {
  oa_Choices : list Choice; oa_Prompt : Z; oa_Completion : Z; oa_Cached : Z }.

(** src: internal/llm/openai/openai.go 32-45 Adapter.Chat (message) *)
Definition param (m : Message) : result Param :=
  if ms_Role m =? "user" then Ok (UserMessage (ms_Text m))
  else if ms_Role m =? "tool" then Ok (ToolMessage (ms_Text m) (ms_CallID m))
  else if ms_Role m =? "assistant" then
    Ok (AssistantMessage (ms_Text m)
          (map (λ t, (tc_ID t, tc_Name t, raw_text (tc_Args t))) (ms_Calls m)))
  else Err (ErrorText ("unsupported message role: " +:+ ms_Role m)).
(** src: internal/llm/openai/openai.go 31-46 Adapter.Chat (messages) *)
Fixpoint params (messages : list Message) : result (list Param) :=
  match messages with
  | [] => Ok []
  | m :: messages => p ← param m; l ← params messages; Ok (p :: l)
  end.
(** src: internal/llm/openai/openai.go 26-53 Adapter.Chat (request) *)
Definition request (model : string) (schema : json → result json) (r : ChatRequest)
    : result Request :=
  messages ← params (cr_Messages r);
  tools ← tool_params schema (cr_Tools r);
  Ok (MkRequest model (max_tokens r) (SystemMessage (cr_System r) :: messages) tools).
(** The arguments must be an object.
    src: internal/llm/openai/openai.go 69-78 Adapter.Chat (tool calls) *)
Fixpoint tool_calls (calls : list Call) : result (list ToolCall) :=
  match calls with
  | [] => Ok []
  | t :: calls =>
    if oc_Type t ≠? "function" then Err (ErrorText ("unsupported tool call type: " +:+ oc_Type t)) else
    match raw_json (oc_Arguments t) with
    | Some (JObj _) =>
      l ← tool_calls calls; Ok (MkToolCall (oc_ID t) (oc_Name t) (oc_Arguments t) :: l)
    | _ => Err (ErrorText ("invalid tool arguments for " +:+ oc_Name t))
    end
  end.
(** src: internal/llm/openai/openai.go 65-79 Adapter.Chat (response) *)
Definition response (provider model : string) (res : Response) : result ChatResponse :=
  match oa_Choices res with
  | [] => Err (ErrorText (provider +:+ " returned no choices"))
  | c :: _ =>
    calls ← tool_calls (och_ToolCalls c);
    Ok (MkChatResponse (och_Content c) calls (provider +:+ "/" +:+ model)
          (MkTokens (oa_Prompt res) (oa_Completion res) (oa_Cached res) 0))
  end.
(** src: internal/llm/openai/openai.go 55-64 Adapter.Chat (failure) *)
Definition failed (provider : string) (cancelled : option error) (f : failure) : error :=
  match cancelled, f with
  | Some e, _ => e
  | None, HTTPStatus code => ErrorText (provider +:+ " request failed: HTTP " +:+ fmt_d code)
  | None, OtherFailure => ErrorText (provider +:+ " request failed")
  end.
(** src: internal/llm/openai/openai.go 25-80 Adapter.Chat *)
Definition Chat {S} (api : Api S Request Response) (provider model : string) (r : ChatRequest)
    : io S ChatResponse :=
  p ← give (request model (api_schema api) r);
  r ← send api p;
  match r with
  | inl f => e ← cancelled api; raise (failed provider e f)
  | inr res => give (response provider model res)
  end.
