(* ===== verification/FakeModel.v ===== *)
(** * The fake model ([internal/llm/fake/fake.go])

    A model without a provider, for local runs: it plans, writes one document and then submits
    it.  Its regular expressions have no choice to make, so each is a scan. *)
From S2P Require Import Prelude GoStrings Domain Pipeline PipelineJSON Agent Llm.

(** src: internal/llm/fake/fake.go 15-26 marker *)
Definition marker (text name : string) : string :=
  match Index text ("[[" +:+ name +:+ "]]") with
  | None => ""
  | Some a =>
    let text := drop_string (a + String.length name + 4) text in
    match Index text ("[[/" +:+ name +:+ "]]") with
    | None => ""
    | Some b => TrimSpace (take_string b text)
    end
  end.

(** ** The regular expressions *)
(** [[A-Za-z0-9가-힣]]: letters, digits and Hangul syllables. *)
Definition word_rune (r : N) : bool :=
  ((65 <=? r) && (r <=? 90) || (97 <=? r) && (r <=? 122) || (48 <=? r) && (r <=? 57)
   || (44032 <=? r) && (r <=? 55203))%N.
(** The maximal runs of such runes. *)
Fixpoint word_runs (word : list N) (l : list N) : list (list N) :=
  match l with
  | [] => if decide (word = []) then [] else [word]
  | r :: l =>
    if word_rune r then word_runs (word ++ [r]) l
    else (if decide (word = []) then [] else [word]) ++ word_runs [] l
  end.
(** src: internal/llm/fake/fake.go 43-43 LLM.Chat (words) *)
Definition words (text : string) : list string := map of_runes (take 4 (word_runs [] (runes text))).
Fixpoint take_while (f : N → bool) (s : string) : string :=
  match s with
  | EmptyString => ""
  | String c s => if f (byte_of c) then String c (take_while f s) else ""
  end.
(** [\w], the hyphen and the slash. *)
Definition path_byte (b : N) : bool :=
  ((65 <=? b) && (b <=? 90) || (97 <=? b) && (b <=? 122) || (48 <=? b) && (b <=? 57)
   || (b =? 95) || (b =? 45) || (b =? 47))%N.
(** [docs/[\w\-/]+\.md], found from the left; the run cannot contain the dot.
    src: internal/llm/fake/fake.go 68-68 LLM.Chat (target) *)
Fixpoint find_doc (s : string) : string :=
  let run := take_while path_byte (drop_string 5 s) in
  if HasPrefix s "docs/" && (run ≠? "") && HasPrefix (drop_string (5 + String.length run) s) ".md"
  then "docs/" +:+ run +:+ ".md"
  else match s with EmptyString => "" | String _ s => find_doc s end.
(** The first write path that a refusal names, up to a quote or a star.
    src: internal/llm/fake/fake.go 76-76 LLM.Chat (write path) *)
Definition quote : string := String (chr 34) "".
Definition allowed_prefix : string := "write_paths=[" +:+ quote.
Fixpoint find_allowed (s : string) : option string :=
  let run := take_while (λ b, negb ((b =? 34) || (b =? 42))%N)
               (drop_string (String.length allowed_prefix) s) in
  if HasPrefix s allowed_prefix && (run ≠? "") then Some run
  else match s with EmptyString => None | String _ s => find_allowed s end.
(** ** The answer *)
Section chat.
Context {UC : Unicode} (render : json → string).

Definition nl : string := String (chr 10) "".
(** src: internal/llm/fake/fake.go 43-47 LLM.Chat (slug) *)
Definition slug (user : string) : string :=
  let s := ToLower (Join "-" (words (marker user "COMMAND"))) in if s =? "" then "task" else s.
(** src: internal/llm/fake/fake.go 49-53 LLM.Chat (body) *)
Definition body (slug feedback : string) : string :=
  let tail := if feedback =? "" then ""
              else nl +:+ "## 반려 반영 내역" +:+ nl +:+ "- " +:+ feedback +:+ nl in
  "# " +:+ slug +:+ " 요구사항 정의서 (fake)" +:+ nl +:+ tail +:+ nl +:+ "## 1. 배경과 목표" +:+ nl +:+
  "(fake)" +:+ nl +:+ nl +:+ "## 4. 유스케이스" +:+ nl +:+ "### UC-001: (fake)" +:+ nl +:+
  "- 사전조건:" +:+ nl +:+ "- 주 흐름:" +:+ nl +:+ "  1. …" +:+ nl +:+ "- 대안·예외 흐름:" +:+ nl +:+
  "  - E1 …" +:+ nl +:+ "- 사후조건:" +:+ nl +:+ nl +:+ "```yaml" +:+ nl +:+ "# devsquad:summary" +:+ nl +:+
  "use_cases: [UC-001]" +:+ nl +:+ "screens: []" +:+ nl +:+ "entities: []" +:+ nl +:+ "```" +:+ nl.
(** src: internal/llm/fake/fake.go 56-59 LLM.Chat (plan) *)
Definition plan (slug feedback : string) : string :=
  "## 계획 — " +:+ slug +:+ nl +:+
  "1. 요청 해석: (fake) 요청을 요구사항 정의서로 구조화한다" +:+ nl +:+
  "2. 작성할 문서: docs/spec/" +:+ slug +:+ ".md" +:+ nl +:+
  "3. 포함할 유스케이스 (예상): UC-001, UC-002" +:+ nl +:+
  "4. 확인이 필요한 질문: 없음" +:+ nl +:+ "5. 범위 밖으로 둘 것: 없음" +:+ nl +:+
  (if feedback =? "" then "" else "6. 반려 반영: " +:+ feedback).
(** The first question and the last result of a tool.
    src: internal/llm/fake/fake.go 31-42 LLM.Chat (messages) *)
Definition first_user (ms : list Message) : string :=
  fold_left (λ user m, if (ms_Role m =? "user") && (user =? "") then ms_Text m else user) ms "".
Definition last_tool (ms : list Message) : option Message :=
  last (filter (λ m, ms_Role m = "tool") ms).
(** Where the document goes: the path of the question, and after a refusal a directory that the
    refusal names.
    src: internal/llm/fake/fake.go 68-80 LLM.Chat (path) *)
Definition target (user slug : string) (last : option Message) : string * string :=
  match last with
  | None => ("call_1", let t := find_doc user in if t =? "" then "docs/spec/" +:+ slug +:+ ".md" else t)
  | Some m =>
    ("call_2", match find_allowed (ms_Text m) with
               | Some dir => TrimRight dir "/" +:+ "/fallback.md"
               | None => "docs/fallback.md"
               end)
  end.
(** src: internal/llm/fake/fake.go 81-85 LLM.Chat (write) *)
Definition write_call (id path content : string) : ToolCall :=
  let args := JObj [("path", JStr path); ("content", JStr content)] in
  MkToolCall id "write_file" (MkRaw (render args) (Some args)).
(** src: internal/llm/fake/fake.go 55-90 LLM.Chat (answer) *)
Definition answer (r : ChatRequest) : string * list ToolCall :=
  let user := first_user (cr_Messages r) in
  let slug := slug user in
  let feedback := marker user "FEEDBACK" in
  if Contains user "[[MODE:plan]]" then (plan slug feedback, []) else
  match cr_Tools r with
  | [] => (body slug feedback, [])
  | specs =>
    let last := last_tool (cr_Messages r) in
    let denied := match last with None => true | Some m => HasPrefix (ms_Text m) "[denied]" end in
    if existsb (λ t, ts_Name t =? "write_file") specs && denied then
      let '(id, path) := target user slug last in
      ("결과물을 파일로 작성합니다.", [write_call id path (body slug feedback)])
    else ("완료 기준 자가 점검 완료. 결과물을 제출합니다.", [])
  end.
(** src: internal/llm/fake/fake.go 27-93 LLM.Chat *)
Definition Chat {S} (alive : io S unit) (r : ChatRequest) : io S ChatResponse :=
  alive;;
  let n := fold_left (λ n m, n + String.length (ms_Text m)) (cr_Messages r) (String.length (cr_System r)) in
  let '(text, calls) := answer r in
  mret (MkChatResponse text calls "fake/echo"
          (MkTokens (Z.of_nat n / 4) (Z.of_nat (String.length text) / 4) 0 0)).
End chat.

(** The fake model calls a tool only when [write_file] is offered, and only in its first turn or
    after a refusal; then it makes one call of it. *)
Lemma answer_calls `{UC : Unicode} render r :
  (answer render r).2 = [] ∨
  (∃ t, t ∈ cr_Tools r ∧ ts_Name t = "write_file") ∧
  match last_tool (cr_Messages r) with
  | None => True
  | Some m => HasPrefix (ms_Text m) "[denied]" = true
  end ∧ ∃ id path content, (answer render r).2 = [write_call render id path content].
Proof.
  unfold answer. destruct (Contains _ _); [by left|].
  destruct (cr_Tools r) as [|t specs] eqn:E; [by left|].
  destruct (existsb _ _ && _) eqn:H; [|by left]. right.
  apply andb_true_iff in H as [Hw Hd].
  apply existsb_elem in Hw as (t' & Hin & Hn%String.eqb_eq).
  split; [by exists t'|]. split; [by destruct (last_tool _)|].
  destruct (target _ _ _) as [id path]. by eexists _, _, _.
Qed.
Example marked : marker "a [[COMMAND]] do it [[/COMMAND]] b" "COMMAND" = "do it".
Proof. reflexivity. Qed.
Example found_doc : find_doc "write docs/.md or docs/spec/login-1.md, please" = "docs/spec/login-1.md".
Proof. reflexivity. Qed.
Example four_words : words "로그인 page, v2 of the site" = ["로그인"; "page"; "v2"; "of"].
Proof. vm_compute. reflexivity. Qed.
Example allowed_dir :
  find_allowed ("[denied] write_paths=[" +:+ quote +:+ "docs/spec/**" +:+ quote +:+ "]") = Some "docs/spec/".
Proof. vm_compute. reflexivity. Qed.
