(* ===== verification/PathGuard.v ===== *)
(** * Paths that agents may touch ([internal/pathguard/path.go])

    The lexical checks on relative paths, the names that are never touched, and the
    resolution of symbolic links.  The path functions of [path/filepath] are those of a Unix
    system; what the links of the disk say is a parameter. *)
From S2P Require Import Prelude GoStrings.

(** ** The path functions of the Go library *)
Definition slash : Ascii.ascii := chr 47.
Definition HasSuffix (s p : string) : bool :=
  drop_string (String.length s - String.length p) s =? p.
Definition IsAbs (p : string) : bool := HasPrefix p "/".

(** The elements of a cleaned path: no empty element, no [.], and [..] only in front of a
    path that is not rooted. *)
Definition clean_step (rooted : bool) (acc : list string) (part : string) : list string :=
  if (part =? "") || (part =? ".") then acc else
  if part =? ".." then
    match last acc with
    | None => if rooted then [] else [".."]
    | Some x => if x =? ".." then acc ++ [".."] else removelast acc
    end
  else acc ++ [part].
Definition clean_parts (p : string) : list string :=
  fold_left (clean_step (IsAbs p)) (Split slash p) [].
(** The path with these elements. *)
Definition path_of (rooted : bool) (parts : list string) : string :=
  if rooted then "/" +:+ Join "/" parts
  else if decide (parts = []) then "." else Join "/" parts.
Definition Clean (p : string) : string := path_of (IsAbs p) (clean_parts p).
Definition JoinPath (elements : list string) : string :=
  let l := filter (λ e, e ≠ "") elements in
  if decide (l = []) then "" else Clean (Join "/" l).

(** The longest common prefix of two lists is dropped from both. *)
Fixpoint drop_common (a b : list string) : list string * list string :=
  match a, b with
  | x :: a', y :: b' => if x =? y then drop_common a' b' else (a, b)
  | _, _ => (a, b)
  end.
(** [filepath.Rel] *)
Definition Rel (base target : string) : result string :=
  let b := Clean base in
  let t := Clean target in
  if t =? b then Ok "." else
  if negb (Bool.eqb (IsAbs b) (IsAbs t)) then Err (ErrorText "Rel: can't make relative") else
  let '(b', t') := drop_common (clean_parts b) (clean_parts t) in
  if bool_decide (head b' = Some "..") then Err (ErrorText "Rel: can't make relative") else
  Ok (Join "/" (map (λ _, "..") b' ++ t')).

Example clean_dots : Clean "/a/./b//../c/" = "/a/c".
Proof. reflexivity. Qed.
Example clean_up : Clean "../../x/.." = "../..".
Proof. reflexivity. Qed.
Example clean_root : Clean "/.." = "/" ∧ Clean "" = ".".
Proof. split; reflexivity. Qed.
Example rel_up : Rel "/a/b" "/a/c/d" = Ok "../c/d".
Proof. reflexivity. Qed.
Example rel_down : Rel "/" "/a" = Ok "a" ∧ Rel "/a/b" "/a/b/c" = Ok "c".
Proof. split; reflexivity. Qed.

(** ** The checks *)
Section guard.
Context {UC : Unicode}.

(** src: internal/pathguard/path.go 13-23 SafeRelative *)
Definition SafeRelative (name : string) : bool :=
  if (name =? "") || HasPrefix name "~" || Contains name "\" || IsAbs name then false else
  forallb (λ part, part ≠? "..") (Split slash name).

(** [path.Match] of a pattern with one star at its end or its beginning.
    src: internal/pathguard/path.go 28-36 Protected (part) *)
Definition protected_part (part : string) : bool :=
  existsb (String.eqb part)
    [".git"; ".ssh"; ".aws"; "secrets"; "node_modules"; ".venv"; ".devsquad-runtime"] ||
  existsb (HasPrefix part) [".env"; "id_rsa"; "id_ed25519"] ||
  existsb (HasSuffix part) [".pem"; ".key"; ".p12"; ".jks"].
(** src: internal/pathguard/path.go 26-39 Protected *)
Definition Protected (name : string) : bool :=
  existsb protected_part (Split slash (ToLower name)).

(** [lstat] says whether a path is a symbolic link.
    src: internal/pathguard/path.go 40-58 NoSymlinks *)
Fixpoint no_symlinks (lstat : string → result bool) (name : string) (before after : list string)
    : result unit :=
  match after with
  | [] => Ok tt
  | part :: after =>
    match lstat (Join "/" (before ++ [part])) with
    | Err e => if is_not_exist e then Ok tt else Err e
    | Ok true => Err (ErrorText ("symlinks are not allowed: " +:+ name))
    | Ok false => no_symlinks lstat name (before ++ [part]) after
    end
  end.
(** src: internal/pathguard/path.go 40-58 NoSymlinks *)
Definition NoSymlinks (lstat : string → result bool) (name : string) : result unit :=
  if negb (SafeRelative name)
  then Err (ErrorText "relative paths without traversal are required")
  else no_symlinks lstat name [] (Split slash name).

(** What [filepath.EvalSymlinks] and the working directory are. *)
Record Links := MkLinks { EvalSymlinks : string → result string; Getwd : result string }.
(** [filepath.Abs] *)
Definition Abs (k : Links) (p : string) : result string :=
  if IsAbs p then Ok (Clean p) else wd ← Getwd k; Ok (JoinPath [wd; p]).

(** The loop: [target] is the absolute path of [rev up], so that [filepath.Dir] drops the
    first element of [up] and [filepath.Base] is that element; the directory of the root is
    the root.  The elements dropped come back, the outermost first.
    src: internal/pathguard/path.go 75-91 Resolve (existing ancestor) *)
Fixpoint existing (k : Links) (up : list string) : result (string * list string) :=
  match EvalSymlinks k (path_of true (rev up)) with
  | Ok resolved => Ok (resolved, [])
  | Err e =>
    if negb (is_not_exist e) then Err e else
    match up with
    | [] => Err e
    | base :: up => '(resolved, suffix) ← existing k up; Ok (resolved, suffix ++ [base])
    end
  end.
(** src: internal/pathguard/path.go 63-102 Resolve *)
Definition Resolve (k : Links) (root name : string) : result string :=
  if negb (SafeRelative name) || Protected name
  then Err (ErrorText ("protected or invalid path: " +:+ name)) else
  base ← EvalSymlinks k root;
  base ← Abs k base;
  '(resolved, suffix) ← existing k (rev (clean_parts (JoinPath [base; name])));
  let target := fold_left (λ t e, JoinPath [t; e]) suffix resolved in
  let outside := Err (ErrorText ("resolved path is outside allowed workspace: " +:+ name)) in
  match Rel base target with
  | Err _ => outside
  | Ok rel => if negb (SafeRelative rel) || Protected rel then outside else Ok rel
  end.

(** What is resolved is itself safe. *)
Lemma Resolve_safe k root name p :
  Resolve k root name = Ok p →
  SafeRelative name = true ∧ Protected name = false ∧ SafeRelative p = true ∧ Protected p = false.
Proof.
  unfold Resolve. destruct (SafeRelative name), (Protected name); try done. simpl.
  destruct (EvalSymlinks k root) as [base0|]; [|done]. simpl.
  destruct (Abs k base0) as [base|]; [|done]. simpl.
  destruct (existing k _) as [[r suffix]|]; [|done]. simpl.
  destruct (Rel base _) as [rel|]; [|done].
  destruct (SafeRelative rel) eqn:?, (Protected rel) eqn:?; try done. simpl. by intros [= <-].
Qed.
End guard.
