(* ===== verification/Output.v ===== *)
(** * The output of a test run ([internal/tools/sandbox.go])

    [limitedOutput] receives the output of a command in chunks of any size and keeps its
    first and last runes.  What it keeps does not depend on the chunks. *)
From S2P Require Import Prelude GoStrings.

(** How many runes each end keeps. *)
Definition half : nat := Z.to_nat 10000.
(** The bytes that make up the first rune, if they are all there.
    [utf8.FullRune] *)
Definition full_rune (s : string) : bool :=
  match s with
  | EmptyString => false
  | String c0 s1 =>
    let b0 := byte_of c0 in
    let '(lo, hi) := second_range b0 in
    if ((b0 <? 194) || (244 <? b0))%N then true else
    match s1 with
    | EmptyString => false
    | String c1 s2 =>
      if negb (cont lo hi c1) || (b0 <? 224)%N then true else
      match s2 with
      | EmptyString => false
      | String c2 s3 =>
        if negb (cont 128 191 c2) || (b0 <? 240)%N then true else
        match s3 with EmptyString => false | _ => true end
      end
    end
  end.
(** src: internal/tools/sandbox.go 131-134 limitedOutput *)
Record limitedOutput := MkOutput {
  lo_head : list N; lo_tail : list N; lo_pending : string; lo_total : Z }.
(** The loop; every rune is at least a byte of [pending], so its length is fuel enough.
    src: internal/tools/sandbox.go 137-153 limitedOutput.Write (loop) *)
Fixpoint drain (fuel : nat) (b : limitedOutput) : limitedOutput :=
  match fuel with
  | O => b
  | S fuel =>
    if lo_pending b =? "" then b else
    if negb (full_rune (lo_pending b)) then b else
    let '(r, n) := decode_rune (lo_pending b) in
    let pending := drop_string n (lo_pending b) in
    drain fuel
      (if decide (length (lo_head b) < half)%nat
       then MkOutput (lo_head b ++ [r]) (lo_tail b) pending (lo_total b + 1)
       else
         let tail := lo_tail b ++ [r] in
         MkOutput (lo_head b) (drop (length tail - half) tail) pending (lo_total b + 1))
  end.
(** src: internal/tools/sandbox.go 136-155 limitedOutput.Write *)
Definition write_output (b : limitedOutput) (p : string) : limitedOutput :=
  let pending := lo_pending b +:+ p in
  drain (String.length pending) (MkOutput (lo_head b) (lo_tail b) pending (lo_total b)).
(** src: internal/tools/sandbox.go 156-162 limitedOutput.String *)
Definition output_string (b : limitedOutput) : string :=
  let nl := String (chr 10) "" in
  let sep := if (20000 <? lo_total b)%Z then nl +:+ "[truncated]" +:+ nl else "" in
  of_runes (lo_head b) +:+ sep +:+ of_runes (lo_tail b) +:+ lo_pending b.
Definition no_output : limitedOutput := MkOutput [] [] "" 0.


(** ** Complete runes *)
Lemma string_app_nil (s : string) : s +:+ "" = s.
Proof. induction s as [|c s IH]; [done|]. exact (f_equal (String c) IH). Qed.
Lemma drop_string_0 s : drop_string 0 s = s.
Proof.
  unfold drop_string. rewrite Nat.sub_0_r. induction s as [|c s IH]; [done|].
  exact (f_equal (String c) IH).
Qed.
Lemma drop_string_app (n : nat) (s t : string) :
  (n ≤ String.length s)%nat → drop_string n (s +:+ t) = drop_string n s +:+ t.
Proof.
  revert n. induction s as [|c s IH]; intros [|n] Hn; rewrite ?drop_string_0; try done.
  - simpl in Hn. lia.
  - apply IH. simpl in Hn. lia.
Qed.
Lemma drop_string_length n s : String.length (drop_string n s) = (String.length s - n)%nat.
Proof.
  revert n. induction s as [|c s IH]; intros [|n]; rewrite ?drop_string_0; try done. apply IH.
Qed.
(** Bytes after a complete first rune do not change it. *)
Lemma decode_invalid c0 s :
  ((128 ≤ byte_of c0 < 194) ∨ 244 < byte_of c0)%N → decode_rune (String c0 s) = (rune_error, 1%nat).
Proof.
  intros Hb. unfold decode_rune. destruct (second_range (byte_of c0)) as [lo hi].
  rewrite (proj2 (N.ltb_ge _ _)) by lia.
  destruct s as [|c1 [|c2 [|c3 s]]]; repeat case_match; try done; lia.
Qed.
Lemma string_app_cons c s t : String c s +:+ t = String c (s +:+ t).
Proof. done. Qed.
Lemma full_rune_app s t :
  full_rune s = true →
  full_rune (s +:+ t) = true ∧ decode_rune (s +:+ t) = decode_rune s ∧
  (1 ≤ (decode_rune s).2 ≤ String.length s)%nat.
Proof.
  destruct s as [|c0 s]; [done|]. rewrite string_app_cons. intros Hf.
  destruct (decide ((128 ≤ byte_of c0 < 194) ∨ 244 < byte_of c0)%N) as [Hb|Hb].
  { rewrite !decode_invalid by done.
    split_and!; [|done|simpl; lia..]. simpl. destruct (second_range (byte_of c0)).
    by assert ((byte_of c0 <? 194)%N || (244 <? byte_of c0)%N = true) as -> by lia. }
  destruct (decide (byte_of c0 < 128)%N) as [Ha|Ha].
  { unfold decode_rune, full_rune. simpl. destruct (second_range (byte_of c0)) as [lo hi].
    rewrite (proj2 (N.ltb_lt _ 128)) by done. rewrite (proj2 (N.ltb_lt _ 194)) by lia. simpl.
    split_and!; try done; lia. }
  unfold decode_rune, full_rune in *. simpl in *. destruct (second_range (byte_of c0)) as [lo hi].
  rewrite (proj2 (N.ltb_ge _ 128)) by lia. rewrite (proj2 (N.ltb_ge _ 194)) in * by lia.
  rewrite (proj2 (N.ltb_ge 244 _)) in * by lia. simpl in *.
  destruct s as [|c1 s]; [done|]. rewrite string_app_cons. destruct (cont lo hi c1); simpl in *;
    [|split_and!; try done; simpl; lia].
  rewrite (proj2 (N.leb_le 194 _)) by lia. simpl.
  destruct (byte_of c0 <? 224)%N eqn:E1; simpl in *; [split_and!; try done; simpl; lia|].
  destruct s as [|c2 s]; [done|]. rewrite string_app_cons. destruct (cont 128 191 c2); simpl in *;
    [|split_and!; try done; simpl; lia].
  rewrite (proj2 (N.leb_le 224 _)) by lia. simpl.
  destruct (byte_of c0 <? 240)%N eqn:E2; simpl in *; [split_and!; try done; simpl; lia|].
  destruct s as [|c3 s]; [done|]. rewrite string_app_cons. case_match; split_and!; try done; simpl; lia.
Qed.

(** ** What is kept *)
(** The runes that are complete, and the bytes that follow them. *)
Fixpoint complete (fuel : nat) (s : string) : list N * string :=
  match fuel with
  | O => ([], s)
  | S fuel =>
    if (s =? "") || negb (full_rune s) then ([], s) else
    let '(r, n) := decode_rune s in
    let '(rs, rest) := complete fuel (drop_string n s) in (r :: rs, rest)
  end.
(** The output after the runes [rs]. *)
Definition kept (rs : list N) (rest : string) : limitedOutput :=
  let later := drop half rs in
  MkOutput (take half rs) (drop (length later - half) later) rest (Z.of_nat (length rs)).
Lemma kept_snoc rs r rest :
  (if decide (length (take half rs) < half)%nat
   then MkOutput (take half rs ++ [r]) (drop (length (drop half rs) - half) (drop half rs)) rest
          (Z.of_nat (length rs) + 1)
   else
     let tail := drop (length (drop half rs) - half) (drop half rs) ++ [r] in
     MkOutput (take half rs) (drop (length tail - half) tail) rest (Z.of_nat (length rs) + 1)) =
  kept (rs ++ [r]) rest.
Proof.
  unfold kept. assert (0 < half)%nat as Hh by (unfold half; lia). revert Hh.
  generalize half as h. intros h Hh. rewrite length_take. case_decide as Hd.
  - assert (length rs < h)%nat as Hl by lia.
    rewrite (drop_ge rs), (drop_ge (rs ++ [r])), !take_ge by (rewrite ?length_app; simpl; lia).
    rewrite !drop_nil. f_equal. rewrite length_app. simpl. lia.
  - assert (h ≤ length rs)%nat as Hl by lia.
    rewrite (take_app_le rs), (drop_app_le rs) by lia. f_equal; [|rewrite length_app; simpl; lia].
    set (l := drop h rs). rewrite !length_app, length_drop. simpl.
    destruct (decide (length l < h)%nat) as [Hs|Hs].
    + replace (length l - h)%nat with 0%nat by lia. rewrite drop_0.
      by rewrite Nat.sub_0_r.
    + rewrite drop_app_le by (rewrite ?length_drop; lia). rewrite drop_drop.
      rewrite drop_app_le by lia. do 2 f_equal. lia.
Qed.
Lemma drop_string_shorter s t :
  full_rune s = true →
  (String.length (drop_string (decode_rune s).2 s) < String.length s)%nat ∧
  drop_string (decode_rune (s +:+ t)).2 (s +:+ t) = drop_string (decode_rune s).2 s +:+ t.
Proof.
  intros Hf. destruct (full_rune_app s t Hf) as (_ & -> & Hn). rewrite drop_string_length.
  split; [lia|]. apply drop_string_app. lia.
Qed.
Lemma full_rune_nil : full_rune "" = false.
Proof. done. Qed.
Lemma complete_step fuel s :
  complete (S fuel) s =
  if full_rune s then
    ((decode_rune s).1 :: (complete fuel (drop_string (decode_rune s).2 s)).1,
     (complete fuel (drop_string (decode_rune s).2 s)).2)
  else ([], s).
Proof.
  cbn [complete]. destruct (full_rune s) eqn:Hf.
  - destruct (String.eqb_spec s "") as [->|_]; [done|]. cbn [negb orb].
    destruct (decode_rune s) as [r n]. cbn [fst snd]. by destruct (complete _ _).
  - by rewrite orb_true_r.
Qed.

(** The loop takes every complete rune. *)
Lemma drain_kept fuel rs s :
  drain fuel (kept rs s) = kept (rs ++ (complete fuel s).1) (complete fuel s).2.
Proof.
  revert rs s. induction fuel as [|fuel IH]; intros rs s; [simpl; by rewrite app_nil_r|].
  rewrite complete_step. cbn [drain]. change (lo_pending (kept rs s)) with s.
  destruct (full_rune s) eqn:Hf; cbn [negb].
  - destruct (String.eqb_spec s "") as [->|_]; [done|].
    destruct (decode_rune s) as [r n]. cbn [fst snd].
    rewrite (cons_middle r rs (complete fuel (drop_string n s)).1), (app_assoc rs [r]).
    rewrite <- IH, <- kept_snoc. done.
  - cbn [fst snd]. rewrite app_nil_r. by destruct (s =? "").
Qed.
(** More fuel than bytes changes nothing. *)
Lemma complete_fuel fuel s :
  (String.length s ≤ fuel)%nat → complete fuel s = complete (String.length s) s.
Proof.
  revert fuel. induction s as [s IH] using (induction_ltof1 _ String.length). unfold ltof in IH.
  intros [|fuel] Hl; [by replace (String.length s) with 0%nat by lia|].
  destruct (String.length s) as [|n] eqn:En.
  - destruct s; [|done]. done.
  - rewrite !complete_step. destruct (full_rune s) eqn:Hf; [|done].
    destruct (drop_string_shorter s "" Hf) as [Hs _]. rewrite En in Hs.
    rewrite (IH _ Hs fuel), (IH _ Hs n) by lia. done.
Qed.
Abbreviation completed s := (complete (String.length s) s).
Lemma completed_full s :
  full_rune s = true →
  completed s = ((decode_rune s).1 :: (completed (drop_string (decode_rune s).2 s)).1,
                 (completed (drop_string (decode_rune s).2 s)).2).
Proof.
  intros Hf. destruct (String.length s) as [|n] eqn:En; [by destruct s|].
  rewrite complete_step, Hf. destruct (drop_string_shorter s "" Hf) as [Hs _].
  rewrite complete_fuel by lia. done.
Qed.
Lemma completed_stop s : full_rune s = false → completed s = ([], s).
Proof. intros Hf. destruct (String.length s); [done|]. by rewrite complete_step, Hf. Qed.

Lemma completed_app s t :
  completed (s +:+ t) =
  ((completed s).1 ++ (completed ((completed s).2 +:+ t)).1, (completed ((completed s).2 +:+ t)).2).
Proof.
  induction s as [s IH] using (induction_ltof1 _ String.length). unfold ltof in IH.
  destruct (full_rune s) eqn:Hf.
  - destruct (full_rune_app s t Hf) as (Hft & Hd & _), (drop_string_shorter s t Hf) as [Hs Hds].
    rewrite (completed_full s), (completed_full (s +:+ t)) by done. rewrite Hds, Hd. cbn [fst snd].
    by rewrite (IH _ Hs).
  - rewrite (completed_stop s) by done. cbn [fst snd]. by destruct (completed (s +:+ t)).
Qed.
Lemma completed_rest s :
  full_rune (completed s).2 = false ∧ runes s = (completed s).1 ++ runes (completed s).2.
Proof.
  induction s as [s IH] using (induction_ltof1 _ String.length). unfold ltof in IH.
  destruct (full_rune s) eqn:Hf.
  - destruct (drop_string_shorter s "" Hf) as [Hs _]. destruct (IH _ Hs) as [Hr E].
    rewrite (completed_full s) by done. cbn [fst snd]. split; [done|].
    destruct (full_rune_app s "" Hf) as (_ & _ & Hn). destruct s as [|c s]; [done|].
    unfold runes in *. cbn [runes_from]. destruct (decode_rune (String c s)) as [r n]. cbn [fst snd] in *.
    destruct n as [|n]; [lia|]. cbn [pred]. rewrite <- app_comm_cons. f_equal. rewrite <- E.
    change (drop_string (S n) (String c s)) with (drop_string n s). clear.
    revert s. induction n as [|n IHn]; intros s; [by rewrite drop_string_0|].
    destruct s as [|c s]; [done|]. apply IHn.
  - by rewrite (completed_stop s).
Qed.
Lemma not_full_short s : full_rune s = false → (String.length s ≤ 3)%nat.
Proof.
  destruct s as [|c0 [|c1 [|c2 [|c3 s]]]]; simpl; try lia.
  destruct (second_range (byte_of c0)). repeat case_match; done.
Qed.

Lemma write_outputs chunks rs rest :
  full_rune rest = false →
  fold_left write_output chunks (kept rs rest) =
  let '(rs', rest') := completed (rest +:+ String.concat "" chunks) in kept (rs ++ rs') rest'.
Proof.
  revert rs rest. induction chunks as [|p chunks IH]; intros rs rest Hr.
  - cbn [fold_left]. change (String.concat "" []) with "". rewrite string_app_nil, completed_stop by done.
    by rewrite app_nil_r.
  - cbn [fold_left]. replace (String.concat "" (p :: chunks)) with (p +:+ String.concat "" chunks)
      by (destruct chunks; simpl; by rewrite ?string_app_nil).
    change (write_output (kept rs rest) p)
      with (drain (String.length (rest +:+ p)) (kept rs (rest +:+ p))).
    rewrite drain_kept, IH by apply completed_rest.
    rewrite string_app_assoc, (completed_app (rest +:+ p)).
    destruct (completed ((completed (rest +:+ p)).2 +:+ _)). cbn [fst snd].
    by rewrite (assoc_L (++)).
Qed.

(** C40: the output of a test run is shown the same however the command's writes cut it, also
    in the middle of a rune: what is kept is a function of the whole output, its first 10000 runes
    and last 10000 complete runes and at most three trailing bytes, whose rune is not there
    yet. *)
Theorem output_any_chunks chunks :
  let s := String.concat "" chunks in
  let out := fold_left write_output chunks no_output in
  out = write_output no_output s ∧
  ∃ rs rest, runes s = rs ++ runes rest ∧ (String.length rest ≤ 3)%nat ∧
    lo_total out = Z.of_nat (length rs) ∧ lo_head out = take half rs ∧
    lo_tail out = drop (length rs - half - half) (drop half rs) ∧ lo_pending out = rest.
Proof.
  cbv zeta. assert (no_output = kept [] "") as -> by done.
  pose proof (write_outputs chunks [] "" eq_refl) as E.
  pose proof (write_outputs [String.concat "" chunks] [] "" eq_refl) as E1.
  change (String.concat "" [String.concat "" chunks]) with (String.concat "" chunks) in E1.
  rewrite E, <- E1. split; [done|]. rewrite E1.
  change ("" +:+ String.concat "" chunks) with (String.concat "" chunks).
  destruct (completed_rest (String.concat "" chunks)) as [Hf Hr].
  destruct (completed (String.concat "" chunks)) as [rs rest]. cbn [fst snd app] in *.
  exists rs, rest. split_and!; [done|by apply not_full_short|done..| |done].
  unfold kept. cbn [lo_tail]. by rewrite length_drop.
Qed.
