(* ===== verification/Splitting.v ===== *)
(** * Splitting what was joined

    Lines, fields and NUL-terminated lists: the functions of the Go library that take text apart
    undo what puts it together. *)
From S2P Require Import Prelude GoStrings PathGuard Output.

(** A string without the byte [c]. *)
Fixpoint lacks (c : Ascii.ascii) (s : string) : bool :=
  match s with
  | EmptyString => true
  | String a s => negb (Ascii.eqb a c) && lacks c s
  end.
Definition one (c : Ascii.ascii) : string := String c "".

Lemma Split_nonempty c s : ∃ p ps, Split c s = p :: ps.
Proof.
  induction s as [|a s (p & ps & IH)]; simpl; [by eexists _, _|].
  case_decide; [by eexists _, _|]. rewrite IH. by eexists _, _.
Qed.
Lemma Split_app c s t : Split c (s +:+ String c t) = Split c s ++ Split c t.
Proof.
  induction s as [|a s IH].
  - simpl. by rewrite decide_True.
  - rewrite string_app_cons. cbn [Split]. rewrite IH. case_decide; [done|].
    by destruct (Split_nonempty c s) as (p & ps & ->).
Qed.
Lemma Split_lacks c s : lacks c s = true → Split c s = [s].
Proof.
  induction s as [|a s IH]; [done|]. simpl. intros [Ha Hs]%andb_true_iff.
  destruct (Ascii.eqb_spec a c); [done|]. rewrite decide_False by done. by rewrite IH.
Qed.
Lemma drop_string_all s t : drop_string (String.length s) (s +:+ t) = t.
Proof.
  rewrite drop_string_app by done. pose proof (drop_string_length (String.length s) s) as H.
  rewrite Nat.sub_diag in H. by destruct (drop_string _ s).
Qed.
Lemma Cut_first c s t : lacks c s = true → Cut (s +:+ String c t) (one c) = Some (s, t).
Proof.
  intros Hs. unfold Cut, Index.
  assert (String.index 0 (one c) (s +:+ String c t) = Some (String.length s)) as ->.
  { induction s as [|a s IH]; simpl in *.
    - destruct (Ascii.ascii_dec c c); [|done]. by destruct t.
    - apply andb_true_iff in Hs as [Ha Hs]. destruct (Ascii.eqb_spec a c); [done|].
      destruct (Ascii.ascii_dec c a); [congruence|]. by rewrite (IH Hs). }
  simpl. f_equal. f_equal.
  - unfold take_string. clear Hs. induction s as [|a s IH]; [by destruct t|]. simpl.
    exact (f_equal (String a) IH).
  - replace (String.length s + 1) with (String.length (s +:+ one c)).
    + change (String c t) with (one c +:+ t). rewrite string_app_assoc. apply drop_string_all.
    + by rewrite string_length_app.
Qed.

(** ** Case and paths *)
Definition slashed (a b : string) : string := a +:+ String slash b.
(** A slash ends whatever rune is being read. *)
Lemma decode_slash c s t :
  decode_rune (String c s +:+ String slash t) = decode_rune (String c s).
Proof.
  assert (∀ lo hi, (128 ≤ lo)%N → cont lo hi slash = false) as Hs.
  { intros lo hi H. unfold cont. change (byte_of slash) with 47%N.
    apply andb_false_iff. left. apply N.leb_gt. lia. }
  assert (∀ b, (128 ≤ (second_range b).1)%N) as Hr.
  { intros b. unfold second_range. by repeat case_match. }
  rewrite string_app_cons. unfold decode_rune.
  specialize (Hr (byte_of c)). destruct (second_range (byte_of c)) as [lo hi]. simpl in Hr.
  destruct (_ <? 128)%N; [done|].
  destruct s as [|c1 [|c2 [|c3 s]]]; rewrite ?string_app_cons;
    change ("" +:+ String slash t) with (String slash t); rewrite ?Hs by lia; try done.
  simpl. by rewrite Hs.
Qed.
Lemma runes_from_slash n s t :
  n ≤ String.length s → runes_from n (slashed s t) = runes_from n s ++ runes (String slash t).
Proof.
  unfold slashed. revert n. induction s as [|c s IH]; intros n Hn; [by destruct n; [|simpl in Hn; lia]|].
  destruct n as [|n]; [|apply IH; simpl in Hn; lia].
  assert (pred (decode_rune (String c s)).2 ≤ String.length s) as Hw.
  { unfold decode_rune. destruct (second_range _). destruct s as [|c1 [|c2 [|c3 s]]];
      repeat case_match; simpl; lia. }
  rewrite string_app_cons. cbn [runes_from].
  change (decode_rune (String c (s +:+ String slash t))) with (decode_rune (String c s +:+ String slash t)).
  rewrite decode_slash. destruct (decode_rune (String c s)) as [r w]. simpl. f_equal. by apply IH.
Qed.
Lemma runes_slash t : runes (String slash t) = 47%N :: runes t.
Proof. reflexivity. Qed.
Lemma ToLower_slashed `{UC : Unicode} s t : ToLower (slashed s t) = slashed (ToLower s) (ToLower t).
Proof.
  unfold ToLower, runes. rewrite runes_from_slash by lia. rewrite runes_slash, map_app, of_runes_app.
  reflexivity.
Qed.
(** What is below a protected directory is protected. *)
Lemma Protected_below `{UC : Unicode} a b : Protected a = true → Protected (slashed a b) = true.
Proof.
  unfold Protected. rewrite ToLower_slashed. unfold slashed. rewrite Split_app, existsb_app.
  by intros ->.
Qed.

(** ** Fields *)
Definition push (word : string) : list string := if word =? "" then [] else [word].
Fixpoint fields_from (skip : nat) (word s : string) : list string :=
  match s, skip with
  | EmptyString, _ => push word
  | String _ s', S skip => fields_from skip word s'
  | String c s', O =>
    match find (λ sp, HasPrefix s sp) spaces with
    | Some sp => push word ++ fields_from (pred (String.length sp)) "" s'
    | None => fields_from 0 (word +:+ one c) s'
    end
  end.
(** [strings.Fields] *)
Definition Fields (s : string) : list string := fields_from 0 "" s.

(** Printable ASCII without the space: what object names, modes and types consist of. *)
Definition graphic_char (c : Ascii.ascii) : bool := (32 <? byte_of c)%N && (byte_of c <? 127)%N.
Fixpoint graphic (s : string) : bool :=
  match s with EmptyString => true | String c s => graphic_char c && graphic s end.
Lemma prefix_none c s : graphic_char c = true → find (λ sp, HasPrefix (String c s) sp) spaces = None.
Proof. by destruct c as [[] [] [] [] [] [] [] []]; vm_compute. Qed.
Lemma fields_graphic word w s :
  graphic w = true → fields_from 0 word (w +:+ s) = fields_from 0 (word +:+ w) s.
Proof.
  revert word. induction w as [|c w IH]; intros word Hw; [by rewrite string_app_nil|].
  simpl in Hw. apply andb_true_iff in Hw as [Hc Hw].
  rewrite string_app_cons. cbn [fields_from]. rewrite prefix_none by done. rewrite IH by done.
  f_equal. change (String c w) with (one c +:+ w). by rewrite string_app_assoc.
Qed.
Lemma fields_space word s : fields_from 0 word (" " +:+ s) = push word ++ fields_from 0 "" s.
Proof. destruct s; reflexivity. Qed.
(** A word that [Fields] gives back whole. *)
Definition token (w : string) : bool := graphic w && (w ≠? "").
Lemma push_token w : token w = true → push w = [w].
Proof. unfold token, push. rewrite andb_true_iff, negb_true_iff. by intros [_ ->]. Qed.
Lemma Fields_three a b c :
  token a = true → token b = true → token c = true →
  Fields (a +:+ " " +:+ b +:+ " " +:+ c) = [a; b; c].
Proof.
  intros Ha Hb Hc. unfold Fields. assert (∀ w, token w = true → graphic w = true) as Hg.
  { intros w. unfold token. by rewrite andb_true_iff; intros [? _]. }
  rewrite fields_graphic, fields_space, fields_graphic, fields_space by auto.
  rewrite <- (string_app_nil c), fields_graphic by auto. rewrite string_app_nil.
  change ("" +:+ a) with a. change ("" +:+ b) with b. change ("" +:+ c) with c. simpl.
  by rewrite !push_token.
Qed.
Lemma graphic_lacks c w : graphic_char c = false → graphic w = true → lacks c w = true.
Proof.
  intros Hc. induction w as [|a w IH]; [done|]. simpl. rewrite !andb_true_iff. intros [Ha Hw].
  split; [|by apply IH]. destruct (Ascii.eqb_spec a c); [congruence|done].
Qed.
Lemma lacks_app c s t : lacks c (s +:+ t) = lacks c s && lacks c t.
Proof. induction s as [|a s IH]; [done|]. rewrite string_app_cons. simpl. by rewrite IH, andb_assoc. Qed.

(** ** Lists of terminated lines *)
Definition ended (c : Ascii.ascii) (l : list string) : string :=
  foldr (λ s rest, s +:+ String c rest) "" l.
Lemma Split_ended c l : Forall (λ s, lacks c s = true) l → Split c (ended c l) = l ++ [""].
Proof.
  induction 1 as [|s l Hs _ IH]; [done|]. simpl. by rewrite Split_app, IH, Split_lacks.
Qed.

(** ** Prefixes *)
Lemma HasPrefix_app p t : HasPrefix (p +:+ t) p = true.
Proof.
  unfold HasPrefix. induction p as [|c p IH]; [by destruct t|].
  change (String c p +:+ t) with (String c (p +:+ t)). simpl. by destruct (Ascii.ascii_dec c c).
Qed.
Lemma HasPrefix_inv s p : HasPrefix s p = true → ∃ t, s = p +:+ t.
Proof.
  unfold HasPrefix. revert s. induction p as [|c p IH]; intros s; [by exists s|].
  destruct s as [|c' s]; [done|]. simpl. destruct (Ascii.ascii_dec c c') as [<-|]; [|done].
  intros (t & ->)%IH. by exists t.
Qed.
