(* ===== verification/Paths.v ===== *)
(** * Paths below a directory

    What [filepath.Join] gives for a directory and a name or a clean relative path below it. *)
From S2P Require Import Prelude GoStrings PathGuard Output Splitting.

(** A name that is one element of a path. *)
Definition plain_name (name : string) : bool :=
  (name ≠? "") && (name ≠? ".") && (name ≠? "..") && lacks slash name.

Lemma plain_name_facts name :
  plain_name name = true →
  name ≠ "" ∧ name ≠ "." ∧ name ≠ ".." ∧ lacks slash name = true.
Proof.
  unfold plain_name. rewrite !andb_true_iff, !negb_true_iff, !String.eqb_neq. tauto.
Qed.
Lemma clean_step_plain rooted acc name :
  plain_name name = true → clean_step rooted acc name = acc ++ [name].
Proof.
  intros (H1 & H2 & H3 & _)%plain_name_facts. unfold clean_step.
  apply String.eqb_neq in H1, H2, H3. by rewrite H1, H2, H3.
Qed.
Lemma clean_steps_plain rooted acc names :
  Forall (λ n, plain_name n = true) names →
  fold_left (clean_step rooted) names acc = acc ++ names.
Proof.
  intros H. revert acc. induction H as [|n names Hn _ IH]; intros acc; simpl.
  - by rewrite app_nil_r.
  - by rewrite clean_step_plain, IH, <- (assoc_L (++)).
Qed.
Lemma IsAbs_app base t : IsAbs base = true → IsAbs (base +:+ t) = true.
Proof. intros (b & ->)%HasPrefix_inv. unfold IsAbs. rewrite <- string_app_assoc. apply HasPrefix_app. Qed.

(** Joining a relative path made of plain names. *)
Lemma JoinPath_below base rel :
  IsAbs base = true → Forall (λ n, plain_name n = true) (Split slash rel) →
  JoinPath [base; rel] = path_of true (clean_parts base ++ Split slash rel).
Proof.
  intros Hb Hr. assert (base ≠ "") as Hb0 by (by intros ->).
  assert (rel ≠ "") as Hr0 by (intros ->; by apply Forall_cons in Hr as [? _]).
  unfold JoinPath. rewrite !filter_cons_True, filter_nil by done.
  rewrite decide_False by done. simpl. change (base +:+ "/" +:+ rel) with (slashed base rel).
  unfold Clean. assert (IsAbs (slashed base rel) = true) as Habs by (by apply IsAbs_app).
  rewrite Habs. f_equal. unfold clean_parts. rewrite Habs, Hb. unfold slashed.
  by rewrite Split_app, fold_left_app, clean_steps_plain.
Qed.
Lemma JoinPath_child base name :
  IsAbs base = true → plain_name name = true →
  JoinPath [base; name] = path_of true (clean_parts base ++ [name]).
Proof.
  intros Hb Hn. destruct (plain_name_facts name Hn) as (_ & _ & _ & Hl).
  rewrite JoinPath_below; rewrite ?Split_lacks by done; auto.
Qed.

(** The elements of an absolute path can be read off it. *)
Lemma Split_Join parts :
  parts ≠ [] → Forall (λ p, lacks slash p = true) parts → Split slash (Join "/" parts) = parts.
Proof.
  intros Hne H. induction H as [|p parts Hp _ IH]; [done|].
  destruct parts as [|q parts]; [by apply Split_lacks|].
  change (Join "/" (p :: q :: parts)) with (slashed p (Join "/" (q :: parts))).
  unfold slashed. by rewrite Split_app, IH, Split_lacks.
Qed.
Lemma Split_path_of parts :
  parts ≠ [] → Forall (λ p, lacks slash p = true) parts →
  Split slash (path_of true parts) = "" :: parts.
Proof.
  intros Hne H. unfold path_of. change ("/" +:+ Join "/" parts) with (slashed "" (Join "/" parts)).
  unfold slashed. by rewrite Split_app, Split_Join.
Qed.
Lemma lacks_take c s n : lacks c s = true → lacks c (take_string n s) = true.
Proof.
  unfold take_string. revert n. induction s as [|a s IH]; intros [|n]; try done. simpl.
  rewrite !andb_true_iff. intros [? ?]. split; [done|by apply IH].
Qed.
Lemma Split_each_lacks c s : Forall (λ p, lacks c p = true) (Split c s).
Proof.
  induction s as [|a s IH]; simpl; [by repeat constructor|].
  case_decide as Ha; [by constructor|].
  destruct (Split_nonempty c s) as (p & ps & E). rewrite E in *.
  apply Forall_cons in IH as [Hp Hps]. constructor; [|done]. simpl. rewrite Hp.
  by destruct (Ascii.eqb_spec a c).
Qed.
Lemma clean_parts_lacks p : Forall (λ q, lacks slash q = true) (clean_parts p).
Proof.
  unfold clean_parts. generalize (Split_each_lacks slash p).
  assert (Forall (λ q, lacks slash q = true) []) as H0 by constructor. revert H0.
  generalize (@nil string) as acc. induction (Split slash p) as [|x l IH]; intros acc Hacc Hl; [done|].
  apply Forall_cons in Hl as [Hx Hl]. simpl. apply IH; [|done]. unfold clean_step.
  assert (Forall (λ q, lacks slash q = true) (removelast acc)) as Hrm.
  { apply Forall_forall. intros q Hq. rewrite Forall_forall in Hacc. apply Hacc.
    destruct acc as [|a acc] using rev_ind; [done|]. rewrite removelast_last in Hq.
    apply elem_of_app. by left. }
  destruct (_ || _); [done|]. destruct (x =? "..")%string.
  - destruct (last acc) as [y|]; [|by destruct (IsAbs p); repeat constructor].
    destruct (y =? "..")%string; [|done]. by apply Forall_app; repeat constructor.
  - by apply Forall_app; repeat constructor.
Qed.
Lemma JoinPath_child_inj base a b :
  IsAbs base = true → plain_name a = true → plain_name b = true →
  JoinPath [base; a] = JoinPath [base; b] → a = b.
Proof.
  intros Hb Ha Hbn. rewrite !JoinPath_child by done. intros E.
  apply (f_equal (Split slash)) in E.
  pose proof (clean_parts_lacks base). pose proof (plain_name_facts a Ha) as (_ & _ & _ & ?).
  pose proof (plain_name_facts b Hbn) as (_ & _ & _ & ?).
  rewrite !Split_path_of in E; try (by destruct (clean_parts base));
    try (apply Forall_app; by repeat constructor).
  injection E as E. by apply app_inj_tail in E as [_ ?].
Qed.

Lemma Join_Split s : Join "/" (Split slash s) = s.
Proof.
  induction s as [|a s IH]; [done|]. cbn [Split]. destruct (Split_nonempty slash s) as (p & ps & E).
  rewrite E in *. case_decide as Ha.
  - subst a. change (Join "/" ("" :: p :: ps)) with (String slash (Join "/" (p :: ps))). by rewrite IH.
  - destruct ps as [|q ps]; [by rewrite <- IH|]. by rewrite <- IH.
Qed.
Lemma clean_parts_path_of parts :
  parts ≠ [] → Forall (λ p, plain_name p = true) parts → clean_parts (path_of true parts) = parts.
Proof.
  intros Hne H. unfold clean_parts. rewrite Split_path_of; [|done|].
  - assert (IsAbs (path_of true parts) = true) as -> by apply (HasPrefix_app "/").
    simpl. by apply (clean_steps_plain true []).
  - eapply Forall_impl; [exact H|]. intros p Hp. by apply plain_name_facts.
Qed.

(** The elements of a clean absolute path are names. *)
Lemma clean_parts_plain p :
  IsAbs p = true → Forall (λ q, plain_name q = true) (clean_parts p).
Proof.
  intros Hp. unfold clean_parts. rewrite Hp. generalize (Split_each_lacks slash p).
  assert (Forall (λ q, plain_name q = true) []) as H0 by constructor. revert H0.
  generalize (@nil string) as acc. induction (Split slash p) as [|x l IH]; intros acc Hacc Hl; [done|].
  apply Forall_cons in Hl as [Hx Hl]. simpl. apply IH; [|done]. unfold clean_step.
  destruct (String.eqb_spec x ""), (String.eqb_spec x "."); try done. simpl.
  destruct (String.eqb_spec x "..") as [|Hup].
  - assert (Forall (λ q, plain_name q = true) (removelast acc)) as Hrm.
    { clear -Hacc. destruct acc as [|a acc _] using rev_ind; [done|]. rewrite removelast_last.
      by apply Forall_app in Hacc as [? _]. }
    destruct (last acc) as [y|] eqn:Hlast; [|by constructor].
    destruct (String.eqb_spec y "..") as [->|]; [|done].
    apply last_Some in Hlast as [l' ->]. by apply Forall_app in Hacc as [_ [? _]%Forall_cons].
  - apply Forall_app. split; [done|]. repeat constructor. unfold plain_name.
    rewrite Hx, !andb_true_iff, !negb_true_iff, !String.eqb_neq. done.
Qed.
Lemma JoinPath_two base a b :
  IsAbs base = true → plain_name a = true → plain_name b = true →
  JoinPath [JoinPath [base; a]; b] = JoinPath [base; a; b].
Proof.
  intros Hb Ha Hbn. rewrite JoinPath_child; [|rewrite JoinPath_child by done; apply (HasPrefix_app "/")|done].
  rewrite (JoinPath_child base a) by done. rewrite clean_parts_path_of.
  2: { by destruct (clean_parts base). }
  2: { apply Forall_app. split; [by apply clean_parts_plain|by repeat constructor]. }
  pose proof (plain_name_facts a Ha) as (Ha0 & _ & _ & Hla).
  pose proof (plain_name_facts b Hbn) as (Hb0 & _ & _ & Hlb).
  assert (base ≠ "") as Hbase by (by intros ->).
  assert (JoinPath [base; a; b] = JoinPath [base; slashed a b]) as ->.
  { unfold JoinPath. rewrite !filter_cons_True, !filter_nil by (done || by destruct a). done. }
  assert (Split slash (slashed a b) = [a; b]) as E by (unfold slashed; by rewrite Split_app, !Split_lacks).
  rewrite JoinPath_below; rewrite ?E; [by rewrite <- (assoc_L (++))|done|by repeat constructor].
Qed.
