(* ===== verification/ToolCalls.v ===== *)
(** * What the tools of a stage do ([internal/tools/sandbox.go])

    [Call] runs a tool of the model on the disk.  The disk is an interface: what its links
    say, and its operations, which may change it.  The theorem is about what a call may
    open, list, write and run, whatever the model asks for. *)
From S2P Require Import Prelude GoStrings Domain Pipeline PipelineJSON Agent Llm Tools.
From S2P Require Import PathGuard Output.

(** ** The interface *)
(** How a test command is run: by a shell, or directly. *)
Inductive command := Shell (line : string) | Direct (args : list string).

(** [dk_open] gives whether the file is regular, and what is in it; [dk_stat] whether the path
    is a directory; [dk_readdir] the entries that were read, each with whether it is a
    directory, and what went wrong; [dk_run] the exit code and the chunks of output. *)
Record Disk (D : Type) := MkDisk {
  dk_links : D → Links;
  dk_alive : io D unit;
  dk_open : string → io D (bool * string);
  dk_mkdir : string → io D unit;
  dk_write : string → string → io D unit;
  dk_stat : string → io D bool;
  dk_readdir : string → D → (list (string * bool) * option error) * D;
  dk_run : Z → command → io D (Z * list string) }.
Arguments dk_links {D}. Arguments dk_alive {D}. Arguments dk_open {D}. Arguments dk_mkdir {D}.
Arguments dk_write {D}. Arguments dk_stat {D}. Arguments dk_readdir {D}. Arguments dk_run {D}.

(** The packages that match globs, compile regular expressions and split command lines. *)
Class Matchers := {
  PathMatch : string → string → option bool;
  ValidatePattern : string → bool;
  compile : string → result (string → bool);
  shell_fields : string → result (list string) }.
(** [filepath.Dir] *)
Definition Dir (p : string) : string :=
  match Split slash p with
  | [] | [_] => Clean ""
  | parts => Clean (Join "/" (removelast parts) +:+ "/")
  end.
Definition query {D A} (f : D → A) : io D A := λ d, (Ok (f d), d).

(** ** The tools *)
Section calls.
Context {UC : Unicode} {MA : Matchers} {D : Type} (disk : Disk D).

(** src: internal/pathguard/path.go 60-60 GlobMatch *)
Definition GlobMatch (name pattern : string) : bool := default false (PathMatch pattern name).
Definition resolved (d : D) (s : Sandbox) (name : string) : result string :=
  Resolve (dk_links disk d) (sb_Root s) name.
(** src: internal/tools/sandbox.go 39-60 Sandbox.check *)
Definition check (s : Sandbox) (name : string) (write : bool) (d : D) : result unit :=
  if negb (SafeRelative name) || Protected name
  then Err (ErrorText ("protected or invalid path: " +:+ name)) else
  p ← resolved d s name;
  if negb write then Ok tt else
  if ag_ToolProfile (sb_Agent s) =? "publisher" then Err (ErrorText "publisher is read-only") else
  if existsb (λ wp, GlobMatch name wp && GlobMatch p wp) (elems (ag_WritePaths (sb_Agent s)))
  then Ok tt
  else Err (ErrorText ("path is outside write_paths=" +:+
              fmt_q_strings (elems (ag_WritePaths (sb_Agent s))))).
Definition checking (s : Sandbox) (name : string) (write : bool) : io D unit :=
  r ← query (check s name write); give r.
Definition resolving (s : Sandbox) (name : string) : io D string :=
  r ← query (λ d, resolved d s name); give r.

(** src: internal/tools/sandbox.go 61-87 Sandbox.Read *)
Definition Read (s : Sandbox) (name : string) : io D string :=
  checking s name false;;
  name ← resolving s name;
  '(regular, data) ← dk_open disk name;
  if negb regular then raise (ErrorText "not a regular file") else
  if (200000 <? Z.of_nat (String.length data))%Z
  then mret (take_string (Z.to_nat 200000) data +:+ String (chr 10) "[truncated]")
  else mret data.
(** src: internal/tools/sandbox.go 88-103 Sandbox.Write *)
Definition Write (s : Sandbox) (name content : string) : io D unit :=
  checking s name true;;
  if (2000000 <? Z.of_nat (String.length content))%Z then raise (ErrorText "file exceeds 2 MB") else
  name ← resolving s name;
  dk_mkdir disk (Dir name);;
  dk_write disk name content.

(** src: internal/tools/sandbox.go 300-306 truncate *)
Definition truncate (text : string) (n : nat) : string :=
  let r := runes text in
  if decide (n < length r)%nat then of_runes (take n r) +:+ "…" else text.
(** src: internal/tools/sandbox.go 308-313 timeout *)
Definition timeout (d : Z) : Z := if (0 <? d)%Z then d else 600000000000%Z.

Definition reading_dir (p : string) : io D (list (string * bool) * option error) := λ d,
  let '(r, d') := dk_readdir disk p d in (Ok r, d').
(** The entries of a directory that may be read; at most 500 of them.
    src: internal/tools/sandbox.go 195-207 Sandbox.Call (list_dir entries) *)
Fixpoint list_entries (s : Sandbox) (dir : string) (out : list string)
    (entries : list (string * bool)) : io D (list string) :=
  match entries with
  | [] => mret out
  | (name, isdir) :: entries =>
    let p := JoinPath [dir; name] in
    r ← query (check s p false);
    if negb (is_ok r) then list_entries s dir out entries else
    let out := out ++ [if isdir : bool then p +:+ "/" else p] in
    if (500 <=? length out)%nat then mret out else list_entries s dir out entries
  end.
(** src: internal/tools/sandbox.go 185-208 Sandbox.Call (list_dir) *)
Definition list_dir (s : Sandbox) (path : string) : io D string :=
  let path := if path =? "" then "." else path in
  checking s path false;;
  '(entries, err) ← reading_dir path;
  match err with Some e => raise e | None => mret tt end;;
  out ← list_entries s path [] entries;
  mret (Join (String (chr 10) "") out).

(** The lines of a file that match, as long as fewer than 100 are found; true when enough.
    src: internal/tools/sandbox.go 237-244 Sandbox.Call (search lines) *)
Fixpoint search_lines (rx : string → bool) (p : string) (i : Z) (hits lines : list string)
    : list string * bool :=
  match lines with
  | [] => (hits, false)
  | line :: lines =>
    if rx line then
      let hits := hits ++ [p +:+ ":" +:+ fmt_d i +:+ ": " +:+ truncate line 200] in
      if (100 <=? length hits)%nat then (hits, true)
      else search_lines rx p (i + 1) hits lines
    else search_lines rx p (i + 1) hits lines
  end.
(** The entries of a directory, one after the other, until enough lines are found. *)
Fixpoint walks (visit : string → bool → list string → io D (list string * bool)) (p : string)
    (entries : list (string * bool)) (hits : list string) : io D (list string * bool) :=
  match entries with
  | [] => mret (hits, false)
  | (name, isdir) :: entries =>
    '(hits, stop) ← visit (JoinPath [p; name]) isdir hits;
    if stop : bool then mret (hits, true) else walks visit p entries hits
  end.
(** [fs.WalkDir] from [p] with the callback of the search: the callback sees a directory before
    it is read, and may skip it; what goes wrong in reading it is ignored and the entries that
    were read are visited.  [fuel] bounds the depth, see [walk_fuel].
    src: internal/tools/sandbox.go 218-246 Sandbox.Call (search walk) *)
Fixpoint walk (fuel : nat) (s : Sandbox) (rx : string → bool) (glob p : string) (isdir : bool)
    (hits : list string) : io D (list string * bool) :=
  dk_alive disk;;
  r ← query (check s p false);
  if negb (is_ok r) then mret (hits, false) else
  if isdir then
    match fuel with
    | O => raise (ErrorText "the tree is deeper than the fuel")
    | S fuel =>
      '(entries, _) ← reading_dir p;
      walks (walk fuel s rx glob) p entries hits
    end
  else
    if negb (GlobMatch p glob) then mret (hits, false) else
    text ← attempt (Read s p);
    match text with
    | Err _ => mret (hits, false)
    | Ok text => mret (search_lines rx p 1 hits (Split (chr 10) text))
    end.
(** src: internal/tools/sandbox.go 209-248 Sandbox.Call (search) *)
Definition search (fuel : nat) (s : Sandbox) (pattern glob : string) : io D string :=
  rx ← give (compile pattern);
  let glob := if glob =? "" then "**/*" else glob in
  root ← attempt (dk_stat disk ".");
  match root with
  | Err _ => mret ""
  | Ok isdir =>
    '(hits, _) ← walk fuel s rx glob "." isdir [];
    mret (Join (String (chr 10) "") hits)
  end.

(** src: internal/tools/sandbox.go 249-266 Sandbox.Call (command) *)
Definition test_command (s : Sandbox) : result command :=
  let line := ag_TestCommand (sb_Agent s) in
  if Contains line "&&" then Ok (Shell line) else
  match shell_fields line with
  | Ok (arg :: args) => Ok (Direct (arg :: args))
  | Ok [] => Err (ErrorText "invalid test_command: <nil>")
  | Err e => Err (ErrorText ("invalid test_command: " +:+ error_text e))
  end.
(** src: internal/tools/sandbox.go 249-289 Sandbox.Call (run_tests) *)
Definition run_tests (s : Sandbox) : io D string :=
  cmd ← give (test_command s);
  '(code, chunks) ← dk_run disk (timeout (sb_Timeout s)) cmd;
  mret ("exit=" +:+ fmt_d code +:+ String (chr 10)
          (output_string (fold_left write_output chunks no_output))).

(** src: internal/tools/sandbox.go 163-292 Sandbox.Call *)
Definition Call (fuel : nat) (s : Sandbox) (name : string) (raw : RawMessage) : io D string :=
  if negb (existsb (λ t, t =? name) (tool_names (sb_Agent s) (sb_Allowed s)))
  then raise (ErrorText ("tool not allowed: " +:+ name)) else
  args ← give (unmarshal_args raw);
  if name =? "read_file" then Read s (ta_Path args) else
  if name =? "write_file" then
    Write s (ta_Path args) (ta_Content args);; mret ("wrote " +:+ ta_Path args) else
  if name =? "list_dir" then list_dir s (ta_Path args) else
  if name =? "search" then search fuel s (ta_Pattern args) (ta_Glob args) else
  if name =? "run_tests" then run_tests s else
  raise (ErrorText "unknown tool").

(** ** The depth of the walk

    When the directories are ranked so that each is above those in it, as a tree on a disk is
    by its depth, fuel above the rank of the root is enough: more makes no difference. *)
Section depth.
Context (height : string → nat).
Hypothesis (Ranked : ∀ d p name,
  (name, true) ∈ (dk_readdir disk p d).1.1 → height (JoinPath [p; name]) < height p).
Lemma walks_eq (f g : string → bool → list string → io D (list string * bool)) p entries hits d :
  (∀ name isdir hits d, (name, isdir) ∈ entries →
     f (JoinPath [p; name]) isdir hits d = g (JoinPath [p; name]) isdir hits d) →
  walks f p entries hits d = walks g p entries hits d.
Proof.
  revert hits d. induction entries as [|[name isdir] entries IH]; intros hits d H; [done|].
  simpl. unfold mbind, io_bind. rewrite (H name isdir hits d (list_elem_of_here _ _)).
  destruct (g _ _ _ d) as [[[hits' []]|e] d']; [done| |done].
  apply IH. intros. apply H. by apply list_elem_of_further.
Qed.
Lemma walk_fuel fuel fuel' s rx glob p isdir hits d :
  (isdir = true → height p < fuel ∧ height p < fuel') →
  walk fuel s rx glob p isdir hits d = walk fuel' s rx glob p isdir hits d.
Proof.
  revert fuel' p isdir hits d. induction fuel as [|fuel IH]; intros fuel' p isdir hits d H.
  - destruct isdir; [destruct (H eq_refl); lia|by destruct fuel'].
  - destruct isdir; [destruct (H eq_refl) as [H1 H2]|by destruct fuel'].
    destruct fuel' as [|fuel']; [lia|]. simpl. unfold mbind, io_bind, query, reading_dir.
    destruct (dk_alive disk d) as [[u|e] d1]; [|done].
    destruct (negb (is_ok (check s p false d1))); [done|].
    destruct (dk_readdir disk p d1) as [[entries err] d2] eqn:E. apply walks_eq.
    intros name isdir hits' d3 Hin. apply IH. intros ->.
    assert (height (JoinPath [p; name]) < height p); [|lia].
    apply (Ranked d1). by rewrite E.
Qed.
Lemma search_fuel fuel fuel' s pattern glob d :
  height "." < fuel → height "." < fuel' →
  search fuel s pattern glob d = search fuel' s pattern glob d.
Proof.
  intros H1 H2. unfold search, mbind, io_bind, give, attempt.
  destruct (compile pattern) as [rx|]; [|done].
  destruct (dk_stat disk "." d) as [[isdir|e] d1]; [|done].
  by rewrite (walk_fuel fuel fuel').
Qed.
End depth.
End calls.

(** ** What a call may touch

    Every operation on the disk is logged with the state in which it was done. *)
Module Confinement.
Inductive Op :=
  | OpOpen (path : string) | OpMkdir (path : string) | OpWrite (path content : string)
  | OpStat (path : string) | OpReaddir (path : string) | OpRun (timeout : Z) (cmd : command).

Section recorded.
Context {D : Type}.
Abbreviation Log := (list (Op * D)).
Definition logged {A} (o : Op) (m : io D A) : io (D * Log) A :=
  λ '(d, l), let '(r, d') := m d in (r, (d', l ++ [(o, d)])).
Definition recorded (disk : Disk D) : Disk (D * Log) := {|
  dk_links := λ '(d, _), dk_links disk d;
  dk_alive := λ '(d, l), let '(r, d') := dk_alive disk d in (r, (d', l));
  dk_open p := logged (OpOpen p) (dk_open disk p);
  dk_mkdir p := logged (OpMkdir p) (dk_mkdir disk p);
  dk_write p c := logged (OpWrite p c) (dk_write disk p c);
  dk_stat p := logged (OpStat p) (dk_stat disk p);
  dk_readdir p := λ '(d, l), let '(r, d') := dk_readdir disk p d in
                             (r, (d', l ++ [(OpReaddir p, d)]));
  dk_run t cmd := logged (OpRun t cmd) (dk_run disk t cmd) |}.
End recorded.

Section confined.
Context {UC : Unicode} {MA : Matchers} {D : Type} (disk : Disk D) (s : Sandbox) (tool : string).
Abbreviation Log := (list (Op * D)).

(** In the state [d] the name resolves to [p], and both are allowed. *)
Definition permits (d : D) (name p : string) : Prop :=
  resolved disk d s name = Ok p ∧ SafeRelative name = true ∧ Protected name = false ∧
  SafeRelative p = true ∧ Protected p = false.
Definition may_write (d : D) (name p content : string) : Prop :=
  permits d name p ∧ ag_ToolProfile (sb_Agent s) ≠ "publisher" ∧
  (Z.of_nat (String.length content) ≤ 2000000)%Z ∧
  ∃ wp, wp ∈ elems (ag_WritePaths (sb_Agent s)) ∧ GlobMatch name wp = true ∧ GlobMatch p wp = true.
(** The agent's own test command: handed to a shell as it is, or split into words. *)
Definition configured (cmd : command) : Prop :=
  let line := ag_TestCommand (sb_Agent s) in
  (Contains line "&&" = true ∧ cmd = Shell line) ∨
  (Contains line "&&" = false ∧ ∃ args, shell_fields line = Ok args ∧ args ≠ [] ∧
     cmd = Direct args).
(** What only reads what may be read, or is the configured test command, when it is asked
    for. *)
Definition harmless (e : Op * D) : Prop :=
  match e with
  | (OpOpen p, d) => ∃ name, permits d name p
  | (OpStat p, _) => p = "."
  | (OpReaddir p, d) => ∃ r, permits d p r
  | (OpRun t cmd, _) =>
    tool = "run_tests" ∧ tool ∈ tool_names (sb_Agent s) (sb_Allowed s) ∧
    configured cmd ∧ t = (if (0 <? sb_Timeout s)%Z then sb_Timeout s else 600000000000)%Z
  | (OpMkdir _, _) | (OpWrite _ _, _) => False
  end.
Definition harms_nothing (σ σ' : D * Log) : Prop :=
  ∃ new, σ'.2 = σ.2 ++ new ∧ Forall harmless new.
#[local] Instance harms_nothing_preorder : PreOrder harms_nothing.
Proof.
  split; [intros [d l]; exists []; by rewrite app_nil_r|].
  intros [d l] [d1 l1] [d2 l2] (new & E & H) (new' & E' & H'). exists (new ++ new'). simpl in *.
  split; [by rewrite E', E, (assoc_L (++))|by apply Forall_app].
Qed.
Abbreviation quiet := (conducts harms_nothing).

Lemma permits_resolved d name p : resolved disk d s name = Ok p → permits d name p.
Proof. intros H. pose proof (Resolve_safe _ _ _ _ H) as (?&?&?&?). done. Qed.
Lemma check_ok name write d l :
  check (recorded disk) s name write (d, l) = Ok tt → ∃ p, permits d name p.
Proof.
  unfold check. case_match; [done|]. unfold resolved. simpl.
  destruct (Resolve (dk_links disk d) (sb_Root s) name) as [p|] eqn:E; [|done].
  intros _. exists p. by apply permits_resolved.
Qed.
Lemma check_write_ok name d l :
  check (recorded disk) s name true (d, l) = Ok tt →
  ∃ p, permits d name p ∧ ag_ToolProfile (sb_Agent s) ≠ "publisher" ∧
    ∃ wp, wp ∈ elems (ag_WritePaths (sb_Agent s)) ∧ GlobMatch name wp = true ∧
      GlobMatch p wp = true.
Proof.
  intros H. destruct (check_ok _ _ _ _ H) as [p Hp]. exists p. split; [done|].
  revert H. unfold check. case_match; [done|]. destruct Hp as [Hp _].
  unfold resolved in *. simpl. rewrite Hp. simpl.
  destruct (String.eqb_spec (ag_ToolProfile (sb_Agent s)) "publisher"); [done|].
  destruct (existsb _ _) eqn:Hg; [|done]. intros _. split; [done|].
  apply existsb_elem in Hg as (wp & Hwp & [??]%andb_true_iff). by exists wp.
Qed.
Lemma query_quiet {A} (f : D * Log → A) : quiet (query f).
Proof. intros [d l] r σ' [= _ <-]. by exists []; rewrite app_nil_r. Qed.
Lemma alive_quiet : quiet (dk_alive (recorded disk)).
Proof.
  intros [d l] r σ'. simpl. destruct (dk_alive disk d). intros [= _ <-]. exists [].
  by rewrite app_nil_r.
Qed.
Lemma logged_quiet {A} o (m : io D A) d l r σ' :
  harmless (o, d) → logged o m (d, l) = (r, σ') → harms_nothing (d, l) σ'.
Proof.
  intros Ho. unfold logged. destruct (m d). intros [= _ <-]. exists [(o, d)]. split; [done|].
  by apply Forall_singleton.
Qed.
Hint Resolve query_quiet alive_quiet : conducts.
Lemma reading_quiet p d l r σ' :
  (∃ x, permits d p x) → reading_dir (recorded disk) p (d, l) = (r, σ') → harms_nothing (d, l) σ'.
Proof.
  intros Hp. unfold reading_dir. simpl. destruct (dk_readdir disk p d) as [x d'].
  intros [= _ <-]. exists [(OpReaddir p, d)]. split; [done|]. by apply Forall_singleton.
Qed.

Lemma Read_quiet name : quiet (Read (recorded disk) s name).
Proof.
  intros [d l] r σ'. unfold Read, checking, resolving, mbind, io_bind, query, give.
  destruct (check (recorded disk) s name false (d, l)) as [[]|e] eqn:Hc;
    [|intros [= _ <-]; reflexivity].
  destruct (check_ok _ _ _ _ Hc) as [p Hp]. pose proof Hp as [Hp' _].
  change (resolved (recorded disk) (d, l) s name) with (resolved disk d s name). rewrite Hp'.
  change (dk_open (recorded disk) p) with (logged (OpOpen p) (dk_open disk p)).
  destruct (logged _ _ (d, l)) as [r1 σ1] eqn:E. apply logged_quiet in E; [|by exists name].
  destruct r1 as [[regular data]|e]; [|by intros [= _ <-]].
  repeat case_match; by intros [= _ <-].
Qed.
Hint Resolve Read_quiet : conducts.
Lemma list_entries_quiet dir out entries :
  quiet (list_entries (recorded disk) s dir out entries).
Proof.
  revert out. induction entries as [|[name isdir] entries IH]; intros out; simpl; solve_conducts.
Qed.
Hint Resolve list_entries_quiet : conducts.
Lemma list_dir_quiet path : quiet (list_dir (recorded disk) s path).
Proof.
  intros [d l] r σ'. unfold list_dir. generalize (if path =? "" then "." else path). intros q.
  unfold mbind at 1, io_bind, checking, mbind at 1, io_bind, query, give.
  destruct (check (recorded disk) s q false (d, l)) as [[]|e] eqn:Hc;
    [|intros [= _ <-]; reflexivity].
  destruct (check_ok _ _ _ _ Hc) as [p Hp]. unfold mbind at 1, io_bind.
  destruct (reading_dir _ q (d, l)) as [r1 σ1] eqn:E. apply reading_quiet in E; [|by exists p].
  destruct r1 as [[entries err]|e]; [|by intros [= _ <-]]. intros H. etransitivity; [exact E|].
  revert H. apply conducts_bind; [exact _|case_match; solve_conducts|intros ?].
  apply conducts_bind; [exact _|apply list_entries_quiet|intros ?]. solve_conducts.
Qed.
Lemma walks_quiet visit p entries hits :
  (∀ q isdir hits, quiet (visit q isdir hits)) →
  quiet (walks visit p entries hits).
Proof.
  intros Hv. revert hits. induction entries as [|[name isdir] entries IH]; intros hits; simpl;
    [solve_conducts|].
  apply conducts_bind; [exact _|apply Hv|]. intros [hits' []]; [solve_conducts|apply IH].
Qed.
Lemma walk_quiet fuel rx glob p isdir hits :
  quiet (walk (recorded disk) fuel s rx glob p isdir hits).
Proof.
  revert p isdir hits. induction fuel as [|fuel IH]; intros p [] hits; simpl.
  2,4: apply conducts_bind; [exact _|apply alive_quiet|intros u1];
    apply conducts_bind; [exact _|apply query_quiet|intros r];
    repeat case_match; try solve [solve_conducts];
    (apply conducts_bind; [exact _|apply conducts_attempt, Read_quiet|intros [text|e]; solve_conducts]).
  - apply conducts_bind; [exact _|apply alive_quiet|intros u1].
    apply conducts_bind; [exact _|apply query_quiet|intros r]. case_match; solve_conducts.
  - apply conducts_bind; [exact _|apply alive_quiet|intros u1].
    intros [d l] r σ'. unfold mbind at 1, io_bind, query.
    destruct (check (recorded disk) s p false (d, l)) as [[]|e] eqn:Hc; simpl;
      [|by intros [= _ <-]].
    apply check_ok in Hc. unfold mbind, io_bind.
    destruct (reading_dir _ p (d, l)) as [r1 σ1] eqn:E. apply reading_quiet in E; [|done].
    destruct r1 as [[entries err]|e]; [|by intros [= _ <-]]. intros H. etransitivity; [exact E|].
    revert H. apply walks_quiet. intros. apply IH.
Qed.
Lemma search_quiet fuel pattern glob : quiet (search (recorded disk) fuel s pattern glob).
Proof.
  unfold search. apply conducts_bind; [exact _|solve_conducts|intros rx].
  apply conducts_bind; [exact _| |intros [isdir|e]; [|solve_conducts]].
  { apply conducts_attempt. intros [d l] r σ'. by apply logged_quiet. }
  apply conducts_bind; [exact _|apply walk_quiet|intros [hits stop]; solve_conducts].
Qed.
Lemma test_command_configured cmd : test_command s = Ok cmd → configured cmd.
Proof.
  unfold test_command, configured. destruct (Contains _ _); [intros [= <-]; by left|].
  destruct (shell_fields _) as [[|arg args]|e]; try done. intros [= <-]. right. split; [done|].
  by exists (arg :: args).
Qed.
Lemma run_tests_quiet :
  tool = "run_tests" → tool ∈ tool_names (sb_Agent s) (sb_Allowed s) →
  quiet (run_tests (recorded disk) s).
Proof.
  intros Hn Ht σ r σ'. unfold run_tests, mbind at 1, io_bind, give.
  destruct (test_command s) as [cmd|e] eqn:Hc; [|by intros [= _ <-]].
  revert σ r σ'. apply conducts_bind; [exact _| |intros [code chunks]; solve_conducts].
  intros [d l] r σ'. apply logged_quiet. split_and!; try done. by apply test_command_configured.
Qed.
(** A write makes the directory and writes the file that the name resolves to. *)
Lemma Write_log name content d r σ' l :
  Write (recorded disk) s name content (d, []) = (r, (σ', l)) →
  l = [] ∨ ∃ p, may_write d name p content ∧
    (l = [(OpMkdir (Dir p), d)] ∨ ∃ d1, l = [(OpMkdir (Dir p), d); (OpWrite p content, d1)]).
Proof.
  unfold Write, checking, resolving, mbind, io_bind, query, give, raise.
  destruct (check (recorded disk) s name true (d, [])) as [[]|e] eqn:Hc;
    [|intros [= _ _ <-]; by left].
  apply check_write_ok in Hc as (p & Hp & Hpub & Hwp). pose proof Hp as [Hp' _].
  destruct (_ <? _)%Z eqn:Hlen; [intros [= _ _ <-]; by left|].
  change (resolved (recorded disk) (d, []) s name) with (resolved disk d s name). rewrite Hp'.
  intros H. right. exists p. split; [split_and!; try done; lia|]. revert H. simpl. unfold logged.
  destruct (dk_mkdir disk (Dir p) d) as [[[]|e] d1]; [|intros [= _ _ <-]; by left].
  destruct (dk_write disk p content d1) as [r2 d2]. intros [= _ _ <-]. right. by exists d1.
Qed.

(** C15: whatever tool and arguments the model asks for, a call stays within the stage's
    rights: a tool that is not offered does nothing; only [write_file] changes a file, and
    then only one, which the given name resolves to, symbolic links included, and which
    is inside the root, not protected, in the agent's write paths by both names, at most 2 MB,
    and never by a publisher; every file opened and every directory listed, those that a
    search walks through included, is inside the root and not protected; and a command runs
    only for [run_tests], when that is offered, and is the agent's configured test command,
    under the time limit that is set, or of ten minutes. *)
Theorem Call_confined fuel raw d r d' l :
  Call (recorded disk) fuel s tool raw (d, []) = (r, (d', l)) →
  ((tool ∉ tool_names (sb_Agent s) (sb_Allowed s)) → l = [] ∧ is_ok r = false) ∧
  (Forall harmless l ∨
   tool = "write_file" ∧ ∃ args p, unmarshal_args raw = Ok args ∧
     may_write d (ta_Path args) p (ta_Content args) ∧
     (l = [(OpMkdir (Dir p), d)] ∨
      ∃ d1, l = [(OpMkdir (Dir p), d); (OpWrite p (ta_Content args), d1)])).
Proof.
  unfold Call. destruct (existsb _ _) eqn:Hn; cbn [negb]; last first.
  { intros [= <- _ <-]. split; [done|by left]. }
  apply existsb_elem in Hn as (t & Ht & ->%String.eqb_eq). intros H. split; [by intros []|].
  unfold mbind at 1, io_bind, give in H. destruct (unmarshal_args raw) as [args|e] eqn:Ha;
    [|injection H as _ _ <-; by left].
  assert (∀ m : io (D * Log) string, quiet m → m (d, []) = (r, (d', l)) → Forall harmless l) as Hq.
  { intros m Hm E. destruct (Hm _ _ _ E) as (new & El & Hnew). simpl in El. by rewrite El. }
  destruct (String.eqb_spec tool "write_file") as [Etool|_].
  - rewrite Etool in H. simpl in H. unfold mbind, io_bind in H.
    destruct (Write _ _ _ _ _) as [r1 [d1 l1]] eqn:E.
    apply Write_log in E as [->|(p & Hp & Hl)].
    + left. destruct r1; by injection H as _ _ <-.
    + right. split; [done|]. exists args, p. split_and!; try done. destruct r1; by injection H as _ _ <-.
  - left. eapply Hq; [|exact H].
    destruct (tool =? "read_file"); [apply Read_quiet|].
    destruct (tool =? "list_dir"); [apply list_dir_quiet|].
    destruct (tool =? "search"); [apply search_quiet|].
    destruct (String.eqb_spec tool "run_tests") as [Etool|]; [by apply run_tests_quiet|].
    solve_conducts.
Qed.
End confined.

(** A docs writer on an empty disk without links. *)
Section demo.
#[local] Existing Instance ascii_unicode.
Definition demo_files : Type := gmap string string.
Definition demo_links (d : demo_files) : Links :=
  MkLinks (λ p, if (p =? "/w") || (p =? "/") || bool_decide (is_Some (d !! p)) then Ok p
                else Err (ErrNotExist p)) (Ok "/").
Definition demo_disk : Disk demo_files := {|
  dk_links := demo_links; dk_alive := mret tt;
  dk_open p d := (data ← result_of_option (ErrNotExist p) (d !! ("/w/" +:+ p)); Ok (true, data), d);
  dk_mkdir p d := (Ok tt, d);
  dk_write p c d := (Ok tt, <["/w/" +:+ p := c]> d);
  dk_stat _ := mret true;
  dk_readdir p d := ((if p =? "." then [("docs", true)] else
                      map (λ k, (drop_string 8 k, false))
                        (filter (λ k, HasPrefix k "/w/docs/") (map fst (map_to_list d))), None), d);
  dk_run _ _ := mret (0%Z, []) |}.
Definition demo_matchers : Matchers := {|
  PathMatch pattern name := Some ((pattern =? "docs/**") && HasPrefix name "docs/");
  ValidatePattern _ := true; compile _ := Ok (λ _, true); shell_fields l := Ok [l] |}.
#[local] Existing Instance demo_matchers.
Definition demo_agent : AgentSpec :=
  MkAgent "" "writer" "" "docs-writer" (Some ["docs/**"]) "" "" "" "" "".
Definition demo_sandbox : Sandbox := MkSandbox "/w" demo_agent 0 None.
Definition demo_raw (path : string) : RawMessage :=
  MkRaw "{}" (Some (JObj [("path", JStr path); ("content", JStr "# A")])).
Definition demo_call (path : string) :=
  Call (recorded demo_disk) 2 demo_sandbox "write_file" (demo_raw path) (∅, []).
Definition demo_search : RawMessage :=
  MkRaw "{}" (Some (JObj [("pattern", JStr "A"); ("glob", JStr "docs/**")])).
Definition demo_found :=
  Call (recorded demo_disk) 2 demo_sandbox "search" demo_search
    ({["/w/docs/a.md" := "# A"; "/w/docs/.env" := "A=1"; "/w/docs" := ""]}, []).
(** The walk lists the two directories and reads the one file that may be read. *)
Example search_reads :
  demo_found.1 = Ok "docs/a.md:1: # A" ∧
  demo_found.2.2.*1 = [OpStat "."; OpReaddir "."; OpReaddir "docs"; OpOpen "docs/a.md"].
Proof. split; by vm_compute. Qed.

Example call_writes : (demo_call "docs/x/../a.md").1 = Err (ErrorText
  "protected or invalid path: docs/x/../a.md") ∧
  (demo_call "docs//a.md").1 = Ok "wrote docs//a.md" ∧
  (demo_call "docs//a.md").2.2.*1 = [OpMkdir "docs"; OpWrite "docs/a.md" "# A"] ∧
  (demo_call "src/a.md").2.2 = [] ∧ (demo_call "docs/.env.local").2.2 = [].
Proof. split_and!; by vm_compute. Qed.

Lemma Call_confined_witness :
  (demo_call "docs//a.md").1 = Ok "wrote docs//a.md" ∧
  (Forall (harmless demo_disk demo_sandbox "write_file") (demo_call "docs//a.md").2.2 ∨
   ∃ args p, unmarshal_args (demo_raw "docs//a.md") = Ok args ∧
     may_write demo_disk demo_sandbox ∅ (ta_Path args) p (ta_Content args)).
Proof.
  split; [by vm_compute|].
  destruct (Call_confined demo_disk demo_sandbox "write_file" 2 (demo_raw "docs//a.md") ∅
    (demo_call "docs//a.md").1 (demo_call "docs//a.md").2.1 (demo_call "docs//a.md").2.2)
    as [_ [H|(_ & args & p & Ha & Hp & _)]].
  - by vm_compute.
  - by left.
  - right. by exists args, p.
Defined.
End demo.
End Confinement.
