(* ===== verification/AgentDef.v ===== *)
(** * Loading the definition of a task ([internal/agentdef])

    A definition is read from the repository: the pipeline and, for each agent, a persona
    with YAML frontmatter, conventions and knowledge files.  The YAML decoders and the disk
    are parameters.  The theorems: what a loaded definition guarantees, and that no two of
    its stages can write the same file. *)
From S2P Require Import Prelude GoStrings Domain Pipeline PipelineJSON Agent Llm Tools.
From S2P Require Import PathGuard Output Splitting ToolCalls.

(** ** Who owns which files *)
(** The characters that make a path segment a pattern. *)
Definition meta_chars : list string := ["*"; "?"; "["; "{"; "\"].
(** src: internal/agentdef/conflicts.go 36-45 literalRoot *)
Fixpoint literal_parts (parts : list string) : list string :=
  match parts with
  | [] => []
  | s :: parts => if existsb (Contains s) meta_chars then [] else s :: literal_parts parts
  end.
(** src: internal/agentdef/conflicts.go 35-45 literalRoot *)
Definition literalRoot (p : string) : string := Join "/" (literal_parts (Split slash p)).

(** src: internal/agentdef/conflicts.go 25-28 checkWriteConflicts (pair) *)
Definition overlap (p q : string) : bool :=
  let x := literalRoot p in
  let y := literalRoot q in
  (x =? "") || (y =? "") || (x =? y) || HasPrefix x (y +:+ "/") || HasPrefix y (x +:+ "/").

Section conflicts.
Context {UC : Unicode} {MA : Matchers}.
Definition paths_of_stage (d : Def) (s : StageSpec) : list string :=
  elems (ag_WritePaths (agent_of d (ss_Agent s))).

(** src: internal/agentdef/conflicts.go 16-20 checkWriteConflicts (patterns) *)
Fixpoint check_patterns (paths : list string) : result unit :=
  match paths with
  | [] => Ok tt
  | p :: paths =>
    if negb (ValidatePattern p) || Protected p
    then Err (ErrorText ("invalid write_path: " +:+ p)) else check_patterns paths
  end.
(** src: internal/agentdef/conflicts.go 21-31 checkWriteConflicts (others) *)
Fixpoint check_others (d : Def) (s : StageSpec) (others : list StageSpec) : result unit :=
  match others with
  | [] => Ok tt
  | other :: others =>
    match list_find (λ pq, Is_true (overlap pq.1 pq.2))
            (p ← paths_of_stage d s; q ← paths_of_stage d other; [(p, q)]) with
    | Some (_, (p, q)) =>
      Err (ErrorText ("write_paths conflict: " +:+ ss_ID s +:+ " and " +:+ ss_ID other +:+ " (" +:+
                      p +:+ ", " +:+ q +:+ ")"))
    | None => check_others d s others
    end
  end.
(** src: internal/agentdef/conflicts.go 13-34 checkWriteConflicts *)
Fixpoint check_conflicts (d : Def) (stages : list StageSpec) : result unit :=
  match stages with
  | [] => Ok tt
  | s :: stages =>
    _ ← check_patterns (paths_of_stage d s);
    _ ← check_others d s stages;
    check_conflicts d stages
  end.
Definition checkWriteConflicts (d : Def) : result unit :=
  check_conflicts d (pl_Stages (df_Pipeline d)).
End conflicts.

(** ** Loading *)
(** An entry of the knowledge directory. *)
#[local] Unset Elimination Schemes.
Inductive entry := File (name : string) | Link (name : string) | Folder (name : string) (entries : list entry).
#[local] Set Elimination Schemes.
Definition entry_name (e : entry) : string :=
  match e with File n | Link n | Folder n _ => n end.
(** The repository and the decoders. *)
Class Source := {
  open_root : result unit;
  lstat : string → result bool;
  read_file : string → result string;
  walk_dir : string → result (option entry);
  decode_agent : string → result AgentSpec;
  parse_pipeline : string → result Pipeline }.

Section loader.
Context {UC : Unicode} {MA : Matchers} {SO : Source}.
(** src: internal/agentdef/loader.go 44-50 LoadDefinition (read) *)
Definition read (rel : string) : result string :=
  _ ← NoSymlinks lstat rel; read_file rel.
Abbreviation newline := (String (chr 10) "").
(** The headed contents of the knowledge files below [rel].
    src: internal/agentdef/loader.go 113-143 LoadDefinition (knowledge walk) *)
Fixpoint knowledge (rel : string) (e : entry) : result string :=
  match e with
  | Link _ => Err (ErrorText "knowledge symlink is not allowed")
  | File _ =>
    if Protected rel then Ok "" else
    content ← read rel; Ok (newline +:+ "### " +:+ rel +:+ newline +:+ content)
  | Folder _ entries =>
    if Protected rel then Ok "" else
    (fix all (l : list entry) : result string :=
       match l with
       | [] => Ok ""
       | e :: l => k ← knowledge (JoinPath [rel; entry_name e]) e; ks ← all l; Ok (k +:+ ks)
       end) entries
  end.
Definition load_knowledge (dir : string) : result string :=
  e ← walk_dir dir; match e with Some e => knowledge dir e | None => Ok "" end.

Definition with_Paths (a : AgentSpec) (paths : option (list string)) : AgentSpec :=
  MkAgent (ag_Color a) (ag_Name a) (ag_DisplayName a) (ag_ToolProfile a) paths (ag_Model a)
    (ag_TestCommand a) (ag_Persona a) (ag_Conventions a) (ag_Knowledge a).
Definition with_texts (a : AgentSpec) persona conventions knowledge : AgentSpec :=
  MkAgent (ag_Color a) (ag_Name a) (ag_DisplayName a) (ag_ToolProfile a) (ag_WritePaths a)
    (ag_Model a) (ag_TestCommand a) persona conventions knowledge.
(** src: internal/agentdef/loader.go 84-107 LoadDefinition (profile) *)
Definition check_profile (a : AgentSpec) : result AgentSpec :=
  a ← (if (ag_ToolProfile a =? "docs-writer") || (ag_ToolProfile a =? "code-writer") then
         let a := if bool_decide (elems (ag_WritePaths a) = []) && (ag_ToolProfile a =? "docs-writer")
                  then with_Paths a (Some ["docs/**"]) else a in
         if bool_decide (elems (ag_WritePaths a) = [])
         then Err (ErrorText (ag_Name a +:+ " requires write_paths")) else Ok a
       else if (ag_ToolProfile a =? "reader") || (ag_ToolProfile a =? "publisher") then
         if forallb (λ wp, HasPrefix wp "docs/") (elems (ag_WritePaths a)) then Ok a
         else Err (ErrorText (ag_Name a +:+ " may only write docs"))
       else Err (ErrorText ("invalid tool_profile: " +:+ ag_ToolProfile a)));
  match find (λ wp, negb (SafeRelative wp)) (elems (ag_WritePaths a)) with
  | Some wp => Err (ErrorText ("invalid write_path: " +:+ wp))
  | None => Ok a
  end.
(** src: internal/agentdef/loader.go 70-147 LoadDefinition (agent) *)
Definition load_agent (contextPath name : string) : result AgentSpec :=
  let dir := JoinPath [contextPath; "agents"; name] in
  persona ← read (JoinPath [dir; "persona.md"]);
  match SplitN persona "---" 3 with
  | [before; front; text] =>
    if TrimSpace before ≠? "" then Err (ErrorText ("agent " +:+ name +:+ " requires YAML frontmatter"))
    else
    a ← decode_agent front;
    if ag_Name a ≠? name then Err (ErrorText ("agent name must match directory: " +:+ name)) else
    a ← check_profile a;
    conventions ← read (JoinPath [dir; "conventions.md"]);
    k ← load_knowledge (JoinPath [dir; "knowledge"]);
    Ok (with_texts a text conventions k)
  | _ => Err (ErrorText ("agent " +:+ name +:+ " requires YAML frontmatter"))
  end.
(** The built-in agent.
    src: internal/agentdef/loader.go 67-69 LoadDefinition (publisher) *)
Definition publisher_agent : AgentSpec :=
  MkAgent "" "publisher" "" "publisher" None "" ""
    "Collect approved deliverables into a PR draft."
    "Return the PR draft as Markdown. Publishing is not implemented yet." "".
(** src: internal/agentdef/loader.go 63-148 LoadDefinition (stages) *)
Fixpoint load_agents (contextPath : string) (agents : gmap string AgentSpec)
    (stages : list StageSpec) : result (gmap string AgentSpec) :=
  match stages with
  | [] => Ok agents
  | s :: stages =>
    if bool_decide (is_Some (agents !! ss_Agent s)) then load_agents contextPath agents stages else
    a ← (if ss_Agent s =? "publisher" then Ok publisher_agent
         else load_agent contextPath (ss_Agent s));
    load_agents contextPath (<[ag_Name a := a]> agents) stages
  end.
(** src: internal/agentdef/loader.go 34-154 LoadDefinition *)
Definition LoadDefinition (workspace contextPath : string) : result Def :=
  if negb (SafeRelative contextPath) then Err (ErrorText "invalid context_path") else
  _ ← open_root;
  text ← read (JoinPath [contextPath; "pipeline.yaml"]);
  p ← parse_pipeline text;
  spec ← match read (JoinPath [contextPath; "spec.md"]) with
         | Err e => if is_not_exist e then Ok "" else Err e
         | Ok spec => Ok spec
         end;
  agents ← load_agents contextPath ∅ (pl_Stages p);
  let d := MkDef p agents spec workspace in
  _ ← checkWriteConflicts d;
  Ok d.
End loader.

(** ** Disjoint ownership *)
(** A path is [root] or below it. *)
Definition below (root name : string) : Prop := name = root ∨ ∃ t, name = root +:+ "/" +:+ t.
Lemma below_cases x y name :
  below x name → below y name →
  x = y ∨ (∃ v, x = y +:+ "/" +:+ v) ∨ (∃ v, y = x +:+ "/" +:+ v).
Proof.
  revert y name. induction x as [|c x IH]; intros y name Hx Hy.
  - destruct y as [|c y]; [by left|]. right. right.
    destruct Hx as [->|[t ->]], Hy as [Hy|[u Hy]]; try done; injection Hy as E1 E2; subst;
      by eexists.
  - destruct y as [|c' y].
    { right. left. destruct Hx as [->|[t ->]], Hy as [Hy|[u Hy]]; try done; injection Hy as E1 E2;
        subst; by eexists. }
    assert (∃ n, name = String c n ∧ c = c' ∧ below x n ∧ below y n) as (n & -> & <- & Hx' & Hy').
    { destruct Hx as [->|[t ->]], Hy as [Hy|[u Hy]]; injection Hy as E1 E2; subst; eexists;
        (split; [reflexivity|]); (split; [done|]); split;
        solve [by left|right; by eexists|left; exact E2|right; eexists; exact E2]. }
    destruct (IH _ _ Hx' Hy') as [->|[[v ->]|[v ->]]]; [by left|right; left|right; right]; by exists v.
Qed.
(** A glob matches only names at or below the directory of its literal segments: what the
    documentation of the matcher says of segments without meta characters. *)
Class GlobLaws `{MA : Matchers} :=
  match_below pattern name :
    PathMatch pattern name = Some true → literalRoot pattern ≠ "" → below (literalRoot pattern) name.

Section theorems.
Context {UC : Unicode} {MA : Matchers}.

Lemma overlap_shared `{!GlobLaws} p q name :
  GlobMatch name p = true → GlobMatch name q = true → overlap p q = true.
Proof.
  intros Hp Hq. unfold overlap. cbv zeta.
  destruct (String.eqb_spec (literalRoot p) "") as [|Np]; [done|].
  destruct (String.eqb_spec (literalRoot q) "") as [|Nq]; [done|]. simpl.
  assert (∀ r, GlobMatch name r = true → PathMatch r name = Some true) as Hm.
  { intros r. unfold GlobMatch. destruct (PathMatch r name) as [[]|]; done. }
  destruct (below_cases (literalRoot p) (literalRoot q) name) as [->|[[v ->]|[v ->]]];
    [by apply match_below, Np; apply Hm|by apply match_below, Nq; apply Hm|..].
  - by rewrite String.eqb_refl.
  - rewrite string_app_assoc, HasPrefix_app. by rewrite orb_true_r.
  - rewrite string_app_assoc, HasPrefix_app. by rewrite !orb_true_r.
Qed.
Lemma check_others_ok d s others other p q :
  check_others d s others = Ok tt → other ∈ others → p ∈ paths_of_stage d s →
  q ∈ paths_of_stage d other → overlap p q = false.
Proof.
  intros H Hin Hp Hq. revert H. induction others as [|o others IH]; [by apply elem_of_nil in Hin|].
  cbn [check_others]. destruct (list_find _ _) as [[n [p' q']]|] eqn:E; [done|]. intros H.
  apply elem_of_cons in Hin as [->|Hin]; [|by apply IH]. apply list_find_None in E.
  rewrite Forall_forall in E. apply not_true_iff_false. intros Ho. apply (E (p, q)); [|simpl; by rewrite Ho].
  apply list_elem_of_bind. exists p. split; [|done]. apply list_elem_of_bind. exists q.
  split; [by apply list_elem_of_singleton|done].
Qed.
Lemma check_patterns_ok paths p :
  check_patterns paths = Ok tt → p ∈ paths → ValidatePattern p = true ∧ Protected p = false.
Proof.
  intros H Hin. induction paths as [|q paths IH]; [by apply elem_of_nil in Hin|].
  simpl in H. destruct (ValidatePattern q) eqn:Hv, (Protected q) eqn:Hpr; try done.
  apply elem_of_cons in Hin as [->|Hin]; [done|by apply IH].
Qed.
Lemma check_conflicts_ok d stages :
  check_conflicts d stages = Ok tt →
  (∀ s p, s ∈ stages → p ∈ paths_of_stage d s → ValidatePattern p = true ∧ Protected p = false) ∧
  ∀ i j s other p q, (i < j)%nat → stages !! i = Some s → stages !! j = Some other →
    p ∈ paths_of_stage d s → q ∈ paths_of_stage d other → overlap p q = false.
Proof.
  induction stages as [|s0 stages IH]; intros H.
  { split; [by intros s p ?%elem_of_nil|by intros i j s other p q _ ?]. }
  cbn [check_conflicts] in H. apply result_bind_ok in H as ([] & Hpat & H).
  apply result_bind_ok in H as ([] & Hoth & H). destruct (IH H) as [IHp IHo]. split.
  - intros s p [->|Hs]%elem_of_cons Hp; [by eapply check_patterns_ok|by eapply IHp].
  - intros [|i] [|j] s other p q Hij Hs Ho Hp Hq; simpl in *; simplify_eq; try lia.
    + eapply check_others_ok; [exact Hoth|by eapply list_elem_of_lookup_2|done|done].
    + eapply (IHo i j); try done. lia.
Qed.

(** C17: stages run side by side and never write the same file: if the write-conflict check of
    a definition passes, then the files that the sandboxes of two of its stages may write,
    however they are named and resolved, at whatever times, are different. *)
Theorem stages_never_share_a_file `{GL : !GlobLaws} {D : Type} (disk : Disk D) d i j si sj s1 s2
    d1 d2 n1 n2 p1 p2 c1 c2 :
  checkWriteConflicts d = Ok tt → i ≠ j →
  pl_Stages (df_Pipeline d) !! i = Some si → pl_Stages (df_Pipeline d) !! j = Some sj →
  sb_Agent s1 = agent_of d (ss_Agent si) → sb_Agent s2 = agent_of d (ss_Agent sj) →
  Confinement.may_write disk s1 d1 n1 p1 c1 → Confinement.may_write disk s2 d2 n2 p2 c2 →
  p1 ≠ p2.
Proof.
  intros Hc Hne Hi Hj E1 E2 (_ & _ & _ & w1 & Hw1 & _ & Hm1) (_ & _ & _ & w2 & Hw2 & _ & Hm2) <-.
  rewrite E1 in Hw1. rewrite E2 in Hw2. destruct (check_conflicts_ok _ _ Hc) as [_ Ho].
  destruct (decide (i < j)%nat) as [Hlt|Hlt].
  - pose proof (overlap_shared _ _ _ Hm1 Hm2) as H. by rewrite (Ho i j si sj) in H.
  - pose proof (overlap_shared _ _ _ Hm2 Hm1) as H. rewrite (Ho j i sj si) in H by (done || lia). done.
Qed.
End theorems.

(** ** What a loaded definition guarantees *)
Section loaded.
Context {UC : Unicode} {MA : Matchers} {SO : Source}.
(** What the profile of an agent lets it write. *)
Definition well_profiled (a : AgentSpec) : Prop :=
  ag_ToolProfile a ∈ ["docs-writer"; "code-writer"; "reader"; "publisher"] ∧
  Forall (λ wp, SafeRelative wp = true) (elems (ag_WritePaths a)) ∧
  (ag_ToolProfile a ∈ ["docs-writer"; "code-writer"] → elems (ag_WritePaths a) ≠ []) ∧
  (ag_ToolProfile a ∈ ["reader"; "publisher"] →
   Forall (λ wp, HasPrefix wp "docs/" = true) (elems (ag_WritePaths a))).
Lemma find_None_Forall (f : string → bool) l :
  find (λ x, negb (f x)) l = None → Forall (λ x, f x = true) l.
Proof.
  induction l as [|x l IH]; simpl; [by constructor|]. destruct (f x) eqn:E; [|done].
  constructor; [done|by apply IH].
Qed.
Lemma check_profile_ok a a' :
  check_profile a = Ok a' → well_profiled a' ∧ ag_Name a' = ag_Name a.
Proof.
  unfold check_profile. intros (a1 & H1 & H)%result_bind_ok.
  destruct (find _ _) eqn:Hf; [done|]. injection H as <-. apply find_None_Forall in Hf.
  destruct (_ || _) eqn:Hw.
  - cbv zeta in H1. case_bool_decide as Hne; [done|]. injection H1 as <-.
    set (a1 := if _ : bool then _ else _) in *.
    assert (ag_ToolProfile a1 = ag_ToolProfile a ∧ ag_Name a1 = ag_Name a) as [Ep En]
      by (subst a1; by case_match).
    apply orb_true_iff in Hw. rewrite !String.eqb_eq in Hw. split; [|done].
    unfold well_profiled. rewrite Ep. split_and!; [set_solver|done|done|]. intros Hr. exfalso.
    destruct Hw as [Hw|Hw]; rewrite Hw in Hr; revert Hr; rewrite !elem_of_cons, elem_of_nil;
      naive_solver.
  - destruct (_ || _) eqn:Hr in H1; [|done]. destruct (forallb _ _) eqn:Hd; [|done].
    injection H1 as <-. split; [|done]. apply orb_true_iff in Hr. rewrite !String.eqb_eq in Hr.
    apply orb_false_iff in Hw. rewrite !String.eqb_neq in Hw.
    unfold well_profiled. split_and!; [set_solver|done|set_solver|]. intros _. apply Forall_forall.
    by apply forallb_elem.
Qed.
Lemma load_agent_ok contextPath name a :
  load_agent contextPath name = Ok a → well_profiled a ∧ ag_Name a = name.
Proof.
  unfold load_agent. intros (persona & _ & H)%result_bind_ok.
  destruct (SplitN persona "---" 3) as [|before [|front [|text [|]]]]; try done.
  destruct (_ ≠? _); [done|]. apply result_bind_ok in H as (a0 & _ & H).
  destruct (String.eqb_spec (ag_Name a0) name) as [E|]; [|done]. simpl in H.
  apply result_bind_ok in H as (a1 & [Hp En]%check_profile_ok & H).
  apply result_bind_ok in H as (c & _ & H). apply result_bind_ok in H as (k & _ & [= <-]).
  split; [done|]. simpl. congruence.
Qed.
Lemma load_agents_ok contextPath agents stages agents' :
  (∀ name a, agents !! name = Some a → well_profiled a ∧ ag_Name a = name) →
  load_agents contextPath agents stages = Ok agents' →
  (∀ name a, agents' !! name = Some a → well_profiled a ∧ ag_Name a = name) ∧
  (∀ name, is_Some (agents !! name) → is_Some (agents' !! name)) ∧
  ∀ s, s ∈ stages → is_Some (agents' !! ss_Agent s).
Proof.
  revert agents. induction stages as [|s stages IH]; intros agents Hinv.
  { intros [= <-]. split_and!; [done|done|by intros s ?%elem_of_nil]. }
  cbn [load_agents]. case_bool_decide as Hin.
  { intros H. destruct (IH _ Hinv H) as (Hw & Hm & Hs). split_and!; [done|done|].
    intros x [->|Hx]%elem_of_cons; [by apply Hm|by apply Hs]. }
  intros (a & Ha & H)%result_bind_ok.
  assert (well_profiled a ∧ ag_Name a = ss_Agent s) as [Hwa En].
  { destruct (String.eqb_spec (ss_Agent s) "publisher") as [->|]; [|by eapply load_agent_ok].
    injection Ha as <-. split; [|done]. split_and!; simpl; [|by constructor| |by constructor].
    - by do 3 apply list_elem_of_further; apply list_elem_of_here.
    - intros [?|[?|[]%elem_of_nil]%elem_of_cons]%elem_of_cons; discriminate. }
  assert (∀ name b, <[ag_Name a := a]> agents !! name = Some b → well_profiled b ∧ ag_Name b = name)
    as Hinv'.
  { intros name b [[<- <-]|[_ Hb]]%lookup_insert_Some; [done|by apply Hinv]. }
  destruct (IH _ Hinv' H) as (Hw & Hm & Hs). split_and!; [done| |].
  - intros name [b Hb]. apply Hm. destruct (decide (ag_Name a = name)) as [->|];
      [rewrite lookup_insert_eq; by eexists|rewrite lookup_insert_ne by done; by eexists].
  - intros x [->|Hx]%elem_of_cons; [|by apply Hs]. apply Hm. rewrite En, lookup_insert_eq.
    by eexists.
Qed.

(** C38: a definition that loads can be run: every stage's agent is there under its name, with
    a known tool profile; writers own at least one pattern, readers and publishers write only
    docs; all patterns are valid, relative without traversal and never protected; and the
    patterns of different stages do not overlap. *)
Theorem LoadDefinition_sound workspace contextPath d :
  LoadDefinition workspace contextPath = Ok d →
  df_Workspace d = workspace ∧
  (∀ s, s ∈ pl_Stages (df_Pipeline d) →
     ∃ a, df_Agents d !! ss_Agent s = Some a ∧ ag_Name a = ss_Agent s ∧ well_profiled a ∧
       Forall (λ p, ValidatePattern p = true ∧ Protected p = false) (elems (ag_WritePaths a))) ∧
  ∀ i j si sj p q, (i < j)%nat →
    pl_Stages (df_Pipeline d) !! i = Some si → pl_Stages (df_Pipeline d) !! j = Some sj →
    p ∈ paths_of_stage d si → q ∈ paths_of_stage d sj → overlap p q = false.
Proof.
  unfold LoadDefinition. destruct (negb _); [done|]. intros (_ & _ & H)%result_bind_ok.
  apply result_bind_ok in H as (text & _ & H). apply result_bind_ok in H as (p & _ & H).
  apply result_bind_ok in H as (spec & _ & H). apply result_bind_ok in H as (agents & Ha & H).
  cbv zeta in H. apply result_bind_ok in H as ([] & Hc & [= <-]).
  apply load_agents_ok in Ha as (Hw & _ & Hs); [|by intros name a; rewrite lookup_empty].
  destruct (check_conflicts_ok _ _ Hc) as [Hpat Hover]. split_and!; [done| |exact Hover].
  intros s Hin. destruct (Hs s Hin) as [a Ha]. destruct (Hw _ _ Ha) as [Hwa En].
  exists a. split_and!; try done. apply Forall_forall. intros x Hx. apply (Hpat s); [done|].
  unfold paths_of_stage, agent_of. simpl. by rewrite Ha.
Qed.
End loaded.

(** ** A repository with two writers *)
Section demo.
#[local] Existing Instance ascii_unicode.
Definition demo_globs : Matchers := {|
  PathMatch pattern name :=
    Some (HasSuffix pattern "/**" && HasPrefix name (literalRoot pattern +:+ "/"));
  ValidatePattern _ := true; compile _ := Ok (λ _, true); shell_fields l := Ok [l] |}.
#[local] Existing Instance demo_globs.
#[local] Instance demo_glob_laws : GlobLaws.
Proof.
  intros pattern name [= H] _. apply andb_true_iff in H as [_ H]. apply HasPrefix_inv in H as [t ->].
  right. exists t. by rewrite <- string_app_assoc.
Qed.
Definition demo_stage (id agent : string) : StageSpec := MkSpec id agent (Some []) (Some []) "" None.
Definition demo_pipeline : Pipeline :=
  MkPipeline 1 [demo_stage "spec" "writer"; demo_stage "code" "coder"]
    (MkPolicy 3 40 "fake" None "" "").
Definition demo_persona (name : string) : string := "---" +:+ name +:+ "---" +:+ "You write.".
Definition demo_source : Source := {|
  open_root := Ok tt;
  lstat p := if existsb (String.eqb p) ["ctx"; "ctx/agents"] then Ok false else Err (ErrNotExist p);
  read_file p :=
    if p =? "ctx/pipeline.yaml" then Ok "stages" else
    if p =? "ctx/agents/writer/persona.md" then Ok (demo_persona "writer") else
    if p =? "ctx/agents/coder/persona.md" then Ok (demo_persona "coder") else
    if HasSuffix p "conventions.md" then Ok "be brief" else Err (ErrNotExist p);
  walk_dir p := if p =? "ctx/agents/coder/knowledge" then Ok (Some (Folder "knowledge" [])) else Ok None;
  decode_agent front :=
    if front =? "writer" then Ok (MkAgent "" "writer" "" "docs-writer" None "" "" "" "" "")
    else Ok (MkAgent "" "coder" "" "code-writer" (Some ["src/**"]) "" "make test" "" "" "");
  parse_pipeline _ := Ok demo_pipeline |}.
#[local] Existing Instance demo_source.
Definition demo_loaded : Def := Eval vm_compute in
  match LoadDefinition "/w" "ctx" with
  | Ok d => d
  | Err _ => MkDef demo_pipeline ∅ "" ""
  end.
Lemma LoadDefinition_sound_witness :
  LoadDefinition "/w" "ctx" = Ok demo_loaded ∧
  ∃ a, df_Agents demo_loaded !! "writer" = Some a ∧ well_profiled a.
Proof.
  assert (LoadDefinition "/w" "ctx" = Ok demo_loaded) as H by by vm_compute.
  split; [exact H|]. destruct (LoadDefinition_sound "/w" "ctx" demo_loaded H) as (_ & Hs & _).
  destruct (Hs (demo_stage "spec" "writer")) as (a & Ha & _ & Hw & _);
    [apply list_elem_of_here|by exists a].
Defined.
Definition demo_box (agent : string) : Sandbox := MkSandbox "/w" (agent_of demo_loaded agent) 0 None.
Lemma demo_may_write agent name wp :
  resolved Confinement.demo_disk ∅ (demo_box agent) name = Ok name →
  SafeRelative name && negb (Protected name) &&
    (ag_ToolProfile (agent_of demo_loaded agent) ≠? "publisher") && GlobMatch name wp = true →
  wp ∈ elems (ag_WritePaths (agent_of demo_loaded agent)) →
  Confinement.may_write Confinement.demo_disk (demo_box agent) ∅ name name "x".
Proof.
  rewrite !andb_true_iff, !negb_true_iff, String.eqb_neq. intros Hr [[[Hs Hp] Hpub] Hg] Hwp.
  split; [by apply Confinement.permits_resolved|]. split_and!; [done|done|by exists wp].
Qed.
Lemma stages_never_share_a_file_witness :
  checkWriteConflicts demo_loaded = Ok tt ∧ "docs/a.md" ≠ "src/a.c".
Proof.
  assert (checkWriteConflicts demo_loaded = Ok tt) as Hc by by vm_compute. split; [exact Hc|].
  apply (stages_never_share_a_file Confinement.demo_disk demo_loaded 0 1
    (demo_stage "spec" "writer") (demo_stage "code" "coder") (demo_box "writer") (demo_box "coder")
    ∅ ∅ "docs/a.md" "src/a.c" "docs/a.md" "src/a.c" "x" "x" Hc);
    [done|reflexivity|reflexivity|reflexivity|reflexivity| |].
  - by apply (demo_may_write "writer" "docs/a.md" "docs/**");
      [vm_compute..|vm_compute; apply list_elem_of_here].
  - by apply (demo_may_write "coder" "src/a.c" "src/**");
      [vm_compute..|vm_compute; apply list_elem_of_here].
Defined.
End demo.
