(* ===== verification/Workspace.v ===== *)
(** * Workspaces ([internal/workspace/git.go])

    A task's files are the working tree of a git repository.  Stages write disjoint files of
    it; [Accept] commits the files of a stage, [Reset] takes back what a stage wrote, and
    [BranchCommit] builds the commit of one role on the base of the workspace.  Git and the
    file system are an interface; this file has the operations and the text that goes to git
    and comes back. *)
From S2P Require Import Prelude GoStrings Domain Pipeline PathGuard Output Splitting ToolCalls.

Definition nul : Ascii.ascii := chr 0.
Definition tab : Ascii.ascii := chr 9.
Definition newline : Ascii.ascii := chr 10.
Definition baseRef : string := "refs/devsquad/base".

(** A tree of the file system: a file, or a directory with its entries in lexical order. *)
#[local] Unset Elimination Schemes.
Inductive node := Node (name : string) (children : option (list node)).
#[local] Set Elimination Schemes.
Definition node_name (n : node) : string := let '(Node name _) := n in name.

(** A process: its arguments, its directory, its environment and its standard input. *)
Record Cmd := MkCmd {
  cm_Args : list string; cm_Dir : string; cm_Env : list string; cm_Stdin : string }.
(** A directory entry: its name, whether it is a directory, and its modification time. *)
Record DirEntry := MkDirEntry { de_Name : string; de_IsDir : bool; de_ModTime : result Z }.
(** What the host does: [mc_exec] runs git and gives its combined output, and an error when it
    fails; [mc_walk] lists a directory as [filepath.WalkDir] visits it; [mc_lstat] says whether
    a name below an opened root is a symbolic link. *)
Record Machine (S : Type) := MkMachine {
  mc_environ : list string;
  mc_exec : Cmd → io S (option error * string);
  mc_walk : string → io S (list node);
  mc_openroot : string → io S unit;
  mc_lstat : S → string → string → result bool;
  mc_remove : string → string → io S unit;
  mc_createtemp : io S string;
  mc_unlink : string → io S unit;
  mc_readdir : string → io S (list DirEntry);
  mc_removeall : string → io S unit }.
Arguments mc_environ {S}. Arguments mc_exec {S}. Arguments mc_walk {S}. Arguments mc_openroot {S}.
Arguments mc_lstat {S}. Arguments mc_remove {S}. Arguments mc_createtemp {S}.
Arguments mc_unlink {S}. Arguments mc_readdir {S}. Arguments mc_removeall {S}.

(** [strings.TrimSuffix] *)
Definition TrimSuffix (s suffix : string) : string :=
  if HasSuffix s suffix then take_string (String.length s - String.length suffix) s else s.

(** ** What goes to git *)
Definition git_flags : list string :=
  ["-c"; "user.name=DevSquad"; "-c"; "user.email=devsquad@localhost"; "-c";
   "core.hooksPath=/dev/null"; "-c"; "commit.gpgsign=false"].
Definition git_env : list string :=
  ["GIT_CONFIG_NOSYSTEM=1"; "GIT_CONFIG_GLOBAL=/dev/null"; "GIT_LITERAL_PATHSPECS=1";
   "GIT_TERMINAL_PROMPT=0"].
(** src: internal/workspace/git.go 48-53 auth *)
Definition auth (header : string) : list string :=
  if header =? "" then [] else
  ["GIT_CONFIG_COUNT=1"; "GIT_CONFIG_KEY_0=http.extraHeader"; "GIT_CONFIG_VALUE_0=" +:+ header].
(** The entries of [ls-tree -z], by path.
    src: internal/workspace/git.go 209-214 Manager.BranchCommit (entries) *)
Definition parse_entries (listed : string) : gmap string string :=
  fold_left (λ m line, if Cut line (one tab) is Some (meta, path) then <[path := meta]> m else m)
    (Split nul listed) ∅.
Definition zero_oid : string := "0000000000000000000000000000000000000000".
(** One line for [update-index --index-info]; a [meta] of less than three fields panics.
    src: internal/workspace/git.go 218-223 Manager.BranchCommit (index line) *)
Definition index_line (entries : gmap string string) (p : string) : result string :=
  match entries !! p with
  | Some meta =>
    match Fields meta with
    | mode :: _ :: oid :: _ => Ok (mode +:+ " " +:+ oid +:+ one tab +:+ p +:+ one newline)
    | _ => Err (ErrorText "index out of range")
    end
  | None => Ok ("0 " +:+ zero_oid +:+ one tab +:+ p +:+ one newline)
  end.
(** src: internal/workspace/git.go 216-224 Manager.BranchCommit (index info) *)
Fixpoint index_info (entries : gmap string string) (names : list string) : result string :=
  match names with
  | [] => Ok ""
  | p :: names => line ← index_line entries p; rest ← index_info entries names; Ok (line +:+ rest)
  end.

Section workspace.
Context {UC : Unicode} {MA : Matchers} {S : Type} (mc : Machine S).

(** src: internal/workspace/git.go 34-44 gitEnv *)
Definition gitEnv (dir : string) (env : list string) (stdin : string) (args : list string)
    : io S string :=
  '(e, b) ← mc_exec mc (MkCmd (git_flags ++ args) dir (mc_environ mc ++ git_env ++ env) stdin);
  match e with
  | Some e => raise (ErrorWrap ("workspace git " +:+ default "" (head args)) (ErrorSuffix e (TrimSpace b)))
  | None => mret (TrimSuffix b (one newline))
  end.
(** src: internal/workspace/git.go 31-33 git *)
Definition git (dir : string) (args : list string) : io S string := gitEnv dir [] "" args.
(** src: internal/workspace/git.go 54-61 initGit *)
Definition initGit (dir : string) : io S unit :=
  each (λ args, git dir args;; mret tt)
    [["init"; "--quiet"]; ["add"; "--force"; "--"; "."];
     ["commit"; "--quiet"; "--allow-empty"; "-m"; "Workspace baseline"];
     ["update-ref"; baseRef; "HEAD"]].

(** src: internal/workspace/git.go 83-93 owned *)
Definition owned (name : string) (patterns : list string) : bool :=
  negb (Protected name) && existsb (GlobMatch name) patterns.

(** The files that the walk of a working tree visits: nothing below a protected directory.
    src: internal/workspace/git.go 107-126 files (walk) *)
Fixpoint walked (p : string) (n : node) : list string :=
  let '(Node _ children) := n in
  if Protected p then [] else
  match children with
  | Some entries => concat (map (λ c, walked (slashed p (node_name c)) c) entries)
  | None => [p]
  end.
(** The files a stage owns, tracked or in the working tree, in order; and the tracked ones.
    src: internal/workspace/git.go 94-133 files *)
Definition files (dir : string) (patterns : list string) : io S (list string * gset string) :=
  tracked ← git dir ["ls-tree"; "-r"; "--name-only"; "-z"; "HEAD"];
  let base := filter (λ p, p ≠ "" ∧ owned p patterns = true) (Split nul tracked) in
  tree ← mc_walk mc dir;
  let found := filter (λ p, owned p patterns = true)
                 (concat (map (λ n, walked (node_name n) n) tree)) in
  mret (sort_strings (elements (list_to_set (C:=gset string) (base ++ found))), list_to_set base).

(** src: internal/workspace/git.go 146-159 Manager.Reset (file) *)
Definition reset_file (dir : string) (base : gset string) (p : string) : io S unit :=
  r ← query (λ σ, NoSymlinks (mc_lstat mc σ dir) (Dir p)); give r;;
  if bool_decide (p ∈ base) then
    git dir ["restore"; "--source=HEAD"; "--staged"; "--worktree"; "--"; p];; mret tt
  else
    r ← attempt (mc_remove mc dir p);
    match r with
    | Ok _ => mret tt
    | Err e => if is_not_exist e then mret tt else raise e
    end.
(** src: internal/workspace/git.go 134-161 Manager.Reset *)
Definition Reset (dir : string) (patterns : list string) : io S unit :=
  '(names, base) ← files dir patterns;
  mc_openroot mc dir;;
  each (reset_file dir base) names.
(** src: internal/workspace/git.go 165-165 Manager.Accept (ref) *)
Definition approved_ref (key : string) : string := "refs/devsquad/approved/" +:+ key.
(** src: internal/workspace/git.go 162-183 Manager.Accept *)
Definition Accept (dir key : string) (patterns : list string) : io S unit :=
  let ref := approved_ref key in
  r ← attempt (git dir ["rev-parse"; "--verify"; ref]);
  if is_ok r then mret tt else
  '(names, _) ← files dir patterns;
  (if decide (names = []) then mret tt
   else git dir (["add"; "-A"; "--force"; "--"] ++ names);; mret tt);;
  git dir ["commit"; "--quiet"; "--allow-empty"; "-m"; "Approve " +:+ key];;
  git dir ["update-ref"; ref; "HEAD"];;
  mret tt.

(** [patterns] is [None] for nil.
    src: internal/workspace/git.go 196-201 Manager.BranchCommit (filter) *)
Definition wanted (patterns : option (list string)) (p : string) : bool :=
  match patterns with Some l => owned p l | None => true end.
(** The commit of an index file of its own.
    src: internal/workspace/git.go 231-247 Manager.BranchCommit (commit) *)
Definition commit_index (dir index source info message : string) : io S (string * bool) :=
  let env := ["GIT_INDEX_FILE=" +:+ index] in
  gitEnv dir env "" ["read-tree"; baseRef];;
  gitEnv dir env info ["update-index"; "--index-info"];;
  tree ← gitEnv dir env "" ["write-tree"];
  date ← git dir ["log"; "-1"; "--format=%cI"; source];
  sha ← gitEnv dir ["GIT_AUTHOR_DATE=" +:+ date; "GIT_COMMITTER_DATE=" +:+ date] ""
          ["commit-tree"; tree; "-p"; baseRef; "-m"; message];
  mret (sha, true).
(** src: internal/workspace/git.go 189-248 Manager.BranchCommit *)
Definition BranchCommit (dir source : string) (patterns : option (list string)) (message : string)
    : io S (string * bool) :=
  diff ← git dir ["diff"; "--name-only"; "-z"; "--no-renames"; baseRef; source];
  let names := filter (λ p, p ≠ "" ∧ wanted patterns p = true) (Split nul diff) in
  if decide (names = []) then mret ("", false) else
  listed ← git dir (["ls-tree"; "-z"; source; "--"] ++ names);
  info ← give (index_info (parse_entries listed) names);
  index ← mc_createtemp mc;
  r ← attempt (commit_index dir index source info message);
  attempt (mc_unlink mc index);;
  give r.
(** src: internal/workspace/git.go 251-259 Manager.Push *)
Definition Push (dir sha branch header : string) : io S unit :=
  r ← attempt (git dir ["remote"; "get-url"; "origin"]);
  if negb (is_ok r) then raise ErrNoRemote else
  gitEnv dir (auth header) "" ["push"; "--quiet"; "--force"; "origin"; sha +:+ ":refs/heads/" +:+ branch];;
  mret tt.

(** [time.Hour] in nanoseconds, and [now.Sub], which saturates. *)
Definition hour : Z := 3600000000000.
Definition sub_time (a b : Z) : Z := (-2 ^ 63) `max` ((2 ^ 63 - 1) `min` (a - b)).
(** [uuid_ok] is [uuid.Parse].
    src: internal/workspace/git.go 271-276 Manager.Cleanup (filter) *)
Definition candidate (uuid_ok : string → bool) (known : gset string) (d : DirEntry) : bool :=
  de_IsDir d && bool_decide (de_Name d ∉ known)
  && (uuid_ok (de_Name d) || HasPrefix (de_Name d) ".preparing-").
(** src: internal/workspace/git.go 277-286 Manager.Cleanup (entry) *)
Definition cleanup_entry (uuid_ok : string → bool) (root : string) (known : gset string) (now : Z)
    (d : DirEntry) : io S unit :=
  if negb (candidate uuid_ok known d) then mret tt else
  modified ← give (de_ModTime d);
  if (sub_time now modified <? hour)%Z then mret tt
  else mc_removeall mc (JoinPath [root; de_Name d]).
(** src: internal/workspace/git.go 262-289 Manager.Cleanup *)
Definition Cleanup (uuid_ok : string → bool) (root : string) (known : gset string) (now : Z) : io S unit :=
  r ← attempt (mc_readdir mc root);
  match r with
  | Err e => if is_not_exist e then mret tt else raise e
  | Ok entries => each (cleanup_entry uuid_ok root known now) entries
  end.
End workspace.
