(* ===== verification/Repository.v ===== *)
(** * What the operations on a workspace do to its repository

    Git is given by what its documentation says of the commands that the code runs, on trees
    from paths to modes and object names, with the replacement of files by directories and of
    directories by files.  The theorems, where no file of a stage is in such a conflict: [Reset] and [Accept] touch the files
    of one stage only, and [BranchCommit] commits exactly the changes it was asked for. *)
From S2P Require Import Prelude GoStrings Domain Pipeline PathGuard Output Splitting ToolCalls.
From S2P Require Import Paths Workspace.

(** A tree: for each path of a file, its mode and the name of its object. *)
Abbreviation Tree := (gmap string (string * string)).
Record Commit := MkCommit { co_Tree : Tree; co_Parents : list string; co_Message : string }.
(** [q] lies in the directory [p]. *)
Definition below (q p : string) : bool := HasPrefix q (slashed p "").
(** No file is the directory of another. *)
Definition files_only (t : Tree) : Prop :=
  ∀ p q, is_Some (t !! p) → is_Some (t !! q) → below q p = false.
(** A path of git: proper names, without NUL. *)
Definition path_ok (p : string) : Prop :=
  lacks nul p = true ∧ forallb plain_name (Split slash p) = true.
Lemma path_ok_ne p : path_ok p → p ≠ "".
Proof. by intros [_ H] ->. Qed.
(** The mode of a file, and the name of an object. *)
Definition file_mode (mode : string) : bool :=
  existsb (String.eqb mode) ["100644"; "100755"; "120000"; "160000"].
Lemma file_mode_token mode : file_mode mode = true → token mode = true ∧ mode ≠ "0".
Proof.
  unfold file_mode. intros (m & Hm & ->%String.eqb_eq)%existsb_exists. simpl in Hm.
  by repeat destruct Hm as [<-|Hm].
Qed.
Fixpoint lower_hex (s : string) : bool :=
  match s with
  | EmptyString => true
  | String c s => ((48 <=? byte_of c)%N && (byte_of c <=? 57)%N ||
                   (97 <=? byte_of c)%N && (byte_of c <=? 102)%N) && lower_hex s
  end.
Definition object_name (oid : string) : bool := token oid && lower_hex oid.
Lemma object_name_token oid : object_name oid = true → token oid = true.
Proof. by intros [? _]%andb_true_iff. Qed.

(** The line of [ls-tree] for an entry and that of [update-index --index-info]. *)
Definition tree_line (mode kind oid p : string) : string :=
  (mode +:+ " " +:+ kind +:+ " " +:+ oid) +:+ String tab p.
Definition info_line (mode oid p : string) : string :=
  mode +:+ " " +:+ oid +:+ one tab +:+ p +:+ one newline.
(** What a path is to become: an entry, or nothing. *)
Definition change : Type := string * option (string * string).
Definition change_line (c : change) : string :=
  match c with (p, Some (mode, oid)) => info_line mode oid p | (p, None) => info_line "0" zero_oid p end.
Definition text (l : list string) : string := foldr (λ s rest, s +:+ rest) "" l.
(** A path that git does not read as a quoted one. *)
Definition plain (p : string) : bool := lacks newline p && negb (HasPrefix p quote_mark).
(** A change that the line of [update-index] can say. *)
Definition change_ok (c : change) : Prop :=
  plain c.1 = true ∧ path_ok c.1 ∧
  match c.2 with
  | Some (mode, oid) => file_mode mode = true ∧ object_name oid = true
  | None => True
  end.
(** An entry put into the index replaces files that are its directories and files below it. *)
Definition put_change (t : Tree) (c : change) : Tree :=
  match c with
  | (p, None) => delete p t
  | (p, Some e) => <[p := e]> (filter (λ qe, below qe.1 p = false ∧ below p qe.1 = false) t)
  end.

(** ** Putting a list of changes into an index *)
Definition final (t : Tree) (l : list change) (q : string) : option (string * string) :=
  match list_find (λ c, c.1 = q) l with Some (_, c) => c.2 | None => t !! q end.
(** The paths that an entry of [l] would replace are removed by [l], or are not there. *)
Definition harmless (t : Tree) (l : list change) : Prop :=
  ∀ p e q, (p, Some e) ∈ l → below q p = true ∨ below p q = true →
    (q, None) ∈ l ∨ t !! q = None ∧ q ∉ l.*1.
Lemma final_in t l q v : NoDup l.*1 → (q, v) ∈ l → final t l q = v.
Proof.
  unfold final. induction l as [|[p w] l IH]; intros Hnd Hin; [by apply elem_of_nil in Hin|].
  rewrite fmap_cons in Hnd. apply NoDup_cons in Hnd as [Hp Hnd].
  apply elem_of_cons in Hin as [[= <- <-]|Hin]; simpl.
  - by rewrite decide_True.
  - case_decide as E; simpl in *.
    + subst p. destruct Hp. apply list_elem_of_fmap. by exists (q, v).
    + destruct (list_find _ l) as [[i c]|] eqn:F; simpl; apply IH; auto.
Qed.
Lemma final_notin t l q : q ∉ l.*1 → final t l q = t !! q.
Proof.
  unfold final. intros Hq. destruct (list_find _ l) as [[i c]|] eqn:F; [|done].
  apply list_find_Some in F as (Hc & <- & _). destruct Hq. apply list_elem_of_fmap.
  exists c. split; [done|]. by eapply list_elem_of_lookup_2.
Qed.
Lemma below_irrefl p : below p p = false.
Proof.
  destruct (below p p) eqn:E; [|done]. apply HasPrefix_inv in E as [x E].
  apply (f_equal String.length) in E. unfold slashed in E. rewrite !string_length_app in E. simpl in E. lia.
Qed.
Lemma put_change_other t p v q :
  q ≠ p → (v = None ∨ below q p = false ∧ below p q = false ∨ t !! q = None) →
  put_change t (p, v) !! q = t !! q.
Proof.
  intros Hne Hv. destruct v as [e|]; simpl; [|by rewrite lookup_delete_ne].
  rewrite lookup_insert_ne by done. destruct (t !! q) as [e'|] eqn:E.
  - apply map_lookup_filter_Some_2; [done|]. simpl. naive_solver.
  - apply map_lookup_filter_None_2. by left.
Qed.
Lemma put_changes l t q :
  NoDup l.*1 → harmless t l → fold_left put_change l t !! q = final t l q.
Proof.
  revert t. induction l as [|[p v] l IH]; intros t Hnd Hh; [done|].
  rewrite fmap_cons in Hnd. apply NoDup_cons in Hnd as [Hp Hnd]. cbn [fold_left].
  assert (∀ e' q', v = Some e' → below q' p = true ∨ below p q' = true →
            (q', None) ∈ l ∨ t !! q' = None ∧ q' ∉ l.*1) as Hpv.
  { intros e' q' -> Hb. destruct (Hh p e' q' (list_elem_of_here _ _) Hb) as [Hin|[Hn Hin]].
    - apply elem_of_cons in Hin as [[= -> ]|Hin]. by left.
    - right. split; [done|]. simpl in Hin. set_solver. }
  rewrite IH; [|done|].
  - destruct (decide (q = p)) as [->|Hne].
    + rewrite final_notin by done. rewrite (final_in _ ((p, v) :: l) p v); simpl.
      * destruct v; simpl; [by rewrite lookup_insert_eq|by rewrite lookup_delete_eq].
      * by constructor.
      * apply list_elem_of_here.
    + unfold final. simpl. rewrite decide_False by done.
      destruct (list_find (λ c, c.1 = q) l) as [[i c]|] eqn:F; simpl; [done|].
      assert (q ∉ l.*1) as Hq.
      { intros (c & -> & Hc)%list_elem_of_fmap. apply list_find_None in F.
        rewrite Forall_forall in F. by apply (F c Hc). }
      apply put_change_other; [done|]. destruct v as [e'|]; [right|by left].
      destruct (below q p) eqn:E1, (below p q) eqn:E2; try by left.
      all: right; destruct (Hpv e' q eq_refl ltac:(auto)) as [Hin|[? _]]; [|done].
      all: destruct Hq; apply list_elem_of_fmap; by exists (q, None).
  - intros p' e' q' Hin Hb. destruct (Hh p' e' q' (list_elem_of_further _ _ _ Hin) Hb) as [Hin'|[Hn Hin']].
    + apply elem_of_cons in Hin' as [[= -> <-]|Hin']; [|by left]. right. simpl.
      by rewrite lookup_delete_eq.
    + right. simpl in Hin'. split; [|set_solver]. rewrite put_change_other; [done|set_solver|auto].
Qed.

(** ** What git promises *)
(** The files of a directory listing, relative to it. *)
Fixpoint listed (p : string) (n : node) : list string :=
  let '(Node _ children) := n in
  match children with
  | Some entries => concat (map (λ c, listed (slashed p (node_name c)) c) entries)
  | None => [p]
  end.
(** The state of a repository, as far as the code depends on it: what names name, the commits,
    the main index ([None]) and the other index files, the trees written, the working tree as git
    sees it, and which names are those of temporary files, which are outside of it. *)
Class Views (S : Type) := {
  r_rev : S → string → option string;
  r_commit : S → string → option Commit;
  r_index : S → option string → Tree;
  r_trees : S → string → option Tree;
  r_work : S → Tree;
  r_temp : string → Prop }.
Arguments r_temp S {_} f.
Section views.
Context {S : Type} {VW : Views S}.
Definition tree_at (σ : S) (rev : string) : option Tree :=
  id ← r_rev σ rev; co_Tree <$> r_commit σ id.
(** Nothing changed, or nothing but one index file, or nothing but the working tree. *)
Record same (σ σ' : S) : Prop := MkSame {
  sm_rev : r_rev σ' = r_rev σ; sm_commit : r_commit σ' = r_commit σ;
  sm_index : r_index σ' = r_index σ; sm_trees : r_trees σ' = r_trees σ;
  sm_work : r_work σ' = r_work σ }.
Record same_but_index (f : option string) (σ σ' : S) : Prop := MkSameButIndex {
  si_rev : r_rev σ' = r_rev σ; si_commit : r_commit σ' = r_commit σ;
  si_index g : g ≠ f → r_index σ' g = r_index σ g; si_trees : r_trees σ' = r_trees σ;
  si_work : r_work σ' = r_work σ }.
#[export] Instance same_preorder : PreOrder same.
Proof. split; [by split|]. intros σ1 σ2 σ3 [] []. split; congruence. Qed.
Lemma same_tree σ σ' rev : same σ σ' → tree_at σ' rev = tree_at σ rev.
Proof. intros [Er Ec _ _ _]. unfold tree_at. by rewrite Er, Ec. Qed.
Lemma same_index f σ σ' : same σ σ' → same_but_index f σ σ'.
Proof. intros []. split; congruence. Qed.
Lemma same_but_index_trans f σ1 σ2 σ3 :
  same_but_index f σ1 σ2 → same_but_index f σ2 σ3 → same_but_index f σ1 σ3.
Proof.
  intros [] []. split; try congruence. intros g Hg. rewrite si_index1 by done. by apply si_index0.
Qed.
End views.

(** Commits are never changed or lost. *)
Definition commits_kept {S : Type} {VW : Views S} (σ σ' : S) : Prop :=
  ∀ id c, r_commit σ id = Some c → r_commit σ' id = Some c.
#[export] Instance commits_kept_preorder {S : Type} {VW : Views S} : PreOrder (commits_kept (S:=S)).
Proof. split; [by intros σ id c|]. intros σ1 σ2 σ3 H1 H2 id c H. by apply H2, H1. Qed.
Lemma commits_kept_eq {S : Type} {VW : Views S} (σ σ' : S) :
  r_commit σ' = r_commit σ → commits_kept σ σ'.
Proof. by intros E id c; rewrite E. Qed.
Lemma commits_kept_tree {S : Type} {VW : Views S} (σ σ' : S) rev t :
  commits_kept σ σ' → r_rev σ' rev = r_rev σ rev → tree_at σ rev = Some t → tree_at σ' rev = Some t.
Proof.
  unfold tree_at. intros Hc ->. destruct (r_rev σ rev) as [id|]; [|done]. simpl.
  destruct (r_commit σ id) as [c|] eqn:E; [|done]. by rewrite (Hc _ _ E).
Qed.

(** A successful command, with its output. *)
Definition runs {S} (mc : Machine S) (dir : string) (env : list string) (stdin : string)
    (args : list string) (out : string) (σ σ' : S) : Prop :=
  mc_exec mc (MkCmd (git_flags ++ args) dir (mc_environ mc ++ git_env ++ env) stdin) σ
  = (Ok (None, out), σ').
Definition index_env (f : string) : list string := ["GIT_INDEX_FILE=" +:+ f].

(** The paths of a stage: not protected, and matched by a pattern; those of a role, which may
    have no patterns. *)
Definition stage_path {UC : Unicode} {MA : Matchers} (p : string) (patterns : list string) : bool :=
  negb (Protected p) && existsb (λ pattern, default false (PathMatch pattern p)) patterns.
Definition role_path {UC : Unicode} {MA : Matchers} (patterns : option (list string)) (p : string)
    : bool :=
  match patterns with Some l => stage_path p l | None => true end.

(** The references that the code keeps for itself. *)
Definition own_ref (ref : string) : bool := HasPrefix ref "refs/devsquad/".

(** The head and the code's references name what they named, and the commits are there. *)
Definition refs_kept {S : Type} {VW : Views S} (σ σ' : S) : Prop :=
  commits_kept σ σ' ∧ ∀ ref, ref = "HEAD" ∨ own_ref ref = true → r_rev σ' ref = r_rev σ ref.
#[export] Instance refs_kept_preorder {S : Type} {VW : Views S} : PreOrder (refs_kept (S:=S)).
Proof.
  split; [by split|]. intros σ1 σ2 σ3 [H1 E1] [H2 E2]. split; [by trans σ2|].
  intros ref Href. by rewrite E2, E1.
Qed.
Lemma refs_kept_tree {S : Type} {VW : Views S} (σ σ' : S) ref t :
  refs_kept σ σ' → ref = "HEAD" ∨ own_ref ref = true → tree_at σ ref = Some t → tree_at σ' ref = Some t.
Proof. intros [Hc Hr] Href. apply commits_kept_tree; [done|by apply Hr]. Qed.
Lemma same_refs_kept {S : Type} {VW : Views S} (σ σ' : S) : same σ σ' → refs_kept σ σ'.
Proof. intros [Er Ec _ _ _]. split; [by apply commits_kept_eq|by rewrite Er]. Qed.

(** The dates of a commit, as they are given to git. *)
Definition dates (date : string) : list string :=
  ["GIT_AUTHOR_DATE=" +:+ date; "GIT_COMMITTER_DATE=" +:+ date].

(** The documented behaviour of the commands, each where it succeeds; those that only look
    change nothing even when they fail.  A file and a directory of one name exclude each other:
    what git puts into an index or into the working tree replaces the files that are its
    directories and the files below it.  No repository is nested in the working tree, the head
    is none of the code's own references, and nothing is pruned. *)
Class Git {UC : Unicode} {S} {VW : Views S} (mc : Machine S) (dir : string) : Prop := {
  git_rev_parse ref σ r σ' :
    mc_exec mc (MkCmd (git_flags ++ ["rev-parse"; "--verify"; ref]) dir
                  (mc_environ mc ++ git_env ++ []) "") σ = (r, σ') →
    own_ref ref = true → same σ σ' ∧ ((∃ out, r = Ok (None, out)) → is_Some (r_rev σ ref));
  git_ls_head out σ σ' :
    runs mc dir [] "" ["ls-tree"; "-r"; "--name-only"; "-z"; "HEAD"] out σ σ' →
    same σ σ' ∧ ∃ t l, tree_at σ "HEAD" = Some t ∧ out = ended nul l ∧ Forall path_ok l ∧
      ∀ p, p ∈ l ↔ is_Some (t !! p);
  git_diff a b ta tb out σ σ' :
    runs mc dir [] "" ["diff"; "--name-only"; "-z"; "--no-renames"; a; b] out σ σ' →
    tree_at σ a = Some ta → tree_at σ b = Some tb →
    same σ σ' ∧ ∃ l, out = ended nul l ∧ NoDup l ∧ Forall path_ok l ∧ ∀ p, p ∈ l ↔ ta !! p ≠ tb !! p;
  git_ls_tree rev names t out σ σ' :
    runs mc dir [] "" (["ls-tree"; "-z"; rev; "--"] ++ names) out σ σ' →
    tree_at σ rev = Some t → names ≠ [] → Forall path_ok names →
    same σ σ' ∧
    ((∀ p q, p ∈ names → is_Some (t !! q) → below q p = false) →
     ∃ l, out = ended nul (map (λ '(p, (mode, kind, oid)), tree_line mode kind oid p) l) ∧
       (∀ p mode kind oid, (p, (mode, kind, oid)) ∈ l →
          p ∈ names ∧ t !! p = Some (mode, oid) ∧
          file_mode mode = true ∧ token kind = true ∧ object_name oid = true) ∧
       (∀ p, p ∈ names → is_Some (t !! p) → p ∈ l.*1));
  git_read_tree f rev t out σ σ' :
    runs mc dir (index_env f) "" ["read-tree"; rev] out σ σ' → r_temp S f → tree_at σ rev = Some t →
    same_but_index (Some f) σ σ' ∧ r_index σ' (Some f) = t;
  git_update_index f stdin out σ σ' :
    runs mc dir (index_env f) stdin ["update-index"; "--index-info"] out σ σ' → r_temp S f →
    same_but_index (Some f) σ σ' ∧
    ∀ l, stdin = text (map change_line l) → Forall change_ok l →
      r_index σ' (Some f) = fold_left put_change l (r_index σ (Some f));
  git_write_tree f out σ σ' :
    runs mc dir (index_env f) "" ["write-tree"] out σ σ' → r_temp S f →
    r_rev σ' = r_rev σ ∧ r_commit σ' = r_commit σ ∧ r_index σ' = r_index σ ∧ r_work σ' = r_work σ ∧
    ∃ tree, out = tree +:+ one newline ∧ r_trees σ' tree = Some (r_index σ (Some f));
  git_log rev out σ σ' :
    runs mc dir [] "" ["log"; "-1"; "--format=%cI"; rev] out σ σ' → is_Some (r_rev σ rev) → same σ σ';
  git_commit_tree date tree parent message out σ σ' :
    runs mc dir (dates date) "" ["commit-tree"; tree; "-p"; parent; "-m"; message] out σ σ' →
    r_rev σ' = r_rev σ ∧ r_index σ' = r_index σ ∧ r_work σ' = r_work σ ∧
    ∃ sha t id, out = sha +:+ one newline ∧ r_trees σ tree = Some t ∧ r_rev σ parent = Some id ∧
      r_commit σ' sha = Some (MkCommit t [id] message) ∧ commits_kept σ σ';
  git_add names out σ σ' :
    runs mc dir [] "" (["add"; "-A"; "--force"; "--"] ++ names) out σ σ' → Forall path_ok names →
    same_but_index None σ σ' ∧ ∀ q,
      if bool_decide (q ∈ names) || existsb (below q) names then r_index σ' None !! q = r_work σ !! q
      else r_index σ' None !! q = r_index σ None !! q ∨
           existsb (λ p, below p q) names = true ∧ r_index σ' None !! q = None;
  git_commit message out σ σ' :
    runs mc dir [] "" ["commit"; "--quiet"; "--allow-empty"; "-m"; message] out σ σ' →
    r_index σ' = r_index σ ∧ r_work σ' = r_work σ ∧ tree_at σ' "HEAD" = Some (r_index σ None) ∧
    (∀ ref, own_ref ref = true → r_rev σ' ref = r_rev σ ref) ∧ commits_kept σ σ';
  git_update_ref ref rev out σ σ' :
    runs mc dir [] "" ["update-ref"; ref; rev] out σ σ' → own_ref ref = true →
    r_commit σ' = r_commit σ ∧ r_index σ' = r_index σ ∧ r_work σ' = r_work σ ∧
    r_rev σ' ref = r_rev σ rev ∧ r_rev σ' "HEAD" = r_rev σ "HEAD" ∧
    ∀ other, own_ref other = true → other ≠ ref → r_rev σ' other = r_rev σ other;
  git_restore p t out σ σ' :
    runs mc dir [] "" ["restore"; "--source=HEAD"; "--staged"; "--worktree"; "--"; p] out σ σ' →
    tree_at σ "HEAD" = Some t → is_Some (t !! p) →
    r_rev σ' = r_rev σ ∧ r_commit σ' = r_commit σ ∧ r_work σ' !! p = t !! p ∧
    (r_index σ None = t → r_index σ' None = t) ∧
    ∀ q, q ≠ p → r_work σ' !! q = r_work σ !! q ∨
      (below q p = true ∨ below p q = true) ∧ r_work σ' !! q = None;
  git_remote σ r σ' :
    mc_exec mc (MkCmd (git_flags ++ ["remote"; "get-url"; "origin"]) dir
                  (mc_environ mc ++ git_env ++ []) "") σ = (r, σ') → same σ σ';
  git_push header sha branch σ r σ' :
    mc_exec mc (MkCmd (git_flags ++ ["push"; "--quiet"; "--force"; "origin"; sha +:+ ":refs/heads/" +:+ branch])
                  dir (mc_environ mc ++ git_env ++ auth header) "") σ = (r, σ') → refs_kept σ σ';
  fs_walk σ tree σ' :
    mc_walk mc dir σ = (Ok tree, σ') →
    same σ σ' ∧ (∀ q, is_Some (r_work σ !! q) → path_ok q) ∧ ∀ q, Protected q = false →
      (q ∈ concat (map (λ n, listed (node_name n) n) tree) ↔ is_Some (r_work σ !! q));
  fs_openroot σ r σ' : mc_openroot mc dir σ = (r, σ') → same σ σ';
  fs_remove p σ r σ' :
    mc_remove mc dir p σ = (r, σ') → path_ok p → Protected p = false →
    NoSymlinks (mc_lstat mc σ dir) (Dir p) = Ok tt →
    r_rev σ' = r_rev σ ∧ r_commit σ' = r_commit σ ∧ r_index σ' = r_index σ ∧
    match r with
    | Ok _ => r_work σ' = delete p (r_work σ)
    | Err e => r_work σ' = r_work σ ∧ (is_not_exist e = true → r_work σ !! p = None)
    end;
  fs_createtemp σ r σ' :
    mc_createtemp mc σ = (r, σ') → same σ σ' ∧ ∀ f, r = Ok f → r_temp S f;
  fs_unlink f σ r σ' : mc_unlink mc f σ = (r, σ') → r_temp S f → same_but_index (Some f) σ σ' }.

(** ** The text in between *)
Lemma HasSuffix_app s p : HasSuffix (s +:+ p) p = true.
Proof.
  unfold HasSuffix. rewrite string_length_app.
  replace (String.length s + String.length p - String.length p) with (String.length s) by lia.
  rewrite drop_string_all. apply String.eqb_refl.
Qed.
Lemma take_string_app s p : take_string (String.length s) (s +:+ p) = s.
Proof.
  unfold take_string. induction s as [|c s IH]; [by destruct p|]. exact (f_equal (String c) IH).
Qed.
Lemma TrimSuffix_app s p : TrimSuffix (s +:+ p) p = s.
Proof.
  unfold TrimSuffix. rewrite HasSuffix_app, string_length_app.
  replace (String.length s + String.length p - String.length p) with (String.length s) by lia.
  apply take_string_app.
Qed.
Lemma ended_snoc c l s : ended c (l ++ [s]) = ended c l +:+ s +:+ one c.
Proof.
  induction l as [|x l IH]; [done|]. simpl. by rewrite IH, <- string_app_assoc, string_app_cons.
Qed.
Lemma TrimSuffix_ended l : TrimSuffix (ended nul l) (one newline) = ended nul l.
Proof.
  destruct l as [|s l _] using rev_ind; [reflexivity|]. rewrite ended_snoc.
  unfold TrimSuffix, HasSuffix. rewrite string_app_assoc, string_length_app. simpl.
  replace (String.length (ended nul l +:+ s) + 1 - 1) with (String.length (ended nul l +:+ s)) by lia.
  by rewrite drop_string_all.
Qed.
Lemma Split_nul l : Forall path_ok l → Split nul (ended nul l) = l ++ [""].
Proof. intros H. apply Split_ended. eapply Forall_impl; [exact H|]. by intros ? [? _]. Qed.
(** The paths of a list that the code keeps. *)
Lemma split_filter (f : string → bool) l :
  Forall path_ok l →
  filter (λ p, p ≠ "" ∧ f p = true) (Split nul (ended nul l)) = filter (λ p, f p = true) l.
Proof.
  intros H. rewrite Split_nul, filter_app by done. rewrite (filter_none _ [""]) by set_solver.
  rewrite app_nil_r. induction H as [|p l Hp%path_ok_ne _ IH]; [done|]. rewrite !filter_cons, IH.
  by repeat case_decide; try tauto.
Qed.

(** *** The entries of a tree *)
Abbreviation entry := (string * (string * string * string))%type.
Definition entry_line (en : entry) : string := let '(p, (mode, kind, oid)) := en in tree_line mode kind oid p.
Definition entry_meta (en : entry) : string :=
  let '(_, (mode, kind, oid)) := en in mode +:+ " " +:+ kind +:+ " " +:+ oid.
Definition entry_ok (en : entry) : Prop :=
  let '(p, (mode, kind, oid)) := en in
  lacks nul p = true ∧ token mode = true ∧ token kind = true ∧ token oid = true.
Lemma token_graphic w : token w = true → graphic w = true.
Proof. unfold token. by intros [? _]%andb_true_iff. Qed.
Lemma meta_lacks c en : graphic_char c = false → c ≠ chr 32 → entry_ok en → lacks c (entry_meta en) = true.
Proof.
  destruct en as [p [[mode kind] oid]]. intros Hc Hne (_ & Hm & Hk & Ho). simpl.
  assert (lacks c " " = true) as Hs.
  { change (negb (Ascii.eqb (chr 32) c) && true = true). by destruct (Ascii.eqb_spec (chr 32) c); [congruence|]. }
  rewrite !lacks_app, Hs.
  by rewrite (graphic_lacks c mode), (graphic_lacks c kind), (graphic_lacks c oid) by auto using token_graphic.
Qed.
Lemma entry_line_cut en : entry_ok en → Cut (entry_line en) (one tab) = Some (entry_meta en, en.1).
Proof.
  intros Hen. pose proof (meta_lacks tab en eq_refl ltac:(done) Hen) as Hl.
  destruct en as [p [[mode kind] oid]]. by apply Cut_first.
Qed.
Lemma entry_line_lacks en : entry_ok en → lacks nul (entry_line en) = true.
Proof.
  intros Hen. pose proof (meta_lacks nul en eq_refl ltac:(done) Hen) as Hl.
  destruct en as [p [[mode kind] oid]]. unfold entry_line, tree_line. rewrite lacks_app.
  simpl entry_meta in Hl. rewrite Hl. simpl. apply Hen.
Qed.
(** What the code reads back: for each path listed, what stands before it. *)
Lemma parse_entries_ok l p :
  Forall entry_ok l →
  match parse_entries (ended nul (map entry_line l)) !! p with
  | Some meta => ∃ en, en ∈ l ∧ en.1 = p ∧ meta = entry_meta en
  | None => p ∉ l.*1
  end.
Proof.
  intros Hl. unfold parse_entries. rewrite Split_ended by (apply Forall_map; eapply Forall_impl;
    [exact Hl|by intros en ?%entry_line_lacks]).
  rewrite fold_left_app. simpl. change (Cut "" (one tab)) with (@None (string * string)).
  induction l as [|en l IH] using rev_ind; [by simpl; rewrite lookup_empty; apply not_elem_of_nil|].
  apply Forall_app in Hl as [Hl [Hen _]%Forall_cons]. specialize (IH Hl).
  rewrite map_app, fold_left_app. simpl. rewrite entry_line_cut by done.
  destruct (decide (en.1 = p)) as [<-|Hne].
  - rewrite lookup_insert_eq. exists en. set_solver.
  - rewrite lookup_insert_ne by done. destruct (fold_left _ _ _ !! p) as [meta|].
    + destruct IH as (en' & ? & ? & ?). exists en'. set_solver.
    + rewrite fmap_app. set_solver.
Qed.

(** ** The files of a stage *)
Section walk.
Context {UC : Unicode}.
Lemma slashed_assoc a b c : slashed (slashed a b) c = slashed a (slashed b c).
Proof. unfold slashed. by rewrite <- string_app_assoc, string_app_cons. Qed.
(** What is listed of a node is the node or below it. *)
Lemma listed_below : ∀ n p q, q ∈ listed p n → q = p ∨ ∃ x, q = slashed p x.
Proof.
  fix IH 1. intros [name [entries|]] p q; simpl; [|by intros ->%list_elem_of_singleton; left].
  intros Hq. right. induction entries as [|c entries IHe]; simpl in Hq; [by apply elem_of_nil in Hq|].
  apply elem_of_app in Hq as [Hq|Hq]; [|by apply IHe].
  destruct (IH c _ _ Hq) as [->|[x ->]]; eexists; [done|]. apply slashed_assoc.
Qed.
Lemma walked_listed : ∀ n p q, q ∈ walked p n ↔ q ∈ listed p n ∧ Protected q = false.
Proof.
  fix IH 1. intros n p q. destruct (Protected p) eqn:Hp.
  - split; [destruct n; simpl; rewrite Hp; by intros ?%elem_of_nil|]. intros [Hq Hn]. exfalso.
    destruct (listed_below _ _ _ Hq) as [->|[x ->]]; [congruence|].
    by rewrite (Protected_below _ x Hp) in Hn.
  - destruct n as [name [entries|]]; simpl; rewrite Hp.
    + induction entries as [|c entries IHe]; simpl.
      * split; [by intros ?%elem_of_nil|by intros [?%elem_of_nil _]].
      * rewrite !elem_of_app, IHe. pose proof (IH c (slashed p (node_name c)) q) as Hc. clear IH. tauto.
    + rewrite list_elem_of_singleton. split; [by intros ->|by intros [-> _]].
Qed.
End walk.

Section repository.
Context {UC : Unicode} {MA : Matchers} {S : Type} {VW : Views S} (mc : Machine S) (dir : string).
Context {GT : Git mc dir}.

Lemma gitEnv_ok env stdin args out σ σ' :
  gitEnv mc dir env stdin args σ = (Ok out, σ') →
  ∃ raw, runs mc dir env stdin args raw σ σ' ∧ out = TrimSuffix raw (one newline).
Proof.
  unfold gitEnv, runs. intros ([e raw] & σ1 & H & Hr)%io_bind_ok. destruct e as [e|]; [done|].
  injection Hr as <- <-. by exists raw.
Qed.
Lemma stage_path_open p patterns : stage_path p patterns = true → Protected p = false.
Proof. unfold stage_path. by intros [? _]%andb_true_iff; apply negb_true_iff. Qed.
Lemma files_ok patterns names base σ σ' :
  files mc dir patterns σ = (Ok (names, base), σ') →
  same σ σ' ∧ NoDup names ∧ ∃ h, tree_at σ "HEAD" = Some h ∧
    (∀ q, q ∈ names ↔ stage_path q patterns = true ∧ (is_Some (h !! q) ∨ is_Some (r_work σ !! q))) ∧
    (∀ q, q ∈ base ↔ stage_path q patterns = true ∧ is_Some (h !! q)) ∧ Forall path_ok names.
Proof.
  unfold files. change (@owned UC MA) with (@stage_path UC MA). intros (tracked & σ1 & H1 & H)%io_bind_ok.
  apply io_bind_ok in H as (tree & σ2 & H2 & [= <- <- <-]).
  apply gitEnv_ok in H1 as (raw & H1 & ->). apply git_ls_head in H1 as (Hs1 & h & l & Hh & -> & Hl & Hin).
  destruct (fs_walk _ _ _ H2) as (Hs2 & Hok & Hw). split; [by trans σ1|].
  split; [unfold sort_strings; rewrite merge_sort_Permutation; apply NoDup_elements|].
  exists h. split; [done|]. rewrite TrimSuffix_ended, split_filter by done.
  assert (∀ q, q ∈ filter (λ p, stage_path p patterns = true) l ↔ stage_path q patterns = true ∧ is_Some (h !! q)) as Hbase.
  { intros q. by rewrite list_elem_of_filter, Hin. }
  match goal with |- (∀ q, q ∈ ?names ↔ _) ∧ _ =>
    assert (∀ q, q ∈ names ↔ stage_path q patterns = true ∧ (is_Some (h !! q) ∨ is_Some (r_work σ !! q))) as Hnames
  end.
  { intros q. rewrite elem_of_sort, elem_of_elements, elem_of_list_to_set, elem_of_app, Hbase, list_elem_of_filter.
    enough (stage_path q patterns = true →
      q ∈ concat (map (λ n, walked (node_name n) n) tree) ↔ is_Some (r_work σ !! q)) by tauto.
    intros Hp%stage_path_open. rewrite <- (sm_work _ _ Hs1), <- (Hw q Hp).
    clear -Hp. induction tree as [|n tree IH]; simpl; [done|].
    rewrite !elem_of_app, walked_listed, IH. tauto. }
  split; [done|]. split; [intros q; by rewrite elem_of_list_to_set|].
  apply Forall_forall. intros q [_ [Hq|Hq]]%Hnames.
  - rewrite Forall_forall in Hl. by apply Hl, Hin.
  - apply Hok. by rewrite (sm_work _ _ Hs1).
Qed.

(** A command that only looks changes nothing, whatever it answers. *)
Lemma gitEnv_exec env stdin args r σ σ' :
  gitEnv mc dir env stdin args σ = (r, σ') →
  ∃ r0, mc_exec mc (MkCmd (git_flags ++ args) dir (mc_environ mc ++ git_env ++ env) stdin) σ = (r0, σ') ∧
    (is_ok r = true → ∃ raw, r0 = Ok (None, raw)).
Proof.
  unfold gitEnv, mbind, io_bind. destruct (mc_exec mc _ σ) as [[[[e|] raw]|e] σ1];
    intros [= <- <-]; eexists; (split; [done|]); try done. by exists raw.
Qed.
Lemma attempt_ok {A} (m : io S A) σ r σ' : attempt m σ = (Ok r, σ') → m σ = (r, σ').
Proof. unfold attempt. by destruct (m σ) as [? ?]; intros [= <- <-]. Qed.
Lemma attempt_git_ref ref r σ σ' :
  attempt (git mc dir ["rev-parse"; "--verify"; ref]) σ = (Ok r, σ') → own_ref ref = true →
  same σ σ' ∧ (is_ok r = true → is_Some (r_rev σ ref)).
Proof.
  intros H%attempt_ok Hown. apply gitEnv_exec in H as (r0 & H & Hr).
  destruct (git_rev_parse _ _ _ _ H Hown) as [Hs Hi]. split; [done|]. intros Hok. apply Hi. by apply Hr.
Qed.

(** No file of the stage, in the head or in the working tree, has the name of a directory of
    another's file, or the other way round. *)
Definition no_clash (patterns : list string) (h w : Tree) : Prop :=
  ∀ p q, stage_path p patterns = true → is_Some (h !! p) ∨ is_Some (w !! p) →
    below q p = true ∨ below p q = true →
    stage_path q patterns = true ∨ h !! q = None ∧ w !! q = None.
(** The files of a stage from one tree, the others from another. *)
Definition merged (patterns : list string) (mine others t : Tree) : Prop :=
  ∀ q, t !! q = if stage_path q patterns then mine !! q else others !! q.

(** The index after the files of the stage were added to it. *)
Lemma staged patterns names h w t :
  (∀ q, q ∈ names ↔ stage_path q patterns = true ∧ (is_Some (h !! q) ∨ is_Some (w !! q))) →
  no_clash patterns h w →
  (∀ q, if bool_decide (q ∈ names) || existsb (below q) names then t !! q = w !! q
        else t !! q = h !! q ∨ existsb (λ p, below p q) names = true ∧ t !! q = None) →
  merged patterns w h t.
Proof.
  intros Hn Hc Ht q. specialize (Ht q).
  assert (∀ p, p ∈ names → below q p = true ∨ below p q = true → stage_path q patterns = false →
    h !! q = None ∧ w !! q = None) as Hclash.
  { intros p [Hp Hs]%Hn Hb Ho. destruct (Hc p q Hp Hs Hb); [congruence|done]. }
  destruct (stage_path q patterns) eqn:Ho.
  - destruct (_ || _) eqn:E; [done|]. apply orb_false_iff in E as [E _].
    apply bool_decide_eq_false in E. rewrite Hn in E.
    assert (h !! q = None ∧ w !! q = None) as [Eh Ew]
      by (destruct (h !! q), (w !! q); try done; destruct E; eauto).
    rewrite Eh in Ht. rewrite Ew. by destruct Ht as [?|[_ ?]].
  - destruct (_ || _) eqn:E.
    + apply orb_true_iff in E as [E|E]; [apply bool_decide_eq_true, Hn in E as [E _]; congruence|].
      apply existsb_exists in E as (p & Hp%list_elem_of_In & Hb).
      destruct (Hclash p Hp (or_introl Hb) eq_refl). congruence.
    + destruct Ht as [?|[(p & Hp%list_elem_of_In & Hb)%existsb_exists ?]]; [done|].
      destruct (Hclash p Hp (or_intror Hb) eq_refl). congruence.
Qed.
Lemma add_ok patterns names h σ σ' :
  (if decide (names = []) then mret tt
   else git mc dir (["add"; "-A"; "--force"; "--"] ++ names);; mret tt) σ = (Ok tt, σ') →
  (∀ q, q ∈ names ↔ stage_path q patterns = true ∧ (is_Some (h !! q) ∨ is_Some (r_work σ !! q))) →
  Forall path_ok names → no_clash patterns h (r_work σ) → r_index σ None = h →
  merged patterns (r_work σ) h (r_index σ' None) ∧ r_work σ' = r_work σ ∧ r_rev σ' = r_rev σ ∧
  r_commit σ' = r_commit σ.
Proof.
  intros H Hn Hok Hc Hi. case_decide as E.
  - injection H as <-. split; [|done]. eapply staged; [exact Hn|done|]. intros q. rewrite Hi, E. by left.
  - apply io_bind_ok in H as (out & σ1 & H & [= <-]). apply gitEnv_ok in H as (raw & H & _).
    apply git_add in H as ([Hr Hco _ _ Hw] & Hq); [|done]. split; [|done].
    eapply staged; [exact Hn|done|]. intros q. rewrite <- Hi. apply Hq.
Qed.

Lemma own_approved k : own_ref (approved_ref k) = true.
Proof. apply (HasPrefix_app "refs/devsquad/"). Qed.
(** A successful accept, when the approval has no commit yet. *)
Lemma Accept_ok key patterns h σ σ' :
  tree_at σ "HEAD" = Some h → r_index σ None = h → r_rev σ (approved_ref key) = None →
  no_clash patterns h (r_work σ) → Accept mc dir key patterns σ = (Ok tt, σ') →
  ∃ t, merged patterns (r_work σ) h t ∧ tree_at σ' "HEAD" = Some t ∧
    tree_at σ' (approved_ref key) = Some t ∧ r_index σ' None = t ∧ r_work σ' = r_work σ ∧
    (∀ ref, own_ref ref = true → ref ≠ approved_ref key → r_rev σ' ref = r_rev σ ref) ∧
    commits_kept σ σ'.
Proof.
  intros Hh Hi Hr Hc H. unfold Accept in H. apply io_bind_ok in H as (r & σ1 & H1 & H).
  apply attempt_git_ref in H1 as [Hs1 Hok]; [|apply own_approved]. destruct (is_ok r).
  { destruct (Hok eq_refl). congruence. }
  apply io_bind_ok in H as ([names base] & σ2 & H2 & H).
  apply files_ok in H2 as (Hs2 & _ & h' & Hh' & Hn & _ & Hpok). assert (same σ σ2) as Hs by by trans σ1.
  rewrite (same_tree _ _ _ Hs1), Hh in Hh'. injection Hh' as <-.
  apply io_bind_ok in H as ([] & σ3 & H3 & H). apply io_bind_ok in H as (o4 & σ4 & H4 & H).
  apply io_bind_ok in H as (o5 & σ5 & H5 & [= <-]).
  apply gitEnv_ok in H4 as (raw4 & H4 & _). apply gitEnv_ok in H5 as (raw5 & H5 & _).
  rewrite (sm_work _ _ Hs1) in Hn. pose proof (sm_work _ _ Hs) as Ew.
  apply (add_ok patterns names h) in H3 as (Hm & Ew3 & Er3 & Ec3);
    [|by rewrite Ew|done|by rewrite Ew|by rewrite (sm_index _ _ Hs)].
  apply git_commit in H4 as (Ei4 & Ew4 & Ht4 & Er4 & Hk4).
  apply git_update_ref in H5 as (Ec5 & Ei5 & Ew5 & Er5 & Eh5 & Eo5); [|apply own_approved].
  exists (r_index σ3 None). rewrite Ew in *. split_and!; [done| | |by rewrite Ei5, Ei4|congruence| |].
  - unfold tree_at in *. by rewrite Eh5, Ec5.
  - unfold tree_at in *. by rewrite Er5, Ec5.
  - intros ref Hown Hne. rewrite Eo5, Er4, Er3 by done. by rewrite (sm_rev _ _ Hs).
  - trans σ3; [|trans σ4; [done|by apply commits_kept_eq]]. apply commits_kept_eq.
    by rewrite Ec3, (sm_commit _ _ Hs).
Qed.

(** C19: accepting a stage commits that stage's files and no others. Suppose that the approval
    has no commit yet, that the index holds the head, and that no file of the stage has the name
    of a directory of a file of another, or the other way round, in the head and the working
    tree together. Then a successful [Accept] makes a head that has the files that
    the stage owns as they are in the working tree and all other files as they were in the
    old head, whatever the other stages have written meanwhile; the approval's reference names
    that commit, the working tree is as before and the index holds the new head. *)
Theorem Accept_exact key patterns h σ σ' :
  tree_at σ "HEAD" = Some h → r_index σ None = h → r_rev σ (approved_ref key) = None →
  no_clash patterns h (r_work σ) → Accept mc dir key patterns σ = (Ok tt, σ') →
  ∃ t, merged patterns (r_work σ) h t ∧ tree_at σ' "HEAD" = Some t ∧
    tree_at σ' (approved_ref key) = Some t ∧ r_index σ' None = t ∧ r_work σ' = r_work σ.
Proof.
  intros Hh Hi Hr Hc H. destruct (Accept_ok _ _ _ _ _ Hh Hi Hr Hc H) as (t & ? & ? & ? & ? & ? & _).
  by exists t.
Qed.

(** A path is as it was, or it was in the way of a restored file. *)
Definition spared (base : gset string) (names : list string) (w w' : Tree) (q : string) : Prop :=
  w' !! q = w !! q ∨
  (∃ p, p ∈ names ∧ p ∈ base ∧ (below q p = true ∨ below p q = true)) ∧ w' !! q = None.
(** The references and commits are as before, and an index that is as the head stays so. *)
Definition head_kept (σ σ' : S) (h : Tree) : Prop :=
  r_rev σ' = r_rev σ ∧ r_commit σ' = r_commit σ ∧ (r_index σ None = h → r_index σ' None = h).
Lemma head_kept_tree σ σ' h rev : head_kept σ σ' h → tree_at σ' rev = tree_at σ rev.
Proof. unfold tree_at. by intros (-> & -> & _). Qed.
Lemma head_kept_trans σ1 σ2 σ3 h : head_kept σ1 σ2 h → head_kept σ2 σ3 h → head_kept σ1 σ3 h.
Proof. intros (? & ? & ?) (? & ? & ?). split_and!; [congruence..|tauto]. Qed.
Lemma head_kept_same σ σ' h : same σ σ' → head_kept σ σ' h.
Proof. intros [? ? E ? ?]. split_and!; [done..|]. by rewrite E. Qed.
Lemma reset_file_ok base p h σ σ' :
  reset_file mc dir base p σ = (Ok tt, σ') → tree_at σ "HEAD" = Some h →
  (if bool_decide (p ∈ base) then is_Some (h !! p) else h !! p = None) →
  path_ok p → Protected p = false →
  head_kept σ σ' h ∧ r_work σ' !! p = h !! p ∧
  ∀ q, q ≠ p → spared base [p] (r_work σ) (r_work σ') q.
Proof.
  intros H Hh Hb Hpok Hpr. unfold reset_file in H. apply io_bind_ok in H as (r & σ1 & [= Esl <-] & H).
  apply io_bind_ok in H as ([] & σ2 & [= -> <-] & H). case_bool_decide as Hp.
  - apply io_bind_ok in H as (out & σ3 & H & [= <-]). apply gitEnv_ok in H as (raw & H & _).
    destruct (git_restore _ _ _ _ _ H Hh Hb) as (Er & Ec & Ep & Ei & Ho).
    split; [by split_and!|]. split; [done|]. intros q Hq.
    destruct (Ho q Hq) as [?|[Hbl ?]]; [by left|right]. split; [|done]. exists p. set_solver.
  - apply io_bind_ok in H as (r1 & σ3 & H1%attempt_ok & H). pose proof (fs_remove _ _ _ _ H1 Hpok Hpr Esl) as (Er' & Ec & Ei & Hw).
    assert (head_kept σ σ3 h) as Hk by (split_and!; [done..|by rewrite Ei]).
    rewrite Hb. destruct r1 as [u1|e].
    + injection H as <-. split; [done|]. rewrite Hw. split; [apply lookup_delete_eq|].
      intros q Hq. left. by rewrite lookup_delete_ne.
    + destruct Hw as [Ew Hn]. destruct (is_not_exist e); [|done]. injection H as <-.
      split; [done|]. rewrite Ew. split; [by apply Hn|]. by left.
Qed.
Lemma reset_files_ok base h names σ σ' :
  each (reset_file mc dir base) names σ = (Ok tt, σ') → tree_at σ "HEAD" = Some h → files_only h →
  (∀ p, p ∈ names → if bool_decide (p ∈ base) then is_Some (h !! p) else h !! p = None) →
  Forall (λ p, path_ok p ∧ Protected p = false) names →
  head_kept σ σ' h ∧ (∀ q, q ∈ names → r_work σ' !! q = h !! q) ∧
  ∀ q, q ∉ names → spared base names (r_work σ) (r_work σ') q.
Proof.
  intros H Hh Hf. revert σ H Hh. induction names as [|p names IH]; intros σ H Hh Hb Hall; simpl in H.
  { injection H as <-. split; [by split_and!|]. split; [by intros q ?%elem_of_nil|by left]. }
  apply Forall_cons in Hall as [[Hpok Hpr] Hall]. apply io_bind_ok in H as ([] & σ1 & H1 & H).
  assert (if bool_decide (p ∈ base) then is_Some (h !! p) else h !! p = None) as Hbp by (apply Hb; set_solver).
  destruct (reset_file_ok _ _ _ _ _ H1 Hh Hbp Hpok Hpr) as (Hh1 & Ep & Ho).
  destruct (IH σ1 H) as (Hh' & Hin & Hout); [by rewrite (head_kept_tree _ _ _ _ Hh1)|intros; apply Hb; set_solver|done|].
  split; [by eapply head_kept_trans|]. split.
  - intros q Hq. destruct (decide (q ∈ names)) as [Hq'|Hq']; [by apply Hin|].
    apply elem_of_cons in Hq as [->|]; [|done].
    destruct (Hout p Hq') as [->|[(p' & Hp' & Hp'b & Hbl) ->]]; [done|].
    destruct (h !! p) as [e|] eqn:E; [|done]. exfalso.
    assert (is_Some (h !! p')) as Hs.
    { specialize (Hb p' ltac:(set_solver)). by rewrite bool_decide_eq_true_2 in Hb. }
    rewrite (Hf p' p Hs (ex_intro _ e E)), (Hf p p' (ex_intro _ e E) Hs) in Hbl. by destruct Hbl.
  - intros q [Hqp Hq]%not_elem_of_cons. unfold spared.
    destruct (Hout q Hq) as [->|[(p' & Hp' & ?) ->]].
    + destruct (Ho q Hqp) as [->|[(p' & Hp' & ?) ->]]; [by left|right; split; [|done]].
      exists p'. split; [|done]. set_solver.
    + right. split; [|done]. exists p'. split; [|done]. set_solver.
Qed.

(** A successful reset. *)
Lemma Reset_ok patterns h σ σ' :
  tree_at σ "HEAD" = Some h → files_only h → no_clash patterns h (r_work σ) →
  Reset mc dir patterns σ = (Ok tt, σ') →
  merged patterns h (r_work σ) (r_work σ') ∧ head_kept σ σ' h.
Proof.
  intros Hh Hf Hc H. unfold Reset in H. apply io_bind_ok in H as ([names base] & σ1 & H1 & H).
  apply files_ok in H1 as (Hs1 & _ & h' & Hh' & Hn & Hb & Hpok). rewrite Hh in Hh'. injection Hh' as <-.
  apply io_bind_ok in H as (u & σ2 & H2 & H). apply fs_openroot in H2.
  assert (same σ σ2) as Hs by by trans σ1. rewrite <- (sm_work _ _ Hs) in *.
  rewrite <- (same_tree _ _ _ Hs) in Hh.
  destruct (reset_files_ok _ _ _ _ _ H Hh Hf) as (Hh' & Hin & Hout).
  { intros p [Ho Hp]%Hn. case_bool_decide as E; rewrite Hb in E; [tauto|].
    destruct (h !! p); [|done]. destruct E; eauto. }
  { apply Forall_forall. intros p Hp. rewrite Forall_forall in Hpok. split; [by apply Hpok|].
    apply Hn in Hp as [Hp _]. by eapply stage_path_open. }
  split; [|eapply head_kept_trans; [by apply head_kept_same|done]]. intros q. destruct (stage_path q patterns) eqn:Ho.
  - destruct (decide (q ∈ names)) as [Hq|Hq]; [by apply Hin|].
    assert (h !! q = None ∧ r_work σ2 !! q = None) as [Eh Ew].
    { rewrite Hn in Hq. destruct (h !! q), (r_work σ2 !! q); try (destruct Hq; eauto; fail). done. }
    rewrite Eh. destruct (Hout q Hq) as [->|[_ ->]]; done.
  - assert (q ∉ names) as Hq by (rewrite Hn; intros [? _]; congruence).
    destruct (Hout q Hq) as [->|[(p & Hp & Hpb & Hbl) ->]]; [done|]. symmetry.
    apply Hb in Hpb as [Hop Hsp]. destruct (Hc p q Hop (or_introl Hsp) Hbl) as [?|[_ ?]]; [congruence|done].
Qed.

(** C20: resetting a stage undoes that stage's work and nothing else. Suppose that no file of the
    head is the directory of another, as in every tree that git wrote, and that no file of the
    stage has the name of a directory of a file of another, or the other way round, in the head
    and the working tree together. Then after a successful [Reset] every file that
    the stage owns is as in the head of the workspace, present there or removed, and every other
    file of the working tree is untouched; the head stays,
    and so does an index that holds the head. *)
Theorem Reset_exact patterns h σ σ' :
  tree_at σ "HEAD" = Some h → files_only h → no_clash patterns h (r_work σ) →
  Reset mc dir patterns σ = (Ok tt, σ') →
  merged patterns h (r_work σ) (r_work σ') ∧ tree_at σ' "HEAD" = Some h ∧
  (r_index σ None = h → r_index σ' None = h).
Proof.
  intros Hh Hf Hc H. destruct (Reset_ok _ _ _ _ Hh Hf Hc H) as [Hm Hk]. split; [done|].
  rewrite (head_kept_tree _ _ _ _ Hk). split; [done|apply Hk].
Qed.

(** ** The commit of a branch *)
(** The lines for the index, when the listing has the files of [t] among [names]. *)
Lemma index_info_ok l (t : Tree) names :
  Forall entry_ok l →
  (∀ p mode kind oid, (p, (mode, kind, oid)) ∈ l → p ∈ names ∧ t !! p = Some (mode, oid)) →
  (∀ p, p ∈ names → is_Some (t !! p) → p ∈ l.*1) →
  index_info (parse_entries (ended nul (map entry_line l))) names
  = Ok (text (map change_line (map (λ p, (p, t !! p)) names))).
Proof.
  intros Hl Hin Hall. set (entries := parse_entries _).
  assert (∀ p, p ∈ names → index_line entries p = Ok (change_line (p, t !! p))) as Hline.
  { intros p Hp. pose proof (parse_entries_ok l p Hl) as Hen. unfold index_line. fold entries in Hen.
    destruct (entries !! p) as [meta|].
    - destruct Hen as ([p' [[mode kind] oid]] & He & <- & ->).
      rewrite Forall_forall in Hl. destruct (Hl _ He) as (_ & Hm & Hk & Ho).
      simpl. rewrite Fields_three by done. destruct (Hin _ _ _ _ He) as [_ ->]. done.
    - destruct (t !! p) as [e|] eqn:E; [|done]. destruct Hen. apply Hall; [done|by exists e]. }
  clearbody entries. clear Hin Hall. induction names as [|p names IH]; [done|]. simpl.
  rewrite Hline by set_solver. simpl. rewrite IH; [done|]. intros q Hq. apply Hline. set_solver.
Qed.

(** What the hypotheses on the two trees say: the changed paths that are wanted can be said to
    git, none of them is a directory in the other tree, and what they replace is wanted too. *)
Record separate (patterns : option (list string)) (ta tb : Tree) : Prop := {
  sp_plain p : role_path patterns p = true → ta !! p ≠ tb !! p → plain p = true;
  sp_files : files_only tb;
  sp_dirs p q : role_path patterns p = true → ta !! p ≠ tb !! p → is_Some (tb !! q) → below q p = false;
  sp_wanted p q : role_path patterns p = true → is_Some (tb !! p) → ta !! p ≠ tb !! p →
    is_Some (ta !! q) → below q p = true ∨ below p q = true → role_path patterns q = true }.
(** The wanted paths from one tree, the others from another. *)
Definition picked (patterns : option (list string)) (ta tb t : Tree) : Prop :=
  ∀ q, t !! q = if role_path patterns q then tb !! q else ta !! q.

Lemma changes_picked patterns ta tb names :
  separate patterns ta tb → NoDup names →
  (∀ p, p ∈ names ↔ role_path patterns p = true ∧ ta !! p ≠ tb !! p) →
  picked patterns ta tb (fold_left put_change (map (λ p, (p, tb !! p)) names) ta).
Proof.
  intros [_ Hf _ Hw] Hnd Hn q.
  remember (map (λ p, (p, tb !! p)) names) as l eqn:El.
  assert (l.*1 = names) as Hl.
  { rewrite El. clear. induction names as [|p names IH]; [done|]. cbn [map]. by rewrite fmap_cons, IH. }
  assert (∀ p v, (p, v) ∈ l ↔ p ∈ names ∧ v = tb !! p) as Hin.
  { intros p v. rewrite El, list_elem_of_fmap. split; [by intros (x & [= -> ->] & ?)|].
    intros [? ->]. by exists p. }
  rewrite put_changes; [|by rewrite Hl|].
  - destruct (decide (q ∈ names)) as [Hq|Hq].
    + rewrite (final_in _ _ q (tb !! q)); [|by rewrite Hl|by apply Hin].
      apply Hn in Hq as [-> _]. done.
    + rewrite final_notin by (by rewrite Hl). destruct (role_path patterns q) eqn:E; [|done].
      destruct (decide (ta !! q = tb !! q)); [done|]. destruct Hq. by apply Hn.
  - intros p e q' [Hp Ee]%Hin Hb. apply Hn in Hp as [Hwp Hne]. rewrite Hl.
    assert (is_Some (tb !! p)) as Hs by by exists e.
    assert (tb !! q' = None) as Eq'.
    { destruct (tb !! q') as [e'|] eqn:E; [|done]. exfalso. assert (is_Some (tb !! q')) as Hs' by by exists e'.
      destruct Hb as [Hb|Hb]; [by rewrite (Hf p q' Hs Hs') in Hb|by rewrite (Hf q' p Hs' Hs) in Hb]. }
    destruct (ta !! q') as [e'|] eqn:E.
    + left. apply Hin. split; [|done]. apply Hn. split; [|congruence]. eapply Hw; eauto.
    + right. split; [done|]. intros [_ Hq]%Hn. congruence.
Qed.
(** The listing of the wanted names gives changes that can be said to the index. *)
Lemma changes_ok patterns ta tb (names : list string) (l : list entry) :
  separate patterns ta tb → (∀ p, p ∈ names ↔ role_path patterns p = true ∧ ta !! p ≠ tb !! p) →
  Forall path_ok names →
  (∀ p mode kind oid, (p, (mode, kind, oid)) ∈ l →
     p ∈ names ∧ tb !! p = Some (mode, oid) ∧
     file_mode mode = true ∧ token kind = true ∧ object_name oid = true) →
  (∀ p, p ∈ names → is_Some (tb !! p) → p ∈ l.*1) →
  Forall change_ok (map (λ p, (p, tb !! p)) names).
Proof.
  intros Hsep Hn Hpok Hl Hall. apply Forall_map, Forall_forall. intros p Hp.
  rewrite Forall_forall in Hpok. pose proof (proj1 (Hn p) Hp) as [Hw Hne]. simpl.
  split_and!; [by apply (sp_plain _ _ _ Hsep)|by apply Hpok|].
  destruct (tb !! p) as [[mode oid]|] eqn:Ep; [|done].
  assert (p ∈ l.*1) as ([q [[m k] o]] & -> & Hin)%list_elem_of_fmap by (apply Hall; [done|by eexists]).
  destruct (Hl _ _ _ _ Hin) as (_ & Et & ? & _ & ?). simpl in Ep. rewrite Ep in Et.
  by injection Et as <- <-.
Qed.
Lemma commit_index_ok f source l message ta sha b σ σ' :
  commit_index mc dir f source (text (map change_line l)) message σ = (Ok (sha, b), σ') →
  Forall change_ok l → tree_at σ baseRef = Some ta → is_Some (r_rev σ source) → r_temp S f →
  b = true ∧ r_rev σ' = r_rev σ ∧ r_work σ' = r_work σ ∧
  (∀ g, g ≠ Some f → r_index σ' g = r_index σ g) ∧ commits_kept σ σ' ∧
  ∃ id, r_rev σ baseRef = Some id ∧
    r_commit σ' sha = Some (MkCommit (fold_left put_change l ta) [id] message).
Proof.
  intros H Hl Ht Hsource Hf. unfold commit_index in H. apply io_bind_ok in H as (o1 & σ1 & H1 & H).
  apply io_bind_ok in H as (o2 & σ2 & H2 & H). apply io_bind_ok in H as (tree & σ3 & H3 & H).
  apply io_bind_ok in H as (date & σ4 & H4 & H). apply io_bind_ok in H as (out & σ5 & H5 & [= <- <- <-]).
  apply gitEnv_ok in H1 as (r1 & H1 & _), H2 as (r2 & H2 & _), H3 as (r3 & H3 & ->),
    H4 as (r4 & H4 & _), H5 as (r5 & H5 & ->).
  eapply git_read_tree in H1 as ([Er1 Ec1 Ei1 _ Ew1] & Et1); [|done..].
  apply git_update_index in H2 as ([Er2 Ec2 Ei2 _ Ew2] & Hi2); [|done]. specialize (Hi2 l eq_refl Hl).
  apply git_write_tree in H3 as (Er3 & Ec3 & Ei3 & Ew3 & tree & -> & Ht3); [|done].
  apply git_log in H4 as [Er4 Ec4 Ei4 Et4 Ew4]; [|congruence].
  apply git_commit_tree in H5 as (Er5 & Ei5 & Ew5 & sha & t & id & -> & Ht5 & Hp & Hc & Hk).
  rewrite TrimSuffix_app in *.
  split; [done|]. split; [congruence|]. split; [congruence|]. split; [|split].
  - intros g Hg. rewrite Ei5, Ei4, Ei3, Ei2, Ei1 by done. done.
  - trans σ4; [|done]. apply commits_kept_eq. congruence.
  - exists id. split; [by rewrite <- Er1, <- Er2, <- Er3, <- Er4|].
    rewrite Et4, Ht3 in Ht5. injection Ht5 as <-. by rewrite Hc, Hi2, Et1.
Qed.

(** A successful [BranchCommit]. *)
Lemma BranchCommit_ok source patterns message sha b ta tb σ σ' :
  tree_at σ baseRef = Some ta → tree_at σ source = Some tb → separate patterns ta tb →
  BranchCommit mc dir source patterns message σ = (Ok (sha, b), σ') →
  r_rev σ' = r_rev σ ∧ r_work σ' = r_work σ ∧ r_index σ' None = r_index σ None ∧ commits_kept σ σ' ∧
  if b then ∃ id t, r_rev σ baseRef = Some id ∧ picked patterns ta tb t ∧
    r_commit σ' sha = Some (MkCommit t [id] message)
  else sha = "" ∧ ∀ q, role_path patterns q = true → tb !! q = ta !! q.
Proof.
  intros Hta Htb Hsep H. unfold BranchCommit in H. change (wanted patterns) with (role_path patterns) in H.
  apply io_bind_ok in H as (diff & σ1 & H1 & H). apply gitEnv_ok in H1 as (raw1 & H1 & ->).
  eapply git_diff in H1 as (Hs1 & l1 & -> & Hnd & Hok & Hl1); [|done..].
  rewrite TrimSuffix_ended, split_filter in H by done.
  set (names := filter (λ p, role_path patterns p = true) l1) in *.
  assert (∀ p, p ∈ names ↔ role_path patterns p = true ∧ ta !! p ≠ tb !! p) as Hn.
  { intros p. unfold names. by rewrite list_elem_of_filter, Hl1. }
  assert (Forall path_ok names) as Hpok.
  { apply Forall_forall. intros p [_ Hp]%list_elem_of_filter. rewrite Forall_forall in Hok. by apply Hok. }
  case_decide as Enames.
  { injection H as <- <- <-. split; [apply Hs1|]. split; [apply Hs1|]. split; [by rewrite (sm_index _ _ Hs1)|].
    split; [by apply same_refs_kept|]. split; [done|]. intros q Hq. destruct (decide (ta !! q = tb !! q)); [done|].
    assert (q ∈ names) as Hin by by apply Hn. rewrite Enames in Hin. by apply elem_of_nil in Hin. }
  apply io_bind_ok in H as (listing & σ2 & H2 & H). apply gitEnv_ok in H2 as (raw2 & H2 & ->).
  eapply git_ls_tree in H2 as (Hs2 & Hls); [|by rewrite (same_tree _ _ _ Hs1)|done|done].
  destruct Hls as (l & -> & Hl & Hall).
  { intros p q [Hw Hne]%Hn. by apply (sp_dirs _ _ _ Hsep). }
  change (λ '(p, (mode, kind, oid)), tree_line mode kind oid p) with entry_line in H.
  rewrite TrimSuffix_ended, (index_info_ok l tb names) in H; [|..|done].
  2: { apply Forall_forall. intros [p [[mode kind] oid]] Hin.
       destruct (Hl _ _ _ _ Hin) as (Hp & _ & [? _]%file_mode_token & ? & ?%object_name_token).
       rewrite Forall_forall in Hpok. split_and!; try done. by apply Hpok. }
  2: { intros p mode kind oid Hin. by destruct (Hl _ _ _ _ Hin) as (? & ? & _). }
  apply io_bind_ok in H as (info & σ3 & [= <- <-] & H). apply io_bind_ok in H as (f & σ4 & H4 & H).
  apply fs_createtemp in H4 as [Hs4 Hf]. specialize (Hf f eq_refl).
  apply io_bind_ok in H as (r & σ5 & H5%attempt_ok & H).
  apply io_bind_ok in H as (u & σ6 & H6%attempt_ok & [= -> <-]).
  apply fs_unlink in H6 as [Er6 Ec6 Ei6 _ Ew6]; [|done].
  assert (same σ σ4) as Hs by (trans σ1; [done|by trans σ2]).
  assert (tree_at σ4 baseRef = Some ta) as Hta4 by (by rewrite (same_tree _ _ _ Hs)).
  assert (is_Some (r_rev σ4 source)) as Hsource.
  { rewrite (sm_rev _ _ Hs). unfold tree_at in Htb. destruct (r_rev σ source); [by eexists|done]. }
  apply (commit_index_ok _ _ _ _ ta) in H5 as (-> & Er5 & Ew5 & Ei5 & Hk5 & id & Hid & Hc); [|by eapply changes_ok|done..].
  destruct Hs as [Er Ec Ei _ Ew]. split; [congruence|]. split; [congruence|].
  split; [by rewrite Ei6, Ei5, Ei by done|].
  split; [trans σ4; [by apply commits_kept_eq|trans σ5; [done|by apply commits_kept_eq]]|].
  exists id, (fold_left put_change (map (λ p, (p, tb !! p)) names) ta).
  split; [by rewrite <- Er|]. split; [|by rewrite Ec6].
  apply changes_picked; [done|by apply NoDup_filter|done].
Qed.
End repository.
