(* ===== verification/GitModel.v ===== *)
(** * A repository that behaves as git promises

    A small executable model of the git commands that the code runs, which satisfies the laws of
    [Repository]; the theorems on workspaces are applied to it. *)
From S2P Require Import Prelude GoStrings Domain Pipeline PathGuard Output Splitting ToolCalls.
From S2P Require Import Paths Workspace Repository.

Record Repo := MkRepo {
  g_revs : gmap string string; g_commits : gmap string Commit;
  g_index : gmap (option string) Tree; g_trees : gmap string Tree; g_work : Tree }.
Definition index_of (σ : Repo) (f : option string) : Tree := default ∅ (g_index σ !! f).
#[export] Instance repo_views : Views Repo := {|
  r_rev σ rev := g_revs σ !! rev; r_commit σ id := g_commits σ !! id; r_index := index_of;
  r_trees σ tree := g_trees σ !! tree; r_work := g_work; r_temp f := f = "/tmp/devsquad-index-1" |}.
Definition with_index (f : option string) (t : Tree) (σ : Repo) : Repo :=
  MkRepo (g_revs σ) (g_commits σ) (<[f := t]> (g_index σ)) (g_trees σ) (g_work σ).
Definition with_work (t : Tree) (σ : Repo) : Repo :=
  MkRepo (g_revs σ) (g_commits σ) (g_index σ) (g_trees σ) t.

(** ** The commands *)
Definition answer : Type := option error * string.
Definition failed : answer := (Some (ErrorText "exit status 1"), "").
Definition said (s : string) : answer := (None, s).
(** Trees that the commands can print. *)
Definition printable_path (p : string) : bool := lacks nul p && forallb plain_name (Split slash p).
Definition printable_tree (t : Tree) : bool :=
  forallb (λ '(p, (mode, oid)), printable_path p && file_mode mode && object_name oid) (map_to_list t).
Definition keys (t : Tree) : list string := (map_to_list t).*1.

Definition rev_parse (rev : string) (σ : Repo) : answer :=
  if g_revs σ !! rev is Some id then said (id +:+ one newline) else failed.
Definition ls_head (σ : Repo) : answer :=
  if tree_at σ "HEAD" is Some t then
    if printable_tree t then said (ended nul (keys t)) else failed
  else failed.
Definition diff (a b : string) (σ : Repo) : answer :=
  match tree_at σ a, tree_at σ b with
  | Some ta, Some tb =>
    if printable_tree ta && printable_tree tb then
      said (ended nul (filter (λ p, ta !! p ≠ tb !! p) (elements (dom ta ∪ dom tb))))
    else failed
  | _, _ => failed
  end.
Definition found (t : Tree) (names : list string) : list entry :=
  omap (λ p, '(mode, oid) ← t !! p; Some (p, (mode, "blob", oid))) names.
Definition ls_tree (rev : string) (names : list string) (σ : Repo) : answer :=
  if tree_at σ rev is Some t then
    if printable_tree t then said (ended nul (map entry_line (found t names))) else failed
  else failed.
Definition read_tree (f rev : string) (σ : Repo) : answer * Repo :=
  if tree_at σ rev is Some t then (said "", with_index (Some f) t σ) else (failed, σ).
(** The lines of [update-index --index-info]. *)
Definition parse_change (line : string) : option change :=
  '(before, p) ← Cut line (one tab);
  '(mode, oid) ← Cut before " ";
  Some (p, if mode =? "0" then None else Some (mode, oid)).
Definition update_index (f stdin : string) (σ : Repo) : answer * Repo :=
  (said "", with_index (Some f)
     (fold_left put_change (omap parse_change (Split newline stdin)) (index_of σ (Some f))) σ).
Definition write_tree (f : string) (σ : Repo) : answer * Repo :=
  (said ("tree" +:+ one newline),
   MkRepo (g_revs σ) (g_commits σ) (g_index σ) (<["tree" := index_of σ (Some f)]> (g_trees σ)) (g_work σ)).
(** A name for a new commit. *)
Definition new_id (σ : Repo) : string := fresh (dom (g_commits σ) : gset string).
Definition add_commit (c : Commit) (σ : Repo) : Repo :=
  MkRepo (g_revs σ) (<[new_id σ := c]> (g_commits σ)) (g_index σ) (g_trees σ) (g_work σ).
Definition with_rev (rev id : string) (σ : Repo) : Repo :=
  MkRepo (<[rev := id]> (g_revs σ)) (g_commits σ) (g_index σ) (g_trees σ) (g_work σ).
Definition commit_tree (tree parent message : string) (σ : Repo) : answer * Repo :=
  match g_trees σ !! tree, g_revs σ !! parent with
  | Some t, Some id =>
    (said (new_id σ +:+ one newline), add_commit (MkCommit t [id] message) σ)
  | _, _ => (failed, σ)
  end.
(** What the new entries of [added] clash with goes. *)
Definition cleared (added : list string) (t : Tree) : Tree :=
  filter (λ qe, existsb (λ p, below qe.1 p || below p qe.1) added = false) t.
Definition add (names : list string) (σ : Repo) : answer * Repo :=
  let covered := λ q, bool_decide (q ∈ names) || existsb (below q) names in
  let added := filter (λ p, is_Some (g_work σ !! p)) names in
  (said "", with_index None
     (filter (λ qe, covered qe.1 = true) (g_work σ) ∪
      cleared added (filter (λ qe, covered qe.1 = false) (index_of σ None))) σ).
Definition commit (message : string) (σ : Repo) : answer * Repo :=
  (said "", with_rev "HEAD" (new_id σ)
     (add_commit (MkCommit (index_of σ None) (if g_revs σ !! "HEAD" is Some id then [id] else []) message) σ)).
Definition update_ref (ref rev : string) (σ : Repo) : answer * Repo :=
  if g_revs σ !! rev is Some id then
    (said "", with_rev ref id σ)
  else (failed, σ).
(** Restoring replaces what is in the way; a head with such a clash is not restored. *)
Definition restore (p : string) (σ : Repo) : answer * Repo :=
  match t ← tree_at σ "HEAD"; (if bool_decide (cleared [p] t = t) then t !! p else None) with
  | Some e =>
    (said "", with_index None (put_change (index_of σ None) (p, Some e))
                (with_work (put_change (g_work σ) (p, Some e)) σ))
  | None => (failed, σ)
  end.

Definition exec_git (args env : list string) (stdin : string) (σ : Repo) : answer * Repo :=
  match args with
  | [] => (failed, σ)
  | c :: rest =>
    let f := if env is v :: _ then default "" (CutPrefix v "GIT_INDEX_FILE=") else "" in
    let arg n := default "" (rest !! n) in
    if c =? "rev-parse" then (rev_parse (arg 1) σ, σ) else
    if c =? "ls-tree" then
      ((if arg 0 =? "-r" then ls_head σ else ls_tree (arg 1) (drop 3 rest) σ), σ) else
    if c =? "diff" then (diff (arg 3) (arg 4) σ, σ) else
    if c =? "read-tree" then read_tree f (arg 0) σ else
    if c =? "update-index" then update_index f stdin σ else
    if c =? "write-tree" then write_tree f σ else
    if c =? "log" then (said ("2026-10-01T00:00:00Z" +:+ one newline), σ) else
    if c =? "commit-tree" then commit_tree (arg 0) (arg 2) (arg 4) σ else
    if c =? "add" then add (drop 3 rest) σ else
    if c =? "commit" then commit (arg 3) σ else
    if c =? "update-ref" then update_ref (arg 0) (arg 1) σ else
    if c =? "restore" then restore (arg 4) σ else
    if (c =? "remote") || (c =? "push") then (said "", σ) else (failed, σ)
  end.
Definition machine : Machine Repo := {|
  mc_environ := [];
  mc_exec c σ := let '(a, σ') := exec_git (drop 8 (cm_Args c)) (drop 4 (cm_Env c)) (cm_Stdin c) σ in (Ok a, σ');
  mc_walk _ σ :=
    (if forallb printable_path (keys (g_work σ)) then Ok (map (λ p, Node p None) (keys (g_work σ)))
     else Err (ErrorText "walk"), σ);
  mc_openroot _ σ := (Ok tt, σ);
  mc_lstat _ _ _ := Ok false;
  mc_remove _ p σ :=
    if g_work σ !! p is Some _ then (Ok tt, with_work (delete p (g_work σ)) σ)
    else (Err (ErrNotExist p), σ);
  mc_createtemp σ := (Ok "/tmp/devsquad-index-1", σ);
  mc_unlink _ σ := (Ok tt, σ);
  mc_readdir _ σ := (Ok [], σ);
  mc_removeall _ σ := (Ok tt, σ) |}.

(** ** The model keeps the promises *)
Lemma printable_ok t : printable_tree t = true →
  ∀ p mode oid, t !! p = Some (mode, oid) →
    path_ok p ∧ file_mode mode = true ∧ object_name oid = true.
Proof.
  unfold printable_tree. intros H p mode oid Hp%elem_of_map_to_list. rewrite forallb_forall in H.
  specialize (H _ (proj1 (list_elem_of_In _ _) Hp)). cbn beta iota in H.
  unfold printable_path in H. rewrite !andb_true_iff in H. unfold path_ok. tauto.
Qed.
Lemma elem_of_keys t p : p ∈ keys t ↔ is_Some (t !! p).
Proof.
  unfold keys. rewrite list_elem_of_fmap. split.
  - intros ([q e] & -> & H%elem_of_map_to_list). by exists e.
  - intros [e H]. exists (p, e). split; [done|]. by apply elem_of_map_to_list.
Qed.
Lemma keys_ok t : printable_tree t = true → Forall path_ok (keys t).
Proof.
  intros H. apply Forall_forall. intros p [[m o] Hp]%elem_of_keys. by apply (printable_ok t H p m o).
Qed.
Lemma diff_ok ta tb l :
  printable_tree ta = true → printable_tree tb = true →
  l = filter (λ p, ta !! p ≠ tb !! p) (elements (dom ta ∪ dom tb)) →
  NoDup l ∧ Forall path_ok l ∧ ∀ p, p ∈ l ↔ ta !! p ≠ tb !! p.
Proof.
  intros Ha Hb ->. assert (∀ p, p ∈ filter (λ p, ta !! p ≠ tb !! p) (elements (dom ta ∪ dom tb))
    ↔ ta !! p ≠ tb !! p) as Hin.
  { intros p. rewrite list_elem_of_filter, elem_of_elements, elem_of_union, !elem_of_dom.
    split; [tauto|]. intros H. split; [done|]. destruct (ta !! p), (tb !! p); eauto. done. }
  split; [apply NoDup_filter, NoDup_elements|]. split; [|done]. apply Forall_forall.
  intros p Hp%Hin. destruct (ta !! p) as [[m o]|] eqn:Ea; [by apply (printable_ok ta Ha p m o)|].
  destruct (tb !! p) as [[m o]|] eqn:Eb; [by apply (printable_ok tb Hb p m o)|done].
Qed.
Lemma found_ok t names p mode kind oid :
  (p, (mode, kind, oid)) ∈ found t names ↔ p ∈ names ∧ t !! p = Some (mode, oid) ∧ kind = "blob".
Proof.
  unfold found. rewrite list_elem_of_omap. split.
  - intros (q & Hq & H). destruct (t !! q) as [[m o]|] eqn:E; [|done]. simpl in H. by injection H as <- <- <- <-.
  - intros (Hp & E & ->). exists p. by rewrite E.
Qed.
Lemma found_keys t names p : p ∈ names → is_Some (t !! p) → p ∈ (found t names).*1.
Proof.
  intros Hp [[m o] E]. apply list_elem_of_fmap. exists (p, (m, "blob", o)). split; [done|]. by apply found_ok.
Qed.
(** The lines of the index are read back. *)
Definition change_body (c : change) : string :=
  match c with
  | (p, Some (mode, oid)) => mode +:+ " " +:+ oid +:+ one tab +:+ p
  | (p, None) => "0 " +:+ zero_oid +:+ one tab +:+ p
  end.
Lemma info_body mode oid p s :
  info_line mode oid p +:+ s = (mode +:+ " " +:+ oid +:+ one tab +:+ p) +:+ String newline s.
Proof. unfold info_line. by rewrite <- !string_app_assoc. Qed.
Lemma text_ended l : text (map change_line l) = ended newline (map change_body l).
Proof.
  induction l as [|[p [[mode oid]|]] l IH]; [done|..]; simpl; rewrite IH.
  - apply info_body.
  - apply (info_body "0" zero_oid).
Qed.
Lemma token_lacks c w : graphic_char c = false → token w = true → lacks c w = true.
Proof. intros Hc Hw. by apply graphic_lacks; [|apply token_graphic]. Qed.
Lemma body_ok c : change_ok c → lacks newline (change_body c) = true ∧ parse_change (change_body c) = Some c.
Proof.
  destruct c as [p v]. intros (Hp & _ & Hv). simpl in Hp. unfold plain in Hp.
  apply andb_true_iff in Hp as [Hp _].
  assert (∀ mode oid, token mode = true → token oid = true →
    lacks newline (mode +:+ " " +:+ oid +:+ one tab +:+ p) = true ∧
    parse_change (mode +:+ " " +:+ oid +:+ one tab +:+ p)
    = Some (p, if mode =? "0" then None else Some (mode, oid))) as H.
  { intros mode oid Hm Ho. split.
    - rewrite !lacks_app, (token_lacks newline mode), (token_lacks newline oid) by done. simpl. by rewrite Hp.
    - unfold parse_change.
      replace (mode +:+ " " +:+ oid +:+ one tab +:+ p) with ((mode +:+ " " +:+ oid) +:+ String tab p)
        by (by rewrite <- !string_app_assoc).
      rewrite Cut_first by (rewrite !lacks_app, (token_lacks tab mode), (token_lacks tab oid) by done; reflexivity). simpl.
      change (Cut (mode +:+ " " +:+ oid) " ") with (Cut (mode +:+ String (chr 32) oid) (one (chr 32))).
      by rewrite Cut_first by (by apply token_lacks). }
  destruct v as [[mode oid]|]; simpl in Hv.
  - destruct Hv as ([Hm Hne]%file_mode_token & Ho%object_name_token). destruct (H mode oid Hm Ho) as [Hl He]. split; [done|].
    simpl change_body. rewrite He. by apply String.eqb_neq in Hne as ->.
  - by apply (H "0" zero_oid).
Qed.
Lemma parse_changes l :
  Forall change_ok l → omap parse_change (Split newline (text (map change_line l))) = l.
Proof.
  intros Hl. rewrite text_ended, Split_ended.
  - rewrite omap_app. simpl. rewrite app_nil_r.
    induction Hl as [|c l Hc _ IH]; [done|]. destruct (body_ok c Hc) as [_ Hp].
    change (omap parse_change (map change_body (c :: l)))
      with (match parse_change (change_body c) with
            | Some y => y :: omap parse_change (map change_body l)
            | None => omap parse_change (map change_body l)
            end).
    by rewrite Hp, IH.
  - apply Forall_map. eapply Forall_impl; [exact Hl|]. by intros c [? _]%body_ok.
Qed.

Section laws.
Context {UC : Unicode} (dir : string).
(** A command of the machine is a command of the model. *)
Lemma runs_exec env stdin args out σ σ' :
  runs machine dir env stdin args out σ σ' → exec_git args env stdin σ = (said out, σ').
Proof.
  unfold runs. simpl. rewrite !drop_0. unfold said.
  destruct (exec_git args env stdin σ) as [[o s] σ1]. by intros [= -> -> ->].
Qed.
Lemma index_arg f : default "" (CutPrefix ("GIT_INDEX_FILE=" +:+ f) "GIT_INDEX_FILE=") = f.
Proof.
  unfold CutPrefix. rewrite HasPrefix_app. simpl default.
  exact (drop_string_all "GIT_INDEX_FILE=" f).
Qed.
Lemma index_of_eq f t σ : index_of (with_index f t σ) f = t.
Proof. unfold index_of. simpl. by rewrite lookup_insert_eq. Qed.
Lemma with_index_same f t σ : same_but_index f σ (with_index f t σ).
Proof. split; try done. intros g Hg. simpl. unfold index_of. simpl. by rewrite lookup_insert_ne. Qed.
Ltac run H := apply runs_exec in H; cbn in H.

Lemma law_ls_head out σ σ' :
  runs machine dir [] "" ["ls-tree"; "-r"; "--name-only"; "-z"; "HEAD"] out σ σ' →
  same σ σ' ∧ ∃ t l, tree_at σ "HEAD" = Some t ∧ out = ended nul l ∧ Forall path_ok l ∧
    ∀ p, p ∈ l ↔ is_Some (t !! p).
Proof.
  intros H%runs_exec. change (exec_git _ _ _ _) with (ls_head σ, σ) in H. unfold ls_head in H.
  destruct (tree_at σ "HEAD") as [t|]; [|done]. destruct (printable_tree t) eqn:Ht; [|done].
  injection H as <- <-. split; [reflexivity|]. exists t, (keys t).
  split_and!; [done|done|by apply keys_ok|apply elem_of_keys].
Qed.
Lemma law_diff a b ta tb out σ σ' :
  runs machine dir [] "" ["diff"; "--name-only"; "-z"; "--no-renames"; a; b] out σ σ' →
  tree_at σ a = Some ta → tree_at σ b = Some tb →
  same σ σ' ∧ ∃ l, out = ended nul l ∧ NoDup l ∧ Forall path_ok l ∧ ∀ p, p ∈ l ↔ ta !! p ≠ tb !! p.
Proof.
  intros H%runs_exec Ea Eb. change (exec_git _ _ _ _) with (diff a b σ, σ) in H. unfold diff in H.
  rewrite Ea, Eb in H. destruct (printable_tree ta) eqn:Ha, (printable_tree tb) eqn:Hb; try done. simpl in H.
  injection H as <- <-. split; [reflexivity|]. eexists. split; [done|]. by apply (diff_ok ta tb).
Qed.
Lemma law_ls_tree rev names t out σ σ' :
  runs machine dir [] "" (["ls-tree"; "-z"; rev; "--"] ++ names) out σ σ' →
  tree_at σ rev = Some t → names ≠ [] → Forall path_ok names →
  same σ σ' ∧
  ((∀ p q, p ∈ names → is_Some (t !! q) → below q p = false) →
   ∃ l, out = ended nul (map (λ '(p, (mode, kind, oid)), tree_line mode kind oid p) l) ∧
     (∀ p mode kind oid, (p, (mode, kind, oid)) ∈ l →
        p ∈ names ∧ t !! p = Some (mode, oid) ∧
        file_mode mode = true ∧ token kind = true ∧ object_name oid = true) ∧
     (∀ p, p ∈ names → is_Some (t !! p) → p ∈ l.*1)).
Proof.
  intros H%runs_exec Et _ _. change (exec_git _ _ _ _) with (ls_tree rev names σ, σ) in H. unfold ls_tree in H.
  rewrite Et in H. destruct (printable_tree t) eqn:Ht; [|done].
  injection H as <- <-. split; [reflexivity|]. intros _. exists (found t names).
  split; [done|]. split; [|intros; by apply found_keys].
  intros p mode kind oid (Hp & E & ->)%found_ok. destruct (printable_ok t Ht p mode oid E) as (? & ? & ?).
  by split_and!.
Qed.
Lemma law_read_tree f rev t out σ σ' :
  runs machine dir (index_env f) "" ["read-tree"; rev] out σ σ' → r_temp Repo f → tree_at σ rev = Some t →
  same_but_index (Some f) σ σ' ∧ r_index σ' (Some f) = t.
Proof.
  intros H%runs_exec _ Et. change (exec_git _ _ _ _) with
    (read_tree (default "" (CutPrefix ("GIT_INDEX_FILE=" +:+ f) "GIT_INDEX_FILE=")) rev σ) in H.
  rewrite index_arg in H. unfold read_tree in H. rewrite Et in H.
  injection H as _ <-. split; [apply with_index_same|]. apply index_of_eq.
Qed.
Lemma law_update_index f stdin out σ σ' :
  runs machine dir (index_env f) stdin ["update-index"; "--index-info"] out σ σ' → r_temp Repo f →
  same_but_index (Some f) σ σ' ∧
  ∀ l, stdin = text (map change_line l) → Forall change_ok l →
    r_index σ' (Some f) = fold_left put_change l (r_index σ (Some f)).
Proof.
  intros H%runs_exec _. change (exec_git _ _ _ _) with
    (update_index (default "" (CutPrefix ("GIT_INDEX_FILE=" +:+ f) "GIT_INDEX_FILE=")) stdin σ) in H.
  rewrite index_arg in H. injection H as _ <-. split; [apply with_index_same|].
  intros l -> Hl. simpl. rewrite index_of_eq, parse_changes by done. done.
Qed.
Lemma law_write_tree f out σ σ' :
  runs machine dir (index_env f) "" ["write-tree"] out σ σ' → r_temp Repo f →
  r_rev σ' = r_rev σ ∧ r_commit σ' = r_commit σ ∧ r_index σ' = r_index σ ∧ r_work σ' = r_work σ ∧
  ∃ tree, out = tree +:+ one newline ∧ r_trees σ' tree = Some (r_index σ (Some f)).
Proof.
  intros H%runs_exec _. change (exec_git _ _ _ _) with
    (write_tree (default "" (CutPrefix ("GIT_INDEX_FILE=" +:+ f) "GIT_INDEX_FILE=")) σ) in H.
  rewrite index_arg in H. injection H as <- <-. do 4 (split; [done|]). exists "tree". split; [done|].
  simpl. by rewrite lookup_insert_eq.
Qed.
Lemma add_commit_kept c σ : commits_kept σ (add_commit c σ).
Proof.
  intros id c' H. simpl in *. rewrite lookup_insert_ne; [done|]. intros E.
  apply (is_fresh (dom (g_commits σ))), elem_of_dom. change (fresh _) with (new_id σ). rewrite E.
  by exists c'.
Qed.
Lemma law_commit_tree date tree parent message out σ σ' :
  runs machine dir (dates date) "" ["commit-tree"; tree; "-p"; parent; "-m"; message] out σ σ' →
  r_rev σ' = r_rev σ ∧ r_index σ' = r_index σ ∧ r_work σ' = r_work σ ∧
  ∃ sha t id, out = sha +:+ one newline ∧ r_trees σ tree = Some t ∧ r_rev σ parent = Some id ∧
    r_commit σ' sha = Some (MkCommit t [id] message) ∧ commits_kept σ σ'.
Proof.
  intros H%runs_exec. change (exec_git _ _ _ _) with (commit_tree tree parent message σ) in H.
  unfold commit_tree in H. destruct (g_trees σ !! tree) as [t|] eqn:Et; [|done].
  destruct (g_revs σ !! parent) as [id|] eqn:Ep; [|done]. injection H as <- <-.
  do 3 (split; [done|]). exists (new_id σ), t, id. split_and!; try done; [|apply add_commit_kept].
  simpl. by rewrite lookup_insert_eq.
Qed.
Lemma lookup_cleared added t q :
  cleared added t !! q = if existsb (λ p, below q p || below p q) added then None else t !! q.
Proof.
  unfold cleared. rewrite map_lookup_filter. simpl.
  destruct (existsb _ added), (t !! q); simpl; by repeat case_guard.
Qed.
Lemma law_add names out σ σ' :
  runs machine dir [] "" (["add"; "-A"; "--force"; "--"] ++ names) out σ σ' → Forall path_ok names →
  same_but_index None σ σ' ∧ ∀ q,
    if bool_decide (q ∈ names) || existsb (below q) names then r_index σ' None !! q = r_work σ !! q
    else r_index σ' None !! q = r_index σ None !! q ∨
         existsb (λ p, below p q) names = true ∧ r_index σ' None !! q = None.
Proof.
  intros H%runs_exec _. change (exec_git _ _ _ _) with (add names σ) in H. unfold add in H.
  injection H as _ <-. split; [apply with_index_same|]. intros q. simpl. rewrite index_of_eq.
  rewrite lookup_union, lookup_cleared, !map_lookup_filter. simpl.
  destruct (_ || existsb (below q) names) eqn:E.
  - destruct (existsb _ (filter _ names)), (g_work σ !! q), (index_of σ None !! q); simpl;
      repeat case_guard; try done; congruence.
  - apply orb_false_iff in E as [_ E].
    destruct (existsb _ (filter _ names)) eqn:Ex; [right|left].
    + split.
      * apply existsb_exists in Ex as (p & Hp%list_elem_of_In & Hb). apply existsb_exists. exists p.
        apply list_elem_of_filter in Hp as [_ Hp]. split; [by apply list_elem_of_In|].
        apply orb_true_iff in Hb as [Hb|Hb]; [|done]. exfalso.
        enough (existsb (below q) names = true) by congruence. apply existsb_exists. exists p.
        split; [by apply list_elem_of_In|done].
      * destruct (g_work σ !! q); simpl; repeat case_guard; try done; congruence.
    + destruct (g_work σ !! q), (index_of σ None !! q); simpl; repeat case_guard; try done; congruence.
Qed.
Lemma law_commit message out σ σ' :
  runs machine dir [] "" ["commit"; "--quiet"; "--allow-empty"; "-m"; message] out σ σ' →
  r_index σ' = r_index σ ∧ r_work σ' = r_work σ ∧ tree_at σ' "HEAD" = Some (r_index σ None) ∧
  (∀ ref, own_ref ref = true → r_rev σ' ref = r_rev σ ref) ∧ commits_kept σ σ'.
Proof.
  intros H%runs_exec. change (exec_git _ _ _ _) with (commit message σ) in H.
  injection H as _ <-. do 2 (split; [done|]). split; [|split].
  - unfold tree_at. simpl. by rewrite !lookup_insert_eq; simpl; rewrite lookup_insert_eq.
  - intros ref Hown. simpl. rewrite lookup_insert_ne; [done|]. by intros <-.
  - apply add_commit_kept.
Qed.
Lemma law_update_ref ref rev out σ σ' :
  runs machine dir [] "" ["update-ref"; ref; rev] out σ σ' → own_ref ref = true →
  r_commit σ' = r_commit σ ∧ r_index σ' = r_index σ ∧ r_work σ' = r_work σ ∧
  r_rev σ' ref = r_rev σ rev ∧ r_rev σ' "HEAD" = r_rev σ "HEAD" ∧
  ∀ other, own_ref other = true → other ≠ ref → r_rev σ' other = r_rev σ other.
Proof.
  intros H%runs_exec Hown. assert (ref ≠ "HEAD") as Hne by (by intros ->).
  change (exec_git _ _ _ _) with (update_ref ref rev σ) in H.
  unfold update_ref in H. destruct (g_revs σ !! rev) as [id|] eqn:E; [|done]. injection H as _ <-.
  do 3 (split; [done|]). simpl. rewrite lookup_insert_eq, lookup_insert_ne by done.
  split_and!; [done..|]. intros other _ Ho. by rewrite lookup_insert_ne.
Qed.
Lemma law_restore p t out σ σ' :
  runs machine dir [] "" ["restore"; "--source=HEAD"; "--staged"; "--worktree"; "--"; p] out σ σ' →
  tree_at σ "HEAD" = Some t → is_Some (t !! p) →
  r_rev σ' = r_rev σ ∧ r_commit σ' = r_commit σ ∧ r_work σ' !! p = t !! p ∧
  (r_index σ None = t → r_index σ' None = t) ∧
  ∀ q, q ≠ p → r_work σ' !! q = r_work σ !! q ∨
    (below q p = true ∨ below p q = true) ∧ r_work σ' !! q = None.
Proof.
  intros H%runs_exec Ht [e He]. change (exec_git _ _ _ _) with (restore p σ) in H.
  unfold restore in H. rewrite Ht in H. cbn [mbind option_bind] in H.
  case_bool_decide as Hcl; rewrite ?He in H; [|done].
  injection H as _ <-. do 2 (split; [done|]). cbn [r_work r_index repo_views g_work with_index with_work].
  rewrite index_of_eq. split; [simpl; by rewrite lookup_insert_eq|]. split.
  - intros <-. apply map_eq. intros q. destruct (decide (q = p)) as [->|Hq]; [simpl; by rewrite lookup_insert_eq|].
    apply (put_change_other _ p (Some e) q); [done|]. right. pose proof (lookup_cleared [p] (index_of σ None) q) as Hl.
    rewrite Hcl in Hl. simpl in Hl. destruct (below q p), (below p q); auto.
  - intros q Hq. simpl. rewrite lookup_insert_ne, map_lookup_filter by done. simpl.
    destruct (g_work σ !! q); simpl; [|by left]. case_guard as Hb; [by left|right].
    split; [|done]. destruct (below q p), (below p q); auto.
Qed.
#[export] Instance machine_git : Git machine dir.
Proof.
  split; try eauto using law_ls_head, law_diff, law_ls_tree, law_read_tree, law_update_index,
    law_write_tree, law_commit_tree, law_add, law_commit, law_update_ref, law_restore.
  - intros rev σ r σ'. simpl. intros [= <- <-] _. split; [reflexivity|]. intros [out H]. injection H as H.
    unfold rev_parse in H. simpl in H. destruct (g_revs σ !! rev) eqn:E; [by eexists|done].
  - intros rev out σ σ' H%runs_exec _. by injection H as _ <-.
  - by intros σ r σ' [= _ <-].
  - by intros header sha branch σ r σ' [= _ <-].
  - intros σ tree σ'. simpl. destruct (forallb _ _) eqn:Hk; intros [= <- <-]. split; [reflexivity|]. split.
    + intros q Hq%elem_of_keys%list_elem_of_In. rewrite forallb_forall in Hk.
      by apply Hk, andb_true_iff in Hq.
    + intros q _. simpl. rewrite <- elem_of_keys. clear Hk.
      induction (keys (g_work σ)) as [|p l IH]; [done|]. simpl. by rewrite !elem_of_cons, IH.
  - by intros σ r σ' [= _ <-].
  - intros p σ r σ'. simpl. destruct (g_work σ !! p) eqn:E; intros [= <- <-] _ _ _; done.
  - intros σ r σ' [= <- <-]. split; [reflexivity|]. by intros f [= <-].
  - by intros f σ r σ' [= _ <-] _.
Qed.
End laws.

(** ** The theorems at a small repository *)
(** No path of the list is a directory of another. *)
Definition apart (l : list string) : bool := forallb (λ p, forallb (λ q, negb (below q p)) l) l.
Lemma apart_ok l p q : apart l = true → p ∈ l → q ∈ l → below q p = false.
Proof.
  unfold apart. rewrite forallb_forall. intros H Hp%list_elem_of_In Hq%list_elem_of_In.
  specialize (H p Hp). rewrite forallb_forall in H. by apply negb_true_iff, H.
Qed.
Lemma apart_files t : apart (keys t) = true → files_only t.
Proof. intros H p q Hp%elem_of_keys Hq%elem_of_keys. by eapply apart_ok. Qed.
Lemma apart_clash `{UC : Unicode} {MA : Matchers} patterns h w :
  apart (keys h ++ keys w) = true → no_clash patterns h w.
Proof.
  intros H p q _ Hp Hb. right.
  assert (p ∈ keys h ++ keys w) as Hpk by (rewrite elem_of_app, !elem_of_keys; tauto).
  assert (∀ t, t = h ∨ t = w → t !! q = None) as Hq; [|split; apply Hq; auto].
  intros t Ht. destruct (t !! q) eqn:E; [|done]. exfalso.
  assert (q ∈ keys h ++ keys w) as Hqk.
  { rewrite elem_of_app, !elem_of_keys. destruct Ht as [-> | ->]; rewrite E; eauto. }
  rewrite (apart_ok _ p q H Hpk Hqk), (apart_ok _ q p H Hqk Hpk) in Hb. by destruct Hb.
Qed.
Lemma apart_separate `{UC : Unicode} {MA : Matchers} patterns ta tb :
  apart (keys ta ++ keys tb) = true → forallb plain (keys ta ++ keys tb) = true →
  separate patterns ta tb.
Proof.
  intros H Hpl. assert (∀ p, ta !! p ≠ tb !! p → p ∈ keys ta ++ keys tb) as Hin.
  { intros p Hp. rewrite elem_of_app, !elem_of_keys. destruct (ta !! p), (tb !! p); eauto. done. }
  assert (∀ q, is_Some (tb !! q) → q ∈ keys ta ++ keys tb) as Hb.
  { intros q Hq. rewrite elem_of_app, !elem_of_keys. tauto. }
  assert (∀ q, is_Some (ta !! q) → q ∈ keys ta ++ keys tb) as Ha.
  { intros q Hq. rewrite elem_of_app, !elem_of_keys. tauto. }
  split.
  - intros p _ Hp. rewrite forallb_forall in Hpl. by apply Hpl, list_elem_of_In, Hin.
  - intros p q Hp Hq. by apply (apart_ok _ _ _ H); auto.
  - intros p q _ Hp Hq. by apply (apart_ok _ _ _ H); auto.
  - intros p q _ Hp Hne Hq [E|E]; by rewrite (apart_ok _ _ _ H) in E by auto.
Qed.

Section demo.
#[local] Existing Instance ascii_unicode.
#[local] Instance below_matchers : Matchers := {|
  PathMatch pattern name := Some (HasPrefix name (TrimSuffix pattern "**"));
  ValidatePattern _ := true; compile _ := Ok (λ _, true); shell_fields l := Ok [l] |}.
Definition file (oid : string) : string * string := ("100644", oid).
Definition old_tree : Tree := {["docs/x.md" := file "a1"; "src/a.c" := file "a2"; "src/b.c" := file "a3"]}.
(** The coder changed one file, removed one and added one; the writer is at work, too. *)
Definition new_work : Tree :=
  {["docs/x.md" := file "b1"; "src/a.c" := file "b2"; "src/c.c" := file "b3"]}.
Definition coder_tree : Tree :=
  {["docs/x.md" := file "a1"; "src/a.c" := file "b2"; "src/c.c" := file "b3"]}.
Definition demo_repo : Repo :=
  MkRepo {["HEAD" := "c0"; baseRef := "c0"; "topic" := "c1"]}
    {["c0" := MkCommit old_tree [] "base"; "c1" := MkCommit new_work ["c0"] "topic"]}
    {[None := old_tree]} ∅ new_work.
Definition after {A} (m : io Repo A) : Repo := (m demo_repo).2.
Definition accepted : Repo := after (Accept machine "/w" "code" ["src/**"]).
Definition reset : Repo := after (Reset machine "/w" ["src/**"]).
(** A file replaces the file that has the name of its directory. *)
Definition clashing_repo : Repo :=
  MkRepo {["HEAD" := "c0"]} {["c0" := MkCommit {["a/b" := file "a1"]} [] "base"]}
    {[None := {["a" := file "a1"; "c" := file "a2"]}]} ∅ {["a" := file "b1"; "c" := file "b2"]}.
Example add_replaces :
  index_of (add ["a/b"] (with_work {["a/b" := file "b1"; "c" := file "b2"]} clashing_repo)).2 None
  = {["a/b" := file "b1"; "c" := file "a2"]}.
Proof. vm_compute. reflexivity. Qed.
Example restore_replaces :
  g_work (restore "a/b" clashing_repo).2 = {["a/b" := file "a1"; "c" := file "b2"]}.
Proof. vm_compute. reflexivity. Qed.
Example accepted_tree : tree_at accepted "HEAD" = Some coder_tree.
Proof. vm_compute. reflexivity. Qed.
Lemma Accept_exact_witness :
  ∃ t, merged ["src/**"] (r_work demo_repo) old_tree t ∧ tree_at accepted "HEAD" = Some t ∧
    tree_at accepted (approved_ref "code") = Some t ∧ r_index accepted None = t ∧
    r_work accepted = r_work demo_repo.
Proof.
  apply (Accept_exact machine "/w" "code" ["src/**"] old_tree demo_repo accepted);
    [reflexivity|reflexivity|reflexivity| |vm_compute; reflexivity].
  apply apart_clash. reflexivity.
Defined.
Lemma Reset_exact_witness :
  merged ["src/**"] old_tree (r_work demo_repo) (r_work reset) ∧
  tree_at reset "HEAD" = Some old_tree ∧ (r_index demo_repo None = old_tree → r_index reset None = old_tree).
Proof.
  apply (Reset_exact machine "/w" ["src/**"] old_tree demo_repo reset).
  - reflexivity.
  - apply apart_files. reflexivity.
  - apply apart_clash. reflexivity.
  - vm_compute. reflexivity.
Defined.
Definition branch_demo : io Repo (string * bool) :=
  BranchCommit machine "/w" "topic" (Some ["src/**"]) "Changes".
End demo.
