(* ===== verification/Isolation.v ===== *)
(** * Every stage works as if it were alone

    The stages of a task share one working tree and one history.  When the write-conflict check
    of their definition passes and no path that is used is the directory of another, what happens to the files of a stage is what its own actions do:
    its tools write, [Accept] makes its files part of the head, [Reset] takes them back, and the
    actions of the other stages do not show. *)
From S2P Require Import Prelude GoStrings Domain Pipeline PathGuard Output Splitting ToolCalls.
From S2P Require Import Agent AgentDef Workspace Repository GitModel.

(** The stages are numbered; [OWrite] is the work of a stage's tools: its files become those of
    [t]. *)
Inductive operation := OWrite (stage : nat) (t : Tree) | OAccept (stage : nat) | OReset (stage : nat).

(** ** The specification: one stage alone *)
(** The head and the working tree as the stage sees them, and its files as they were accepted,
    which happens once. *)
Record Private := MkPrivate { pv_head : Tree; pv_work : Tree; pv_accepted : option Tree }.
Definition private (i : nat) (s : Private) (o : operation) : Private :=
  match o with
  | OWrite j t => if decide (i = j) then MkPrivate (pv_head s) t (pv_accepted s) else s
  | OAccept j =>
    if decide (i = j) then
      if pv_accepted s is Some _ then s else MkPrivate (pv_work s) (pv_work s) (Some (pv_work s))
    else s
  | OReset j => if decide (i = j) then MkPrivate (pv_head s) (pv_head s) (pv_accepted s) else s
  end.

Section isolation.
Context {UC : Unicode} {MA : Matchers} {S : Type} {VW : Views S}.
Context (mc : Machine S) (dir : string) {GT : Git mc dir}.
(** The number of stages, their write paths, their keys, and the paths that anybody uses: no file is the
    directory of another. *)
Context (n : nat) (patterns : nat → list string) (key : nat → string) (used : string → Prop).

(** ** The shared workspace *)
Inductive step : operation → S → S → Prop :=
  | step_write i t σ σ' :
      r_rev σ' = r_rev σ → r_commit σ' = r_commit σ → r_index σ' = r_index σ →
      (∀ q, r_work σ' !! q = if stage_path q (patterns i) then t !! q else r_work σ !! q) →
      (∀ q, is_Some (r_work σ' !! q) → used q) →
      step (OWrite i t) σ σ'
  | step_accept i σ σ' :
      (i < n)%nat → Accept mc dir (key i) (patterns i) σ = (Ok tt, σ') →
      (is_Some (r_rev σ (approved_ref (key i))) →
       is_ok (git mc dir ["rev-parse"; "--verify"; approved_ref (key i)] σ).1 = true) →
      step (OAccept i) σ σ'
  | step_reset i σ σ' :
      Reset mc dir (patterns i) σ = (Ok tt, σ') → step (OReset i) σ σ'.
Inductive steps : list operation → S → S → Prop :=
  | steps_nil σ : steps [] σ σ
  | steps_cons o l σ σ1 σ' : step o σ σ1 → steps l σ1 σ' → steps (o :: l) σ σ'.

(** The workspace between two operations: the index holds the head, and only used paths are
    there. *)
Record settled (h : Tree) (σ : S) : Prop := MkSettled {
  st_head : tree_at σ "HEAD" = Some h; st_index : r_index σ None = h;
  st_used q : is_Some (h !! q) ∨ is_Some (r_work σ !! q) → used q }.
(** What the reference of an accepted stage holds of its files. *)
Definition accepted_at (i : nat) (σ : S) (accepted : option Tree) : Prop :=
  match accepted with
  | None => r_rev σ (approved_ref (key i)) = None
  | Some mine => ∃ t, tree_at σ (approved_ref (key i)) = Some t ∧
      ∀ q, stage_path q (patterns i) = true → t !! q = mine !! q
  end.
(** What a stage sees of it. *)
Record sees (i : nat) (h : Tree) (σ : S) (s : Private) : Prop := MkSees {
  se_stage : (i < n)%nat;
  se_head q : stage_path q (patterns i) = true → h !! q = pv_head s !! q;
  se_work q : stage_path q (patterns i) = true → r_work σ !! q = pv_work s !! q;
  se_accepted : accepted_at i σ (pv_accepted s) }.

Context (used_files : ∀ p q, used p → used q → below q p = false).
Context (apart : ∀ i j q, i ≠ j → stage_path q (patterns i) = true → stage_path q (patterns j) = false).
Context (keys : ∀ i j, (i < n)%nat → (j < n)%nat → key i = key j → i = j).

Lemma used_no_clash patterns' h σ : settled h σ → no_clash patterns' h (r_work σ).
Proof.
  intros [_ _ Hu] p q _ Hp Hb. right. apply Hu in Hp.
  assert (¬ used q) as Hq.
  { intros Hq. rewrite (used_files p q Hp Hq), (used_files q p Hq Hp) in Hb. by destruct Hb. }
  split; [destruct (h !! q) eqn:E|destruct (r_work σ !! q) eqn:E]; try done; destruct Hq; apply Hu;
    [left|right]; by eexists.
Qed.
Lemma approved_ref_inj a b : approved_ref a = approved_ref b → a = b.
Proof.
  unfold approved_ref. intros E. apply (f_equal (drop_string (String.length "refs/devsquad/approved/"))) in E.
  by rewrite !drop_string_all in E.
Qed.

(** What was accepted stays accepted. *)
Lemma accepted_kept i σ σ' a :
  r_rev σ' (approved_ref (key i)) = r_rev σ (approved_ref (key i)) → commits_kept σ σ' →
  accepted_at i σ a → accepted_at i σ' a.
Proof.
  intros Er Hc. destruct a as [mine|]; simpl; [|by rewrite Er].
  intros (t & Ht & Hq). exists t. split; [|done]. by eapply commits_kept_tree.
Qed.

(** ** Each operation shows to its stage only *)
Definition shown (o : operation) (h h' : Tree) (σ σ' : S) : Prop :=
  settled h' σ' ∧ ∀ i s, sees i h σ s → sees i h' σ' (private i s o).
Lemma shown_same o h σ σ' :
  settled h σ → same σ σ' → (∀ i s, sees i h σ s → private i s o = s) → shown o h h σ σ'.
Proof.
  intros [Hh Hi Hu] Hs Hp. pose proof Hs as [Er Ec Ei _ Ew]. split.
  - split; [by rewrite (same_tree _ _ _ Hs)|by rewrite Ei|by rewrite Ew].
  - intros i s Hsee. rewrite (Hp i s Hsee). destruct Hsee as [H0 H1 H2 H3].
    split; [done|done|by rewrite Ew|].
    by eapply accepted_kept; [rewrite Er|apply commits_kept_eq|].
Qed.
Lemma write_shown j t h σ σ' : step (OWrite j t) σ σ' → settled h σ → shown (OWrite j t) h h σ σ'.
Proof.
  intros H [Hh Hi Hu]. inversion H as [? ? ? ? Er Ec Ei Hw Hused| |]; subst.
  assert (∀ i a, accepted_at i σ a → accepted_at i σ' a) as Ha
    by (intros i a; apply accepted_kept; [by rewrite Er|by apply commits_kept_eq]).
  split.
  - split; [unfold tree_at in *; by rewrite Er, Ec|by rewrite Ei|].
    intros q [Hq|Hq]; [apply Hu; by left|by apply Hused].
  - intros i s [H0 H1 H2 H3]. simpl. case_decide as Hij.
    + subst j. split; simpl; [done|done| |by apply Ha]. intros q Hq. by rewrite Hw, Hq.
    + split; [done|done| |by apply Ha]. intros q Hq. rewrite Hw, (apart i j) by done. by apply H2.
Qed.
Lemma accept_shown j h σ σ' :
  step (OAccept j) σ σ' → settled h σ → ∃ h', shown (OAccept j) h h' σ σ'.
Proof.
  intros H Hset. inversion H as [|? ? ? Hj Ha Hok|]; subst.
  destruct (r_rev σ (approved_ref (key j))) as [id|] eqn:Eref.
  - exists h. assert (same σ σ') as Hsame.
    { specialize (Hok ltac:(by eexists)). unfold Accept in Ha. apply io_bind_ok in Ha as (r & σ1 & H1 & Ha).
      pose proof (attempt_git_ref _ _ _ _ _ _ H1 (own_approved _)) as [Hs _]. unfold attempt in H1.
      destruct (git mc dir _ σ) as [r' σ2]. injection H1 as <- <-. simpl in Hok. rewrite Hok in Ha.
      by injection Ha as <-. }
    apply shown_same; [done..|]. intros i s [_ _ _ H3]. simpl. case_decide as Hij; [|done]. subst j.
    destruct (pv_accepted s); [done|]. simpl in H3. congruence.
  - pose proof Hset as [Hh Hi Hu].
    destruct (Accept_ok mc dir _ _ _ _ _ Hh Hi Eref (used_no_clash _ _ _ Hset) Ha)
      as (t & Hm & Ht & Hta & Hit & Ew & Er & Hk).
    exists t. split.
    + split; [done..|]. intros q Hq. apply Hu. rewrite Ew in Hq. destruct Hq as [Hq|Hq]; [|by right].
      rewrite (Hm q) in Hq. destruct (stage_path q _); auto.
    + intros i s [H0 H1 H2 H3]. simpl. case_decide as Hij.
      * subst j. destruct (pv_accepted s).
        { destruct H3 as (ta & H3 & _). unfold tree_at in H3. by rewrite Eref in H3. }
        split; simpl; [done|intros q Hq; rewrite (Hm q), Hq; by apply H2|by rewrite Ew|].
        exists t. split; [done|]. intros q Hq. by rewrite (Hm q), Hq, H2.
      * split; [done| |by rewrite Ew|].
        -- intros q Hq. rewrite (Hm q), (apart i j) by done. by apply H1.
        -- eapply accepted_kept; [|done..]. apply Er; [apply own_approved|].
           intros E%approved_ref_inj%keys; done.
Qed.
Lemma reset_shown j h σ σ' : step (OReset j) σ σ' → settled h σ → shown (OReset j) h h σ σ'.
Proof.
  intros H Hset. pose proof Hset as [Hh Hi Hu]. inversion H as [| |? ? ? Hr]; subst.
  assert (files_only (r_index σ None)) as Hf by (intros p q Hp Hq; apply used_files; apply Hu; by left).
  destruct (Reset_ok mc dir _ _ _ _ Hh Hf (used_no_clash _ _ _ Hset) Hr) as [Hm Hk].
  pose proof Hk as (Er & Ec & Hik).
  assert (∀ i a, accepted_at i σ a → accepted_at i σ' a) as Ha
    by (intros i a; apply accepted_kept; [by rewrite Er|by apply commits_kept_eq]).
  split.
  - split; [by rewrite (head_kept_tree _ _ _ _ Hk)|by apply Hik|].
    intros q [Hq|Hq]; apply Hu; [by left|]. rewrite (Hm q) in Hq. destruct (stage_path q _); auto.
  - intros i s [H0 H1 H2 H3]. simpl. case_decide as Hij.
    + subst j. split; simpl; [done|done| |by apply Ha]. intros q Hq. rewrite (Hm q), Hq. by apply H1.
    + split; [done|done| |by apply Ha]. intros q Hq. rewrite (Hm q), (apart i j) by done. by apply H2.
Qed.
Lemma steps_shown l h σ σ' :
  steps l σ σ' → settled h σ →
  ∃ h', settled h' σ' ∧ ∀ i s, sees i h σ s → sees i h' σ' (fold_left (private i) l s).
Proof.
  intros H. revert h. induction H as [σ|o l σ σ1 σ' Ho _ IH]; intros h Hset.
  { by exists h. }
  assert (∃ h1, shown o h h1 σ σ1) as (h1 & Hset1 & Hsee1).
  { destruct o; [exists h; by apply write_shown|by apply accept_shown|exists h; by apply reset_shown]. }
  destruct (IH h1 Hset1) as (h' & Hset' & Hsee'). exists h'. split; [done|]. intros i s Hi.
  by apply Hsee', Hsee1.
Qed.
End isolation.

(** ** The stages of a definition *)
Definition stage_patterns {UC : Unicode} (d : Def) (i : nat) : list string :=
  if pl_Stages (df_Pipeline d) !! i is Some s then paths_of_stage d s else [].
Definition stage_key (d : Def) (i : nat) : string :=
  default "" (ss_ID <$> pl_Stages (df_Pipeline d) !! i).
Definition stage_count (d : Def) : nat := length (pl_Stages (df_Pipeline d)).

Section definition.
Context {UC : Unicode} {MA : Matchers} {GL : GlobLaws}.
Lemma stage_patterns_match d i q :
  stage_path q (stage_patterns d i) = true →
  ∃ s p, pl_Stages (df_Pipeline d) !! i = Some s ∧ p ∈ paths_of_stage d s ∧ GlobMatch q p = true.
Proof.
  unfold stage_path, stage_patterns. intros [_ H]%andb_true_iff.
  destruct (pl_Stages (df_Pipeline d) !! i) as [s|] eqn:E; [|done].
  apply existsb_exists in H as (p & Hp%list_elem_of_In & Hm). by exists s, p.
Qed.
Lemma stages_apart d i j q :
  checkWriteConflicts d = Ok tt → i ≠ j →
  stage_path q (stage_patterns d i) = true → stage_path q (stage_patterns d j) = false.
Proof.
  intros Hc Hne (si & p & Ei & Hp & Hmp)%stage_patterns_match. apply not_true_iff_false.
  intros (sj & p' & Ej & Hp' & Hmp')%stage_patterns_match. destruct (check_conflicts_ok _ _ Hc) as [_ Ho].
  destruct (decide (i < j)%nat) as [Hlt|Hlt].
  - pose proof (overlap_shared _ _ _ Hmp Hmp') as H. by rewrite (Ho i j si sj) in H.
  - pose proof (overlap_shared _ _ _ Hmp' Hmp) as H. rewrite (Ho j i sj si) in H by (done || lia). done.
Qed.
Lemma stage_key_inj d i j :
  NoDup (ss_ID <$> pl_Stages (df_Pipeline d)) → (i < stage_count d)%nat → (j < stage_count d)%nat →
  stage_key d i = stage_key d j → i = j.
Proof.
  unfold stage_count, stage_key. intros Hnd [si Ei]%lookup_lt_is_Some [sj Ej]%lookup_lt_is_Some.
  rewrite Ei, Ej. simpl. intros E. apply (proj1 (NoDup_alt _) Hnd i j (ss_ID si)).
  - by rewrite list_lookup_fmap, Ei.
  - by rewrite list_lookup_fmap, Ej, E.
Qed.

(** C16: the stages of a definition that passed the write-conflict check, and whose stage ids
    differ, do not notice each other. Suppose that no path that anybody uses is the directory of
    another, and that the workspace is settled: its index holds the head, and only used paths
    have files in the head and in the working tree. Then, after any writes of their tools, each
    to used paths of its stage, resets, and acceptances, which find the reference of an approval
    that is there, all successful and in any order, the workspace is settled again, and
    each stage finds in the head and in the working
    tree, at its paths, what its own operations alone give, and its approval's reference
    has its files as they were when it was accepted: the specification [private], which ignores
    all other stages. *)
Theorem stages_isolated {S : Type} {VW : Views S} (mc : Machine S) (dir : string) {GT : Git mc dir}
    (d : Def) (used : string → Prop) (h : Tree) (l : list operation) (σ σ' : S) :
  checkWriteConflicts d = Ok tt →
  NoDup (ss_ID <$> pl_Stages (df_Pipeline d)) →
  (∀ p q, used p → used q → below q p = false) →
  settled used h σ →
  steps mc dir (stage_count d) (stage_patterns d) (stage_key d) used l σ σ' →
  ∃ h', settled used h' σ' ∧
    ∀ i s, sees (stage_count d) (stage_patterns d) (stage_key d) i h σ s →
      sees (stage_count d) (stage_patterns d) (stage_key d) i h' σ' (fold_left (private i) l s).
Proof.
  intros Hc Hnd Hused Hset Hl. eapply (steps_shown mc dir); [done| | |done..].
  - intros i j q. by apply stages_apart.
  - intros i j. by apply stage_key_inj.
Qed.
End definition.

(** ** Two stages of a definition at work *)
Section demo.
#[local] Existing Instance ascii_unicode.
#[local] Existing Instance demo_globs.
#[local] Existing Instance AgentDef.demo_glob_laws.
(** What the tools of stage [i] do when its files become those of [t]. *)
Definition written (i : nat) (t : Tree) (σ : Repo) : Repo :=
  let own := stage_patterns demo_loaded i in
  with_work (filter (λ qe, stage_path qe.1 own = true) t ∪
             filter (λ qe, stage_path qe.1 own = false) (g_work σ)) σ.
Definition demo_used (q : string) : Prop := q ∈ ["docs/x.md"; "src/a.c"; "src/b.c"; "src/c.c"].
Definition work_step : operation → Repo → Repo → Prop :=
  step machine "/w" (stage_count demo_loaded) (stage_patterns demo_loaded) (stage_key demo_loaded) demo_used.
Definition demo_sees : nat → Tree → Repo → Private → Prop :=
  sees (stage_count demo_loaded) (stage_patterns demo_loaded) (stage_key demo_loaded).
Lemma demo_tree_used t :
  forallb (λ q, bool_decide (demo_used q)) (keys t) = true → ∀ q, is_Some (t !! q) → demo_used q.
Proof.
  intros H q Hq%elem_of_keys. rewrite forallb_forall in H.
  by apply (bool_decide_eq_true_1 (demo_used q)), H, list_elem_of_In.
Qed.
Lemma written_step i t σ :
  forallb (λ q, bool_decide (demo_used q)) (keys (g_work (written i t σ))) = true →
  work_step (OWrite i t) σ (written i t σ).
Proof.
  intros H. apply step_write; try done.
  - intros q. simpl. rewrite lookup_union, !map_lookup_filter.
    destruct (t !! q), (g_work σ !! q); simpl; destruct (stage_path q _); reflexivity.
  - by apply demo_tree_used.
Qed.
Definition start_repo : Repo := Eval vm_compute in with_work old_tree demo_repo.
Definition demo_1 : Repo := Eval vm_compute in written 1 new_work start_repo.
Definition demo_2 : Repo := Eval vm_compute in written 0 new_work demo_1.
Definition demo_3 : Repo := Eval vm_compute in (Accept machine "/w" "code" (stage_patterns demo_loaded 1) demo_2).2.
Definition demo_4 : Repo := Eval vm_compute in (Reset machine "/w" (stage_patterns demo_loaded 0) demo_3).2.
Definition demo_ops : list operation := [OWrite 1 new_work; OWrite 0 new_work; OAccept 1; OReset 0].
(** The coder's files are in the head, and the writer's are back. *)
Example demo_end : g_work demo_4 = coder_tree ∧ tree_at demo_4 "HEAD" = Some coder_tree.
Proof. split; vm_compute; reflexivity. Qed.
Lemma demo_work :
  steps machine "/w" (stage_count demo_loaded) (stage_patterns demo_loaded) (stage_key demo_loaded)
    demo_used demo_ops start_repo demo_4.
Proof.
  apply (steps_cons _ _ _ _ _ _ _ _ _ demo_1); [apply (written_step 1); vm_compute; reflexivity|].
  apply (steps_cons _ _ _ _ _ _ _ _ _ demo_2); [apply (written_step 0); vm_compute; reflexivity|].
  apply (steps_cons _ _ _ _ _ _ _ _ _ demo_3).
  { apply step_accept; [vm_compute; lia|vm_compute; reflexivity|]. intros [x H]. by vm_compute in H. }
  apply (steps_cons _ _ _ _ _ _ _ _ _ demo_4); [|apply steps_nil].
  apply step_reset. vm_compute. reflexivity.
Qed.
Lemma stages_isolated_witness :
  checkWriteConflicts demo_loaded = Ok tt ∧
  ∃ h', settled demo_used h' demo_4 ∧
    demo_sees 1 h' demo_4 (MkPrivate new_work new_work (Some new_work)) ∧
    demo_sees 0 h' demo_4 (MkPrivate old_tree old_tree None).
Proof.
  assert (checkWriteConflicts demo_loaded = Ok tt) as Hc by by vm_compute. split; [exact Hc|].
  destruct (stages_isolated machine "/w" demo_loaded demo_used old_tree demo_ops start_repo demo_4 Hc)
    as (h' & Hset & Hsee).
  - by apply (bool_decide_eq_true_1 _).
  - intros p q. by apply apart_ok.
  - split; [reflexivity|reflexivity|]. intros q [Hq|Hq]; eapply demo_tree_used, Hq; vm_compute; reflexivity.
  - exact demo_work.
  - exists h'. split; [exact Hset|].
    assert (∀ i, (i < stage_count demo_loaded)%nat → r_rev start_repo (approved_ref (stage_key demo_loaded i)) = None →
      demo_sees i old_tree start_repo (MkPrivate old_tree old_tree None)) as H0.
    { intros i Hi Hr. split; [done..|]. exact Hr. }
    split; [apply (Hsee 1 (MkPrivate old_tree old_tree None)), H0
           |apply (Hsee 0 (MkPrivate old_tree old_tree None)), H0]; vm_compute; (lia || reflexivity).
Defined.
End demo.
