(* ===== verification/Cleanup.v ===== *)
(** * Removing old workspaces

    [Cleanup] deletes directories below the workspace root while tasks are created and run; the
    theorem says which. *)
From S2P Require Import Prelude GoStrings Domain Pipeline PathGuard Output Splitting ToolCalls.
From S2P Require Import Paths Workspace.

Section cleanup.
Context {UC : Unicode} {MA : Matchers} {S : Type} (mc : Machine S) (root : string).
(** The directory as the host knows it: its entries by name, each with all that is below it,
    and what [os.ReadDir] and [os.RemoveAll] of an entry do.  A removal that succeeds leaves
    nothing of the entry; one that fails has removed what it could, which may be anything.
    The other entries are not touched. *)
Class Directory {T : Type} (entries : S → gmap string (DirEntry * T)) : Prop := {
  dir_read σ r σ' : mc_readdir mc root σ = (r, σ') → entries σ' = entries σ ∧
    match r with
    | Ok l => NoDup (de_Name <$> l) ∧ ∀ d, d ∈ l ↔ ∃ t, entries σ !! de_Name d = Some (d, t)
    | Err e => is_not_exist e = true → entries σ = ∅
    end;
  dir_keyed σ name x : entries σ !! name = Some x → de_Name x.1 = name;
  dir_remove name x σ r σ' : entries σ !! name = Some x →
    mc_removeall mc (JoinPath [root; name]) σ = (r, σ') →
    (∀ other, other ≠ name → entries σ' !! other = entries σ !! other) ∧
    (r = Ok tt → entries σ' !! name = None) }.
Context {T : Type} (entries : S → gmap string (DirEntry * T)) {DR : Directory entries}.
Context (uuid_ok : string → bool) (known : gset string) (now : Z).

(** What may go: a directory of no known task, named like a task's or a preparation, that was
    last changed an hour ago or earlier. *)
Definition stale (d : DirEntry) : Prop :=
  de_IsDir d = true ∧ (de_Name d ∉ known) ∧
  (uuid_ok (de_Name d) = true ∨ HasPrefix (de_Name d) ".preparing-" = true) ∧
  ∃ t, de_ModTime d = Ok t ∧ (hour ≤ sub_time now t)%Z.
Lemma candidate_ok d : candidate uuid_ok known d = true ↔
  de_IsDir d = true ∧ (de_Name d ∉ known) ∧
  (uuid_ok (de_Name d) = true ∨ HasPrefix (de_Name d) ".preparing-" = true).
Proof.
  unfold candidate. by rewrite !andb_true_iff, bool_decide_eq_true, orb_true_iff, (assoc (∧)).
Qed.

(** A step touches at most its own entry, and that only when it is stale. *)
Lemma cleanup_entry_ok d t σ r σ' :
  cleanup_entry mc uuid_ok root known now d σ = (r, σ') → entries σ !! de_Name d = Some (d, t) →
  (∀ name, name ≠ de_Name d ∨ ¬ stale d → entries σ' !! name = entries σ !! name) ∧
  (r = Ok tt → stale d → entries σ' !! de_Name d = None) ∧
  (r = Ok tt → entries σ' !! de_Name d = entries σ !! de_Name d ∨ entries σ' !! de_Name d = None).
Proof.
  intros H Hd. unfold cleanup_entry in H. destruct (candidate _ _ d) eqn:Hc; simpl in H.
  2: { injection H as <- <-. split_and!; [done| |by left]. intros _ (H1 & H2 & H3 & _).
    pose proof (proj2 (candidate_ok d) (conj H1 (conj H2 H3))). congruence. }
  unfold mbind, io_bind in H. simpl in H. destruct (de_ModTime d) as [m|e] eqn:Ht; simpl in H.
  2: { injection H as <- <-. by split_and!. }
  destruct (Z.ltb_spec (sub_time now m) hour) as [Hlt|Hge].
  - injection H as <- <-. split_and!; [done| |by left]. intros _ (_ & _ & _ & m' & Hm' & ?).
    rewrite Ht in Hm'. injection Hm' as <-. lia.
  - apply candidate_ok in Hc as (Hc1 & Hc2 & Hc3).
    assert (stale d) as Hs by (split_and!; [done..|by exists m]).
    destruct (dir_remove _ _ _ _ _ Hd H) as [Hother Hgone]. split_and!; [|auto|auto].
    intros name [Hne|[]]; [by apply Hother|done].
Qed.
(** The loop: what is not stale stays, and of the rest at most the entry at which it stops is
    left in part. *)
Lemma cleanup_each l σ r σ' :
  each (cleanup_entry mc uuid_ok root known now) l σ = (r, σ') →
  NoDup (de_Name <$> l) → (∀ d, d ∈ l → ∃ t, entries σ !! de_Name d = Some (d, t)) →
  (∀ name, (∀ d, d ∈ l → de_Name d = name → ¬ stale d) → entries σ' !! name = entries σ !! name) ∧
  (r = Ok tt → ∀ d, d ∈ l → stale d → entries σ' !! de_Name d = None) ∧
  (∃ last, ∀ name, name ≠ last ∨ r = Ok tt →
     entries σ' !! name = entries σ !! name ∨ entries σ' !! name = None).
Proof.
  revert σ. induction l as [|d l IH]; intros σ H Hnd Hl; simpl in H.
  { injection H as <- <-. split_and!; [done|by intros _ d ?%elem_of_nil|]. exists "". by left. }
  rewrite fmap_cons in Hnd. apply NoDup_cons in Hnd as [Hd Hnd].
  destruct (Hl d (list_elem_of_here _ _)) as [t Ht].
  unfold mbind, io_bind in H. destruct (cleanup_entry _ _ _ _ _ d σ) as [[[]|e] σ1] eqn:H1;
    destruct (cleanup_entry_ok _ _ _ _ _ H1 Ht) as (Hone & Hgone & Hpart).
  - assert (∀ d', d' ∈ l → de_Name d' ≠ de_Name d) as Hne.
    { intros d' Hd' E. destruct Hd. rewrite <- E. by apply list_elem_of_fmap_2. }
    destruct (IH σ1 H Hnd) as (Hsame & Hok & last & Hlast).
    { intros d' Hd'. rewrite Hone by auto. apply Hl. by apply list_elem_of_further. }
    assert (entries σ' !! de_Name d = entries σ1 !! de_Name d) as Hhere.
    { apply Hsame. intros d' Hd' E. by destruct (Hne d' Hd'). }
    split_and!.
    + intros name Hn. rewrite Hsame by (intros; apply Hn; [by apply list_elem_of_further|done]).
      apply Hone. destruct (decide (name = de_Name d)) as [->|]; [right|by left].
      apply Hn; [apply list_elem_of_here|done].
    + intros Hr d' [->|Hd']%elem_of_cons Hs; [|by apply Hok]. rewrite Hhere. by apply Hgone.
    + exists last. intros name Hn. destruct (decide (name = de_Name d)) as [->|Hne'].
      * rewrite Hhere. by apply Hpart.
      * rewrite <- (Hone name) by auto. by apply Hlast.
  - injection H as <- <-. split_and!; [|done|].
    + intros name Hn. apply Hone. destruct (decide (name = de_Name d)) as [->|]; [right|by left].
      apply Hn; [apply list_elem_of_here|done].
    + exists (de_Name d). intros name [Hn|?]; [|done]. left. apply Hone. by left.
Qed.
End cleanup.

Section spares.
Context {UC : Unicode} {MA : Matchers} {S : Type} (mc : Machine S) (root : string).
Context {T : Type} (entries : S → gmap string (DirEntry * T)) {DR : Directory mc root entries}.
Context (uuid_ok : string → bool) (known : gset string) (now : Z).

(** C30: a cleanup, wherever it stops, leaves every entry of the workspace root as it was, with
    all that is below it, unless it is a directory of no known task that is named like a task's
    or a preparation and was last changed at least an hour before.  Those are gone when it
    succeeds; when it fails they are as they were or gone, but for at most one, of which a part
    may be left.  It adds no entry.  A root that does not exist is not an error; one that
    cannot be read for another reason is, and nothing is changed. *)
Theorem Cleanup_spares σ r σ' :
  Cleanup mc uuid_ok root known now σ = (r, σ') →
  (∀ name x, entries σ !! name = Some x → ¬ stale uuid_ok known now x.1 →
     entries σ' !! name = Some x) ∧
  (∀ name, entries σ !! name = None → entries σ' !! name = None) ∧
  (r = Ok tt → ∀ name x, entries σ !! name = Some x → stale uuid_ok known now x.1 →
     entries σ' !! name = None) ∧
  (∃ last, ∀ name, name ≠ last ∨ r = Ok tt →
     entries σ' !! name = entries σ !! name ∨ entries σ' !! name = None) ∧
  (∀ e, (mc_readdir mc root σ).1 = Err e →
     r = (if is_not_exist e then Ok tt else Err e) ∧ entries σ' = entries σ).
Proof.
  intros H. unfold Cleanup, mbind, io_bind, attempt in H.
  destruct (mc_readdir mc root σ) as [[l|e] σ1] eqn:Hr; simpl in H;
    destruct (@dir_read _ _ _ _ _ DR _ _ _ Hr) as [Hsame Hl].
  - destruct Hl as [Hnd Hl].
    assert (∀ d, d ∈ l → ∃ t, entries σ1 !! de_Name d = Some (d, t)) as Hin
      by (intros d ?; rewrite Hsame; by apply Hl).
    destruct (cleanup_each mc root entries uuid_ok known now l σ1 r σ' H Hnd Hin)
      as (Hall & Hok & Hlast). rewrite Hsame in Hall, Hlast.
    assert (∀ name x, entries σ !! name = Some x → x.1 ∈ l ∧ de_Name x.1 = name) as Hname.
    { intros name x E. pose proof (@dir_keyed _ _ _ _ _ DR σ name x E) as <-.
      split; [|done]. apply Hl. exists x.2. by rewrite E, <- surjective_pairing. }
    split_and!; [| | |done|done].
    + intros name x E Hs. rewrite Hall; [done|]. intros d Hd En.
      destruct (proj1 (Hl d) Hd) as [t Ht]. rewrite En, E in Ht. by injection Ht as ->.
    + intros name E. rewrite Hall; [done|]. intros d Hd En.
      destruct (proj1 (Hl d) Hd) as [t Ht]. by rewrite En, E in Ht.
    + intros Hr0 name x E Hs. destruct (Hname _ _ E) as [Hx <-]. by apply Hok.
  - assert (r = (if is_not_exist e then Ok tt else Err e) ∧ entries σ' = entries σ) as [Er E].
    { destruct (is_not_exist e); injection H as <- <-; done. }
    rewrite E. split_and!; [done|done| |exists ""; by left|by intros e' [= <-]].
    intros Hr0 name x E1. rewrite Er in Hr0. destruct (is_not_exist e) eqn:He; [|done].
    by rewrite (Hl eq_refl), lookup_empty in E1.
Qed.
End spares.

(** ** A root with a known task, stale directories, a fresh preparation and a file *)
Definition to_entry (name : string) (v : bool * Z) : option (DirEntry * unit) :=
  if plain_name name then Some (MkDirEntry name v.1 (Ok v.2), tt) else None.
Definition root_entries (σ : gmap string (bool * Z)) : gmap string (DirEntry * unit) :=
  map_imap to_entry σ.
Definition root_machine : Machine (gmap string (bool * Z)) := {|
  mc_environ := []; mc_exec c σ := (Ok (None, ""), σ); mc_walk dir σ := (Ok [], σ);
  mc_openroot dir σ := (Ok tt, σ); mc_lstat σ dir p := Ok false;
  mc_remove dir p σ := (Ok tt, σ); mc_createtemp σ := (Ok "", σ); mc_unlink p σ := (Ok tt, σ);
  mc_readdir dir σ :=
    (if dir =? "/work" then Ok (((map_to_list (root_entries σ)).*2).*1) else Err (ErrNotExist dir), σ);
  mc_removeall p σ := (Ok tt, filter (λ kv, JoinPath ["/work"; kv.1] ≠ p) σ) |}.
Lemma root_entries_keyed σ name x : root_entries σ !! name = Some x → de_Name x.1 = name.
Proof.
  unfold root_entries. rewrite map_lookup_imap. intros (v & _ & H)%bind_Some. revert H.
  unfold to_entry. case_match; [|done]. by intros [= <-].
Qed.
Lemma root_entries_plain σ name d : root_entries σ !! name = Some d → plain_name name = true.
Proof.
  unfold root_entries. rewrite map_lookup_imap. intros (v & _ & H)%bind_Some. revert H.
  unfold to_entry. by case_match.
Qed.
Lemma root_directory : Directory root_machine "/work" root_entries.
Proof.
  split.
  - intros σ r σ' [= <- <-]. split; [done|]. split.
    + rewrite <- !list_fmap_compose. erewrite list_fmap_ext; [apply NoDup_fst_map_to_list|].
      intros i [name x] Hx. simpl. apply (root_entries_keyed σ). apply elem_of_map_to_list.
      by apply list_elem_of_lookup_2 in Hx.
    + intros d. rewrite <- list_fmap_compose, list_elem_of_fmap. split.
      * intros ([name [d' []]] & -> & H%elem_of_map_to_list). exists tt.
        pose proof (root_entries_keyed _ _ _ H) as E. simpl in *. by rewrite E.
      * intros [[] H]. exists (de_Name d, (d, tt)). split; [done|]. by apply elem_of_map_to_list.
  - apply root_entries_keyed.
  - intros name d σ r σ' Hd%root_entries_plain [= <- <-]. split.
    + intros n Hn. unfold root_entries. rewrite !map_lookup_imap, map_lookup_filter.
      destruct (σ !! n) as [v|]; [|done]. simpl. unfold to_entry at 2.
      destruct (plain_name n) eqn:Hp.
      * rewrite option_guard_True; [by simpl; unfold to_entry; rewrite Hp|]. simpl.
        intros E. by apply Hn, (JoinPath_child_inj "/work").
      * by case_guard; [simpl; unfold to_entry; rewrite Hp|].
    + intros _. unfold root_entries. rewrite map_lookup_imap, map_lookup_filter.
      destruct (σ !! name); [|done]. simpl. by rewrite option_guard_False by auto.
Qed.
Definition demo_dir : gmap string (bool * Z) := list_to_map
  [("u-known", (true, 0%Z)); ("u-gone", (true, 0%Z)); (".preparing-1", (true, 0%Z));
   (".preparing-2", (true, 1%Z)); ("u-file", (false, 0%Z)); ("notes", (true, 0%Z))].
Definition demo_left : gmap string (bool * Z) := list_to_map
  [("u-known", (true, 0%Z)); (".preparing-2", (true, 1%Z)); ("u-file", (false, 0%Z));
   ("notes", (true, 0%Z))].
Definition demo_uuid (name : string) : bool := HasPrefix name "u-".
Definition demo_known : gset string := {["u-known"]}.
Lemma Cleanup_spares_witness :
  Cleanup root_machine demo_uuid "/work" demo_known hour demo_dir = (Ok tt, demo_left) ∧
  root_entries demo_left !! "notes" = root_entries demo_dir !! "notes" ∧
  root_entries demo_left !! "u-gone" = None.
Proof.
  assert (Cleanup root_machine demo_uuid "/work" demo_known hour demo_dir = (Ok tt, demo_left)) as H.
  { vm_compute. reflexivity. }
  split; [exact H|].
  destruct (@Cleanup_spares _ root_machine "/work" _ root_entries root_directory demo_uuid
    demo_known hour demo_dir (Ok tt) demo_left H) as (Hkept & _ & Hgone & _ & _).
  split.
  - apply (Hkept "notes" (MkDirEntry "notes" true (Ok 0%Z), tt)); [by vm_compute|].
    intros (_ & _ & [E|E] & _); discriminate E.
  - apply (Hgone eq_refl "u-gone" (MkDirEntry "u-gone" true (Ok 0%Z), tt)); [by vm_compute|].
    split; [done|]. split; [vm_compute; by intros ?|]. split; [by left|].
    exists 0%Z. split; [done|]. vm_compute. discriminate.
Defined.
(** A root that does not exist. *)
Example missing_root : Cleanup root_machine demo_uuid "/gone" demo_known hour demo_dir = (Ok tt, demo_dir).
Proof. vm_compute. reflexivity. Qed.
