(* ===== verification/Prepare.v ===== *)
(** * Preparing a workspace ([internal/workspace/prepare.go])

    A workspace is a copy of the files of a local project, or a clone of a remote one.  Either
    is made in a temporary directory next to it and renamed when it is complete.  The file
    system is an interface; [Filesystem] says what it does to the files that matter. *)
From S2P Require Import Prelude GoStrings Domain Pipeline PathGuard Output Splitting ToolCalls.
From S2P Require Import Paths Workspace.

(** A tree of the source project as [filepath.WalkDir] finds it: reading a directory may fail. *)
#[local] Unset Elimination Schemes.
Inductive snode :=
  | SDir (name : string) (children : result (list snode))
  | SFile (name : string)
  | SLink (name : string)
  | SOther (name : string).
#[local] Set Elimination Schemes.
Definition snode_name (n : snode) : string :=
  match n with SDir name _ | SFile name | SLink name | SOther name => name end.
Definition is_dir (n : snode) : bool := if n is SDir _ _ then true else false.

(** The operations of package [os] on the workspace root and the source project.  A source is
    opened as a root, and its files are named relative to it. *)
Record Host (S : Type) := MkHost {
  ho_links : S → Links;
  ho_alive : io S unit;
  ho_mkdirall : string → io S unit;
  ho_stat : S → string → result unit;
  ho_mkdirtemp : string → string → io S string;
  ho_openroot : string → io S unit;
  ho_tree : string → io S snode;
  ho_open : string → string → io S unit;
  ho_mode : string → string → io S Z;
  ho_create : string → Z → io S unit;
  ho_copy : string → string → string → io S unit;
  ho_close : string → io S unit;
  ho_rename : string → string → io S unit }.
Arguments ho_links {S}. Arguments ho_alive {S}. Arguments ho_mkdirall {S}. Arguments ho_stat {S}.
Arguments ho_mkdirtemp {S}. Arguments ho_openroot {S}. Arguments ho_tree {S}.
Arguments ho_open {S}. Arguments ho_mode {S}. Arguments ho_create {S}. Arguments ho_copy {S}.
Arguments ho_close {S}. Arguments ho_rename {S}.

(** A path relative to the source: its root is [.]. *)
Definition under (rel name : string) : string := if rel =? "." then name else slashed rel name.
Definition preparing : string := ".preparing-".
(** Build output that is not copied. *)
Definition built (name : string) : bool :=
  existsb (String.eqb name) [".next"; "build"; "target"; ".gradle"; "__pycache__"].

Section prepare.
Context {UC : Unicode} {S : Type} (mc : Machine S) (ho : Host S).

(** [filepath.WalkDir], for a function that returns [SkipDir] (here [true]) for directories
    only and hands on the error of a directory that cannot be read. *)
Fixpoint WalkDir (fn : string → snode → io S bool) (rel : string) (n : snode) : io S unit :=
  skip ← fn rel n;
  if skip : bool then mret tt else
  match n with
  | SDir _ (Ok l) =>
    (fix all l :=
       match l with
       | [] => mret tt
       | c :: l => WalkDir fn (under rel (snode_name c)) c;; all l
       end) l
  | SDir _ (Err e) => raise e
  | _ => mret tt
  end.

Definition bad_id : error := ErrorText "invalid task_id".
(** src: internal/workspace/prepare.go 16-18 target (task) *)
Definition task_name (task : string) : bool :=
  SafeRelative task && negb (Contains task "/") && (task ≠? ".").
(** [os.Stat] of the destination must fail with [ErrNotExist].
    src: internal/workspace/prepare.go 30-34 target (exists) *)
Definition absent (dest : string) : io S unit :=
  r ← query (λ σ, ho_stat ho σ dest);
  match r with
  | Ok _ => raise (ErrorText "workspace already exists")
  | Err e => if is_not_exist e then mret tt else raise e
  end.
(** src: internal/workspace/prepare.go 15-36 target *)
Definition target (root task : string) : io S (string * string) :=
  if negb (task_name task) then raise bad_id else
  r ← query (λ σ, Abs (ho_links ho σ) root); abs ← give r;
  ho_mkdirall ho abs;;
  r ← query (λ σ, EvalSymlinks (ho_links ho σ) abs); abs ← give r;
  let dest := JoinPath [abs; task] in
  absent dest;;
  mret (abs, dest).
(** What is made in [temp] becomes [dest]; [temp] is removed in any case.
    src: internal/workspace/prepare.go 45-59 Clone (temp) *)
Definition in_temp (abs dest : string) (fill : string → io S unit) : io S string :=
  temp ← ho_mkdirtemp ho abs preparing;
  r ← attempt (fill temp;; ho_rename ho temp dest);
  attempt (mc_removeall mc temp);;
  give r;;
  mret dest.
(** src: internal/workspace/prepare.go 40-60 Clone *)
Definition Clone (root task remote branch header : string) : io S string :=
  '(abs, dest) ← target root task;
  in_temp abs dest (λ temp,
    gitEnv mc abs (auth header) ""
      ["clone"; "--quiet"; "--single-branch"; "--branch"; branch; "--"; remote; temp];;
    git mc temp ["update-ref"; baseRef; "HEAD"];;
    mret tt).

(** src: internal/workspace/prepare.go 123-128 Prepare (skip) *)
Definition left_out (rel name : string) : bool := Protected rel || built name.
(** src: internal/workspace/prepare.go 139-160 Prepare (copy) *)
Definition copy_file (src temp rel : string) : io S unit :=
  let target := JoinPath [temp; rel] in
  r ← query (λ σ, NoSymlinks (mc_lstat mc σ src) rel); give r;;
  ho_open ho src rel;;
  mode ← ho_mode ho src rel;
  ho_create ho target (Z.land mode 493);;
  r ← attempt (ho_copy ho src rel target);
  closeErr ← attempt (ho_close ho target);
  give r;; give closeErr.
(** src: internal/workspace/prepare.go 109-161 Prepare (walk) *)
Definition copy_entry (src temp rel : string) (n : snode) : io S bool :=
  ho_alive ho;;
  if rel =? "." then mret false else
  if left_out rel (snode_name n) then mret (is_dir n) else
  match n with
  | SLink _ => mret false
  | SDir _ _ => ho_mkdirall ho (JoinPath [temp; rel]);; mret false
  | SOther _ => mret false
  | SFile _ => copy_file src temp rel;; mret false
  end.
(** src: internal/workspace/prepare.go 104-167 Prepare (fill) *)
Definition fill (src temp : string) : io S unit :=
  ho_openroot ho src;;
  tree ← ho_tree ho src;
  WalkDir (copy_entry src temp) "." tree;;
  initGit mc temp.
(** src: internal/workspace/prepare.go 93-95 Prepare (outside) *)
Definition inside (src dest : string) : bool := (dest =? src) || HasPrefix dest (src +:+ "/").
(** src: internal/workspace/prepare.go 61-172 Prepare *)
Definition Prepare (root task source : string) : io S string :=
  if negb (task_name task) then raise bad_id else
  r ← query (λ σ, Abs (ho_links ho σ) root); abs ← give r;
  if source =? "" then raise (ErrorText "project.local_path is required") else
  r ← query (λ σ, EvalSymlinks (ho_links ho σ) source); src ← give r;
  r ← query (λ σ, Abs (ho_links ho σ) src); src ← give r;
  ho_mkdirall ho abs;;
  r ← query (λ σ, EvalSymlinks (ho_links ho σ) abs); abs ← give r;
  let dest := JoinPath [abs; task] in
  absent dest;;
  if inside src dest then raise (ErrorText "workspace must be outside source project") else
  ho_mkdirall ho abs;;
  in_temp abs dest (fill src).
End prepare.

(** The root of the file system is not seen to hold the workspace: the prefix has two slashes. *)
Example inside_root : inside "/" "/work/u-1" = false ∧ inside "/work" "/work/u-1" = true.
Proof. split; reflexivity. Qed.

(** ** What the file system promises *)
(** The regular files of a tree. *)
Fixpoint regular (rel : string) (n : snode) : list string :=
  match n with
  | SFile _ => [rel]
  | SDir _ (Ok l) => concat (map (λ c, regular (under rel (snode_name c)) c) l)
  | _ => []
  end.
(** The names in a tree are elements of paths. *)
Fixpoint named (n : snode) : bool :=
  match n with
  | SDir _ (Ok l) => forallb (λ c, plain_name (snode_name c) && named c) l
  | _ => true
  end.
Definition plain_path (rel : string) : Prop := Forall (λ p, plain_name p = true) (Split slash rel).

(** [dirs] is what the directories in the workspace root [home] hold: by their names, the mode
    and the contents of each file by its relative path, leaving out what git keeps for itself.
    The source project is a tree and its files, which do not change meanwhile.  An operation on
    a file below a directory changes that directory only.  Making the root or a directory that
    is there changes nothing that the directories hold.  A file is created with the permissions
    asked for, less the process's [umask]. *)
Class Filesystem {S : Type} (mc : Machine S) (ho : Host S)
    (dirs : S → gmap string (gmap string (Z * string))) (root home : string)
    (project : string → snode) (source : string → string → option (Z * string))
    (umask : Z) : Prop := {
  fs_home σ σ' p q : Abs (ho_links ho σ) root = Ok p →
    EvalSymlinks (ho_links ho σ') p = Ok q → q = home;
  fs_alive σ r σ' : ho_alive ho σ = (r, σ') → dirs σ' = dirs σ;
  fs_mkdirall p σ r σ' : p = home ∨ Abs (ho_links ho σ) root = Ok p →
    ho_mkdirall ho p σ = (r, σ') → dirs σ' = dirs σ;
  fs_mkdirall_below name rel σ r σ' : plain_name name = true → plain_path rel →
    ho_mkdirall ho (JoinPath [JoinPath [home; name]; rel]) σ = (r, σ') →
    (∀ n, n ≠ name → dirs σ' !! n = dirs σ !! n) ∧
    ∀ m, dirs σ !! name = Some m → dirs σ' !! name = Some m;
  fs_openroot p σ r σ' : ho_openroot ho p σ = (r, σ') → dirs σ' = dirs σ;
  fs_stat σ name e : plain_name name = true → ho_stat ho σ (JoinPath [home; name]) = Err e →
    is_not_exist e = true → dirs σ !! name = None;
  fs_mkdirtemp prefix σ r σ' : ho_mkdirtemp ho home prefix σ = (r, σ') →
    match r with
    | Ok temp => ∃ suffix, plain_name (prefix +:+ suffix) = true ∧
        temp = JoinPath [home; prefix +:+ suffix] ∧
        dirs σ !! (prefix +:+ suffix) = None ∧ dirs σ' = <[prefix +:+ suffix := ∅]> (dirs σ)
    | Err _ => dirs σ' = dirs σ
    end;
  fs_tree src σ r σ' : ho_tree ho src σ = (r, σ') → dirs σ' = dirs σ ∧
    ∀ n, r = Ok n → n = project src ∧ named n = true;
  fs_open src rel σ r σ' : ho_open ho src rel σ = (r, σ') → dirs σ' = dirs σ;
  fs_mode src rel σ r σ' : ho_mode ho src rel σ = (r, σ') → dirs σ' = dirs σ ∧
    ∀ mode, r = Ok mode → ∃ text, source src rel = Some (mode, text);
  fs_create name rel perm σ r σ' : plain_name name = true → plain_path rel →
    ho_create ho (JoinPath [JoinPath [home; name]; rel]) perm σ = (r, σ') →
    (∀ n, n ≠ name → dirs σ' !! n = dirs σ !! n) ∧
    ∀ m, r = Ok tt → dirs σ !! name = Some m → 
      dirs σ' !! name = Some (<[rel := (Z.land perm (Z.lnot umask), "")]> m);
  fs_copy src name rel σ r σ' : plain_name name = true → plain_path rel →
    ho_copy ho src rel (JoinPath [JoinPath [home; name]; rel]) σ = (r, σ') →
    (∀ n, n ≠ name → dirs σ' !! n = dirs σ !! n) ∧
    ∀ m perm text, r = Ok tt → dirs σ !! name = Some m → m !! rel = Some (perm, text) →
      ∃ mode text', source src rel = Some (mode, text') ∧
        dirs σ' !! name = Some (<[rel := (perm, text')]> m);
  fs_close p σ r σ' : ho_close ho p σ = (r, σ') → dirs σ' = dirs σ;
  fs_git dir cmd args env stdin σ r σ' : cmd ∈ ["init"; "add"; "commit"; "update-ref"] →
    mc_exec mc (MkCmd (git_flags ++ cmd :: args) dir env stdin) σ = (r, σ') → dirs σ' = dirs σ;
  fs_rename name dest m σ r σ' : plain_name name = true → plain_name dest = true → name ≠ dest →
    dirs σ !! name = Some m →
    ho_rename ho (JoinPath [home; name]) (JoinPath [home; dest]) σ = (r, σ') →
    dirs σ' = if is_ok r then <[dest := m]> (delete name (dirs σ)) else dirs σ;
  fs_remove name σ r σ' : plain_name name = true →
    mc_removeall mc (JoinPath [home; name]) σ = (r, σ') →
    ∀ n, n ≠ name → dirs σ' !! n = dirs σ !! n }.

(** ** What is copied *)
Section copies.
Context {UC : Unicode} {S : Type} (mc : Machine S) (ho : Host S).
Context (dirs : S → gmap string (gmap string (Z * string))) (root home : string).
Context (project : string → snode) (source : string → string → option (Z * string)) (umask : Z).
Context {FS : Filesystem mc ho dirs root home project source umask}.

(** The files that the walk copies, and which they are: no element of their path is protected
    or build output. *)
Fixpoint kept (rel : string) (n : snode) : list string :=
  if negb (rel =? ".") && left_out rel (snode_name n) then [] else
  match n with
  | SFile _ => [rel]
  | SDir _ (Ok l) => concat (map (λ c, kept (under rel (snode_name c)) c) l)
  | _ => []
  end.
Definition to_copy (rel : string) : bool :=
  negb (Protected rel) && negb (existsb built (Split slash rel)).

Lemma left_out_below rel :
  to_copy rel = false → ∀ name, to_copy (slashed rel name) = false.
Proof.
  unfold to_copy. rewrite andb_false_iff, !negb_false_iff. intros H name.
  apply andb_false_iff. rewrite !negb_false_iff.
  destruct H as [H|H]; [left; by apply Protected_below|right].
  unfold slashed. by rewrite Split_app, existsb_app, H.
Qed.

Lemma plain_name_under parent name :
  plain_name name = true → (under parent name =? ".")%string = false.
Proof.
  intros (_ & Hd & _ & _)%plain_name_facts. unfold under.
  apply String.eqb_neq. case_match; [done|].
  unfold slashed. intros E. apply (f_equal (Split slash)) in E. rewrite Split_app in E.
  destruct (Split_nonempty slash parent) as (p & ps & E1), (Split_nonempty slash name) as (q & qs & E2).
  rewrite E1, E2 in E. change (Split slash ".") with ["."] in E. by destruct ps.
Qed.
Lemma to_copy_under parent name :
  parent = "." ∨ to_copy parent = true → plain_name name = true →
  to_copy (under parent name) = negb (left_out (under parent name) name).
Proof.
  intros Hp Hn. pose proof (plain_name_facts name Hn) as (_ & _ & _ & Hl).
  unfold to_copy, left_out. rewrite negb_orb. f_equal. f_equal.
  unfold under. destruct (String.eqb_spec parent ".") as [|Hd].
  - rewrite Split_lacks by done. simpl. by rewrite orb_false_r.
  - destruct Hp as [|Hp]; [done|]. unfold slashed. rewrite Split_app, existsb_app, (Split_lacks slash name) by done.
    unfold to_copy in Hp. apply andb_true_iff in Hp as [_ Hp%negb_true_iff]. rewrite Hp. simpl.
    by rewrite orb_false_r.
Qed.
(** Nothing below a directory that is left out is to be copied. *)
Lemma regular_left_out n : ∀ rel, named n = true → rel ≠ "." → to_copy rel = false →
  Forall (λ f, to_copy f = false) (regular rel n).
Proof.
  revert n. fix IH 1. intros [name [l|e]|name|name|name] rel Hn Hd Hr; try by repeat constructor.
  simpl in *. revert Hn. induction l as [|c l IHl]; simpl; [by constructor|].
  rewrite !andb_true_iff. intros [[Hc Hn] Hl]. apply Forall_app. split; [|by apply IHl].
  pose proof (IH c) as IHc. clear IH IHl. apply IHc; [done|..].
  - apply String.eqb_neq. by apply plain_name_under.
  - unfold under. apply String.eqb_neq in Hd. rewrite Hd. by apply left_out_below.
Qed.
Lemma nothing_to_copy (l : list string) :
  Forall (λ f, to_copy f = false) l → filter (λ f, to_copy f = true) l = [].
Proof.
  induction 1 as [|f l Hf _ IH]; [done|]. rewrite filter_cons_False; [done|]. by rewrite Hf.
Qed.
(** The walk, which skips whole directories, copies exactly the regular files with no
    protected and no build element in their path. *)
Lemma kept_below n : ∀ parent, named n = true → plain_name (snode_name n) = true →
  parent = "." ∨ to_copy parent = true →
  kept (under parent (snode_name n)) n =
  filter (λ f, to_copy f = true) (regular (under parent (snode_name n)) n).
Proof.
  revert n. fix IH 1. intros n parent Hn Hname Hp.
  pose proof (to_copy_under parent _ Hp Hname) as Hcopy.
  pose proof (plain_name_under parent _ Hname) as Hdot.
  destruct (left_out (under parent (snode_name n)) (snode_name n)) eqn:Hout; simpl in Hcopy.
  { clear IH. rewrite nothing_to_copy by (apply regular_left_out; [done| |done]; by apply String.eqb_neq).
    destruct n; simpl in *; by rewrite Hdot, Hout. }
  destruct n as [name [l|e]|name|name|name]; simpl in *; rewrite Hdot, Hout; simpl; try done.
  - revert Hn. induction l as [|c l IHl]; simpl; [done|].
    rewrite !andb_true_iff. intros [[Hc Hn] Hl]. rewrite filter_app, <- IHl by done. f_equal.
    apply IH; auto.
  - by rewrite filter_cons_True.
Qed.
Lemma kept_filter name l : named (SDir name (Ok l)) = true →
  kept "." (SDir name (Ok l)) = filter (λ f, to_copy f = true) (regular "." (SDir name (Ok l))).
Proof.
  simpl. induction l as [|c l IH]; simpl; [done|]. rewrite !andb_true_iff. intros [[Hc Hn] Hl].
  rewrite filter_app, <- IH by done. f_equal. apply (kept_below c "."); auto.
Qed.

(** ** What the preparation writes *)
Definition masked (v : Z * string) : Z * string :=
  (Z.land (Z.land v.1 493) (Z.lnot umask), v.2).
Definition copied (src : string) (l : list string) (m m' : gmap string (Z * string)) : Prop :=
  (∀ rel, rel ∈ l → ∃ v, source src rel = Some v ∧ m' !! rel = Some (masked v)) ∧
  (∀ rel, rel ∉ l → m' !! rel = m !! rel).
Lemma copied_app src l1 l2 m m1 m2 :
  copied src l1 m m1 → copied src l2 m1 m2 → copied src (l1 ++ l2) m m2.
Proof.
  intros [H1 Hn1] [H2 Hn2]. split.
  - intros rel Hrel. destruct (decide (rel ∈ l2)) as [Hin|Hout]; [by apply H2|].
    rewrite Hn2 by done. apply elem_of_app in Hrel as [?|?]; [by apply H1|done].
  - intros rel [Ho1 Ho2]%not_elem_of_app. by rewrite Hn2, Hn1.
Qed.
(** A computation that changes the directory [temp] only: there it writes the files [l], when
    it succeeds, and its result satisfies [Q]. *)
Definition writes {A} (temp src : string) (l : list string) (Q : A → Prop) (c : io S A) : Prop :=
  ∀ σ r σ', c σ = (r, σ') →
    (∀ p, p ≠ temp → dirs σ' !! p = dirs σ !! p) ∧
    match r with
    | Ok a => Q a ∧ ∀ m, dirs σ !! temp = Some m →
        ∃ m', dirs σ' !! temp = Some m' ∧ copied src l m m'
    | Err _ => True
    end.
Lemma writes_bind {A B} temp src l1 l2 Q R (c : io S A) (f : A → io S B) :
  writes temp src l1 Q c → (∀ a, Q a → writes temp src l2 R (f a)) →
  writes temp src (l1 ++ l2) R (a ← c; f a).
Proof.
  intros Hc Hf σ r σ' H. unfold mbind, io_bind in H.
  destruct (c σ) as [[a|e] σ1] eqn:E; apply Hc in E as [Ho E].
  - destruct E as [Ha Hm]. apply Hf in H as [Ho1 Hr]; [|done]. split.
    + intros p Hp. by rewrite Ho1, Ho.
    + destruct r as [b|e]; [|done]. destruct Hr as [HR Hm1]. split; [done|].
      intros m E0. destruct (Hm m E0) as (m1 & E1 & Hc1). destruct (Hm1 m1 E1) as (m2 & E2 & Hc2).
      exists m2. split; [done|by eapply copied_app].
  - by injection H as <- <-.
Qed.
(** A computation that leaves the directories as they are. *)
Lemma writes_none {A} temp src (Q : A → Prop) (c : io S A) :
  (∀ σ r σ', c σ = (r, σ') → dirs σ' = dirs σ ∧ ∀ a, r = Ok a → Q a) →
  writes temp src [] Q c.
Proof.
  intros H σ r σ' [E HQ]%H. rewrite E. split; [done|]. destruct r as [a|e]; [|done].
  split; [by apply HQ|]. intros m Hm. exists m. split; [done|]. split; [by intros rel ?%elem_of_nil|done].
Qed.
Lemma writes_then {A B} temp src l Q R (c : io S A) (f : A → io S B) :
  writes temp src [] Q c → (∀ a, Q a → writes temp src l R (f a)) →
  writes temp src l R (a ← c; f a).
Proof. apply (writes_bind temp src []). Qed.
Lemma writes_ret {A} temp src (Q : A → Prop) a : Q a → writes temp src [] Q (mret a : io S A).
Proof. intros H. apply writes_none. intros σ r σ' [= <- <-]. by split; [|intros ? [= <-]]. Qed.
Lemma writes_raise {A} temp src l (Q : A → Prop) e : writes temp src l Q (raise e : io S A).
Proof. intros σ r σ' [= <- <-]. by split. Qed.
Lemma writes_query {A} temp src (f : S → A) : writes temp src [] (λ _, True) (query f).
Proof. apply writes_none. intros σ r σ' [= <- <-]. by split. Qed.
Lemma writes_give {A} temp src (x : result A) : writes temp src [] (λ a, x = Ok a) (give x : io S A).
Proof. apply writes_none. intros σ r σ' [= <- <-]. by split. Qed.

Lemma copy_file_writes src temp rel :
  plain_name temp = true → plain_path rel →
  writes temp src [rel] (λ _, True) (copy_file mc ho src (JoinPath [home; temp]) rel).
Proof.
  intros Htemp Hrel. unfold copy_file.
  eapply writes_then; [apply writes_query|]. intros r _. eapply writes_then; [apply writes_give|]. intros _ _.
  eapply (writes_then _ _ _ (λ _, True)).
  { apply writes_none. intros σ r0 σ1 H. split; [by apply fs_open in H|done]. }
  intros _ _. eapply (writes_then _ _ _ (λ mode, ∃ text, source src rel = Some (mode, text))).
  { apply writes_none. intros σ r0 σ' H. by apply fs_mode in H. }
  intros mode (text & Hs) σ r0 σ' H. unfold mbind, io_bind, attempt, give in H.
  destruct (ho_create ho _ _ σ) as [[[]|e] σ1] eqn:E1; apply fs_create in E1 as [Ho1 H1]; try done.
  2: { by injection H as <- <-. }
  destruct (ho_copy ho _ _ _ σ1) as [r2 σ2] eqn:E2. apply fs_copy in E2 as [Ho2 H2]; [|done..].
  destruct (ho_close ho _ σ2) as [r3 σ3] eqn:E3. apply fs_close in E3.
  assert (r0 = (_ ← r2; r3) ∧ σ' = σ3) as [-> ->].
  { destruct r2 as [[]|]; injection H as <- <-; done. }
  rewrite E3. split; [intros p Hp; by rewrite Ho2, Ho1|].
  destruct r2 as [[]|e]; [|done]. simpl. destruct r3; [|done]. split; [done|]. intros m Hm.
  apply (H1 m eq_refl) in Hm.
  destruct (H2 _ _ _ eq_refl Hm (lookup_insert_eq _ _ _)) as (mode' & text' & Hs' & ->).
  eexists. split; [done|]. rewrite Hs in Hs'. injection Hs' as <- <-. split.
  - intros rel' ->%list_elem_of_singleton. exists (mode, text). by rewrite lookup_insert_eq.
  - intros rel' Hne. apply not_elem_of_cons in Hne as [Hne _]. by rewrite !lookup_insert_ne.
Qed.
(** The files of the entry itself, and whether the walk goes below it. *)
Definition entry_files (rel : string) (n : snode) : list string :=
  if negb (rel =? ".") && left_out rel (snode_name n) then [] else
  if n is SFile _ then if rel =? "." then [] else [rel] else [].
Lemma copy_entry_writes src temp rel n :
  plain_name temp = true → (rel =? ".") = false → plain_path rel →
  writes temp src (entry_files rel n) (λ skip, skip = is_dir n && left_out rel (snode_name n))
    (copy_entry mc ho src (JoinPath [home; temp]) rel n).
Proof.
  intros Htemp Hd Hrel. unfold copy_entry, entry_files. rewrite Hd. simpl.
  eapply (writes_then _ _ _ (λ _, True)).
  { apply writes_none. intros σ r σ' H. split; [by apply fs_alive in H|done]. }
  intros _ _. destruct (left_out rel (snode_name n)).
  { apply writes_ret. by rewrite andb_true_r. }
  destruct n as [name ch|name|name|name]; simpl; try by apply writes_ret.
  - eapply (writes_then _ _ _ (λ _, True)); [|intros _ _; by apply writes_ret].
    intros σ r σ' H. apply fs_mkdirall_below in H as [Ho Hm]; [|done..]. split; [done|].
    destruct r as [[]|e]; [|done]. split; [done|]. intros m E. exists m.
    split; [by apply Hm|]. split; [by intros rel' ?%elem_of_nil|done].
  - apply (writes_bind _ _ [rel] [] (λ _, True)); [by apply copy_file_writes|].
    intros _ _. by apply writes_ret.
Qed.
Lemma plain_path_under rel name :
  rel = "." ∨ plain_path rel → plain_name name = true → plain_path (under rel name).
Proof.
  intros Hr Hn. pose proof (plain_name_facts name Hn) as (_ & _ & _ & Hl). unfold under, plain_path.
  destruct (String.eqb_spec rel ".") as [|Hd]; [rewrite Split_lacks by done; by repeat constructor|].
  destruct Hr as [|Hr]; [done|]. unfold slashed. rewrite Split_app, (Split_lacks slash name) by done.
  apply Forall_app. split; [done|]. by repeat constructor.
Qed.
Lemma walk_writes src temp n : plain_name temp = true → ∀ rel, named n = true → (rel =? ".") = false → plain_path rel →
  writes temp src (kept rel n) (λ _, True) (WalkDir (copy_entry mc ho src (JoinPath [home; temp])) rel n).
Proof.
  intros Htemp. revert n. fix IH 1. intros n rel Hn Hd Hrel.
  assert (∀ l, kept rel n = entry_files rel n ++ l →
    (∀ skip, skip = is_dir n && left_out rel (snode_name n) →
      writes temp src l (λ _, True) (if skip : bool then mret tt else
        match n with
        | SDir _ (Ok l) => (fix all l := match l with [] => mret tt | c :: l =>
            WalkDir (copy_entry mc ho src (JoinPath [home; temp])) (under rel (snode_name c)) c;; all l end) l
        | SDir _ (Err e) => raise e
        | _ => mret tt
        end : io S unit)) →
    writes temp src (kept rel n) (λ _, True)
      (WalkDir (copy_entry mc ho src (JoinPath [home; temp])) rel n)) as Hgo.
  { intros l -> Hl. destruct n; eapply writes_bind; (by apply copy_entry_writes) || exact Hl. }
  destruct n as [name [l|e]|name|name|name]; unfold entry_files in Hgo; simpl in *; rewrite Hd in *; simpl in *.
  - apply (Hgo (if left_out rel name then [] else concat (map (λ c, kept (under rel (snode_name c)) c) l)));
      [by destruct (left_out rel name)|].
    intros skip ->. destruct (left_out rel name); [by apply writes_ret|]. clear Hgo. revert Hn.
    induction l as [|c l IHl]; simpl; [intros _; by apply writes_ret|].
    rewrite !andb_true_iff. intros [[Hc Hcn] Hl]. eapply (writes_bind _ _ _ _ (λ _, True)).
    + apply IH; [done|by apply plain_name_under|by apply plain_path_under; auto].
    + intros _ _. by apply IHl.
  - apply (Hgo []); [by destruct (left_out rel name)|]. intros skip ->.
    destruct (left_out rel name); [by apply writes_ret|apply writes_raise].
  - apply (Hgo []); [by destruct (left_out rel name)|]. intros skip ->. by apply writes_ret.
  - apply (Hgo []); [by destruct (left_out rel name)|]. intros skip ->. by apply writes_ret.
  - apply (Hgo []); [by destruct (left_out rel name)|]. intros skip ->. by apply writes_ret.
Qed.
(** The root of the source is a directory, or nothing is copied. *)
Definition selected (n : snode) : list string :=
  filter (λ f, to_copy f = true) (if is_dir n then regular "." n else []).
Lemma walk_root src temp n : plain_name temp = true → named n = true →
  writes temp src (selected n) (λ _, True) (WalkDir (copy_entry mc ho src (JoinPath [home; temp])) "." n).
Proof.
  intros Htemp Hn. assert (writes temp src [] (λ skip, skip = false) (copy_entry mc ho src (JoinPath [home; temp]) "." n)) as He.
  { unfold copy_entry. simpl. eapply (writes_then _ _ _ (λ _, True)); [|intros _ _; by apply writes_ret].
    apply writes_none. intros σ r σ' H. split; [by apply fs_alive in H|done]. }
  unfold selected. destruct n as [name [l|e]|name|name|name]; cbn [is_dir].
  1: rewrite <- kept_filter by done.
  all: apply (writes_then _ _ _ _ _ _ _ He); intros skip ->.
  2: apply writes_raise.
  2-4: exact (writes_ret _ _ _ tt I).
  revert Hn. simpl. induction l as [|c l IHl]; simpl; [intros _; by apply writes_ret|].
  rewrite !andb_true_iff. intros [[Hc Hcn] Hl]. eapply (writes_bind _ _ _ _ (λ _, True)).
  - apply walk_writes; [done|done|by apply plain_name_under|by apply plain_path_under; auto].
  - intros _ _. by apply IHl.
Qed.
Lemma git_writes temp src dir cmd args :
  cmd ∈ ["init"; "add"; "commit"; "update-ref"] →
  writes temp src [] (λ _, True) (git mc dir (cmd :: args)).
Proof.
  intros Hcmd. unfold git, gitEnv. eapply (writes_then _ _ _ (λ _, True)).
  - apply writes_none. intros σ r σ' H. split; [by eapply fs_git in H|done].
  - intros [[e|] b] _; [apply writes_raise|by apply writes_ret].
Qed.
Lemma initGit_writes temp src dir : writes temp src [] (λ _, True) (initGit mc dir).
Proof.
  unfold initGit. simpl.
  do 4 (eapply (writes_then _ _ _ (λ _, True));
    [eapply (writes_then _ _ _ (λ _, True)); [apply git_writes; set_solver|by intros; apply writes_ret]|
     intros _ _]).
  by apply writes_ret.
Qed.
Lemma fill_writes src temp : plain_name temp = true →
  writes temp src (selected (project src)) (λ _, True) (fill mc ho src (JoinPath [home; temp])).
Proof.
  intros Htemp. unfold fill. eapply (writes_then _ _ _ (λ _, True)).
  { apply writes_none. intros σ r σ' H. split; [by apply fs_openroot in H|done]. }
  intros _ _. eapply (writes_then _ _ _ (λ n, n = project src ∧ named n = true)).
  { apply writes_none. intros σ r σ' H. by apply fs_tree in H. }
  intros n [-> Hn]. rewrite <- (app_nil_r (selected _)). eapply (writes_bind _ _ _ _ (λ _, True)).
  - by apply walk_root.
  - intros _ _. apply initGit_writes.
Qed.

(** The workspace [m] that a preparation makes of the source [src]. *)
Definition copy_of (src : string) (m : gmap string (Z * string)) : Prop :=
  ∀ rel, m !! rel =
    if decide (rel ∈ selected (project src)) then masked <$> source src rel else None.
(** The directories other than [dest] and a preparation that may be left are unchanged. *)
Definition untouched (dest : string) (σ σ' : S) : Prop :=
  ∃ suffix, ∀ n, n ≠ dest → n ≠ preparing +:+ suffix → dirs σ' !! n = dirs σ !! n.
Lemma in_temp_copies task src σ r σ' :
  plain_name task = true → HasPrefix task preparing = false →
  in_temp mc ho home (JoinPath [home; task]) (fill mc ho src) σ = (r, σ') →
  dirs σ !! task = None →
  untouched task σ σ' ∧
  match r with
  | Ok dest => dest = JoinPath [home; task] ∧ ∃ m, dirs σ' !! task = Some m ∧ copy_of src m
  | Err _ => dirs σ' !! task = None
  end.
Proof.
  intros Htask Hpre H Hnone. unfold in_temp, mbind, io_bind, attempt, give in H.
  destruct (ho_mkdirtemp ho home preparing σ) as [[temp0|e] σ1] eqn:E1; apply fs_mkdirtemp in E1.
  2: { injection H as <- <-. rewrite E1. split; [|done]. exists "". intros p _ _. by rewrite E1. }
  destruct E1 as (suffix & Hplain & -> & Hfresh & E1). set (temp := preparing +:+ suffix) in *.
  assert (temp ≠ task) as Hne.
  { intros E. rewrite <- E in Hpre. unfold temp in Hpre. by rewrite HasPrefix_app in Hpre. }
  assert (∀ p, p ≠ temp → dirs σ1 !! p = dirs σ !! p) as Ho1.
  { intros p Hp. by rewrite E1, lookup_insert_ne. }
  destruct (fill mc ho src _ σ1) as [[[]|e] σ2] eqn:E2; apply fill_writes in E2 as [Ho2 E2]; try done.
  - destruct E2 as [_ E2].
    destruct (E2 ∅ ltac:(rewrite E1; apply lookup_insert_eq)) as (m & Hm & Hin & Hout).
    destruct (ho_rename ho _ _ σ2) as [r3 σ3] eqn:E3.
    pose proof (fs_rename _ _ _ _ _ _ Hplain Htask Hne Hm E3) as Hd3.
    destruct (mc_removeall mc _ σ3) as [r4 σ4] eqn:E4.
    pose proof (fs_remove _ _ _ _ Hplain E4) as Ho4.
    assert (r = (_ ← r3; Ok (JoinPath [home; task])) ∧ σ' = σ4) as [-> ->]
      by (by destruct r3; injection H as <- <-).
    assert (untouched task σ σ4) as Hun.
    { exists suffix. intros p Hp1 Hp2. rewrite Ho4, Hd3 by done.
      destruct (is_ok r3); [rewrite lookup_insert_ne, lookup_delete_ne by done|]; by rewrite Ho2, Ho1. }
    split; [done|]. destruct r3 as [[]|e]; simpl in *.
    + split; [done|]. exists m. rewrite Ho4, Hd3 by done. split; [apply lookup_insert_eq|].
      intros rel. case_decide as Hrel; [|rewrite Hout by done; apply lookup_empty].
      destruct (Hin rel Hrel) as (v & -> & ->). done.
    + by rewrite Ho4, Hd3, Ho2, Ho1.
  - destruct (mc_removeall mc _ σ2) as [r4 σ4] eqn:E4.
    pose proof (fs_remove _ _ _ _ Hplain E4) as Ho4. injection H as <- <-. split.
    + exists suffix. intros p Hp1 Hp2. by rewrite Ho4, Ho2, Ho1.
    + by rewrite Ho4, Ho2, Ho1.
Qed.
Lemma absent_none name σ r σ' : plain_name name = true →
  absent ho (JoinPath [home; name]) σ = (r, σ') → σ = σ' ∧ (r = Ok tt → dirs σ !! name = None).
Proof.
  intros Hn. unfold absent, mbind, io_bind, query. destruct (ho_stat ho σ _) as [[]|e] eqn:Hs.
  - by intros [= <- <-].
  - destruct (is_not_exist e) eqn:He; intros [= <- <-]; [|done]. split; [done|]. intros _. by eapply fs_stat.
Qed.
End copies.

Lemma Contains_lacks c s : Contains s (one c) = false → lacks c s = true.
Proof.
  unfold Contains, Index. induction s as [|a s IH]; [done|]. simpl.
  destruct (Ascii.ascii_dec c a) as [->|Hne].
  - by destruct s.
  - destruct (Ascii.eqb_spec a c); [congruence|]. simpl.
    intros H. apply IH. by destruct (String.index 0 (one c) s).
Qed.
Lemma task_name_plain `{UC : Unicode} task : task_name task = true → plain_name task = true.
Proof.
  unfold task_name, SafeRelative, plain_name. rewrite !andb_true_iff, !negb_true_iff.
  intros [[Hs Hc%Contains_lacks] ->]. rewrite Split_lacks in Hs by done.
  destruct (task =? "")%string; [done|]. simpl in *. destruct (_ || _) in Hs; [done|].
  rewrite andb_true_r, negb_true_iff in Hs. by rewrite Hs.
Qed.

Section exact.
Context {UC : Unicode} {S : Type} (mc : Machine S) (ho : Host S).
Context (dirs : S → gmap string (gmap string (Z * string))) (root home : string).
Context (project : string → snode) (source : string → string → option (Z * string)) (umask : Z).
Context {FS : Filesystem mc ho dirs root home project source umask}.

(** C21: a preparation from a source that does not change meanwhile either fails and leaves
    every directory of the workspace root as it was, its own temporary one apart, or gives a
    new directory, named like the task, whose path is neither that of the source, with its
    links resolved, nor below it by the code's test (which a source of [/] passes, see
    [inside_root]).  That directory holds exactly the regular files of that source that have
    no protected and no build element in their path, with their contents and with the
    permissions of the source within 0755, less the process's umask; links, and what is below
    protected directories, are never copied. *)
Theorem Prepare_exact task source_path σ r σ' :
  Prepare mc ho root task source_path σ = (r, σ') → HasPrefix task preparing = false →
  match r with
  | Ok dest => ∃ real src m, dest = JoinPath [home; task] ∧
      EvalSymlinks (ho_links ho σ) source_path = Ok real ∧ Abs (ho_links ho σ) real = Ok src ∧
      inside src dest = false ∧ dirs σ !! task = None ∧ dirs σ' !! task = Some m ∧
      copy_of project source umask src m ∧ untouched dirs task σ σ'
  | Err _ => untouched dirs task σ σ' ∧ dirs σ' !! task = dirs σ !! task
  end.
Proof.
  intros H Hpre. assert (∀ σ1, dirs σ1 = dirs σ → untouched dirs task σ σ1 ∧ dirs σ1 !! task = dirs σ !! task) as Hsame.
  { intros σ1 E. rewrite E. split; [|done]. exists "". intros. by rewrite E. }
  unfold Prepare in H. destruct (task_name task) eqn:Htask; simpl in H.
  2: { injection H as <- <-. by apply Hsame. }
  apply task_name_plain in Htask. unfold mbind, io_bind, query, give in H.
  destruct (Abs _ root) as [abs0|e] eqn:Habs; [|injection H as <- <-; by apply Hsame].
  destruct (source_path =? "")%string; [injection H as <- <-; by apply Hsame|].
  destruct (EvalSymlinks _ source_path) as [src0|e] eqn:Hreal; [|injection H as <- <-; by apply Hsame].
  destruct (Abs _ src0) as [src|e] eqn:Hsrc; [|injection H as <- <-; by apply Hsame].
  destruct (ho_mkdirall ho abs0 σ) as [[[]|e] σ1] eqn:E1; apply fs_mkdirall in E1; auto.
  2: { injection H as <- <-. by apply Hsame. }
  destruct (EvalSymlinks _ abs0) as [abs|e] eqn:Hl; [|injection H as <- <-; by apply Hsame].
  assert (abs = home) as -> by (by eapply fs_home).
  destruct (absent ho _ σ1) as [[[]|e] σ2] eqn:E2;
    apply (absent_none mc ho dirs root home project source umask) in E2 as [<- E2]; try done.
  2: { injection H as <- <-. by apply Hsame. }
  destruct (inside src _) eqn:Hin; [injection H as <- <-; by apply Hsame|].
  destruct (ho_mkdirall ho home σ1) as [[[]|e] σ3] eqn:E3; apply fs_mkdirall in E3; auto.
  2: { injection H as <- <-. apply Hsame. congruence. }
  specialize (E2 eq_refl). rewrite <- E3 in E2.
  apply (in_temp_copies mc ho dirs root home project source umask) in H as [[suffix Hun] H]; [|done..].
  assert (untouched dirs task σ σ') as Hun'.
  { exists suffix. intros n Hn1 Hn2. rewrite Hun by done. by rewrite E3, E1. }
  rewrite E3, E1 in E2. destruct r as [dest|e].
  - destruct H as (-> & m & Hm & Hcopy). exists src0, src, m. by split_and!.
  - by rewrite E2.
Qed.
End exact.

(** ** A preparation *)
(** A path below [/work]: the name of the directory, and the path below it. *)
Definition below_work (p : string) : option (string * string) :=
  match Split slash p with _ :: _ :: name :: rel => Some (name, Join "/" rel) | _ => None end.
Lemma work_child name : plain_name name = true →
  JoinPath ["/work"; name] = path_of true ["work"; name].
Proof. intros Hn. by rewrite JoinPath_child. Qed.
Lemma below_child name : plain_name name = true → below_work (JoinPath ["/work"; name]) = Some (name, "").
Proof.
  intros Hn. rewrite work_child by done. unfold below_work. rewrite Split_path_of; [done..|].
  repeat constructor. by apply plain_name_facts.
Qed.
Lemma below_file name rel : plain_name name = true → plain_path rel →
  below_work (JoinPath [JoinPath ["/work"; name]; rel]) = Some (name, rel).
Proof.
  intros Hn Hrel. rewrite work_child by done.
  rewrite JoinPath_below; [|apply (HasPrefix_app "/")|done].
  rewrite clean_parts_path_of by (done || by repeat constructor).
  unfold below_work. rewrite Split_path_of; [by simpl; rewrite Join_Split|done|].
  repeat constructor; [by apply plain_name_facts|]. simpl.
  eapply Forall_impl; [exact Hrel|]. intros p Hp. by apply plain_name_facts.
Qed.

Definition demo_project : snode := SDir "proj" (Ok
  [SDir ".git" (Ok [SFile "config"]); SFile ".env"; SFile "main.go";
   SDir "build" (Ok [SFile "out"]); SDir "src" (Ok [SFile "a.go"; SFile "id_rsa"; SLink "l"])]).
Definition demo_source (rel : string) : option (Z * string) :=
  if rel =? "main.go" then Some (511%Z, "main") else if rel =? "src/a.go" then Some (420%Z, "a")
  else if rel =? ".env" then Some (420%Z, "secret") else None.
Definition no_file : error := ErrNotExist "no such file".
Definition demo_machine : Machine (gmap string (gmap string (Z * string))) := {|
  mc_environ := []; mc_exec c σ := (Ok (None, ""), σ); mc_walk dir σ := (Ok [], σ);
  mc_openroot dir σ := (Ok tt, σ); mc_lstat σ dir p := Ok false;
  mc_remove dir p σ := (Ok tt, σ); mc_createtemp σ := (Ok "", σ); mc_unlink p σ := (Ok tt, σ);
  mc_readdir dir σ := (Ok [], σ);
  mc_removeall p σ := (Ok tt, if below_work p is Some (name, _) then delete name σ else σ) |}.
Definition demo_host : Host (gmap string (gmap string (Z * string))) := {|
  ho_links σ := MkLinks Ok (Ok "/"); ho_alive σ := (Ok tt, σ); ho_mkdirall p σ := (Ok tt, σ);
  ho_stat σ p := if below_work p is Some (name, _)
    then (if σ !! name is Some _ then Ok tt else Err no_file) else Ok tt;
  ho_mkdirtemp dir prefix σ := let name := prefix +:+ "1" in
    if plain_name name && negb (if σ !! name is Some _ then true else false)
    then (Ok (JoinPath [dir; name]), <[name := ∅]> σ) else (Err no_file, σ);
  ho_openroot p σ := (Ok tt, σ); ho_tree src σ := (Ok demo_project, σ);
  ho_open src rel σ := (Ok tt, σ);
  ho_mode src rel σ := (if demo_source rel is Some v then Ok v.1 else Err no_file, σ);
  ho_create p perm σ := (Ok tt,
    if below_work p is Some (name, rel) then alter <[rel := (Z.land perm (Z.lnot 63), "")]> name σ else σ);
  ho_copy src rel p σ :=
    match below_work p, demo_source rel with
    | Some (name, rel'), Some v => (Ok tt, alter (alter (λ w, (w.1, v.2)) rel') name σ)
    | _, _ => (Err no_file, σ)
    end;
  ho_close p σ := (Ok tt, σ);
  ho_rename a b σ :=
    match below_work a, below_work b with
    | Some (x, _), Some (y, _) =>
      if σ !! x is Some m then (Ok tt, <[y := m]> (delete x σ)) else (Err no_file, σ)
    | _, _ => (Err no_file, σ)
    end |}.
Lemma demo_filesystem :
  Filesystem demo_machine demo_host id "/work" "/work" (λ _, demo_project) (λ _, demo_source) 63.
Proof.
  split; unfold id; try (simpl; intros; simplify_eq; done).
  - intros σ1 σ2 p q [= <-] [= <-]. reflexivity.
  - intros σ name e Hn. cbn [ho_stat demo_host]. rewrite below_child by done. by destruct (σ !! name).
  - intros prefix σ r σ'. simpl. destruct (plain_name (prefix +:+ "1")) eqn:Hp; simpl.
    2: { by intros [= <- <-]. }
    destruct (σ !! (prefix +:+ "1")) eqn:E; intros [= <- <-]; [done|]. by exists "1".
  - intros src σ r σ' [= <- <-]. split; [done|]. by intros n [= <-].
  - intros src rel σ r σ' [= <- <-]. split; [done|]. intros mode.
    destruct (demo_source rel) as [[m text]|]; [|done]. intros [= <-]. by exists text.
  - intros name rel perm σ r σ' Hn Hrel. cbn [ho_create demo_host].
    rewrite below_file by done. intros [= <- <-]. split.
    + intros n Hne. by rewrite lookup_alter_ne.
    + intros m _ Hm. by rewrite lookup_alter_eq, Hm.
  - intros src name rel σ r σ' Hn Hrel. cbn [ho_copy demo_host]. rewrite below_file by done.
    destruct (demo_source rel) as [[mode text]|]; intros [= <- <-]; [|done]. split.
    + intros n Hne. by rewrite lookup_alter_ne.
    + intros m perm t _ Hm Ht. exists mode, text. split; [done|].
      rewrite lookup_alter_eq, Hm. simpl. f_equal. apply map_eq. intros n.
      destruct (decide (n = rel)) as [->|?].
      * by rewrite lookup_alter_eq, lookup_insert_eq, Ht.
      * by rewrite lookup_alter_ne, lookup_insert_ne.
  - intros name dest m σ r σ' Hn Hd Hne Hm. cbn [ho_rename demo_host].
    rewrite !below_child by done. rewrite Hm. by intros [= <- <-].
  - intros name σ r σ' Hn. cbn [mc_removeall demo_machine]. rewrite below_child by done.
    intros [= <- <-] n Hne. by rewrite lookup_delete_ne.
Qed.
Definition demo_before : gmap string (gmap string (Z * string)) := {["u-0" := ∅]}.
Definition demo_after : gmap string (gmap string (Z * string)) :=
  {["u-0" := ∅; "u-1" := {["main.go" := (448%Z, "main"); "src/a.go" := (384%Z, "a")]}]}.
Lemma Prepare_exact_witness :
  Prepare (UC:=ascii_unicode) demo_machine demo_host "/work" "u-1" "/proj"
    demo_before = (Ok "/work/u-1", demo_after) ∧
  ∃ m, demo_after !! "u-1" = Some m ∧
    copy_of (UC:=ascii_unicode) (λ _, demo_project) (λ _, demo_source) 63 "/proj" m.
Proof.
  assert (Prepare (UC:=ascii_unicode) demo_machine demo_host "/work" "u-1"
    "/proj" demo_before = (Ok "/work/u-1", demo_after)) as H by (vm_compute; reflexivity).
  split; [exact H|].
  destruct (@Prepare_exact ascii_unicode _ demo_machine demo_host id "/work" "/work"
    (λ _, demo_project) (λ _, demo_source) 63 demo_filesystem "u-1" "/proj" demo_before
    (Ok "/work/u-1") demo_after H eq_refl) as (real & src & m & _ & Hr & Hs & _ & _ & Hm & Hcopy & _).
  assert (src = "/proj") as -> by (vm_compute in Hr; injection Hr as <-; vm_compute in Hs; congruence).
  exists m. exact (conj Hm Hcopy).
Defined.
