(* ===== verification/Snapshot.v ===== *)
(** * The definition a task keeps ([internal/workspace/git.go])

    When a task is created, its definition is written below the protected directory of the
    workspace; every later run of a stage reads it back. *)
From S2P Require Import Prelude GoStrings Domain Pipeline PipelineJSON Agent PathGuard Paths.

(** ** The JSON of a definition *)
(** src: internal/agentdef/loader.go 15-26 AgentSpec (json tags) *)
Definition marshal_agent (a : AgentSpec) : json :=
  JObj (omit_empty "color" (ag_Color a) ++
    [("name", JStr (ag_Name a)); ("display_name", JStr (ag_DisplayName a));
     ("tool_profile", JStr (ag_ToolProfile a)); ("write_paths", marshal_strings (ag_WritePaths a));
     ("model", JStr (ag_Model a)); ("test_command", JStr (ag_TestCommand a));
     ("persona", JStr (ag_Persona a)); ("conventions", JStr (ag_Conventions a));
     ("knowledge", JStr (ag_Knowledge a))]).
(** A map is written in the order of its keys. *)
Definition marshal_map {A} (f : A → json) (m : gmap string A) : json :=
  JObj (map (λ k, (k, default JNull (f <$> m !! k))) (sort_strings (elements (dom m)))).
(** src: internal/agentdef/loader.go 27-32 Definition (json tags) *)
Definition marshal_definition (d : Def) : json :=
  JObj [("pipeline", marshal_pipeline (df_Pipeline d));
        ("agents", marshal_map marshal_agent (df_Agents d));
        ("project_spec", JStr (df_ProjectSpec d)); ("workspace", JStr (df_Workspace d))].

(** src: internal/agentdef/loader.go 15-26 AgentSpec (json tags, decoding) *)
Definition unmarshal_agent : json → result AgentSpec :=
  un_object no_agent (λ j,
    color ← un_string (member "color" j); name ← un_string (member "name" j);
    display ← un_string (member "display_name" j); profile ← un_string (member "tool_profile" j);
    wp ← un_strings (member "write_paths" j); model ← un_string (member "model" j);
    test ← un_string (member "test_command" j); persona ← un_string (member "persona" j);
    conventions ← un_string (member "conventions" j); knowledge ← un_string (member "knowledge" j);
    Ok (MkAgent color name display profile wp model test persona conventions knowledge)).
(** The last member of a name counts. *)
Fixpoint un_members {A} (f : json → result A) (m : gmap string A) (l : list (string * json))
    : result (gmap string A) :=
  match l with
  | [] => Ok m
  | (k, j) :: l => a ← f j; un_members f (<[k := a]> m) l
  end.
Definition un_map {A} (f : json → result A) (j : json) : result (gmap string A) :=
  match j with JNull => Ok ∅ | JObj l => un_members f ∅ l | _ => type_error end.
(** src: internal/agentdef/loader.go 27-32 Definition (json tags, decoding) *)
Definition unmarshal_definition : json → result Def :=
  un_object (MkDef (MkPipeline 0 [] (MkPolicy 0 0 "" None "" "")) ∅ "" "") (λ j,
    p ← unmarshal_pipeline (member "pipeline" j); agents ← un_map unmarshal_agent (member "agents" j);
    spec ← un_string (member "project_spec" j); ws ← un_string (member "workspace" j);
    Ok (MkDef p agents spec ws)).

(** ** The file *)
(** The text of a document, and the files of the host. *)
Record Files (S : Type) := MkFiles {
  fi_render : json → string; fi_parse : string → result json;
  fi_mkdirall : string → io S unit;
  fi_write : string → string → io S unit;
  fi_read : S → string → result string }.
Arguments fi_render {S}. Arguments fi_parse {S}. Arguments fi_mkdirall {S}.
Arguments fi_write {S}. Arguments fi_read {S}.
(** [json.Marshal] replaces the bytes of a string that are not UTF-8 by U+FFFD. *)
Fixpoint coerce (j : json) : json :=
  match j with
  | JStr s => JStr (of_runes (runes s))
  | JArr l => JArr (map coerce l)
  | JObj l => JObj (map (λ '(k, j), (of_runes (runes k), coerce j)) l)
  | j => j
  end.
(** All strings are UTF-8. *)
Fixpoint valid_json (j : json) : bool :=
  match j with
  | JStr s => of_runes (runes s) =? s
  | JArr l => forallb valid_json l
  | JObj l => forallb (λ '(k, j), (of_runes (runes k) =? k) && valid_json j) l
  | _ => true
  end.
(** The text of a document is read back as the document, up to that; a file that was written
    holds what was written. *)
Class FilesLaws {S} (fs : Files S) : Prop := {
  fi_parse_render j : fi_parse fs (fi_render fs j) = Ok (coerce j);
  fi_read_write p text σ σ' : fi_write fs p text σ = (Ok tt, σ') → fi_read fs σ' p = Ok text }.
Definition with_Workspace (dir : string) (d : Def) : Def :=
  MkDef (df_Pipeline d) (df_Agents d) (df_ProjectSpec d) dir.

Section files.
Context {S : Type} (fs : Files S).
(** src: internal/workspace/git.go 62-72 SaveDefinition *)
Definition SaveDefinition (dir : string) (d : Def) : io S unit :=
  let path := JoinPath [dir; ".devsquad-runtime"] in
  fi_mkdirall fs path;;
  fi_write fs (JoinPath [path; "definition.json"]) (fi_render fs (marshal_definition d)).
(** src: internal/workspace/git.go 73-82 LoadDefinition *)
Definition LoadDefinition (dir : string) (σ : S) : result Def :=
  b ← fi_read fs σ (JoinPath [dir; ".devsquad-runtime"; "definition.json"]);
  d ← (j ← fi_parse fs b; unmarshal_definition j);
  Ok (with_Workspace dir d).
End files.

(** ** Round trip *)
Lemma coerce_valid j : valid_json j = true → coerce j = j.
Proof.
  revert j. fix IH 1. intros [|b|n|s|l|l] H; try reflexivity; simpl in H |- *.
  - by apply String.eqb_eq in H as ->.
  - f_equal. induction l as [|j l IHl]; [reflexivity|]. simpl in *.
    apply andb_true_iff in H as [Hj Hl]. by rewrite (IH j Hj), (IHl Hl).
  - f_equal. induction l as [|[k j] l IHl]; [reflexivity|]. simpl in *.
    apply andb_true_iff in H as [Hj Hl]. apply andb_true_iff in Hj as [Hk Hj].
    apply String.eqb_eq in Hk as ->. by rewrite (IH j Hj), (IHl Hl).
Qed.
Lemma unmarshal_agent_marshal a : unmarshal_agent (marshal_agent a) = Ok a.
Proof.
  destruct a as [color name display profile wp model test persona conv know].
  unfold unmarshal_agent, marshal_agent, omit_empty, member. simpl.
  destruct (String.eqb_spec color ""); subst; simpl; by rewrite un_strings_marshal.
Qed.
Lemma un_members_map {A} (f : json → result A) (g : A → json) (m : gmap string A) l acc :
  (∀ a, f (g a) = Ok a) → (∀ k, k ∈ l → is_Some (m !! k)) →
  ∃ m', un_members f acc (map (λ k, (k, default JNull (g <$> m !! k))) l) = Ok m' ∧
    (∀ k, k ∈ l → m' !! k = m !! k) ∧ (∀ k, k ∉ l → m' !! k = acc !! k).
Proof.
  intros Hfg. revert acc. induction l as [|k l IH]; intros acc Hl; simpl.
  { exists acc. split_and!; [done|by intros k ?%elem_of_nil|done]. }
  destruct (Hl k (list_elem_of_here _ _)) as [a Ha]. rewrite Ha. simpl. rewrite Hfg. simpl.
  destruct (IH (<[k := a]> acc)) as (m' & -> & Hin & Hout).
  { intros k' Hk'. apply Hl. by apply list_elem_of_further. }
  exists m'. split; [done|]. split.
  - intros k' Hk'. destruct (decide (k' ∈ l)) as [|Hn]; [by apply Hin|].
    apply elem_of_cons in Hk' as [->|?]; [|done]. by rewrite Hout, lookup_insert_eq.
  - intros k' [Hne Hn]%not_elem_of_cons. by rewrite Hout, lookup_insert_ne.
Qed.
Lemma un_map_marshal {A} (f : json → result A) (g : A → json) (m : gmap string A) :
  (∀ a, f (g a) = Ok a) → un_map f (marshal_map g m) = Ok m.
Proof.
  intros Hfg. unfold un_map, marshal_map.
  destruct (un_members_map f g m (sort_strings (elements (dom m))) ∅ Hfg) as (m' & -> & Hin & Hout).
  { intros k Hk%elem_of_sort%elem_of_elements. by apply elem_of_dom. }
  f_equal. apply map_eq. intros k. destruct (decide (k ∈ sort_strings (elements (dom m)))) as [Hk|Hk].
  - by apply Hin.
  - rewrite Hout, lookup_empty by done. symmetry. apply not_elem_of_dom. intros H. apply Hk.
    by apply elem_of_sort, elem_of_elements.
Qed.
Lemma unmarshal_definition_marshal d :
  unmarshal_pipeline (marshal_pipeline (df_Pipeline d)) = Ok (df_Pipeline d) →
  unmarshal_definition (marshal_definition d) = Ok d.
Proof.
  destruct d as [p agents spec ws]. cbn [df_Pipeline]. intros Hp.
  change (unmarshal_definition _) with
    (p' ← unmarshal_pipeline (marshal_pipeline p);
     a ← un_map unmarshal_agent (marshal_map marshal_agent agents); Ok (MkDef p' a spec ws)).
  by rewrite Hp, (un_map_marshal _ _ _ unmarshal_agent_marshal).
Qed.
Section snapshot.
Context {S : Type} (fs : Files S) {FL : FilesLaws fs}.

(** C34: what a task's creation saves in an absolute workspace is what every later run of
    its stages loads, with the workspace it is loaded from: as long as the file reads the
    same, the agents, the pipeline and the specification survive it, provided that all their
    strings are UTF-8 and the numbers of the pipeline are Go's integers.  (Bytes that are not
    UTF-8 become U+FFFD, see [invalid_utf8_is_changed].) *)
Theorem SaveDefinition_roundtrip dir d σ σ' :
  SaveDefinition fs dir d σ = (Ok tt, σ') → IsAbs dir = true → pipeline_ints (df_Pipeline d) →
  valid_json (marshal_definition d) = true →
  ∀ later, fi_read fs later (JoinPath [dir; ".devsquad-runtime"; "definition.json"]) =
           fi_read fs σ' (JoinPath [dir; ".devsquad-runtime"; "definition.json"]) →
    LoadDefinition fs dir later = Ok (with_Workspace dir d).
Proof.
  intros H Hdir Hints Hvalid later Hsame. unfold SaveDefinition, mbind, io_bind in H.
  destruct (fi_mkdirall fs _ σ) as [[[]|e] σ1]; [|done]. apply fi_read_write in H.
  unfold LoadDefinition. rewrite Hsame. rewrite <- JoinPath_two by done. rewrite H. simpl.
  cbn [mbind result_bind]. rewrite fi_parse_render, coerce_valid by done. cbn [mbind result_bind].
  rewrite unmarshal_definition_marshal; [done|]. by apply unmarshal_pipeline_marshal.
Qed.
End snapshot.

(** ** A definition and its file *)
(** A rendering of documents: as trees, by their numbers, in binary. *)
Fixpoint to_tree (j : json) : gen_tree (Z + string) :=
  match j with
  | JNull => GenNode 0 []
  | JBool b => GenNode 1 [GenLeaf (inl (if b then 1%Z else 0%Z))]
  | JNum n => GenLeaf (inl n)
  | JStr s => GenLeaf (inr s)
  | JArr l => GenNode 2 (map to_tree l)
  | JObj l => GenNode 3 (map (λ '(k, j), GenNode 0 [GenLeaf (inr k); to_tree j]) l)
  end.
Fixpoint of_tree (t : gen_tree (Z + string)) : json :=
  match t with
  | GenLeaf (inl n) => JNum n
  | GenLeaf (inr s) => JStr s
  | GenNode 1 [GenLeaf (inl z)] => JBool (z =? 1)%Z
  | GenNode 2 l => JArr (map of_tree l)
  | GenNode 3 l => JObj (map (λ t, match t with
      | GenNode _ [GenLeaf (inr k); t] => (k, of_tree t) | _ => ("", JNull) end) l)
  | _ => JNull
  end.
Lemma of_to_tree j : of_tree (to_tree j) = j.
Proof.
  revert j. fix IH 1. intros [|[]|n|s|l|l]; try reflexivity; cbn [to_tree of_tree]; f_equal.
  - induction l as [|j l IHl]; simpl; [done|]. by rewrite IH, IHl.
  - induction l as [|[k j] l IHl]; simpl; [done|]. by rewrite IH, IHl.
Qed.
Fixpoint to_text (p : positive) : string :=
  match p with xH => "" | xO p => String (chr 48) (to_text p) | xI p => String (chr 49) (to_text p) end.
Fixpoint of_text (s : string) : positive :=
  match s with
  | EmptyString => xH
  | String c s => if Ascii.eqb c (chr 48) then xO (of_text s) else xI (of_text s)
  end.
Lemma of_to_text p : of_text (to_text p) = p.
Proof.
  induction p as [p IH|p IH|]; [|..|reflexivity].
  - change (xI (of_text (to_text p)) = xI p). by rewrite IH.
  - change (xO (of_text (to_text p)) = xO p). by rewrite IH.
Qed.

(** A host with one file per path. *)
Definition demo_agents : gmap string AgentSpec :=
  {["dev" := MkAgent "" "dev" "Developer" "coder" (Some ["src/**"]) "m" "" "p" "c" ""]}.
Definition demo_definition : Def := MkDef demo_pipeline demo_agents "spec" "/old".
Definition demo_files : Files (gmap string string) := {|
  fi_render j := to_text (encode (to_tree j));
  fi_parse text := match decode (of_text text) with
                   | Some t => Ok (coerce (of_tree t)) | None => Err (ErrorText "json") end;
  fi_mkdirall p σ := (Ok tt, σ);
  fi_write p text σ := (Ok tt, <[p := text]> σ);
  fi_read σ p := if σ !! p is Some text then Ok text else Err (ErrNotExist p) |}.
Lemma demo_files_laws : FilesLaws demo_files.
Proof.
  split.
  - intros j. simpl. by rewrite of_to_text, countable.decode_encode, of_to_tree.
  - intros p text σ σ' [= <-]. simpl. by rewrite lookup_insert_eq.
Qed.
Definition demo_saved : gmap string string :=
  <["/work/.devsquad-runtime/definition.json" :=
    fi_render demo_files (marshal_definition demo_definition)]> ∅.
Lemma SaveDefinition_roundtrip_witness :
  LoadDefinition demo_files "/work" (<["/work/main.go" := "package main"]> demo_saved) =
    Ok (with_Workspace "/work" demo_definition).
Proof.
  apply (@SaveDefinition_roundtrip _ demo_files demo_files_laws "/work" demo_definition ∅ demo_saved);
    [reflexivity|reflexivity|by split; [by vm_compute..|]|vm_compute; reflexivity|
     vm_compute; reflexivity].
Defined.
(** A persona that is not UTF-8, which nothing rejects, comes back changed. *)
Definition odd_definition (persona : string) : Def :=
  MkDef demo_pipeline
    {["dev" := MkAgent "" "dev" "Developer" "coder" (Some ["src/**"]) "m" "" persona "c" ""]}
    "spec" "/work".
Lemma invalid_utf8_is_changed :
  LoadDefinition demo_files "/work"
    (SaveDefinition demo_files "/work" (odd_definition (String (chr 255) "")) ∅).2 =
  Ok (odd_definition (String (chr 239) (String (chr 191) (String (chr 189) "")))).
Proof. vm_compute. reflexivity. Qed.
