(* ===== verification/Scm.v ===== *)
(** * Source control: pull request texts and the GitHub client ([internal/scm])

    [body.go] is pure text; [github.go] talks to a server through one [transport], so that
    what [Open] does to the server's pull requests can be stated. *)
From S2P Require Import Prelude GoStrings PipelineJSON Llm PathGuard Output Splitting.

(** ** Reports ([body.go]) *)
(** src: internal/scm/body.go 9-16 ApprovalReport *)
Record ApprovalReport := MkApprovalReport {
  ap_Kind : string; ap_RetryNo : Z; ap_Status : string; ap_DecidedBy : string;
  ap_DecidedAt : option Z; ap_Feedback : string }.
(** src: internal/scm/body.go 18-22 StageReport *)
Record StageReport := MkStageReport {
  sg_Key : string; sg_Role : string; sg_Branch : string; sg_Ref : string; sg_Summary : string;
  sg_Approvals : list ApprovalReport }.
(** src: internal/scm/body.go 24-29 Report *)
Record Report := MkReport {
  rp_TaskID : string; rp_Command : string; rp_Owner : string; rp_Repo : string;
  rp_WebURL : string; rp_Stages : list StageReport }.

Definition nl : string := String (chr 10) EmptyString.

(** ** [time.Format("2006-01-02 15:04 UTC")] of a UTC time in nanoseconds *)
Definition pad (n : nat) (z : Z) : string :=
  let s := fmt_d z in String.concat "" (replicate (n - String.length s) "0") +:+ s.
(** Year, month and day of a day number counted from 1970-01-01, by eras of 400 years that
    start in March. *)
Definition civil (days : Z) : Z * Z * Z :=
  (let z := days + 719468 in
   let era := z `div` 146097 in
   let doe := z `mod` 146097 in
   let yoe := (doe - doe `div` 1460 + doe `div` 36524 - doe `div` 146096) `div` 365 in
   let doy := doe - (365 * yoe + yoe `div` 4 - yoe `div` 100) in
   let mp := (5 * doy + 2) `div` 153 in
   let d := doy - (153 * mp + 2) `div` 5 + 1 in
   let m := if mp <? 10 then mp + 3 else mp - 9 in
   (yoe + era * 400 + (if m <=? 2 then 1 else 0), m, d))%Z.
Definition format_minute (t : Z) : string :=
  let secs := (t `div` 1000000000)%Z in
  let '(y, m, d) := civil (secs `div` 86400) in
  let s := (secs `mod` 86400)%Z in
  pad 4 y +:+ "-" +:+ pad 2 m +:+ "-" +:+ pad 2 d +:+ " " +:+ pad 2 (s `div` 3600) +:+ ":" +:+
  pad 2 ((s `mod` 3600) `div` 60) +:+ " UTC".
Example format_minute_ex :
  format_minute 1709210096000000000 = "2024-02-29 12:34 UTC" ∧
  format_minute 0 = "1970-01-01 00:00 UTC".
Proof. by vm_compute. Qed.

(** ** Texts *)
(** src: internal/scm/body.go 31-40 Title *)
Definition Title (command role : string) : string :=
  let line := runes (TrimSpace (hd "" (SplitN (TrimSpace command) nl 2))) in
  let line := if decide (80 < length line)%nat then take 80 line ++ [8230%N] else line in
  if role =? "" then "[DevSquad] " +:+ of_runes line
  else "[DevSquad] " +:+ of_runes line +:+ " (" +:+ role +:+ ")".
(** src: internal/scm/body.go 41-43 cell *)
Definition cell (s : string) : string :=
  ReplaceAll (chr 10) " " (ReplaceAll (chr 124) "\|" (TrimSpace s)).
(** src: internal/scm/body.go 44-46 quote *)
Definition quote (s : string) : string := "> " +:+ ReplaceAll (chr 10) (nl +:+ "> ") (TrimSpace s).

Definition bt : string := String (chr 96) EmptyString.
(** src: internal/scm/body.go 50-60 Body (stage) *)
Definition stage_text (r : Report) (s : StageReport) : string :=
  nl +:+ "### " +:+ sg_Key s +:+ " (" +:+ sg_Role s +:+ ")" +:+ nl +:+ nl +:+
  (if (sg_Ref s ≠? "") && (rp_WebURL r ≠? "") && (sg_Branch s ≠? "") then
     "- 산출물: [" +:+ sg_Ref s +:+ "](" +:+ TrimRight (rp_WebURL r) "/" +:+ "/" +:+ rp_Owner r +:+
     "/" +:+ rp_Repo r +:+ "/blob/" +:+ sg_Branch s +:+ "/" +:+ sg_Ref s +:+ ")" +:+ nl
   else if sg_Ref s ≠? "" then "- 산출물: " +:+ bt +:+ sg_Ref s +:+ bt +:+ nl else "") +:+
  (if TrimSpace (sg_Summary s) ≠? "" then nl +:+ quote (sg_Summary s) +:+ nl else "").
(** src: internal/scm/body.go 64-68 Body (approval row) *)
Definition approval_row (key : string) (a : ApprovalReport) : string :=
  "| " +:+ key +:+ " | " +:+ ap_Kind a +:+ " | v" +:+ fmt_d (int64 (ap_RetryNo a + 1)) +:+ " | " +:+
  ap_Status a +:+ " | " +:+ cell (ap_DecidedBy a) +:+ " | " +:+
  (if ap_DecidedAt a is Some t then format_minute t else "") +:+ " | " +:+ cell (ap_Feedback a) +:+
  " |" +:+ nl.
(** src: internal/scm/body.go 47-73 Body *)
Definition Body (r : Report) : string :=
  "## Task" +:+ nl +:+ nl +:+ quote (rp_Command r) +:+ nl +:+ nl +:+ "Task ID: " +:+ bt +:+
  rp_TaskID r +:+ bt +:+ nl +:+ nl +:+ "## 단계별 산출물" +:+ nl +:+
  String.concat "" (map (stage_text r) (rp_Stages r)) +:+
  nl +:+ "## 승인 이력" +:+ nl +:+ nl +:+
  "| 단계 | 종류 | 버전 | 결정 | 결정자 | 시각 | 피드백 |" +:+ nl +:+ "|---|---|---|---|---|---|---|" +:+ nl +:+
  String.concat "" (map (λ s, String.concat "" (map (approval_row (sg_Key s)) (sg_Approvals s)))
                      (rp_Stages r)) +:+
  nl +:+ "---" +:+ nl +:+ "DevSquad가 사람의 승인을 거친 산출물로 만든 PR입니다." +:+ nl.

(** ** The hosting service ([publisher.go]) *)
(** src: internal/scm/publisher.go 5-7 PullRequest *)
Record PullRequest := MkPullRequest {
  pr_Owner : string; pr_Repo : string; pr_Head : string; pr_Base : string; pr_Title : string;
  pr_Body : string }.
(** src: internal/scm/publisher.go 8-12 Opened *)
Record Opened := MkOpened { od_URL : string; od_Number : Z; od_Created : bool }.
(** src: internal/scm/publisher.go 16-24 Publisher *)
Record Publisher (S : Type) := MkPublisher {
  pb_Open : PullRequest → io S Opened;
  pb_RemoteURL : string → string → string;
  pb_Web : string;
  pb_GitHeader : string }.
Arguments pb_Open {S}. Arguments pb_RemoteURL {S}. Arguments pb_Web {S}. Arguments pb_GitHeader {S}.

(** ** GitHub ([github.go]) *)
(** src: internal/scm/github.go 26-29 pull *)
Record pull := MkPull { pl_Number : Z; pl_URL : string }.
(** src: internal/scm/github.go 19-25 GitHub *)
Record GitHub := MkGitHub {
  gh_Token : string; gh_APIURL : string; gh_GitURL : string; gh_WebURL : string }.
(** src: internal/scm/github.go 31-33 GitHub.RemoteURL *)
Definition RemoteURL (g : GitHub) (owner repo : string) : string :=
  TrimRight (gh_GitURL g) "/" +:+ "/" +:+ owner +:+ "/" +:+ repo +:+ ".git".
(** src: internal/scm/github.go 34-39 GitHub.Web *)
Definition Web (g : GitHub) : string :=
  if gh_WebURL g ≠? "" then TrimRight (gh_WebURL g) "/" else TrimRight (gh_GitURL g) "/".

(** [base64.StdEncoding.EncodeToString] *)
Definition base64_digit (n : N) : Ascii.ascii :=
  chr (if n <? 26 then 65 + n else if n <? 52 then 71 + n else if n <? 62 then n - 4
       else if n =? 62 then 43 else 47)%N.
Fixpoint base64 (l : list Ascii.ascii) : string :=
  match l with
  | [] => ""
  | [a] => let x := byte_of a in
           String (base64_digit (x / 4)) (String (base64_digit (x `mod` 4 * 16)) "==")
  | [a; b] => let x := byte_of a in let y := byte_of b in
              String (base64_digit (x / 4)) (String (base64_digit (x `mod` 4 * 16 + y / 16))
                (String (base64_digit (y `mod` 16 * 4)) "="))
  | a :: b :: c :: l =>
    let x := byte_of a in let y := byte_of b in let z := byte_of c in
    String (base64_digit (x / 4)) (String (base64_digit (x `mod` 4 * 16 + y / 16))
      (String (base64_digit (y `mod` 16 * 4 + z / 64)) (String (base64_digit (z `mod` 64)) (base64 l))))
  end%N.
Example base64_ex : base64 (String.list_ascii_of_string "x-access-token:t") = "eC1hY2Nlc3MtdG9rZW46dA==".
Proof. by vm_compute. Qed.
(** src: internal/scm/github.go 40-42 GitHub.GitHeader *)
Definition GitHeader (g : GitHub) : string :=
  "Authorization: Basic " +:+ base64 (String.list_ascii_of_string ("x-access-token:" +:+ gh_Token g)).

(** [url.QueryEscape], byte by byte. *)
Definition unreserved (n : N) : bool :=
  (((65 <=? n) && (n <=? 90)) || ((97 <=? n) && (n <=? 122)) || ((48 <=? n) && (n <=? 57))
   || (n =? 45) || (n =? 95) || (n =? 46) || (n =? 126))%N.
Definition hex_upper (n : N) : Ascii.ascii := chr (if n <? 10 then 48 + n else 55 + n)%N.
Fixpoint QueryEscape (s : string) : string :=
  match s with
  | EmptyString => ""
  | String c s =>
    (if unreserved (byte_of c) then String c ""
     else if (byte_of c =? 32)%N then "+"
     else String (chr 37) (String (hex_upper (byte_of c / 16)) (String (hex_upper (byte_of c `mod` 16)) "")))
    +:+ QueryEscape s
  end.

(** A request, and what the client gets: no response, or a status with its body (of which
    the first mebibyte is read), whose reading may fail. *)
Record Request := MkRequest {
  rq_Method : string; rq_URL : string; rq_Token : string; rq_Body : option json }.
Abbreviation Transport S := (Request → io S (Z * result RawMessage)).

(** A field of the failure document; a field of another type is left empty. *)
Definition lenient (o : option json) : string := if o is Some (JStr s) then s else "".
(** src: internal/scm/github.go 108-118 GitHub.call (failure) *)
Definition failure_messages (raw : RawMessage) : list string :=
  match raw_json raw with
  | Some j =>
    lenient (json_field "message" j) ::
    match json_field "errors" j with
    | Some (JArr l) => map (λ e, lenient (json_field "message" e)) l
    | _ => []
    end
  | None => [""]
  end.

Definition decode_pull : json → result pull :=
  un_object (MkPull 0 "") (λ j,
    n ← un_int (member "number" j); u ← un_string (member "html_url" j); Ok (MkPull n u)).
Definition decode_pulls (j : json) : result (list pull) :=
  match j with JNull => Ok [] | JArr l => un_list decode_pull l | _ => type_error end.
(** [json.Unmarshal(raw, out)]; a nil [out] decodes nothing. *)
Definition unmarshal {A} (f : json → result A) (raw : RawMessage) : result A :=
  match raw_json raw with Some j => f j | None => Err (ErrorText "json: invalid document") end.
Definition no_out (raw : RawMessage) : result unit := Ok tt.

Module Client.
Section github.
Context {S : Type} (g : GitHub) (transport : Transport S).

(** The status, 0 when there is none, and the decoded response.
    src: internal/scm/github.go 75-128 GitHub.call *)
Definition call {A} (method path : string) (body : option json) (out : RawMessage → result A)
    : io S (Z * result A) :=
  r ← attempt (transport (MkRequest method (TrimRight (gh_APIURL g) "/" +:+ path) (gh_Token g) body));
  match r with
  | Err e => mret (0%Z, Err e)
  | Ok (status, Err e) => mret (status, Err e)
  | Ok (status, Ok raw) =>
    if (300 <=? status)%Z then
      mret (status, Err (ErrorText ("github " +:+ method +:+ " " +:+ hd "" (SplitN path "?" 2) +:+
        ": " +:+ fmt_d status +:+ " " +:+ Join "; " (failure_messages raw))))
    else match out raw with
         | Ok a => mret (status, Ok a)
         | Err e => mret (status, Err (ErrorText ("github " +:+ method +:+ " " +:+ path +:+
             ": invalid response" +:+ nl +:+ error_text e)))
         end
  end.
Definition repo_path (pr : PullRequest) : string :=
  "/repos/" +:+ pr_Owner pr +:+ "/" +:+ pr_Repo pr +:+ "/pulls".
(** [url.Values.Encode] orders the keys.
    src: internal/scm/github.go 69-70 GitHub.find (path) *)
Definition find_path (pr : PullRequest) : string :=
  repo_path pr +:+ "?head=" +:+ QueryEscape (pr_Owner pr +:+ ":" +:+ pr_Head pr) +:+ "&state=open".
(** src: internal/scm/github.go 67-74 GitHub.find *)
Definition find_pull (pr : PullRequest) : io S (option pull) :=
  '(_, r) ← call "GET" (find_path pr) None (unmarshal decode_pulls);
  match r with
  | Err e => raise e
  | Ok l => mret (head l)
  end.
Definition patch_path (pr : PullRequest) (found : pull) : string :=
  repo_path pr +:+ "/" +:+ fmt_d (pl_Number found).
Definition create_body (pr : PullRequest) : json :=
  JObj [("title", JStr (pr_Title pr)); ("head", JStr (pr_Head pr)); ("base", JStr (pr_Base pr));
        ("body", JStr (pr_Body pr))].
Definition update_body (pr : PullRequest) : json :=
  JObj [("title", JStr (pr_Title pr)); ("body", JStr (pr_Body pr))].
(** Another publisher may have opened it first: a 422 looks again.
    src: internal/scm/github.go 48-61 GitHub.Open (create) *)
Definition create (pr : PullRequest) : io S (Opened + pull) :=
  '(status, r) ← call "POST" (repo_path pr) (Some (create_body pr)) (unmarshal decode_pull);
  match r with
  | Ok created => mret (inl (MkOpened (pl_URL created) (pl_Number created) true))
  | Err e =>
    if negb (status =? 422)%Z then raise e else
    again ← attempt (find_pull pr);
    match again with
    | Ok (Some found) => mret (inr found)
    | _ => raise e
    end
  end.
(** src: internal/scm/github.go 43-66 GitHub.Open *)
Definition Open (pr : PullRequest) : io S Opened :=
  found ← find_pull pr;
  o ← (if found is Some found then mret (inr found) else create pr);
  match o with
  | inl opened => mret opened
  | inr found =>
    '(_, r) ← call "PATCH" (patch_path pr found) (Some (update_body pr)) no_out;
    match r with
    | Err e => raise e
    | Ok _ => mret (MkOpened (pl_URL found) (pl_Number found) false)
    end
  end.
(** src: internal/scm/publisher.go 16-24 Publisher (GitHub) *)
Definition github_publisher : Publisher S :=
  MkPublisher S Open (RemoteURL g) (Web g) (GitHeader g).
End github.

(** ** Opening is idempotent

    The service as it documents its pull requests, over literal requests: the URL of a list is
    taken apart as the service takes it apart, and a body by its members. *)
(** [%XX] and [+] undone. *)
Definition hex_value (c : Ascii.ascii) : N :=
  let n := byte_of c in if (n <? 58)%N then n - 48 else if (n <? 91)%N then n - 55 else n - 87.
Fixpoint QueryUnescape (s : string) : string :=
  match s with
  | String a (String b (String c s') as t) =>
    if (byte_of a =? 37)%N then String (chr (16 * hex_value b + hex_value c)) (QueryUnescape s')
    else String (if (byte_of a =? 43)%N then chr 32 else a) (QueryUnescape t)
  | String a t => String (if (byte_of a =? 43)%N then chr 32 else a) (QueryUnescape t)
  | EmptyString => ""
  end.
(** A query by its parameters; the value of one of them. *)
Definition parameter (part : string) : string * string :=
  match Cut part "=" with
  | Some (k, v) => (QueryUnescape k, QueryUnescape v)
  | None => (QueryUnescape part, "")
  end.
Definition parameters (query : string) : list (string * string) :=
  map parameter (Split (chr 38) query).
Definition value_of (name : string) (l : list (string * string)) : option string :=
  snd <$> find (λ kv, kv.1 =? name) l.

Lemma QueryUnescape_cons c t :
  QueryUnescape (QueryEscape (String c "") +:+ QueryEscape t) =
  String c (QueryUnescape (QueryEscape t)).
Proof.
  generalize (QueryEscape t). intros u.
  destruct c as [[] [] [] [] [] [] [] []], u as [|d [|e u]]; reflexivity.
Qed.
Lemma QueryUnescape_Escape s : QueryUnescape (QueryEscape s) = s.
Proof.
  induction s as [|c s IH]; [done|].
  change (QueryEscape (String c s)) with
    ((if unreserved (byte_of c) then String c "" else if (byte_of c =? 32)%N then "+"
      else String (chr 37) (String (hex_upper (byte_of c / 16))
             (String (hex_upper (byte_of c `mod` 16)) ""))) +:+ QueryEscape s).
  transitivity (QueryUnescape (QueryEscape (String c "") +:+ QueryEscape s)).
  { simpl. by rewrite string_app_nil. }
  by rewrite QueryUnescape_cons, IH.
Qed.
(** An escaped value has neither separator in it. *)
Lemma QueryEscape_lacks c s : c = chr 38 ∨ c = chr 61 → lacks c (QueryEscape s) = true.
Proof.
  intros Hc. induction s as [|a s IH]; [done|]. simpl.
  assert (∀ x y, lacks c x = true → lacks c y = true → lacks c (x +:+ y) = true) as Happ.
  { clear. intros x y. induction x as [|b x IH]; [done|]. simpl. rewrite !andb_true_iff.
    intros [? ?] ?. split; [done|by apply IH]. }
  apply Happ; [|exact IH]. clear IH.
  destruct Hc as [-> | ->], a as [[] [] [] [] [] [] [] []]; reflexivity.
Qed.

(** A pull request of the repository; its head is the user and the branch. *)
Record Row := MkRow {
  rw_Pull : pull; rw_Open : bool; rw_Head : string; rw_Base : string; rw_Title : string;
  rw_Body : string }.
(** What the parameters of a list select: the open ones unless [state] says otherwise, and by
    head and base when these are given. *)
Definition is_param (o : option string) (v : string) : bool :=
  if o is Some x then v =? x else true.
Definition selects (q : list (string * string)) (row : Row) : bool :=
  (match value_of "state" q with
   | None | Some "open" => rw_Open row
   | Some "all" => true
   | _ => negb (rw_Open row)
   end)
  && is_param (value_of "head" q) (rw_Head row) && is_param (value_of "base" q) (rw_Base row).
(** A member of a body, if it is there. *)
Definition field (name old : string) (j : json) : string :=
  default old (json_field name j ≫= json_string).
Definition edited (n : Z) (j : json) (row : Row) : Row :=
  if (pl_Number (rw_Pull row) =? n)%Z
  then MkRow (rw_Pull row) (rw_Open row) (rw_Head row) (rw_Base row)
         (field "title" (rw_Title row) j) (field "body" (rw_Body row) j)
  else row.
(** What the service does with the requests for one repository.  [rows] are its pull requests,
    newest first.  A list that is answered holds the first page of what it selects.  A creation
    that is answered adds one; any other outcome, a lost answer included, may have added
    some, the client's or other people's.  An update may be lost or applied, and is applied
    when it is answered.  Everything else that the service may answer changes nothing. *)
Class GitHubServer {S} (g : GitHub) (transport : Transport S) (owner repo : string)
    (rows : S → list Row) : Prop := {
  server_list query σ r σ' :
    transport (MkRequest "GET" (TrimRight (gh_APIURL g) "/" +:+ "/repos/" +:+ owner +:+ "/" +:+
      repo +:+ "/pulls?" +:+ query) (gh_Token g) None) σ = (r, σ') →
    rows σ' = rows σ ∧
    ∀ status raw, r = Ok (status, Ok raw) → (status < 300)%Z →
      unmarshal decode_pulls raw =
        Ok (take 30 (rw_Pull <$> List.filter (selects (parameters query)) (rows σ)));
  server_create head j σ r σ' :
    json_field "head" j = Some (JStr head) → Contains head ":" = false →
    transport (MkRequest "POST" (TrimRight (gh_APIURL g) "/" +:+ "/repos/" +:+ owner +:+ "/" +:+
      repo +:+ "/pulls") (gh_Token g) (Some j)) σ = (r, σ') →
    (∃ status raw p, r = Ok (status, Ok raw) ∧ (status < 300)%Z ∧
       unmarshal decode_pull raw = Ok p ∧
       rows σ' = MkRow p true (owner +:+ ":" +:+ head) (field "base" "" j) (field "title" "" j)
                   (field "body" "" j) :: rows σ) ∨
    ((∀ status raw, r = Ok (status, Ok raw) → (300 ≤ status)%Z) ∧
     ∃ added, rows σ' = added ++ rows σ);
  server_update n j σ r σ' :
    transport (MkRequest "PATCH" (TrimRight (gh_APIURL g) "/" +:+ "/repos/" +:+ owner +:+ "/" +:+
      repo +:+ "/pulls/" +:+ fmt_d n) (gh_Token g) (Some j)) σ = (r, σ') →
    (rows σ' = map (edited n j) (rows σ) ∨ rows σ' = rows σ) ∧
    ∀ status body, r = Ok (status, body) → (status < 300)%Z →
      rows σ' = map (edited n j) (rows σ) }.

Section idempotent.
Context {S : Type} (g : GitHub) (transport : Transport S) (pr : PullRequest) (rows : S → list Row).
Context {HS : GitHubServer g transport (pr_Owner pr) (pr_Repo pr) rows}.
Hypothesis (Branch : Contains (pr_Head pr) ":" = false).

(** The open pull requests of the branch, newest first. *)
Definition mine (row : Row) : bool :=
  rw_Open row && (rw_Head row =? pr_Owner pr +:+ ":" +:+ pr_Head pr).
Definition newest (σ : S) : option Row := find mine (rows σ).
(** The pull requests that there are, whatever their texts. *)
Definition pulls (σ : S) : list pull := rw_Pull <$> rows σ.

Lemma query_selects row :
  selects (parameters ("head=" +:+ QueryEscape (pr_Owner pr +:+ ":" +:+ pr_Head pr) +:+
    "&state=open")) row = mine row.
Proof.
  set (h := pr_Owner pr +:+ ":" +:+ pr_Head pr).
  assert (parameters ("head=" +:+ QueryEscape h +:+ "&state=open") =
          [("head", h); ("state", "open")]) as ->.
  { unfold parameters. change ("&state=open") with (String (chr 38) "state=open").
    rewrite string_app_assoc, Split_app, Split_lacks.
    - change (map parameter (["head=" +:+ QueryEscape h] ++ Split (chr 38) "state=open")) with
        [parameter ("head" +:+ String (chr 61) (QueryEscape h)); ("state", "open")].
      unfold parameter. rewrite (Cut_first (chr 61) "head") by done.
      by rewrite QueryUnescape_Escape.
    - apply (QueryEscape_lacks (chr 38) h). by left. }
  unfold selects, mine, value_of. simpl. by rewrite andb_true_r.
Qed.
Lemma head_find {A} (f : A → bool) l : head (List.filter f l) = find f l.
Proof. induction l as [|x l IH]; [done|]. simpl. by destruct (f x). Qed.
Lemma find_pull_newest σ r σ' :
  find_pull g transport pr σ = (r, σ') →
  rows σ' = rows σ ∧ ∀ x, r = Ok x → x = rw_Pull <$> newest σ.
Proof.
  intros H. unfold find_pull, call, mbind, io_bind, attempt in H.
  destruct (transport _ σ) as [t σ1] eqn:Ht.
  assert (find_path pr = "/repos/" +:+ pr_Owner pr +:+ "/" +:+ pr_Repo pr +:+ "/pulls?" +:+
    ("head=" +:+ QueryEscape (pr_Owner pr +:+ ":" +:+ pr_Head pr) +:+ "&state=open")) as Ep.
  { unfold find_path, repo_path. by rewrite <- !string_app_assoc. }
  rewrite Ep in Ht. apply server_list in Ht as [Hsame Hl].
  destruct t as [[status [raw|e]]|e]; simpl in H; [|by injection H as <- <-..].
  destruct (Z.leb_spec 300 status); [by injection H as <- <-|].
  rewrite (Hl _ _ eq_refl) in H by lia. injection H as <- <-. split; [done|].
  intros x [= <-]. unfold newest.
  rewrite (filter_ext _ _ query_selects), <- head_find. by destruct (List.filter mine (rows σ)).
Qed.

Lemma edited_pull n j row : rw_Pull (edited n j row) = rw_Pull row.
Proof. unfold edited. by case_match. Qed.
Lemma edited_mine n j row : mine (edited n j row) = mine row.
Proof. unfold edited. by case_match. Qed.
Lemma newest_edited n j l : find mine (map (edited n j) l) = edited n j <$> find mine l.
Proof. induction l as [|row l IH]; [done|]. simpl. rewrite edited_mine. by destruct (mine row). Qed.
Lemma pulls_edited n j l : rw_Pull <$> map (edited n j) l = rw_Pull <$> l.
Proof. induction l as [|row l IH]; [done|]. cbn [map]. by rewrite !fmap_cons, edited_pull, IH. Qed.

(** An update of a pull request that is there. *)
Lemma patch_newest σ row status r σ' :
  newest σ = Some row →
  call g transport "PATCH" (patch_path pr (rw_Pull row)) (Some (update_body pr)) no_out σ =
    (Ok (status, r), σ') →
  pulls σ' = pulls σ ∧ ∃ row', newest σ' = Some row' ∧ rw_Pull row' = rw_Pull row ∧
    (r = Ok tt → rw_Title row' = pr_Title pr ∧ rw_Body row' = pr_Body pr).
Proof.
  intros Hrow H. unfold call, mbind, io_bind, attempt in H.
  destruct (transport _ σ) as [t σ1] eqn:Ht.
  assert (patch_path pr (rw_Pull row) = "/repos/" +:+ pr_Owner pr +:+ "/" +:+ pr_Repo pr +:+
    "/pulls/" +:+ fmt_d (pl_Number (rw_Pull row))) as Ep.
  { unfold patch_path, repo_path. by rewrite <- !string_app_assoc. }
  rewrite Ep in Ht. apply server_update in Ht as [Hsome Hok].
  assert (σ' = σ1) as ->.
  { destruct t as [[st [raw|e]]|e]; simpl in H; [|by injection H..].
    destruct (300 <=? st)%Z; by injection H. }
  assert (r = Ok tt → rows σ1 = map (edited (pl_Number (rw_Pull row)) (update_body pr)) (rows σ))
    as Hdone.
  { intros ->. destruct t as [[st [raw|e]]|e]; simpl in H; [|by injection H..].
    destruct (Z.leb_spec 300 st); [by injection H|]. by apply (Hok st (Ok raw)). }
  unfold pulls, newest in *. split.
  { destruct Hsome as [-> | ->]; [apply pulls_edited|done]. }
  destruct r as [[]|e].
  - rewrite Hdone, newest_edited, Hrow by done. eexists. split; [done|].
    rewrite edited_pull. split; [done|]. intros _. unfold edited. by rewrite Z.eqb_refl.
  - destruct Hsome as [-> | ->].
    + rewrite newest_edited, Hrow. eexists. split; [done|]. by rewrite edited_pull.
    + by exists row.
Qed.
(** A creation, when the branch has no open pull request. *)
Lemma create_newest σ r σ' :
  newest σ = None → create g transport pr σ = (r, σ') →
  match r with
  | Ok (inl o) => ∃ row, rows σ' = row :: rows σ ∧ newest σ' = Some row ∧ od_Created o = true ∧
      rw_Pull row = MkPull (od_Number o) (od_URL o) ∧ rw_Title row = pr_Title pr ∧
      rw_Body row = pr_Body pr ∧ rw_Base row = pr_Base pr
  | Ok (inr p) => (∃ added, rows σ' = added ++ rows σ) ∧ rw_Pull <$> newest σ' = Some p
  | Err _ => ∃ added, rows σ' = added ++ rows σ
  end.
Proof.
  intros Hn H. unfold create, call, mbind, io_bind, attempt in H.
  destruct (transport _ σ) as [t σ1] eqn:Ht. unfold repo_path in Ht.
  apply (server_create (pr_Head pr)) in Ht; [|done..].
  destruct Ht as [(st & raw & p & -> & Hst & Hp & Hrows)|[Hst [added Hrows]]].
  { simpl in H. destruct (Z.leb_spec 300 st); [lia|]. rewrite Hp in H. injection H as <- <-.
    eexists. split; [exact Hrows|]. unfold newest. rewrite Hrows. unfold mine at 1. simpl.
    rewrite String.eqb_refl. split_and!; try done. by destruct p. }
  assert ((∃ e, r = Err e ∧ σ' = σ1) ∨
    ∃ e, (let '(again, σ2) := find_pull g transport pr σ1 in
      (match again with Ok (Some found) => Ok (inr found) | _ => Err e end, σ2)) = (r, σ'))
    as [(e & -> & ->)|(e & Hagain)].
  { assert (∀ (st : Z) e, ((if negb (st =? 422)%Z then raise e else
        again ← attempt (find_pull g transport pr);
        match again with Ok (Some found) => mret (inr found) | _ => raise e end)
        : io S (Opened + pull)) σ1 = (r, σ') →
      (∃ e, r = Err e ∧ σ' = σ1) ∨
      ∃ e, (let '(again, σ2) := find_pull g transport pr σ1 in
        (match again with Ok (Some found) => Ok (inr found) | _ => Err e end, σ2)) = (r, σ')) as Hgo.
    { intros st e. destruct (negb _); [intros [= <- <-]; left; by exists e|].
      unfold mbind, io_bind, attempt. intros E. right. exists e. rewrite <- E.
      by destruct (find_pull _ _ _ σ1) as [[[x|]|e'] σ2]. }
    destruct t as [[st [raw|e]]|e]; [|exact (Hgo st e H)|exact (Hgo 0%Z e H)].
    cbn -[Z.leb] in H. destruct (Z.leb_spec 300 st); [exact (Hgo st _ H)|]. specialize (Hst _ _ eq_refl).
    lia. }
  { by exists added. }
  destruct (find_pull _ _ _ σ1) as [again σ2] eqn:Hf. apply find_pull_newest in Hf as [Hs Hf].
  injection Hagain as <- <-. rewrite Hs. destruct again as [[found|]|e']; [|by exists added..].
  split; [by exists added|]. unfold newest. rewrite Hs. by rewrite (Hf _ eq_refl).
Qed.

(** One opening. *)
Lemma Open_newest σ r σ' :
  Open g transport pr σ = (r, σ') →
  (∃ added, pulls σ' = added ++ pulls σ) ∧
  (∀ row, newest σ = Some row → pulls σ' = pulls σ ∧
     ∀ o, r = Ok o → o = MkOpened (pl_URL (rw_Pull row)) (pl_Number (rw_Pull row)) false) ∧
  ∀ o, r = Ok o →
    (∃ row, newest σ' = Some row ∧ rw_Pull row = MkPull (od_Number o) (od_URL o) ∧
       rw_Title row = pr_Title pr ∧ rw_Body row = pr_Body pr) ∧
    (od_Created o = true → pulls σ' = MkPull (od_Number o) (od_URL o) :: pulls σ).
Proof.
  intros H. unfold Open, mbind at 1, io_bind in H.
  destruct (find_pull g transport pr σ) as [rf σ1] eqn:Hf.
  apply find_pull_newest in Hf as [Hs Hf].
  assert (newest σ1 = newest σ) as En by (unfold newest; by rewrite Hs).
  assert (pulls σ1 = pulls σ) as Epl by (unfold pulls; by rewrite Hs).
  destruct rf as [x|e].
  2: { injection H as <- <-. rewrite Epl. split_and!; [by exists []|done|done]. }
  rewrite (Hf _ eq_refl), <- En in H. clear Hf x.
  (* the update of what was found *)
  assert (∀ σ2 row, newest σ2 = Some row →
    ('(_, r) ← call g transport "PATCH" (patch_path pr (rw_Pull row)) (Some (update_body pr)) no_out;
     match r with
     | Err e => raise e
     | Ok _ => mret (MkOpened (pl_URL (rw_Pull row)) (pl_Number (rw_Pull row)) false)
     end) σ2 = (r, σ') →
    pulls σ' = pulls σ2 ∧ ∀ o, r = Ok o →
      o = MkOpened (pl_URL (rw_Pull row)) (pl_Number (rw_Pull row)) false ∧
      ∃ row', newest σ' = Some row' ∧ rw_Pull row' = rw_Pull row ∧
        rw_Title row' = pr_Title pr ∧ rw_Body row' = pr_Body pr) as Hpatch.
  { clear H. intros σ2 row Hrow H. unfold mbind, io_bind in H.
    destruct (call _ _ _ _ _ _ σ2) as [[[status rc]|e] σ3] eqn:Hc.
    - apply (patch_newest _ row) in Hc as [Hp (row' & H1 & H2 & H3)]; [|done].
      destruct rc as [[]|e]; injection H as <- <-; (split; [done|]); [|done].
      intros o [= <-]. split; [done|]. exists row'. by destruct (H3 eq_refl).
    - exfalso. revert Hc. unfold call, mbind, io_bind, attempt.
      destruct (transport _ σ2) as [[[st [raw|e']]|e'] σ4]; simpl; [|done..].
      by destruct (300 <=? st)%Z. }
  unfold mbind at 1, io_bind in H. destruct (newest σ1) as [row|] eqn:Hrow; simpl in H.
  - apply (Hpatch σ1 row Hrow) in H as [Hp Ho]. rewrite Hp, Epl. split_and!; [by exists []| |].
    + intros row0 E. rewrite <- En in E. injection E as <-. split; [done|].
      intros o Hr. by destruct (Ho o Hr).
    + intros o Hr. destruct (Ho o Hr) as [-> (row' & ? & E & ? & ?)]. split; [|done].
      exists row'. rewrite E. by destruct (rw_Pull row).
  - destruct (create g transport pr σ1) as [rc σ2] eqn:Hc.
    apply create_newest in Hc; [|done]. rewrite <- En. destruct rc as [[o|p]|e].
    + injection H as <- <-. destruct Hc as (row & Hr & Hn & Hcr & Hp & Ht & Hb & _).
      assert (pulls σ2 = MkPull (od_Number o) (od_URL o) :: pulls σ) as ->.
      { rewrite <- Epl. unfold pulls. by rewrite Hr, fmap_cons, Hp. }
      split_and!; [by eexists [_]|done|]. intros o' [= <-]. split; [by exists row|done].
    + destruct Hc as [[added Hr] Hn]. destruct (newest σ2) as [row|] eqn:Hrow2; [|done].
      injection Hn as <-. apply (Hpatch σ2 row Hrow2) in H as [Hp Ho].
      assert (pulls σ2 = (rw_Pull <$> added) ++ pulls σ) as E2.
      { rewrite <- Epl. unfold pulls. by rewrite Hr, fmap_app. }
      rewrite Hp, E2. split_and!; [by eexists|done|].
      intros o Hr'. destruct (Ho o Hr') as [-> (row' & ? & E & ? & ?)]. split; [|done].
      exists row'. rewrite E. by destruct (rw_Pull row).
    + injection H as <- <-. destruct Hc as [added Hr].
      assert (pulls σ2 = (rw_Pull <$> added) ++ pulls σ) as E2.
      { rewrite <- Epl. unfold pulls. by rewrite Hr, fmap_app. }
      rewrite E2. split_and!; [by eexists|done|done].
Qed.

(** C28: opening a pull request for a branch (whose name has no colon), at a service where
    nobody else changes the open pull requests of the branch meanwhile, except that somebody
    may open one before a creation that then fails; any request may fail or lose its answer.
    When it succeeds it answers with the newest open pull request of the branch, which then has
    the title and the body asked for: the one that was open before, if any, and then none is
    added; else one that it created, and then exactly that one is added, or one that somebody
    else opened.  Opening again, whether that succeeds or fails, adds none, and answers with
    the same one as not created.  When it fails none is removed, and none is added either if
    one was open before. *)
Theorem Open_idempotent σ r σ1 :
  Open g transport pr σ = (r, σ1) →
  (∃ added, pulls σ1 = added ++ pulls σ) ∧
  (∀ row, newest σ = Some row → pulls σ1 = pulls σ ∧
     ∀ o, r = Ok o → o = MkOpened (pl_URL (rw_Pull row)) (pl_Number (rw_Pull row)) false) ∧
  ∀ o, r = Ok o →
    (∃ row, newest σ1 = Some row ∧ rw_Pull row = MkPull (od_Number o) (od_URL o) ∧
       rw_Title row = pr_Title pr ∧ rw_Body row = pr_Body pr) ∧
    (od_Created o = true → pulls σ1 = MkPull (od_Number o) (od_URL o) :: pulls σ) ∧
    ∀ r2 σ2, Open g transport pr σ1 = (r2, σ2) →
      pulls σ2 = pulls σ1 ∧
      ∀ o2, r2 = Ok o2 → o2 = MkOpened (od_URL o) (od_Number o) false.
Proof.
  intros H. destruct (Open_newest _ _ _ H) as (Hadd & Hold & Hnew). split_and!; [done..|].
  intros o Hr. destruct (Hnew o Hr) as [(row & Hn & Hp & Ht & Hb) Hc].
  split_and!; [by exists row|done|]. intros r2 σ2 H2.
  destruct (Open_newest _ _ _ H2) as (_ & Hsame & _). destruct (Hsame row Hn) as [E Ho].
  split; [done|]. intros o2 Hr2. rewrite (Ho o2 Hr2), Hp. done.
Qed.
End idempotent.

(** A server with the pull requests of one repository. *)
Definition demo_pr : PullRequest := MkPullRequest "o" "r" "devsquad/t1" "main" "T" "B".
Definition demo_github : GitHub := MkGitHub "tok" "https://api/" "https://git/" "".
Definition pull_json (p : pull) : json :=
  JObj [("number", JNum (pl_Number p)); ("html_url", JStr (pl_URL p))].
Definition demo_url : string := "https://api/repos/o/r/pulls".
Definition demo_next (σ : list Row) : pull :=
  MkPull (1 + fold_left Z.max (map (λ row, pl_Number (rw_Pull row)) σ) 0)%Z "https://git/o/r/pull/new".
Definition answer (j : json) : result (Z * result RawMessage) := Ok (200%Z, Ok (MkRaw "" (Some j))).
Definition refusal (status : Z) : result (Z * result RawMessage) := Ok (status, Ok (MkRaw "" None)).
(** A number that the client can read. *)
Definition sound (p : pull) : bool := bool_decide (in_int8 (pl_Number p)).
Definition demo_server : Transport (list Row) := λ rq σ,
  if rq_Method rq =? "GET" then
    match CutPrefix (rq_URL rq) (demo_url +:+ "?") with
    | Some query =>
      let l := take 30 (rw_Pull <$> List.filter (selects (parameters query)) σ) in
      (if forallb sound l then answer (JArr (map pull_json l)) else refusal 500, σ)
    | None => (refusal 404, σ)
    end
  else if rq_Method rq =? "POST" then
    match rq_Body rq with
    | Some j =>
      if sound (demo_next σ) then
        (answer (pull_json (demo_next σ)),
         MkRow (demo_next σ) true ("o:" +:+ field "head" "" j) (field "base" "" j)
           (field "title" "" j) (field "body" "" j) :: σ)
      else (refusal 500, σ)
    | None => (refusal 422, σ)
    end
  else match find (λ row, rq_URL rq =? demo_url +:+ "/" +:+ fmt_d (pl_Number (rw_Pull row))) σ,
             rq_Body rq with
       | Some row, Some j => (answer JNull, map (edited (pl_Number (rw_Pull row)) j) σ)
       | _, _ => (refusal 404, σ)
       end.
Lemma decode_pull_json p : sound p = true → decode_pull (pull_json p) = Ok p.
Proof.
  intros Hp%bool_decide_eq_true. destruct p as [n u]. unfold decode_pull, member. simpl in *.
  by rewrite decide_True.
Qed.
Lemma un_list_pulls l : forallb sound l = true → un_list decode_pull (map pull_json l) = Ok l.
Proof.
  induction l as [|p l IH]; [done|]. cbn [forallb]. intros [Hp Hl]%andb_true_iff.
  change (un_list decode_pull (map pull_json (p :: l))) with
    (a ← decode_pull (pull_json p); l ← un_list decode_pull (map pull_json l); Ok (a :: l)).
  by rewrite decode_pull_json, IH.
Qed.
Lemma CutPrefix_app p t : CutPrefix (p +:+ t) p = Some t.
Proof. unfold CutPrefix. by rewrite HasPrefix_app, drop_string_all. Qed.
#[export] Instance demo_server_laws : GitHubServer demo_github demo_server "o" "r" id.
Proof.
  split; unfold id.
  - intros query σ r σ'. unfold demo_server. cbn [rq_Method rq_URL].
    change (TrimRight _ "/" +:+ _) with (demo_url +:+ "?" +:+ query).
    rewrite string_app_assoc, CutPrefix_app. intros [= <- <-]. split; [done|].
    destruct (forallb sound _) eqn:Hs; [|by intros status raw [= <- _]].
    intros status raw [= <- <-] _. by apply un_list_pulls.
  - intros head j σ r σ' Hhead _. unfold demo_server. cbn [rq_Method rq_Body].
    destruct (sound (demo_next σ)) eqn:Hs; intros [= <- <-].
    2: { right. split; [by intros status raw [= <- _]|by exists []]. }
    left. eexists _, _, (demo_next σ). split_and!; [done|lia| |].
    + by apply decode_pull_json.
    + unfold field at 1. by rewrite Hhead.
  - intros n j σ r σ'. unfold demo_server. cbn [rq_Method rq_URL rq_Body].
    change (TrimRight _ "/" +:+ _) with (demo_url +:+ "/" +:+ fmt_d n).
    destruct (find _ σ) as [row|] eqn:Hf; intros [= <- <-].
    + apply find_some in Hf as [_ E%String.eqb_eq].
      assert (pl_Number (rw_Pull row) = n) as ->; [|split; [by left|done]].
      unfold demo_url, fmt_d in E. simpl in E. by simplify_eq.
    + split; [by right|]. by intros status body [= <- _].
Qed.
Definition demo_rows : list Row :=
  [MkRow (MkPull 7 "https://git/o/r/pull/7") false "o:devsquad/t1" "main" "old" "old"].
Lemma Open_idempotent_witness :
  ∃ o σ1, Open demo_github demo_server demo_pr demo_rows = (Ok o, σ1) ∧ od_Number o = 8%Z ∧
    od_Created o = true ∧
    rw_Pull <$> σ1 = [MkPull 8 "https://git/o/r/pull/new"; MkPull 7 "https://git/o/r/pull/7"] ∧
    ∀ r2 σ2, Open demo_github demo_server demo_pr σ1 = (r2, σ2) → rw_Pull <$> σ2 = rw_Pull <$> σ1.
Proof.
  assert (∃ o σ1, Open demo_github demo_server demo_pr demo_rows = (Ok o, σ1) ∧ od_Number o = 8%Z ∧
    od_Created o = true ∧ rw_Pull <$> σ1 =
      [MkPull 8 "https://git/o/r/pull/new"; MkPull 7 "https://git/o/r/pull/7"])
    as (o & σ1 & Ho & Hn & Hc & Hp).
  { eexists _, _. split; [vm_compute; reflexivity|]. by split_and!. }
  destruct (@Open_idempotent (list Row) demo_github demo_server demo_pr id demo_server_laws eq_refl
    demo_rows (Ok o) σ1 Ho) as (_ & _ & Hnew).
  destruct (Hnew o eq_refl) as (_ & _ & Hagain).
  exists o, σ1. split_and!; [exact Ho|exact Hn|exact Hc|exact Hp|].
  intros r2 σ2 H2. exact (proj1 (Hagain r2 σ2 H2)).
Defined.
End Client.
