(* ===== verification/Publish.v ===== *)
(** * The publisher stage ([internal/orchestrator/publish.go])

    The built-in stage that turns approved work into branches and pull requests.  It reads
    the store, has the workspace build and push branches and the hosting service open pull
    requests; these are the actions of [PublishOps]. *)
From S2P Require Import Prelude GoStrings Protocol Domain Pipeline PipelineJSON Agent Llm Tools.
From S2P Require Import Scm.

(** [BranchCommit] returns the commit, if the branch would differ from the base. *)
Record PublishOps (S : Type) := MkPublishOps {
  po_Project : string → io S ProjectEntity;
  po_Stages : string → io S (list StageEntity);
  po_Approvals : string → io S (list ApprovalEntity);
  po_BranchCommit : string → string → option (list string) → string → io S (string * bool);
  po_Push : string → string → string → string → io S unit;
  po_Emit : string → json → io S unit }.
Arguments po_Project {S}. Arguments po_Stages {S}. Arguments po_Approvals {S}.
Arguments po_BranchCommit {S}. Arguments po_Push {S}. Arguments po_Emit {S}.

(** src: internal/orchestrator/publish.go 22-26 branch *)
Record branch := MkBranch {
  br_role : string; br_name : string; br_source : string; br_patterns : option (list string);
  br_stages : list nat }.

(** ** The report *)
(** src: internal/orchestrator/publish.go 133-137 Orchestrator.report (approvals) *)
Definition approval_reports (s : StageEntity) (approvals : list ApprovalEntity)
    : list ApprovalReport :=
  map (λ a, MkApprovalReport (a_Kind a) (a_RetryNo a) (a_Status a) (Text (a_DecidedBy a))
              (a_DecidedAt a) (Text (a_DecisionFeedback a)))
    (filter (λ a, a_StageID a = s_ID s ∧ a_Status a ≠ "pending") approvals).
(** src: internal/orchestrator/publish.go 128-139 Orchestrator.report (stages) *)
Definition stage_reports (d : Def) (stages : list StageEntity) (approvals : list ApprovalEntity)
    : list StageReport :=
  map (λ s, MkStageReport (s_StageKey s) (s_Role s) "" (Text (s_DeliverableRef s))
              (Text (s_DeliverableSummary s)) (approval_reports s approvals))
    (filter (λ s, s_Status s = "approved" ∧
                  ag_ToolProfile (agent_of d (s_Role s)) ≠ "publisher") stages).

Definition with_Branch (s : StageReport) (name : string) : StageReport :=
  MkStageReport (sg_Key s) (sg_Role s) name (sg_Ref s) (sg_Summary s) (sg_Approvals s).
Definition with_Stages (r : Report) (stages : list StageReport) : Report :=
  MkReport (rp_TaskID r) (rp_Command r) (rp_Owner r) (rp_Repo r) (rp_WebURL r) stages.
Definition with_WebURL (r : Report) (url : string) : Report :=
  MkReport (rp_TaskID r) (rp_Command r) (rp_Owner r) (rp_Repo r) url (rp_Stages r).

(** The branches to publish: one for all stages, or one per role that may write.
    src: internal/orchestrator/publish.go 64-77 Orchestrator.publish (branches) *)
Definition branches (mode : string) (t : TaskEntity) (d : Def) (stages : list StageReport)
    : list branch :=
  if mode =? "single" then
    [MkBranch "all" ("devsquad/" +:+ t_ID t) "HEAD" None (seq 0 (length stages))]
  else
    concat (imap (λ i s,
      let paths := elems (ag_WritePaths (agent_of d (sg_Role s))) in
      if decide (paths = []) then [] else
        [MkBranch (sg_Role s) ("devsquad/" +:+ t_ID t +:+ "/" +:+ sg_Role s)
           ("refs/devsquad/approved/" +:+ sg_Key s) (Some paths) [i]]) stages).
(** src: internal/orchestrator/publish.go 90-92 Orchestrator.publish (report branches) *)
Definition mark_branch (stages : list StageReport) (b : branch) : list StageReport :=
  fold_left (λ l i, alter (λ s, with_Branch s (br_name b)) i l) (br_stages b) stages.

(** src: internal/orchestrator/publish.go 50-58 Orchestrator.publish (plan) *)
Definition plan_content (p : ProjectEntity) (base mode : string) (remote : bool)
    (stages : list StageReport) : string :=
  let target := if remote then p_GithubOwner p +:+ "/" +:+ p_GithubRepo p +:+ " (base: " +:+ base +:+
                                ", " +:+ mode +:+ ")"
                else "없음: 원격 저장소와 연결되지 않은 프로젝트라 PR 초안만 작성합니다" in
  "## PR 계획" +:+ nl +:+ nl +:+ "- 대상: " +:+ target +:+ nl +:+ "- 포함 단계: " +:+
  Join ", " (map sg_Key stages) +:+ nl.

Section publish.
Context {S : Type} (ops : PublishOps S) (scm : option (Publisher S)).

(** src: internal/orchestrator/publish.go 118-141 Orchestrator.report *)
Definition report (t : TaskEntity) (p : ProjectEntity) (d : Def) : io S Report :=
  stages ← po_Stages ops (t_ID t);
  approvals ← po_Approvals ops (t_ID t);
  mret (MkReport (t_ID t) (t_Command t) (p_GithubOwner p) (p_GithubRepo p) ""
          (stage_reports d stages approvals)).

(** A failed push or pull request is a [publishError]: the stage is blocked.
    src: internal/orchestrator/publish.go 15-20 publishError *)
Definition publishing {A} (what : string) (m : io S A) : io S A :=
  r ← attempt m;
  match r with
  | Ok a => mret a
  | Err e => raise (PublishError (ErrorWrap what e))
  end.

(** src: internal/orchestrator/publish.go 79-94 Orchestrator.publish (push) *)
Definition push_branch (pub : Publisher S) (t : TaskEntity)
    (acc : list StageReport * list branch) (b : branch) : io S (list StageReport * list branch) :=
  let '(stages, pushed) := acc in
  '(sha, changed) ← publishing ("build branch " +:+ br_name b)
    (po_BranchCommit ops (t_Workspace t) (br_source b) (br_patterns b)
       (Title (t_Command t) (br_role b)));
  if negb changed then mret (stages, pushed) else
  publishing ("push " +:+ br_name b)
    (po_Push ops (t_Workspace t) sha (br_name b) (pb_GitHeader pub));;
  mret (mark_branch stages b, pushed ++ [b]).
(** src: internal/orchestrator/publish.go 100-113 Orchestrator.publish (open) *)
Definition open_pull (pub : Publisher S) (t : TaskEntity) (p : ProjectEntity)
    (mode base body : string) (links : string) (b : branch) : io S string :=
  let title := Title (t_Command t) (if mode =? "single" then "" else br_role b) in
  pr ← publishing ("open pull request for " +:+ br_name b)
    (pb_Open pub (MkPullRequest (p_GithubOwner p) (p_GithubRepo p) (br_name b) base title body));
  po_Emit ops "pr.opened"
    (JObj [("url", JStr (od_URL pr)); ("number", JNum (od_Number pr)); ("role", JStr (br_role b));
           ("branch", JStr (br_name b)); ("created", JBool (od_Created pr))]);;
  mret (links +:+ "- [#" +:+ fmt_d (od_Number pr) +:+ " " +:+ br_role b +:+ "](" +:+ od_URL pr +:+
        ") · " +:+ bt +:+ br_name b +:+ bt +:+ nl).

(** src: internal/orchestrator/publish.go 31-115 Orchestrator.publish *)
Definition publish (t : TaskEntity) (i : Input) : io S Result :=
  p ← po_Project ops (t_ProjectID t);
  r ← report t p (in_Definition i);
  let policy := pl_Policy (df_Pipeline (in_Definition i)) in
  let mode := if PR_Mode policy =? "" then "single" else PR_Mode policy in
  let base := if PR_BaseBranch policy =? "" then p_DefaultBranch p else PR_BaseBranch policy in
  let remote := if scm is Some _ then Text (p_LocalPath p) =? "" else false in
  if in_Mode i =? "plan"
  then mret (content_result (plan_content p base mode remote (rp_Stages r))) else
  match scm with
  | Some pub =>
    if negb remote then mret (content_result ("## PR 생성 건너뜀" +:+ nl +:+ nl +:+
      "원격 저장소와 연결되지 않은 프로젝트(local_path)라 PR을 만들지 않았습니다. 아래는 PR 본문 초안입니다." +:+
      nl +:+ nl +:+ Body r)) else
    let r := with_WebURL r (pb_Web pub) in
    '(stages, pushed) ← each_fold (push_branch pub t) (rp_Stages r, [])
                          (branches mode t (in_Definition i) (rp_Stages r));
    let r := with_Stages r stages in
    if decide (pushed = []) then mret (content_result ("## PR 생성 건너뜀" +:+ nl +:+ nl +:+
      "승인된 단계에 변경된 파일이 없어 PR을 만들지 않았습니다." +:+ nl)) else
    let body := Body r in
    links ← each_fold (open_pull pub t p mode base body) "" pushed;
    mret (content_result ("## Pull Requests" +:+ nl +:+ nl +:+ links +:+ nl +:+ body))
  | None => mret (content_result ("## PR 생성 건너뜀" +:+ nl +:+ nl +:+
      "원격 저장소와 연결되지 않은 프로젝트(local_path)라 PR을 만들지 않았습니다. 아래는 PR 본문 초안입니다." +:+
      nl +:+ nl +:+ Body r))
  end.

(** Every action moves the state along a preorder, so does publishing. *)
Record publish_conduct (R : relation S) : Prop := {
  pc_Project p : conducts R (po_Project ops p);
  pc_Stages t : conducts R (po_Stages ops t);
  pc_Approvals t : conducts R (po_Approvals ops t);
  pc_BranchCommit d s ps m : conducts R (po_BranchCommit ops d s ps m);
  pc_Push d sha b h : conducts R (po_Push ops d sha b h);
  pc_Emit k p : conducts R (po_Emit ops k p);
  pc_Open pub pr : scm = Some pub → conducts R (pb_Open pub pr) }.
Lemma publish_conducts (R : relation S) `{!PreOrder R} t i :
  publish_conduct R → conducts R (publish t i).
Proof.
  intros []. unfold publish, report, push_branch, open_pull, publishing.
  destruct scm as [pub|]; [assert (∀ pr, conducts R (pb_Open pub pr)) by eauto|]; solve_conducts.
Qed.
End publish.

(** ** The protocol of publishing

    Every action is logged; the automaton tracks the branches pushed and the pull requests
    opened and announced so far. *)
Module Publishing.
Inductive Op := Read | Build (source : string) | Push (name : string) | OpenPull (head : string)
  | Announce (kind : string).

Section recorded.
Context {S : Type}.
Definition recorded (ops : PublishOps S) : PublishOps (S * list (Op * bool)) := {|
  po_Project p := record Read (po_Project ops p);
  po_Stages t := record Read (po_Stages ops t);
  po_Approvals t := record Read (po_Approvals ops t);
  po_BranchCommit d s ps m := record (Build s) (po_BranchCommit ops d s ps m);
  po_Push d sha b h := record (Push b) (po_Push ops d sha b h);
  po_Emit k p := record (Announce k) (po_Emit ops k p) |}.
Definition recorded_publisher (pub : Publisher S) : Publisher (S * list (Op * bool)) :=
  MkPublisher _ (λ pr, record (OpenPull (pr_Head pr)) (pb_Open pub pr)) (pb_RemoteURL pub)
    (pb_Web pub) (pb_GitHeader pub).
End recorded.

(** The names pushed, those opened and announced, and the one opened but not announced;
    [Failed] after a failed push or pull request, [Stopped] after any other failure. *)
Inductive state :=
  | Going (pushed opened : list string) (pending : option string)
  | Failed | Stopped.
Definition delta (may : bool) (p : state) (e : Op * bool) : option state :=
  let '(o, ok) := e in
  match o, p with
  | Read, Going [] [] None => Some (if ok then p else Stopped)
  | Build _, Going _ [] None => if may then Some (if ok then p else Failed) else None
  | Push name, Going pushed [] None =>
    if may then Some (if ok then Going (pushed ++ [name]) [] None else Failed) else None
  | OpenPull head, Going pushed opened None =>
    if may && bool_decide (pushed !! length opened = Some head)
    then Some (if ok then Going pushed opened (Some head) else Failed) else None
  | Announce kind, Going pushed opened (Some head) =>
    if kind =? "pr.opened"
    then Some (if ok then Going pushed (opened ++ [head]) None else Stopped) else None
  | _, _ => None
  end.

Section theorems.
Context {S : Type} (ops : PublishOps S) (may : bool).
Abbreviation start := (Going [] [] None).
Abbreviation at_p := (at_ (delta may) start (S:=S)).
(** After an error the log is one of the protocol's, and a failed push or pull request has
    surfaced as a [publishError]. *)
Definition lawful (e : error) (σ : S * list (Op * bool)) : Prop :=
  ∃ p, at_p p σ ∧ (p = Failed → is_publish_error e = true).

(** An action that is not part of publishing fails with its own error. *)
Lemma plain_step {A} o (m : io S A) p q :
  delta may p (o, true) = Some q → delta may p (o, false) = Some Stopped →
  triple (at_p p) (record o m) (λ _, at_p q) lawful.
Proof.
  intros Hq Hs [σ l] r σ' Hp. unfold record, at_, lawful in *. cbn [snd] in Hp.
  destruct (m σ) as [r' σ1]. intros [= <- <-]. cbn [snd].
  destruct r'; [|exists Stopped; split; [|done]]; unfold at_; cbn [snd];
    rewrite protocol_snoc, Hp; assumption.
Qed.
(** A publishing action fails with a [publishError]. *)
Lemma publishing_step {A} what o (m : io S A) p q :
  delta may p (o, true) = Some q → delta may p (o, false) = Some Failed →
  triple (at_p p) (publishing what (record o m)) (λ _, at_p q) lawful.
Proof.
  intros Hq Hs. unfold publishing. eapply triple_bind.
  { apply triple_tried with (q := λ ok : bool, if ok then q else Failed). by intros []. }
  intros [a|e]; simpl; [by apply triple_done|].
  eapply triple_from; [|apply triple_raise]. intros σ Hσ. by exists Failed.
Qed.

Abbreviation names bs := (map br_name bs).
Lemma push_branch_triple pub t acc b :
  may = true →
  triple (λ σ, at_p (Going (names acc.2) [] None) σ)
    (push_branch (recorded ops) (recorded_publisher pub) t acc b)
    (λ acc' σ, at_p (Going (names acc'.2) [] None) σ) lawful.
Proof.
  intros Hm. destruct acc as [stages pushed]. unfold push_branch. simpl.
  eapply triple_bind; [by apply publishing_step with (q := Going (names pushed) [] None);
    simpl; rewrite Hm|].
  intros [sha []]; simpl; [|by apply triple_done].
  eapply triple_bind; [by apply publishing_step with (q := Going (names pushed ++ [br_name b]) [] None);
    simpl; rewrite Hm|].
  intros u. apply triple_done. intros σ. simpl. by rewrite map_app.
Qed.
Lemma open_pull_triple pub t p mode base body pushed opened links b :
  may = true → pushed !! length opened = Some (br_name b) →
  triple (at_p (Going pushed opened None))
    (open_pull (recorded ops) (recorded_publisher pub) t p mode base body links b)
    (λ _, at_p (Going pushed (opened ++ [br_name b]) None)) lawful.
Proof.
  intros Hm Hn. unfold open_pull.
  eapply triple_bind.
  { apply publishing_step with (q := Going pushed opened (Some (br_name b))); simpl;
      by rewrite Hm, bool_decide_eq_true_2 by done. }
  intros pr. eapply triple_bind;
    [by apply plain_step with (q := Going pushed (opened ++ [br_name b]) None)|].
  intros u. by apply triple_done.
Qed.
Lemma open_pulls_triple pub t p mode base body before after links :
  may = true →
  triple (at_p (Going (names (before ++ after)) (names before) None))
    (each_fold (open_pull (recorded ops) (recorded_publisher pub) t p mode base body) links after)
    (λ _, at_p (Going (names (before ++ after)) (names (before ++ after)) None)) lawful.
Proof.
  intros Hm. revert before links. induction after as [|b after IH]; intros before links; simpl.
  { rewrite app_nil_r. by apply triple_done. }
  eapply triple_bind; [apply open_pull_triple; [done|]|].
  - rewrite map_app, lookup_app_r by done. by rewrite Nat.sub_diag.
  - intros links'. specialize (IH (before ++ [b]) links').
    rewrite <- (app_assoc before [b] after), (map_app br_name before [b]) in IH. exact IH.
Qed.

(** C27: publishing never loses or invents a pull request: nothing is built, pushed or opened
    while planning or without a remote repository; all branches are pushed before the first
    pull request is opened; each pull request is opened for the next pushed branch and
    announced before the one after; a run that succeeds has opened and announced exactly the
    branches it pushed, in order; and when a build, push or pull request fails, the error is a
    [publishError], so that the stage is blocked and the task does not fail. *)
Theorem publish_protocol pub t i hosted σ r σ' l :
  (∀ p σ0 σ1, po_Project ops (t_ProjectID t) σ0 = (Ok p, σ1) →
     (Text (p_LocalPath p) =? "") = hosted) →
  may = (in_Mode i ≠? "plan") && hosted →
  publish (recorded ops) (Some (recorded_publisher pub)) t i (σ, []) = (r, (σ', l)) →
  ∃ p, protocol (delta may) start l = Some p ∧
    match r with
    | Ok _ => ∃ pushed, p = Going pushed pushed None ∧ (may = false → pushed = [])
    | Err e => p = Failed → is_publish_error e = true
    end.
Proof.
  intros Hlocal Hmay H.
  assert (triple (at_p start) (publish (recorded ops) (Some (recorded_publisher pub)) t i)
    (λ _ σ, ∃ pushed, at_p (Going pushed pushed None) σ ∧ (may = false → pushed = [])) lawful)
    as Ht; last first.
  { pose proof (Ht (σ, []) r (σ', l) eq_refl H) as Hr. destruct r as [a|e].
    - destruct Hr as (pushed & Hp & Hn). eauto.
    - destruct Hr as (p & Hp & Hn). eauto. }
  clear H. unfold publish, report.
  eapply triple_bind.
  { apply triple_facts with (φ := λ p, (Text (p_LocalPath p) =? "") = hosted);
      [|by apply plain_step with (q := start)].
    intros σ0 p σ1 (?&?&?)%record_ok. by eapply Hlocal. }
  intros p. apply triple_pre. intros Hp.
  eapply triple_bind.
  { eapply triple_bind; [by apply plain_step with (q := start)|]. intros stages.
    eapply triple_bind; [by apply plain_step with (q := start)|]. intros approvals.
    by apply triple_done with (Q := λ _, at_p start). }
  intros rep. simpl. rewrite Hp.
  destruct (String.eqb_spec (in_Mode i) "plan") as [Em|Em].
  { apply triple_done. intros σ0 Hσ. by exists []. }
  destruct hosted; simpl; [|apply triple_done; intros σ0 Hσ; by exists []].
  assert (may = true) as Htrue by by done.
  eapply triple_bind with (M := λ acc σ, at_p (Going (names acc.2) [] None) σ).
  { by apply (triple_each_fold (push_branch (recorded ops) (recorded_publisher pub) t)
      (λ acc σ, at_p (Going (names acc.2) [] None) σ)) with (b := (_, []));
      intros; apply push_branch_triple. }
  intros [stages pushed]. simpl. case_decide as Hn.
  { apply triple_done. intros σ0 Hσ. rewrite Hn in Hσ. by exists []. }
  eapply triple_bind; [by apply (open_pulls_triple pub t p _ _ _ [] pushed)|].
  intros links. apply triple_done. intros σ0 Hσ. exists (names pushed). split; [done|].
  by rewrite Htrue.
Qed.
End theorems.

(** One approved stage of a role that may write, published as a branch of its own. *)
Definition demo_project : ProjectEntity := MkProject "p1" "n" "o" "r" "main" None "" None 1000.
Definition demo_row : StageEntity :=
  MkStage (Some "plan") 0 (Some "docs/a.md") (Some "sum") 0 None None 1 3 "s1" "t1" "spec" "writer"
    "approved" [] 0.
Definition demo_task : TaskEntity :=
  MkTask JNull "/w" 0 0 1000 "t1" "p1" "cmd" "running" "me" 0 0 None.
Definition demo_input : Input :=
  MkInput "t1" "cmd" "execute" "" "" "" (MkSpec "pr" "publisher" (Some []) (Some []) "" None)
    (MkDef (MkPipeline 1 [] (MkPolicy 3 40 "fake" None "per-role" ""))
       {["writer" := MkAgent "" "writer" "" "docs-writer" (Some ["docs/**"]) "" "" "" "" ""]} "" "/w")
    0.
Definition demo_ops : PublishOps unit := {|
  po_Project _ := mret demo_project;
  po_Stages _ := mret [demo_row];
  po_Approvals _ := mret [];
  po_BranchCommit _ _ _ _ := mret ("abc", true);
  po_Push _ _ _ _ := mret tt;
  po_Emit _ _ := mret tt |}.
Definition demo_publisher : Publisher unit :=
  MkPublisher unit (λ _, mret (MkOpened "u" 7 true)) (λ _ _, "") "https://h" "".
Definition demo_published : result Result * (unit * list (Op * bool)) :=
  publish (recorded demo_ops) (Some (recorded_publisher demo_publisher)) demo_task demo_input
    (tt, []).
Lemma publish_protocol_witness :
  is_ok demo_published.1 = true ∧
  ∃ p, protocol (delta true) (Going [] [] None) demo_published.2.2 = Some p.
Proof.
  split; [by vm_compute|].
  destruct (publish_protocol demo_ops true demo_publisher demo_task demo_input true tt
    demo_published.1 demo_published.2.1 demo_published.2.2) as (p & Hp & _).
  - by intros p σ0 σ1 [= <- _].
  - by vm_compute.
  - unfold demo_published. by destruct (publish _ _ _ _ _) as [? [??]].
  - by exists p.
Defined.
End Publishing.
