(* ===== verification/Release.v ===== *)
(** * What is published is what was approved

    The publisher of [Publish] at work in the repository of [Repository]: every commit that it
    pushes is built on the base of the workspace and has, for the stages that it stands for, the
    files as they were accepted; and a publisher that succeeds leaves out nothing that changed. *)
From S2P Require Import Prelude GoStrings Protocol Domain Pipeline PathGuard Output Splitting ToolCalls.
From S2P Require Import Agent Scm Publish Workspace Repository GitModel.

(** ** The specification *)
(** A branch to release: the commit is made of the paths of [rl_patterns] in [rl_source]. *)
Record release := MkRelease {
  rl_name : string; rl_role : string; rl_source : string; rl_patterns : option (list string) }.
(** One branch for all, or one for each approved stage whose agent may write. *)
Definition due (single : bool) (t : TaskEntity) (d : Def) (rows : list StageEntity) (rl : release) : Prop :=
  if single then rl = MkRelease ("devsquad/" +:+ t_ID t) "all" "HEAD" None
  else ∃ s paths, s ∈ rows ∧ s_Status s = "approved" ∧
    ag_ToolProfile (agent_of d (s_Role s)) ≠ "publisher" ∧
    paths = elems (ag_WritePaths (agent_of d (s_Role s))) ∧ paths ≠ [] ∧
    rl = MkRelease ("devsquad/" +:+ t_ID t +:+ "/" +:+ s_Role s) (s_Role s)
           (approved_ref (s_StageKey s)) (Some paths).
Definition single_pr (i : Input) : bool :=
  let mode := PR_Mode (pl_Policy (df_Pipeline (in_Definition i))) in (mode =? "") || (mode =? "single").

Section spec.
Context {UC : Unicode} {MA : Matchers} {S : Type} {VW : Views S}.
(** The commit of a release, on the base with the tree [base], and a release without changes. *)
Definition made (σ : S) (base : Tree) (command : string) (rl : release) (c : option Commit) : Prop :=
  ∃ id src tree, r_rev σ baseRef = Some id ∧ tree_at σ (rl_source rl) = Some src ∧
    picked (rl_patterns rl) base src tree ∧ c = Some (MkCommit tree [id] (Title command (rl_role rl))).
Definition unchanged (σ : S) (base : Tree) (rl : release) : Prop :=
  ∃ src, tree_at σ (rl_source rl) = Some src ∧
    ∀ q, role_path (rl_patterns rl) q = true → src !! q = base !! q.
End spec.

(** ** The publisher in a workspace *)
(** A push: the name of the branch, the commit, and whether it succeeded. *)
Abbreviation pushed_commit := (string * option Commit)%type.
Section released.
Context {UC : Unicode} {MA : Matchers} {S : Type} {VW : Views S}.
Context (mc : Machine S) (ops : PublishOps S) (pub : Publisher S).
Abbreviation Log := (list (pushed_commit * bool)).
Definition push_logged (dir sha branch header : string) : io (S * Log) unit := λ '(σ, l),
  let '(r, σ') := Push mc dir sha branch header σ in
  (r, (σ', l ++ [((branch, r_commit σ sha), is_ok r)])).
(** The workspace builds and pushes; the store and the events are those of [ops]. *)
Definition in_workspace : PublishOps (S * Log) := {|
  po_Project p := silent (po_Project ops p);
  po_Stages t := silent (po_Stages ops t);
  po_Approvals t := silent (po_Approvals ops t);
  po_BranchCommit dir source patterns message := silent (BranchCommit mc dir source patterns message);
  po_Push := push_logged;
  po_Emit kind payload := silent (po_Emit ops kind payload) |}.
Definition publisher_beside : Publisher (S * Log) :=
  MkPublisher _ (λ pr, silent (pb_Open pub pr)) (pb_RemoteURL pub) (pb_Web pub) (pb_GitHeader pub).
End released.

Section theorems.
Context {UC : Unicode} {MA : Matchers} {S : Type} {VW : Views S}.
Context (mc : Machine S) (dir : string) {GT : Git mc dir} (ops : PublishOps S) (pub : Publisher S).
Abbreviation Log := (list (pushed_commit * bool)).
(** The store, the events and the hosting service are not in the repository. *)
Record beside : Prop := MkBeside {
  bs_Project p : conducts refs_kept (po_Project ops p);
  bs_Stages t : conducts refs_kept (po_Stages ops t);
  bs_Approvals t : conducts refs_kept (po_Approvals ops t);
  bs_Emit k p : conducts refs_kept (po_Emit ops k p);
  bs_Open pr : conducts refs_kept (pb_Open pub pr) }.
Context (σ0 : S) (base : Tree) (command : string) (D : release → Prop).
Context (Hbase : tree_at σ0 baseRef = Some base).
(** The source of each release is a commit whose files are separate from the base's. *)
Context (Hrefs : ∀ rl, D rl → (rl_source rl = "HEAD" ∨ own_ref (rl_source rl) = true) ∧
  ∃ tree, tree_at σ0 (rl_source rl) = Some tree ∧ separate (rl_patterns rl) base tree).

(** The release of a branch of the code. *)
Definition release_of (b : branch) : release :=
  MkRelease (br_name b) (br_role b) (br_source b) (br_patterns b).
(** While the branches of [D] are published and those of [done_] have been. *)
Definition sound (l : Log) : Prop :=
  ∀ name c ok, ((name, c), ok) ∈ l →
    ∃ rl, D rl ∧ name = rl_name rl ∧ made σ0 base command rl c.
Definition passed (l : Log) (b : branch) : Prop :=
  (∃ c, ((br_name b, c), true) ∈ l) ∨ unchanged σ0 base (release_of b).
Definition releasing (done_ : list branch) (σl : S * Log) : Prop :=
  refs_kept σ0 σl.1 ∧ sound σl.2 ∧ ∀ b, b ∈ done_ → passed σl.2 b.
Definition stopped (e : error) (σl : S * Log) : Prop := sound σl.2.

Lemma beside_step {A} (m : io S A) done_ :
  conducts refs_kept m →
  triple (releasing done_) (silent m) (λ _, releasing done_) stopped.
Proof.
  intros Hm [σ l] r σ' (Hr & Hs & Hd). unfold silent. destruct (m σ) as [r1 σ1] eqn:E.
  apply Hm in E. intros [= <- <-]. destruct r1; [|done]. split; [|done]. simpl in *. by trans σ.
Qed.
Lemma beside_facts {A} (m : io S A) (φ : A → Prop) done_ :
  (∀ a σ σ', m σ = (Ok a, σ') → φ a) → conducts refs_kept m →
  triple (releasing done_) (silent m) (λ a σl, φ a ∧ releasing done_ σl) stopped.
Proof.
  intros Hφ Hm. apply triple_facts; [|by apply beside_step]. intros [σ l] a [σ' l'] H. simpl in H.
  unfold silent in H. destruct (m σ) as [r σ1] eqn:E. injection H as -> _ _. by eapply Hφ.
Qed.
Lemma report_stages t p d rows done_ :
  beside → (∀ ss σ σ', po_Stages ops (t_ID t) σ = (Ok ss, σ') → ss = rows) →
  triple (releasing done_) (report (in_workspace mc ops) t p d)
    (λ rep σl, (∃ approvals, rp_Stages rep = stage_reports d rows approvals) ∧ releasing done_ σl) stopped.
Proof.
  intros Hops Hrows. unfold report. eapply triple_bind; [by apply (beside_facts _ _ _ Hrows), Hops|].
  intros ss. apply triple_pre. intros ->. eapply triple_bind; [apply beside_step, Hops|].
  intros approvals. apply triple_done. intros σl Hl. split; [by exists approvals|done].
Qed.
Lemma Push_kept sha name header : conducts refs_kept (Push mc dir sha name header).
Proof.
  intros σ r σ'. unfold Push, git, gitEnv, attempt, mbind, io_bind.
  destruct (mc_exec mc _ σ) as [[[[e|] b]|e] σ1] eqn:E1; apply git_remote, same_refs_kept in E1; simpl;
    try (by intros [= <- <-]).
  destruct (mc_exec mc _ σ1) as [[[[e|] b']|e] σ2] eqn:E2; apply git_push in E2; intros [= <- <-];
    by trans σ1.
Qed.
Lemma passed_app l l' b : passed l b → passed (l ++ l') b.
Proof. intros [[c Hc]|H]; [left; exists c; set_solver|by right]. Qed.
(** Building a branch, in a workspace where the base and the sources are as in [σ0]. *)
Lemma build_made b sha changed σ σ' :
  refs_kept σ0 σ → D (release_of b) →
  BranchCommit mc dir (br_source b) (br_patterns b) (Title command (br_role b)) σ = (Ok (sha, changed), σ') →
  refs_kept σ0 σ' ∧
  if changed then made σ0 base command (release_of b) (r_commit σ' sha) else unchanged σ0 base (release_of b).
Proof.
  intros Hk HD H. pose proof Hk as [_ Hrev]. destruct (Hrefs _ HD) as (Hsrc & src & Hs0 & Hsep). simpl in *.
  assert (tree_at σ baseRef = Some base) as Hb by (eapply refs_kept_tree; [done|by right|done]).
  assert (tree_at σ (br_source b) = Some src) as Hs by by eapply refs_kept_tree.
  destruct (BranchCommit_ok mc dir _ _ _ _ _ _ _ _ _ Hb Hs Hsep H) as (Er & _ & _ & Hc & Hr). split.
  { trans σ; [done|]. split; [done|by rewrite Er]. }
  destruct changed.
  - destruct Hr as (id & tree & Hid & Hp & ->). exists id, src, tree. split_and!; try done.
    rewrite <- Hrev; [done|by right].
  - destruct Hr as [_ Hr]. by exists src.
Qed.
Lemma push_branch_releases t done_ acc b :
  t_Workspace t = dir → t_Command t = command → D (release_of b) →
  triple (releasing done_)
    (push_branch (in_workspace mc ops) (publisher_beside pub) t acc b)
    (λ _, releasing (done_ ++ [b])) stopped.
Proof.
  intros Edir Ecmd Hb [σ l] r [σ' l'] (Hk & Hs & Hd). simpl in Hk, Hs, Hd.
  destruct acc as [stages pushed]. unfold push_branch, publishing, attempt. rewrite Edir, Ecmd. simpl.
  unfold mbind, io_bind. simpl. unfold silent.
  destruct (BranchCommit mc dir _ _ _ σ) as [[[sha changed]|e] σ1] eqn:E1; simpl;
    [|by intros [= <- <- <-]].
  apply build_made in E1 as [Hk1 Hr1]; [|done..]. destruct changed; simpl.
  2: { intros [= <- <- <-]. split; [done|]. split; [done|]. simpl.
       intros b' [Hb'| ->%list_elem_of_singleton]%elem_of_app; [by apply Hd|by right]. }
  assert (∀ ok, sound (l ++ [((br_name b, r_commit σ1 sha), ok)])) as Hs1.
  { intros ok name c ok' [Hin|[= -> -> ->]%list_elem_of_singleton]%elem_of_app; [by eapply Hs|]. by exists (release_of b). }
  destruct (Push mc dir sha _ _ σ1) as [[u|e] σ2] eqn:E2; pose proof (Push_kept _ _ _ _ _ _ E2) as Hk2;
    intros [= <- <- <-]; [|by apply Hs1].
  split; [by trans σ1|]. split; [by apply Hs1|]. simpl.
  intros b' [Hb'| ->%list_elem_of_singleton]%elem_of_app; [by apply passed_app, Hd|].
  left. exists (r_commit σ1 sha). set_solver.
Qed.

Lemma push_branches_release t done_ acc bs :
  t_Workspace t = dir → t_Command t = command →
  (∀ b, b ∈ bs → D (release_of b)) →
  triple (releasing done_)
    (each_fold (push_branch (in_workspace mc ops) (publisher_beside pub) t) acc bs)
    (λ _, releasing (done_ ++ bs)) stopped.
Proof.
  intros Edir Ecmd. revert done_ acc. induction bs as [|b bs IH]; intros done_ acc Hbs; simpl.
  { rewrite app_nil_r. exact (triple_ret acc (λ _, releasing done_) _). }
  eapply triple_bind.
  - apply (push_branch_releases t done_ acc b); [done..|]. apply Hbs, list_elem_of_here.
  - intros acc'. rewrite (cons_middle b done_ bs), app_assoc. apply (IH (done_ ++ [b]) acc').
    intros b' Hb'. apply Hbs. by right.
Qed.
Lemma open_pull_releases t p mode pbase body done_ links b :
  beside →
  triple (releasing done_)
    (open_pull (in_workspace mc ops) (publisher_beside pub) t p mode pbase body links b)
    (λ _, releasing done_) stopped.
Proof.
  intros Hops. unfold open_pull, publishing.
  eapply triple_bind with (M := λ _, releasing done_).
  - eapply triple_bind; [eapply triple_attempt, beside_step, (bs_Open Hops)|].
    intros [pr|e]; [exact (triple_ret pr (λ _, releasing done_) _)|]. by eapply triple_from, triple_raise.
  - intros pr. eapply triple_bind; [apply beside_step, (bs_Emit Hops)|]. intros u. by apply (triple_done _ (releasing done_)).
Qed.
End theorems.

(** ** The branches are those that are due *)
Section branches.
Context (t : TaskEntity) (d : Def) (rows : list StageEntity) (approvals : list ApprovalEntity).
Abbreviation reports := (stage_reports d rows approvals).
Lemma reports_rows g :
  g ∈ reports ↔ ∃ s, s ∈ rows ∧ s_Status s = "approved" ∧
    ag_ToolProfile (agent_of d (s_Role s)) ≠ "publisher" ∧
    g = MkStageReport (s_StageKey s) (s_Role s) "" (Text (s_DeliverableRef s))
          (Text (s_DeliverableSummary s)) (approval_reports s approvals).
Proof.
  unfold stage_reports. rewrite (list_elem_of_fmap _ (filter _ rows)). split.
  - intros (s & -> & [[? ?] ?]%list_elem_of_filter). by exists s.
  - intros (s & ? & ? & ? & ->). exists s. split; [done|]. by apply list_elem_of_filter.
Qed.
Lemma branches_due mode rl :
  due (mode =? "single") t d rows rl ↔ ∃ b, b ∈ branches mode t d reports ∧ release_of b = rl.
Proof.
  unfold due, branches. destruct (mode =? "single"); simpl.
  - split; [intros ->; eexists; split; [by apply list_elem_of_singleton|done]|].
    by intros (b & ->%list_elem_of_singleton & <-).
  - split.
    + intros (s & paths & Hs & Ha & Hp & -> & Hne & ->).
      assert (∃ g, g ∈ reports ∧ sg_Key g = s_StageKey s ∧ sg_Role g = s_Role s) as (g & Hg & Ek & Er)
        by (eexists; rewrite reports_rows; split; [by exists s|done]).
      apply list_elem_of_lookup in Hg as [i Hi].
      eexists. split; [rewrite elem_of_concat; eexists; split; [apply elem_of_lookup_imap; by exists i, g|]|].
      * rewrite Er, decide_False by done. by apply list_elem_of_singleton.
      * unfold release_of. simpl. by rewrite Ek.
    + intros (b & Hb & <-). apply elem_of_concat in Hb as (l & (i & g & -> & Hg)%elem_of_lookup_imap & Hb).
      apply list_elem_of_lookup_2, reports_rows in Hg as (s & Hs & Ha & Hp & ->). simpl in Hb.
      case_decide as Hne; [by apply elem_of_nil in Hb|]. apply list_elem_of_singleton in Hb as ->.
      exists s. by eexists.
Qed.
Lemma due_source single rl :
  due single t d rows rl → rl_source rl = "HEAD" ∨ own_ref (rl_source rl) = true.
Proof.
  unfold due. destruct single; [intros ->; by left|]. intros (s & paths & _ & _ & _ & _ & _ & ->). right.
  apply (HasPrefix_app "refs/devsquad/").
Qed.
End branches.

Lemma single_mode i :
  single_pr i = ((let m := PR_Mode (pl_Policy (df_Pipeline (in_Definition i))) in
                  if m =? "" then "single" else m) =? "single").
Proof. unfold single_pr. simpl. by destruct (_ =? ""). Qed.

Section released_theorem.
Context {UC : Unicode} {MA : Matchers} {S : Type} {VW : Views S}.
Context (mc : Machine S) (dir : string) {GT : Git mc dir} (ops : PublishOps S) (pub : Publisher S).

(** Once all branches have been, everything that is due is published. *)
Lemma releasing_all σ0 base command mode t d rows approvals (σl : S * list (pushed_commit * bool)) rl :
  releasing σ0 base command (due (mode =? "single") t d rows)
    (branches mode t d (stage_reports d rows approvals)) σl →
  due (mode =? "single") t d rows rl →
  (∃ c, ((rl_name rl, c), true) ∈ σl.2) ∨ unchanged σ0 base rl.
Proof. intros (_ & _ & Hd) (b & Hb & <-)%(branches_due _ _ _ approvals). by apply Hd. Qed.

(** C22: what is published is what was approved. The publisher of a task works in its
    workspace, and the store, the events and the hosting service keep the references and commits
    there; the store gives the stage rows of the task and says whether its project has a remote
    repository. A branch that is due is the head, for a single pull request, or an approved stage
    whose agent may write, with that agent's paths. Suppose that the base of the workspace has a
    tree and that the source of each due branch, the head or the approval's reference of the
    stage, names a commit which is separate from the base as [BranchCommit] needs it: the paths
    which differ are plain, and no file takes the place of a directory or the other way round.
    Then every commit that is pushed has the base as its only
    parent, and has the paths of a due branch as its source holds them and
    all other paths of the base; and when the publisher succeeds, not planning and with a remote
    repository, then every due branch has been pushed, unless it would not differ from the base. *)
Theorem published_is_approved t i rows hosted base σ r σ' l :
  beside ops pub →
  (∀ p σ0 σ1, po_Project ops (t_ProjectID t) σ0 = (Ok p, σ1) → (Text (p_LocalPath p) =? "") = hosted) →
  (∀ ss σ0 σ1, po_Stages ops (t_ID t) σ0 = (Ok ss, σ1) → ss = rows) →
  t_Workspace t = dir → tree_at σ baseRef = Some base →
  (∀ rl, due (single_pr i) t (in_Definition i) rows rl →
     ∃ tree, tree_at σ (rl_source rl) = Some tree ∧ separate (rl_patterns rl) base tree) →
  publish (in_workspace mc ops) (Some (publisher_beside pub)) t i (σ, []) = (r, (σ', l)) →
  (∀ name c ok, ((name, c), ok) ∈ l → ∃ rl, due (single_pr i) t (in_Definition i) rows rl ∧
     name = rl_name rl ∧ made σ base (t_Command t) rl c) ∧
  (is_ok r = true → in_Mode i ≠ "plan" → hosted = true →
     ∀ rl, due (single_pr i) t (in_Definition i) rows rl →
       (∃ c, ((rl_name rl, c), true) ∈ l) ∨ unchanged σ base rl).
Proof.
  intros Hops Hlocal Hrows Hdir Hbase Hrefs H. rewrite (single_mode i) in *. cbv zeta in *.
  set (mode := if _ =? "" then _ else _). set (D := due (mode =? "single") t (in_Definition i) rows).
  set (command := t_Command t). set (R := releasing σ base command D). set (E := stopped σ base command D).
  assert (triple (R []) (publish (in_workspace mc ops) (Some (publisher_beside pub)) t i)
    (λ _ σl, sound σ base command D σl.2 ∧
       (in_Mode i ≠ "plan" → hosted = true → ∀ rl, D rl →
          (∃ c, ((rl_name rl, c), true) ∈ σl.2) ∨ unchanged σ base rl)) E) as Ht; last first.
  { assert (R [] (σ, [])) as H0 by (split; [done|]; split; [by intros ? ? ? ?%elem_of_nil|by intros ? ?%elem_of_nil]).
    pose proof (Ht _ _ _ H0 H) as Hr. destruct r as [a|e]; [|by split]. by destruct Hr as [Hs Hc]. }
  clear H. unfold publish. eapply triple_bind; [by apply (beside_facts _ _ _ _ _ _ _ Hlocal), Hops|].
  intros p. apply triple_pre. intros Hp. eapply triple_bind; [by apply report_stages with (rows := rows) (pub := pub)|].
  intros rep. apply triple_pre. intros [approvals Hrep]. simpl. rewrite Hp, Hrep.
  destruct (String.eqb_spec (in_Mode i) "plan") as [Em|Em].
  { by apply triple_done; intros σl (_ & ? & _). }
  destruct hosted; simpl; [|by apply triple_done; intros σl (_ & ? & _)].
  eapply triple_bind.
  { apply (push_branches_release mc dir ops pub σ base command D Hbase
      (λ rl Hrl, conj (due_source _ _ _ _ _ Hrl) (Hrefs rl Hrl)) t [] _ _ Hdir eq_refl).
    intros b Hb. apply (branches_due _ _ _ approvals). by exists b. }
  intros [stages pushed]. simpl.
  assert (∀ σl, releasing σ base command D (branches mode t (in_Definition i)
    (stage_reports (in_Definition i) rows approvals)) σl → ∀ rl, D rl →
    (∃ c, ((rl_name rl, c), true) ∈ σl.2) ∨ unchanged σ base rl) as Hall by (intros; by eapply releasing_all).
  case_decide.
  { apply triple_done. intros σl Hl. split; [apply Hl|]. intros _ _. by apply Hall. }
  eapply triple_bind.
  { apply triple_each_fold with (I := λ _, releasing σ base command D _). intros. by apply open_pull_releases. }
  intros links. apply triple_done. intros σl Hl. split; [apply Hl|]. intros _ _. by apply Hall.
Qed.
End released_theorem.

(** ** The documents of a writer are published *)
Section demo.
#[local] Existing Instance ascii_unicode.
#[local] Existing Instance below_matchers.
Definition release_repo : Repo :=
  MkRepo {["HEAD" := "c1"; baseRef := "c0"; approved_ref "spec" := "c1"]}
    {["c0" := MkCommit old_tree [] "base"; "c1" := MkCommit new_work ["c0"] "Approve spec"]}
    {[None := new_work]} ∅ new_work.
Definition repo_ops : PublishOps Repo := {|
  po_Project _ := mret Publishing.demo_project; po_Stages _ := mret [Publishing.demo_row];
  po_Approvals _ := mret []; po_BranchCommit _ _ _ _ := raise (ErrorText "unused");
  po_Push _ _ _ _ := mret tt; po_Emit _ _ := mret tt |}.
Definition repo_publisher : Publisher Repo :=
  MkPublisher Repo (λ _, mret (MkOpened "u" 7 true)) (λ _ _, "") "https://h" "".
Definition release_run : result Result * (Repo * list (pushed_commit * bool)) := Eval vm_compute in
  publish (in_workspace machine repo_ops) (Some (publisher_beside repo_publisher)) Publishing.demo_task
    Publishing.demo_input (release_repo, []).
(** The writer's document is new, the coder's files are those of the base. *)
Definition docs_tree : Tree :=
  {["docs/x.md" := file "b1"; "src/a.c" := file "a2"; "src/b.c" := file "a3"]}.
Example release_pushed :
  release_run.2.2 = [(("devsquad/t1/writer", Some (MkCommit docs_tree ["c0"] (Title "cmd" "writer"))), true)].
Proof. vm_compute. reflexivity. Qed.
Lemma release_refs rl :
  due false Publishing.demo_task (in_Definition Publishing.demo_input) [Publishing.demo_row] rl →
  ∃ tree, tree_at release_repo (rl_source rl) = Some tree ∧ separate (rl_patterns rl) old_tree tree.
Proof.
  intros (s & paths & ->%list_elem_of_singleton & _ & _ & -> & _ & ->). exists new_work.
  split; [vm_compute; reflexivity|]. apply apart_separate; vm_compute; reflexivity.
Qed.
Lemma published_is_approved_witness :
  is_ok release_run.1 = true ∧
  ∀ name c ok, ((name, c), ok) ∈ release_run.2.2 →
    ∃ rl, due false Publishing.demo_task (in_Definition Publishing.demo_input) [Publishing.demo_row] rl ∧
      name = rl_name rl ∧ made release_repo old_tree "cmd" rl c.
Proof.
  split; [reflexivity|].
  apply (published_is_approved machine "/w" repo_ops repo_publisher Publishing.demo_task
    Publishing.demo_input [Publishing.demo_row] true old_tree release_repo release_run.1 release_run.2.1
    release_run.2.2).
  - by split; intros; intros σ r σ' [= _ <-].
  - by intros p σ0 σ1 [= <- _].
  - by intros ss σ0 σ1 [= <- _].
  - reflexivity.
  - reflexivity.
  - exact release_refs.
  - vm_compute. reflexivity.
Defined.
End demo.
