(* ===== verification/Store.v ===== *)
(** * The store: tables, queries and transactions ([internal/store])

    The database is a value; a query of [queries.sql] is a function on it, with the
    constraints of the migrations.  A transaction runs on a copy with the hooks it has
    registered; an error drops the copy. *)
From S2P Require Import Prelude GoStrings Domain Pipeline PipelineJSON.

(** ** The world outside *)
(** What the services take from their platform: the [n]-th random UUID, the [n]-th reading
    of the wall clock (nanoseconds), the text order of the database collation and the text
    of a JSON value that is not a string ([->>]). *)
Class Platform := {
  uuid_of : nat → string;
  clock_at : nat → Z;
  text_le : string → string → bool;
  jsonb_text : json → string }.

Class PlatformLaws `{!Platform} : Prop := {
  uuid_inj : ∀ m n, uuid_of m = uuid_of n → m = n;
  uuid_nonempty : ∀ n, uuid_of n ≠ "";
  text_le_refl : ∀ a, text_le a a = true;
  text_le_trans : ∀ a b c, text_le a b = true → text_le b c = true → text_le a c = true;
  text_le_total : ∀ a b, text_le a b = true ∨ text_le b a = true;
  text_le_antisym : ∀ a b, text_le a b = true → text_le b a = true → a = b }.

(** ** Tables *)
(** src: internal/store/sqlc/models.go 30-40 Deliverable *)
Record Deliverable := MkDeliverable {
  d_ID : string; d_TaskID : string; d_StageID : string; d_Kind : string;
  d_Uri : option string; d_Content : option string; d_Summary : option string;
  d_CreatedAt : Z }.

(** src: internal/store/sqlc/models.go 106-117 UsageRecord *)
Record UsageRecord := MkUsage {
  u_TaskID : string; u_StageKey : option string; u_Agent : option string; u_Model : string;
  u_Input : Z; u_Output : Z; u_CacheRead : Z; u_CacheWrite : Z; u_TS : Z }.

(** src: internal/store/migrations/00001_baseline.sql 2-100 schema *)
Record DB := MkDB {
  db_projects : gmap string (ProjectEntity * Z);
  db_tasks : gmap string TaskEntity;
  db_stages : gmap string StageEntity;
  db_approvals : gmap string ApprovalEntity;
  db_deliverables : gmap string Deliverable;
  db_events : list Event;
  db_usage : list UsageRecord }.

Section tables.
Context (db : DB).
Definition set_projects v := MkDB v (db_tasks db) (db_stages db) (db_approvals db)
  (db_deliverables db) (db_events db) (db_usage db).
Definition set_tasks v := MkDB (db_projects db) v (db_stages db) (db_approvals db)
  (db_deliverables db) (db_events db) (db_usage db).
Definition set_stages v := MkDB (db_projects db) (db_tasks db) v (db_approvals db)
  (db_deliverables db) (db_events db) (db_usage db).
Definition set_approvals v := MkDB (db_projects db) (db_tasks db) (db_stages db) v
  (db_deliverables db) (db_events db) (db_usage db).
Definition set_deliverables v := MkDB (db_projects db) (db_tasks db) (db_stages db)
  (db_approvals db) v (db_events db) (db_usage db).
Definition set_events v := MkDB (db_projects db) (db_tasks db) (db_stages db)
  (db_approvals db) (db_deliverables db) v (db_usage db).
Definition set_usage v := MkDB (db_projects db) (db_tasks db) (db_stages db)
  (db_approvals db) (db_deliverables db) (db_events db) v.
End tables.

(** The calls that transactions register with [AfterCommit]. *)
Inductive Hook :=
  | HookPublish (ev : Event)
  | HookWake (task : string)
  | HookCancel (task : string).

(** src: internal/store/store.go 34-38 Tx *)
Record TxState := MkTx { tx_db : DB; tx_after : list Hook; tx_ticks : nat; tx_now : Z }.
Abbreviation Tx := (state TxState).

Definition with_db (σ : TxState) (db : DB) : TxState :=
  MkTx db (tx_after σ) (tx_ticks σ) (tx_now σ).
Definition update_db (f : DB → DB) : Tx unit := modify (λ σ, with_db σ (f (tx_db σ))).
(** A read of the transaction's own view of the database. *)
Definition reading {A} (f : DB → result A) : Tx A := λ σ, lift (f (tx_db σ)) σ.
(** src: internal/store/store.go 63-63 Tx.AfterCommit *)
Definition AfterCommit (h : Hook) : Tx unit :=
  modify (λ σ, MkTx (tx_db σ) (tx_after σ ++ [h]) (tx_ticks σ) (tx_now σ)).
(** A constraint of the schema: the statement fails and with it the transaction. *)
Definition require (P : Prop) `{!Decision P} (constraint : string) : Tx unit :=
  if decide P then mret tt else fail (ErrDB constraint).
(** SQL [now()]: the start of the transaction. *)
Definition now : Tx Z := λ σ, Ok (tx_now σ, σ).

Section platform.
Context {PF : Platform}.
Definition tick : Tx nat :=
  λ σ, Ok (tx_ticks σ, MkTx (tx_db σ) (tx_after σ) (S (tx_ticks σ)) (tx_now σ)).
(** [uuid.NewString()] *)
Definition new_uuid : Tx string := n ← tick; mret (uuid_of n).
(** [time.Now()] *)
Definition time_now : Tx Z := n ← tick; mret (clock_at n).
End platform.

(** ** Queries that read ([queries.sql]) *)
Definition rows {A} (m : gmap string A) : list A := (map_to_list m).*2.
Definition row_by_id {A} (m : gmap string A) (id : string) : result A :=
  result_of_option ErrNoRows (m !! id).

(** [decode]: a missing row becomes the resource's 404 fault.
    src: internal/store/store.go 64-73 decode *)
Definition decode {A} (resource upper : string) (r : result A) : result A :=
  match r with
  | Err ErrNoRows => FaultE 404 (upper +:+ "_NOT_FOUND") (resource +:+ " not found")
  | r => r
  end.

(** src: internal/store/store.go 88-91 Reader.Project *)
Definition Project (db : DB) (id : string) : result ProjectEntity :=
  decode "project" "PROJECT" (fst <$> row_by_id (db_projects db) id).
(** src: internal/store/store.go 96-99 Reader.Task *)
Definition Task (db : DB) (id : string) : result TaskEntity :=
  decode "task" "TASK" (row_by_id (db_tasks db) id).
(** src: internal/store/store.go 112-115 Reader.Approval *)
Definition Approval (db : DB) (id : string) : result ApprovalEntity :=
  decode "approval" "APPROVAL" (row_by_id (db_approvals db) id).

Section ordered.
Context {PF : Platform}.
Definition key_le (a b : StageEntity) : Prop := text_le (s_StageKey a) (s_StageKey b) = true.
#[export] Instance key_le_dec a b : Decision (key_le a b).
Proof. unfold key_le. apply _. Defined.
(** [select ... from stage where task_id=$1 order by stage_key].
    src: internal/store/sqlc/queries.sql.go 382-404 ListStages *)
Definition ListStages (db : DB) (task : string) : list StageEntity :=
  merge_sort key_le (filter (λ s, s_TaskID s = task) (rows (db_stages db))).
(** src: internal/store/store.go 108-111 Reader.Stages *)
Definition Stages (db : DB) (task : string) : result (list StageEntity) :=
  Ok (ListStages db task).
End ordered.

Definition match_filter (f : option string) (v : string) : Prop :=
  match f with None => True | Some x => v = x end.
#[export] Instance match_filter_dec f v : Decision (match_filter f v).
Proof. destruct f; simpl; apply _. Defined.

(** [order by requested_at, id] *)
Definition requested_le (a b : ApprovalEntity) : Prop :=
  (a_RequestedAt a < a_RequestedAt b)%Z ∨
  (a_RequestedAt a = a_RequestedAt b ∧ string_le (a_ID a) (a_ID b)).
#[export] Instance requested_le_dec a b : Decision (requested_le a b).
Proof. unfold requested_le. apply _. Defined.

(** A filter on pending approvals also requires an open task.
    src: internal/store/sqlc/queries.sql.go 299-299 ListApprovals (where) *)
Definition listed (db : DB) (task status : option string) (a : ApprovalEntity) : Prop :=
  match_filter task (a_TaskID a) ∧ match_filter status (a_Status a) ∧
  (status ≠ Some "pending" ∨
   match db_tasks db !! a_TaskID a with
   | Some t => Terminal (t_Status t) = false
   | None => False
   end).
#[export] Instance listed_dec db task status a : Decision (listed db task status a).
Proof. unfold listed. destruct (_ !! _); apply _. Defined.
(** src: internal/store/sqlc/queries.sql.go 298-326 ListApprovals *)
Definition ListApprovals (db : DB) (task status : option string) : list ApprovalEntity :=
  merge_sort requested_le (filter (listed db task status) (rows (db_approvals db))).
(** src: internal/store/store.go 116-119 Reader.Approvals *)
Definition Approvals (db : DB) (task status : option string) : result (list ApprovalEntity) :=
  Ok (ListApprovals db task status).

(** [order by created_at desc, id] and [order by created_at, id] *)
Definition newest_task_le (a b : TaskEntity) : Prop :=
  (t_CreatedAt b < t_CreatedAt a)%Z ∨
  (t_CreatedAt a = t_CreatedAt b ∧ string_le (t_ID a) (t_ID b)).
#[export] Instance newest_task_le_dec a b : Decision (newest_task_le a b).
Proof. unfold newest_task_le. apply _. Defined.
Definition oldest_project_le (a b : ProjectEntity * Z) : Prop :=
  (a.2 < b.2)%Z ∨ (a.2 = b.2 ∧ string_le (p_ID a.1) (p_ID b.1)).
#[export] Instance oldest_project_le_dec a b : Decision (oldest_project_le a b).
Proof. unfold oldest_project_le. apply _. Defined.
Definition newest_deliverable_le (a b : Deliverable) : Prop :=
  (d_CreatedAt b < d_CreatedAt a)%Z ∨
  (d_CreatedAt a = d_CreatedAt b ∧ string_le (d_ID b) (d_ID a)).
#[export] Instance newest_deliverable_le_dec a b : Decision (newest_deliverable_le a b).
Proof. unfold newest_deliverable_le. apply _. Defined.
Definition seq_le (a b : Event) : Prop := (ev_Seq a ≤ ev_Seq b)%Z.
#[export] Instance seq_le_dec a b : Decision (seq_le a b).
Proof. unfold seq_le. apply _. Defined.

(** [$2 is null or status = any($2)] *)
Definition match_any (l : option (list string)) (v : string) : Prop :=
  match l with None => True | Some l => v ∈ l end.
#[export] Instance match_any_dec l v : Decision (match_any l v).
Proof. destruct l; simpl; apply _. Defined.
(** src: internal/store/sqlc/queries.sql.go 406-433 ListTasks *)
Definition ListTasks (db : DB) (project : option string) (statuses : option (list string))
    : list TaskEntity :=
  merge_sort newest_task_le
    (filter (λ t, match_filter project (t_ProjectID t) ∧
                  match_any statuses (t_Status t))
       (rows (db_tasks db))).
(** src: internal/store/store.go 104-107 Reader.Tasks *)
Definition Tasks (db : DB) (project : option string) (statuses : option (list string))
    : result (list TaskEntity) := Ok (ListTasks db project statuses).
(** src: internal/store/sqlc/queries.sql.go 358-380 ListProjects *)
Definition ListProjects (db : DB) : list ProjectEntity :=
  (merge_sort oldest_project_le (rows (db_projects db))).*1.
(** src: internal/store/store.go 92-95 Reader.Projects *)
Definition Projects (db : DB) : result (list ProjectEntity) := Ok (ListProjects db).
(** src: internal/store/sqlc/queries.sql.go 328-356 ListEvents *)
Definition ListEvents (db : DB) (task : string) (after : Z) (limit : nat) : list Event :=
  take limit (merge_sort seq_le
    (filter (λ ev, ev_TaskID ev = task ∧ (after < ev_Seq ev)%Z) (db_events db))).
(** src: internal/store/store.go 137-140 Reader.Events *)
Definition Events (db : DB) (task : string) (after : Z) (limit : nat) : result (list Event) :=
  Ok (ListEvents db task after limit).
(** src: internal/store/sqlc/queries.sql.go 287-296 LatestDeliverableID *)
Definition LatestDeliverableID (db : DB) (stage : string) : result string :=
  result_of_option ErrNoRows (d_ID <$> head (merge_sort newest_deliverable_le
    (filter (λ d, d_StageID d = stage) (rows (db_deliverables db))))).

(** [bigint] addition fails out of range. *)
Definition add_int8 (a b : Z) : result Z :=
  if decide (in_int8 (a + b)) then Ok (a + b)%Z else Err (ErrDB "bigint out of range").
(** src: internal/store/sqlc/queries.sql.go 486-496 TaskTokensUsed *)
Definition TaskTokensUsed (db : DB) (task : string) : result Z :=
  total ← foldr (λ u total, total ← total; a ← add_int8 (u_Input u) (u_Output u);
                   b ← add_int8 a (u_CacheRead u); c ← add_int8 b (u_CacheWrite u);
                   mret (total + c)%Z)
    (Ok 0%Z) (filter (λ u, u_TaskID u = task) (db_usage db));
  add_int8 total 0.
(** src: internal/store/store.go 134-136 Reader.TokensUsed *)
Definition TokensUsed (db : DB) (task : string) : result Z := TaskTokensUsed db task.

Section completion.
Context {PF : Platform}.
(** [payload->>'url'] *)
Definition payload_url (ev : Event) : option string :=
  match json_field "url" (ev_Payload ev) with
  | None | Some JNull => None
  | Some (JStr s) => Some s
  | Some j => Some (jsonb_text j)
  end.
(** [order by url, seq] *)
Definition url_le (a b : string * Z) : Prop :=
  text_le a.1 b.1 = true ∧ (a.1 = b.1 → (a.2 ≤ b.2)%Z).
#[export] Instance url_le_dec a b : Decision (url_le a b).
Proof. unfold url_le. apply _. Defined.
(** [distinct on (url)]: the first row of each run of equal urls.
    src: internal/store/sqlc/queries.sql.go 458-458 PullRequestURLs (distinct) *)
Fixpoint distinct_on (l : list (string * Z)) : list (string * Z) :=
  match l with
  | [] => []
  | r :: l =>
    r :: match distinct_on l with
         | r' :: l' => if r.1 =? r'.1 then l' else r' :: l'
         | [] => []
         end
  end.
(** Scanning a null url into a Go string is an error.
    src: internal/store/sqlc/queries.sql.go 457-484 PullRequestURLs *)
Definition PullRequestURLs (db : DB) (task : string) : result (list (string * Z)) :=
  let evs := filter (λ ev, ev_TaskID ev = task ∧ ev_Type ev = "pr.opened") (db_events db) in
  rs ← foldr (λ ev rs, rs ← rs;
                url ← result_of_option (ErrorText "cannot scan NULL into *string")
                        (payload_url ev);
                mret ((url, ev_Seq ev) :: rs)) (Ok []) evs;
  mret (distinct_on (merge_sort url_le rs)).
Definition row_seq_le (a b : string * Z) : Prop := (a.2 ≤ b.2)%Z.
#[export] Instance row_seq_le_dec a b : Decision (row_seq_le a b).
Proof. unfold row_seq_le. apply _. Defined.
(** src: internal/store/store.go 121-133 Reader.Completion *)
Definition Completion (db : DB) (task : string) : result json :=
  rs ← PullRequestURLs db task;
  mret (if decide (rs = []) then JObj []
        else JObj [("pr_urls", JStrs (fst <$> merge_sort row_seq_le rs))]).
End completion.

(** ** Statements that write

    [constraint P name]: the schema refuses the row unless [P]. *)
Definition with_TaskStatus (t : TaskEntity) status version updated := MkTask (t_Pipeline t)
  (t_Workspace t) version (t_EventSeq t) (t_TokenBudget t) (t_ID t) (t_ProjectID t)
  (t_Command t) status (t_CreatedBy t) (t_CreatedAt t) updated (t_DiscordThreadID t).
Definition with_EventSeq (t : TaskEntity) seq := MkTask (t_Pipeline t)
  (t_Workspace t) (t_Version t) seq (t_TokenBudget t) (t_ID t) (t_ProjectID t)
  (t_Command t) (t_Status t) (t_CreatedBy t) (t_CreatedAt t) (t_UpdatedAt t)
  (t_DiscordThreadID t).
Definition with_TokenBudget (t : TaskEntity) budget version updated := MkTask (t_Pipeline t)
  (t_Workspace t) version (t_EventSeq t) budget (t_ID t) (t_ProjectID t)
  (t_Command t) (t_Status t) (t_CreatedBy t) (t_CreatedAt t) updated (t_DiscordThreadID t).

Definition put_task (t : TaskEntity) : Tx unit :=
  update_db (λ db, set_tasks db (<[t_ID t := t]> (db_tasks db))).
Definition put_stage (s : StageEntity) : Tx unit :=
  update_db (λ db, set_stages db (<[s_ID s := s]> (db_stages db))).
Definition put_approval (a : ApprovalEntity) : Tx unit :=
  update_db (λ db, set_approvals db (<[a_ID a := a]> (db_approvals db))).

(** src: internal/store/sqlc/queries.sql.go 435-444 LockTask *)
Definition LockTask (id : string) : Tx TaskEntity := reading (λ db, Task db id).

(** src: internal/store/sqlc/queries.sql.go 118-143 CreateProject *)
Definition CreateProject (id name owner repo branch : string) (installation : option Z)
    (local : option string) : Tx unit :=
  db ← reading (λ db, Ok db);
  require (db_projects db !! id = None) "project_pkey";;
  at_ ← now;
  update_db (λ db, set_projects db (<[id := (MkProject id name owner repo branch installation
    ".devsquad" local 2000000, at_)]> (db_projects db))).

(** src: internal/store/sqlc/queries.sql.go 168-193 CreateTask *)
Definition CreateTask (id project command user : string) (pipeline : json) (workspace : string)
    (budget : Z) : Tx unit :=
  db ← reading (λ db, Ok db);
  require (db_tasks db !! id = None) "task_pkey";;
  require (is_Some (db_projects db !! project)) "task_project_id_fkey";;
  require (in_int8 budget ∧ 0 < budget)%Z "ck_task_token_budget";;
  at_ ← now;
  put_task (MkTask pipeline workspace 0 0 budget id project command "queued" user at_ at_ None).

(** A nil slice is a null in a not-null column.
    src: internal/store/sqlc/queries.sql.go 145-166 CreateStage *)
Definition CreateStage (id task key role : string) (deps : option (list string)) : Tx unit :=
  db ← reading (λ db, Ok db);
  require (db_stages db !! id = None) "stage_pkey";;
  require (is_Some (db_tasks db !! task)) "stage_task_id_fkey";;
  require (Forall (λ s, ¬ (s_TaskID s = task ∧ s_StageKey s = key)) (rows (db_stages db)))
    "ux_stage_task_key";;
  deps ← lift (result_of_option (ErrDB "null value in column depends_on") deps);
  put_stage (MkStage None 0 None None 0 None None 0 0 id task key role "pending" deps 0).

(** A lost race finds no row.
    src: internal/store/sqlc/queries.sql.go 14-35 ClaimStage *)
Definition ClaimStage (id : string) (attempt : Z) (status old : string) : Tx Z :=
  row ← reading (λ db, row_by_id (db_stages db) id);
  if decide (s_Attempt row = attempt ∧ s_Status row = old) then
    require (status ∈ stage_statuses) "ck_stage_status";;
    require (in_int4 (attempt + 1) ∧ in_int4 (s_Version row + 1)) "integer out of range";;
    put_stage (with_claim row status (attempt + 1) (s_Version row + 1));;
    mret (attempt + 1)%Z
  else fail ErrNoRows.

(** The row an update writes: the caller's values, the row's identity and attempt.
    src: internal/store/sqlc/queries.sql.go 499-499 UpdateStage (set) *)
Definition written (row s : StageEntity) : StageEntity :=
  MkStage (s_Plan s) (s_PlanRetryNo s) (s_DeliverableRef s) (s_DeliverableSummary s)
    (s_DeliverableRetryNo s) (s_LastFeedback s) (s_BlockedReason s) (s_Attempt row)
    (s_Version row + 1) (s_ID row) (s_TaskID row) (s_StageKey row) (s_Role row) (s_Status s)
    (s_DependsOn row) (s_PlanRetryNo s + s_DeliverableRetryNo s).
(** src: internal/store/sqlc/queries.sql.go 498-536 UpdateStage *)
Definition Q_UpdateStage (s : StageEntity) (old : string) : Tx Z :=
  db ← reading (λ db, Ok db);
  require (in_int4 (s_PlanRetryNo s) ∧ in_int4 (s_DeliverableRetryNo s))
    "cannot encode integer";;
  match db_stages db !! s_ID s with
  | Some row =>
    if decide (s_Attempt row = s_Attempt s ∧ s_Status row = old ∧ s_Version row = s_Version s)
    then
      require (s_Status s ∈ stage_statuses) "ck_stage_status";;
      require (in_int4 (s_PlanRetryNo s + s_DeliverableRetryNo s) ∧
               in_int4 (s_Version row + 1)) "integer out of range";;
      put_stage (written row s);; mret 1%Z
    else mret 0%Z
  | None => mret 0%Z
  end.

(** [ux_approval_stage_pending] and [ux_approval_stage_kind_retry]
    src: internal/store/migrations/00002_orchestrator.sql 18-19 ux_approval_stage_pending *)
Definition approval_clash (stage kind : string) (retry : Z) (a : ApprovalEntity) : Prop :=
  a_StageID a = stage ∧ (a_Status a = "pending" ∨ a_Kind a = kind ∧ a_RetryNo a = retry).
#[export] Instance approval_clash_dec stage kind retry a :
  Decision (approval_clash stage kind retry a).
Proof. unfold approval_clash. apply _. Defined.
(** src: internal/store/sqlc/queries.sql.go 37-62 CreateApproval *)
Definition CreateApproval (id task stage kind : string) (retry : Z) (title content : string)
    : Tx unit :=
  db ← reading (λ db, Ok db);
  require (db_approvals db !! id = None) "approval_pkey";;
  require (is_Some (db_tasks db !! task)) "approval_task_id_fkey";;
  require (is_Some (db_stages db !! stage)) "approval_stage_id_fkey";;
  require (in_int4 retry) "cannot encode integer";;
  require (Forall (λ a, ¬ approval_clash stage kind retry a) (rows (db_approvals db)))
    "ux_approval_stage";;
  at_ ← now;
  put_approval (MkApproval 0 id task stage kind retry "pending" title (Some content) None None
                  None None at_ None false).
(** The row a decision writes.
    src: internal/store/sqlc/queries.sql.go 227-227 DecideApproval (set) *)
Definition decided_row (a : ApprovalEntity) (status : string) (feedback edited : option string)
    (user : string) (at_ : Z) : ApprovalEntity :=
  MkApproval (a_Version a + 1) (a_ID a) (a_TaskID a) (a_StageID a) (a_Kind a) (a_RetryNo a)
    status (a_Title a) (a_Content a) feedback edited (Some user) (Some "web") (a_RequestedAt a)
    (Some at_) (a_ResumePending a).
(** src: internal/store/sqlc/queries.sql.go 226-252 DecideApproval *)
Definition DecideApproval (id status : string) (feedback edited : option string)
    (user : string) (version : Z) : Tx Z :=
  db ← reading (λ db, Ok db);
  match db_approvals db !! id with
  | Some a =>
    if decide (a_Status a = "pending" ∧ a_Version a = version) then
      require (in_int4 (a_Version a + 1)) "integer out of range";;
      at_ ← now;
      put_approval (decided_row a status feedback edited user at_);;
      mret 1%Z
    else mret 0%Z
  | None => mret 0%Z
  end.

(** src: internal/store/sqlc/queries.sql.go 64-87 CreateDeliverable *)
Definition CreateDeliverable (id task stage : string) (uri content summary : option string)
    : Tx unit :=
  db ← reading (λ db, Ok db);
  require (db_deliverables db !! id = None) "deliverable_pkey";;
  require (is_Some (db_tasks db !! task)) "deliverable_task_id_fkey";;
  require (is_Some (db_stages db !! stage)) "deliverable_stage_id_fkey";;
  at_ ← now;
  update_db (λ db, set_deliverables db (<[id := MkDeliverable id task stage "markdown" uri
    content summary at_]> (db_deliverables db))).

(** src: internal/store/sqlc/queries.sql.go 446-455 NextSequence *)
Definition NextSequence (id : string) : Tx Z :=
  t ← reading (λ db, row_by_id (db_tasks db) id);
  require (in_int8 (t_EventSeq t + 1)) "bigint out of range";;
  put_task (with_EventSeq t (t_EventSeq t + 1));;
  mret (t_EventSeq t + 1)%Z.
(** src: internal/store/sqlc/queries.sql.go 89-116 CreateEvent *)
Definition CreateEvent (ev : Event) : Tx unit :=
  db ← reading (λ db, Ok db);
  require (is_Some (db_tasks db !! ev_TaskID ev)) "task_event_task_id_fkey";;
  require (Forall (λ e, ev_EventID e ≠ ev_EventID ev) (db_events db)) "ux_task_event_event_id";;
  require (Forall (λ e, ¬ (ev_TaskID e = ev_TaskID ev ∧ ev_Seq e = ev_Seq ev)) (db_events db))
    "ux_task_event_task_seq";;
  update_db (λ db, set_events db (db_events db ++ [ev])).
(** src: internal/store/sqlc/queries.sql.go 195-224 CreateUsage *)
Definition CreateUsage (u : UsageRecord) : Tx unit :=
  db ← reading (λ db, Ok db);
  require (is_Some (db_tasks db !! u_TaskID u)) "usage_record_task_id_fkey";;
  update_db (λ db, set_usage db (db_usage db ++ [u])).

(** src: internal/store/sqlc/queries.sql.go 556-572 UpdateTaskStatus *)
Definition UpdateTaskStatus (id status : string) (version : Z) : Tx Z :=
  db ← reading (λ db, Ok db);
  match db_tasks db !! id with
  | Some t =>
    if decide (t_Version t = version) then
      require (status ∈ task_statuses) "ck_task_status";;
      require (in_int4 (version + 1)) "integer out of range";;
      at_ ← now;
      put_task (with_TaskStatus t status (version + 1) at_);; mret 1%Z
    else mret 0%Z
  | None => mret 0%Z
  end.
(** src: internal/store/sqlc/queries.sql.go 538-554 UpdateTaskBudget *)
Definition UpdateTaskBudget (id : string) (budget version : Z) : Tx Z :=
  db ← reading (λ db, Ok db);
  match db_tasks db !! id with
  | Some t =>
    if decide (t_Version t = version) then
      require (in_int8 budget ∧ 0 < budget)%Z "ck_task_token_budget";;
      require (in_int4 (version + 1)) "integer out of range";;
      at_ ← now;
      put_task (with_TokenBudget t budget (version + 1) at_);; mret 1%Z
    else mret 0%Z
  | None => mret 0%Z
  end.

(** ** The store's operations ([store.go]) *)
(** The assignments to [task] after the update are the returned value.
    src: internal/store/store.go 141-152 Tx.SetStatus *)
Definition SetStatus (t : TaskEntity) (status : string) : Tx TaskEntity :=
  n ← UpdateTaskStatus (t_ID t) status (t_Version t);
  if (n =? 1)%Z then mret (with_TaskStatus t status (int64 (t_Version t + 1)) (t_UpdatedAt t))
  else fail (Fault 409 "INVALID_TRANSITION" "task version changed").
(** src: internal/store/store.go 153-162 Tx.UpdateStage *)
Definition UpdateStage (s : StageEntity) (old : string) : Tx unit :=
  n ← Q_UpdateStage s old;
  if (n =? 1)%Z then mret tt else fail ErrStale.
(** src: internal/store/store.go 163-170 FindStage *)
Fixpoint FindStage (stages : list StageEntity) (id : string) : result StageEntity :=
  match stages with
  | [] => Err (ErrorText ("missing stage " +:+ id))
  | s :: stages => if s_ID s =? id then Ok s else FindStage stages id
  end.

(** ** Inversion of the statements *)
Lemma reading_ok {A} (f : DB → result A) σ a σ' :
  reading f σ = Ok (a, σ') → f (tx_db σ) = Ok a ∧ σ' = σ.
Proof. unfold reading. apply lift_ok. Qed.
Lemma require_ok P `{!Decision P} c σ a σ' : require P c σ = Ok (a, σ') → P ∧ σ' = σ.
Proof. unfold require. by case_decide; intros [= <- <-]. Qed.
Lemma now_ok σ a σ' : now σ = Ok (a, σ') → a = tx_now σ ∧ σ' = σ.
Proof. by intros [= <- <-]. Qed.
Lemma update_db_ok f σ a σ' : update_db f σ = Ok (a, σ') → σ' = with_db σ (f (tx_db σ)).
Proof. by intros [= <- <-]. Qed.
Lemma AfterCommit_ok h σ a σ' : AfterCommit h σ = Ok (a, σ') →
  σ' = MkTx (tx_db σ) (tx_after σ ++ [h]) (tx_ticks σ) (tx_now σ).
Proof. by intros [= <- <-]. Qed.
Lemma tick_ok σ a σ' : tick σ = Ok (a, σ') →
  a = tx_ticks σ ∧ σ' = MkTx (tx_db σ) (tx_after σ) (S (tx_ticks σ)) (tx_now σ).
Proof. by intros [= <- <-]. Qed.
Lemma decode_ok {A} resource upper (r : result A) a : decode resource upper r = Ok a → r = Ok a.
Proof. by destruct r as [|[]]. Qed.
Lemma row_by_id_ok {A} (m : gmap string A) id a : row_by_id m id = Ok a → m !! id = Some a.
Proof. apply result_of_option_ok. Qed.

Ltac tx_leaf :=
  match goal with
  | H : reading _ _ = Ok (_, _) |- _ => apply reading_ok in H as [H ?]; subst
  | H : require _ _ _ = Ok (_, _) |- _ => apply require_ok in H as [H ?]; subst
  | H : now _ = Ok (_, _) |- _ => apply now_ok in H as [??]; subst
  | H : update_db _ _ = Ok (_, _) |- _ => apply update_db_ok in H; subst
  | H : put_task _ _ = Ok (_, _) |- _ => apply update_db_ok in H; subst
  | H : put_stage _ _ = Ok (_, _) |- _ => apply update_db_ok in H; subst
  | H : put_approval _ _ = Ok (_, _) |- _ => apply update_db_ok in H; subst
  | H : AfterCommit _ _ = Ok (_, _) |- _ => apply AfterCommit_ok in H; subst
  | H : tick _ = Ok (_, _) |- _ => apply tick_ok in H as [??]; subst
  | H : decode _ _ _ = Ok _ |- _ => apply decode_ok in H
  | H : row_by_id _ _ = Ok _ |- _ => apply row_by_id_ok in H
  | H : Task _ _ = Ok _ |- _ => apply decode_ok, row_by_id_ok in H
  end.
(** Symbolic execution of a successful transaction. *)
Ltac inv_tx := repeat first [inv_step | tx_leaf].

Section statements.
Implicit Types σ : TxState.
Lemma LockTask_ok id σ t σ' :
  LockTask id σ = Ok (t, σ') → db_tasks (tx_db σ) !! id = Some t ∧ σ' = σ.
Proof. unfold LockTask. intros. inv_tx. done. Qed.
Lemma UpdateStage_ok s old σ u σ' :
  UpdateStage s old σ = Ok (u, σ') →
  ∃ row, db_stages (tx_db σ) !! s_ID s = Some row ∧ s_Attempt row = s_Attempt s ∧
    s_Status row = old ∧ s_Version row = s_Version s ∧ s_Status s ∈ stage_statuses ∧
    in_int4 (s_PlanRetryNo s) ∧ in_int4 (s_DeliverableRetryNo s) ∧
    in_int4 (s_Version row + 1) ∧
    σ' = with_db σ (set_stages (tx_db σ) (<[s_ID row := written row s]> (db_stages (tx_db σ)))).
Proof.
  unfold UpdateStage, Q_UpdateStage. intros. inv_tx; try discriminate.
  destruct_and?. eexists. split_and!; eauto.
Qed.
Lemma ClaimStage_ok id attempt status old σ n σ' :
  ClaimStage id attempt status old σ = Ok (n, σ') →
  ∃ row, db_stages (tx_db σ) !! id = Some row ∧ s_Attempt row = attempt ∧ s_Status row = old ∧
    n = (attempt + 1)%Z ∧ status ∈ stage_statuses ∧
    in_int4 (attempt + 1) ∧ in_int4 (s_Version row + 1) ∧
    σ' = with_db σ (set_stages (tx_db σ)
           (<[s_ID row := with_claim row status (attempt + 1) (s_Version row + 1)]>
              (db_stages (tx_db σ)))).
Proof.
  unfold ClaimStage. intros. inv_tx. destruct_and?. eexists. split_and!; eauto.
Qed.
Lemma SetStatus_ok t status σ t' σ' :
  SetStatus t status σ = Ok (t', σ') →
  ∃ row, db_tasks (tx_db σ) !! t_ID t = Some row ∧ t_Version row = t_Version t ∧
    status ∈ task_statuses ∧
    t' = with_TaskStatus t status (int64 (t_Version t + 1)) (t_UpdatedAt t) ∧
    σ' = with_db σ (set_tasks (tx_db σ)
           (<[t_ID row := with_TaskStatus row status (t_Version t + 1) (tx_now σ)]>
              (db_tasks (tx_db σ)))).
Proof.
  unfold SetStatus, UpdateTaskStatus. intros. inv_tx; try discriminate.
  eexists. split_and!; eauto.
Qed.
Lemma CreateApproval_ok id task stage kind retry title content σ u σ' :
  CreateApproval id task stage kind retry title content σ = Ok (u, σ') →
  db_approvals (tx_db σ) !! id = None ∧ is_Some (db_tasks (tx_db σ) !! task) ∧
  is_Some (db_stages (tx_db σ) !! stage) ∧
  Forall (λ a, ¬ approval_clash stage kind retry a) (rows (db_approvals (tx_db σ))) ∧
  σ' = with_db σ (set_approvals (tx_db σ) (<[id := MkApproval 0 id task stage kind retry
         "pending" title (Some content) None None None None (tx_now σ) None false]>
           (db_approvals (tx_db σ)))).
Proof. unfold CreateApproval. intros. inv_tx. done. Qed.
Lemma DecideApproval_ok id status feedback edited user version σ n σ' :
  DecideApproval id status feedback edited user version σ = Ok (n, σ') →
  n = 1%Z → ∃ a, db_approvals (tx_db σ) !! id = Some a ∧ a_Status a = "pending" ∧
    a_Version a = version ∧
    σ' = with_db σ (set_approvals (tx_db σ) (<[a_ID a := decided_row a status feedback edited
           user (tx_now σ)]> (db_approvals (tx_db σ)))).
Proof.
  unfold DecideApproval. intros. inv_tx; try discriminate.
  destruct_and?. eexists. split_and!; eauto.
Qed.
End statements.

(** Rows of a table. *)
Lemma elem_of_rows {A} (m : gmap string A) x : x ∈ rows m ↔ ∃ id, m !! id = Some x.
Proof.
  unfold rows. rewrite list_elem_of_fmap. split.
  - intros ([id y] & -> & H%elem_of_map_to_list). by exists id.
  - intros (id & H). exists (id, x). by rewrite elem_of_map_to_list.
Qed.
Lemma Forall_rows {A} (P : A → Prop) (m : gmap string A) :
  Forall P (rows m) ↔ ∀ id x, m !! id = Some x → P x.
Proof. rewrite Forall_forall. setoid_rewrite elem_of_rows. naive_solver. Qed.
Lemma elem_of_ListStages `{!Platform} db task s :
  s ∈ ListStages db task ↔ s_TaskID s = task ∧ ∃ id, db_stages db !! id = Some s.
Proof.
  unfold ListStages. by rewrite merge_sort_Permutation, list_elem_of_filter, elem_of_rows.
Qed.
Lemma FindStage_ok ss id s : FindStage ss id = Ok s → s ∈ ss ∧ s_ID s = id.
Proof.
  induction ss as [|x ss IH]; [done|]. simpl. rewrite elem_of_cons. case_eqb; naive_solver.
Qed.

(** ** Transactions *)
(** What the services can observe of the world between transactions: the database, the
    random and clock values consumed so far and the hooks that have run. *)
Record World := MkWorld { w_db : DB; w_ticks : nat; w_hooks : list Hook }.

(** What the infrastructure does to a transaction whose statements succeed: the commit is
    acknowledged, its acknowledgement is lost (after the server applied it or not), or the
    connection fails before the commit. *)
Inductive Fate := Acked | Unacked (applied : bool) (e : error) | Lost (e : error).

Section with_tx.
Context {PF : Platform}.
Definition begin_tx (w : World) : TxState :=
  MkTx (w_db w) [] (S (w_ticks w)) (clock_at (w_ticks w)).
Definition after_tx (w : World) (σ : TxState) : World :=
  MkWorld (tx_db σ) (tx_ticks σ) (w_hooks w).
(** src: internal/store/store.go 41-62 Store.WithTx *)
Definition WithTx {A} (fate : Fate) (fn : Tx A) (w : World) : result A * World :=
  match fate, fn (begin_tx w) with
  | Lost e, Ok _ => (Err e, w)
  | _, Err e => (Err e, w)
  | Acked, Ok (a, σ) =>
      (Ok a, MkWorld (tx_db σ) (tx_ticks σ) (w_hooks w ++ tx_after σ))
  | Unacked applied e, Ok (a, σ) =>
      (Err (CommitError e), if applied then after_tx w σ else w)
  end.

(** C12: a transaction is atomic: the database afterwards is the one before or the one its
    statements produced; success means it was applied and exactly its own hooks ran, in
    order; any error other than a lost acknowledgement means nothing was applied, and no
    error ever runs a hook. *)
Theorem WithTx_atomic {A} fate (fn : Tx A) w r w' :
  WithTx fate fn w = (r, w') →
  match r with
  | Ok a => ∃ σ, fn (begin_tx w) = Ok (a, σ) ∧ w_db w' = tx_db σ ∧
              w_hooks w' = w_hooks w ++ tx_after σ
  | Err e => w_hooks w' = w_hooks w ∧
      (w' = w ∨ is_commit_error e = true ∧
         ∃ a σ, fn (begin_tx w) = Ok (a, σ) ∧ w_db w' = tx_db σ)
  end.
Proof.
  unfold WithTx. destruct (fn (begin_tx w)) as [[a σ]|e] eqn:Hf, fate as [|[]|];
    intros [= <- <-]; simpl; (split; [done|]) || (exists σ; done) || idtac; try (by left).
  right. split; [done|]. by exists a, σ.
Qed.
End with_tx.

(** A platform to run examples on. *)
Definition demo_platform : Platform := {|
  uuid_of n := "uuid-" +:+ pretty n; clock_at n := Z.of_nat n * 1000500;
  text_le a b := bool_decide (string_le a b); jsonb_text _ := "json"|}%Z.

Definition empty_db : DB := MkDB ∅ ∅ ∅ ∅ ∅ [] [].
Definition demo_world : World := MkWorld empty_db 0 [].
Definition demo_tx : Tx unit :=
  CreateProject "p1" "n" "o" "r" "main" None None;; AfterCommit (HookWake "t").
Lemma WithTx_atomic_witness :
  ∃ w, WithTx (PF:=demo_platform) Acked demo_tx demo_world = (Ok tt, w) ∧
    w_hooks w = w_hooks demo_world ++ [HookWake "t"].
Proof.
  destruct (WithTx (PF:=demo_platform) Acked demo_tx demo_world) as [r w] eqn:H.
  assert (r = Ok tt) as ->.
  { transitivity ((r, w).1); [done|]. rewrite <- H. vm_compute. reflexivity. }
  exists w. split; [done|].
  destruct (WithTx_atomic (PF:=demo_platform) Acked demo_tx demo_world _ _ H)
    as (σ & Hσ & _ & ->). f_equal. unfold demo_tx, CreateProject in Hσ. inv_tx. reflexivity.
Defined.
