(* ===== verification/Event.v ===== *)
(** * Events: the emitter and the event log ([internal/event/emitter.go])

    [Emit] numbers an event, stores it with its usage record and registers its publication
    for after the commit.  The log of a task is always the contiguous sequence [1..n]. *)
From S2P Require Import Prelude GoStrings Domain Pipeline PipelineJSON Store.

(** src: internal/event/emitter.go 21-24 UsagePayload *)
Record UsagePayload := MkUsagePayload {
  up_Model : string; up_Input : Z; up_Output : Z; up_CacheRead : Z; up_CacheWrite : Z }.
(** src: internal/llm/llm.go 24-29 Usage (json tags) *)
Definition marshal_usage (u : UsagePayload) : json :=
  JObj [("model", JStr (up_Model u)); ("input_tokens", JNum (up_Input u));
        ("output_tokens", JNum (up_Output u)); ("cache_read_tokens", JNum (up_CacheRead u));
        ("cache_write_tokens", JNum (up_CacheWrite u))].
(** src: internal/event/emitter.go 53-56 Emitter.Emit (usage decoding) *)
Definition unmarshal_usage : json → result UsagePayload :=
  un_object (MkUsagePayload "" 0 0 0 0) (λ j,
    m ← un_string (member "model" j); i ← un_int (member "input_tokens" j);
    o ← un_int (member "output_tokens" j); r ← un_int (member "cache_read_tokens" j);
    w ← un_int (member "cache_write_tokens" j); Ok (MkUsagePayload m i o r w)).

(** An empty stage or agent name is a null column.
    src: internal/event/emitter.go 42-47 Emitter.Emit (optional names) *)
Definition name_ptr (s : string) : option string := if s =? "" then None else Some s.
(** [now.Truncate(time.Microsecond)], in nanoseconds.
    src: internal/event/emitter.go 40-40 Emitter.Emit (time) *)
Definition truncate_us (t : Z) : Z := (t - t `mod` 1000)%Z.

Section emit.
Context {PF : Platform}.
(** The clock is the wall clock ([Emitter.Now] is set by tests only).
    src: internal/event/emitter.go 26-67 Emitter.Emit *)
Definition Emit (task stage agent kind : string) (payload : json) : Tx unit :=
  seq ← NextSequence task;
  clock ← time_now;
  let ts := truncate_us clock in
  id ← new_uuid;
  let ev := MkEvent id task seq ts (name_ptr stage) (name_ptr agent) kind payload in
  CreateEvent ev;;
  (if kind =? "usage" then
     u ← lift (unmarshal_usage payload);
     CreateUsage (MkUsage task (name_ptr stage) (name_ptr agent) (up_Model u) (up_Input u)
       (up_Output u) (up_CacheRead u) (up_CacheWrite u) ts)
   else mret tt);;
  AfterCommit (HookPublish ev).

(** The usage rows an event adds. *)
Definition usage_of (ev : Event) : list UsageRecord :=
  if ev_Type ev =? "usage" then
    match unmarshal_usage (ev_Payload ev) with
    | Ok u => [MkUsage (ev_TaskID ev) (ev_StageKey ev) (ev_Agent ev) (up_Model u) (up_Input u)
                 (up_Output u) (up_CacheRead u) (up_CacheWrite u) (ev_TS ev)]
    | Err _ => []
    end
  else [].
(** The database with [ev] logged as the next event of [t]. *)
Definition logged (db : DB) (t : TaskEntity) (ev : Event) : DB :=
  MkDB (db_projects db) (<[t_ID t := with_EventSeq t (ev_Seq ev)]> (db_tasks db))
    (db_stages db) (db_approvals db) (db_deliverables db) (db_events db ++ [ev])
    (db_usage db ++ usage_of ev).

Lemma Emit_ok task stage agent kind payload σ u σ' :
  Emit task stage agent kind payload σ = Ok (u, σ') →
  ∃ t ev, db_tasks (tx_db σ) !! task = Some t ∧ in_int8 (t_EventSeq t + 1) ∧
    ev = MkEvent (uuid_of (S (tx_ticks σ))) task (t_EventSeq t + 1)
           (truncate_us (clock_at (tx_ticks σ))) (name_ptr stage) (name_ptr agent) kind
           payload ∧
    (kind = "usage" → is_ok (unmarshal_usage payload) = true) ∧
    Forall (λ e, ev_EventID e ≠ ev_EventID ev) (db_events (tx_db σ)) ∧
    σ' = MkTx (logged (tx_db σ) t ev) (tx_after σ ++ [HookPublish ev])
           (S (S (tx_ticks σ))) (tx_now σ).
Proof.
  unfold Emit, NextSequence, time_now, new_uuid, CreateEvent, CreateUsage.
  intros H. inv_tx; eexists _, _; simpl in *; split_and!; eauto.
  all: unfold with_db, logged, usage_of; simpl.
  - intros _. by match goal with E : unmarshal_usage _ = Ok _ |- _ => rewrite E end.
  - by match goal with E : unmarshal_usage _ = Ok _ |- _ => rewrite E end.
  - match goal with E : kind ≠ _ |- _ => apply String.eqb_neq in E; rewrite E end.
    by rewrite app_nil_r.
Qed.
End emit.

(** ** The event log *)
Definition events_of (db : DB) (task : string) : list Event :=
  filter (λ ev, ev_TaskID ev = task) (db_events db).
Definition tasks_keyed (db : DB) : Prop :=
  ∀ id t, db_tasks db !! id = Some t → t_ID t = id.

(** The events of every task are numbered from 1 without a gap, [event_seq] is the last
    number given, every event belongs to a task and event ids are unique. *)
Record log_wf (db : DB) : Prop := {
  lw_keyed : tasks_keyed db;
  lw_seqs : ∀ id t, db_tasks db !! id = Some t →
    (0 ≤ t_EventSeq t)%Z ∧ ev_Seq <$> events_of db id = seqZ 1 (t_EventSeq t);
  lw_task : ∀ ev, ev ∈ db_events db → is_Some (db_tasks db !! ev_TaskID ev);
  lw_ids : NoDup (ev_EventID <$> db_events db) }.

Lemma seqZ_snoc m n : (0 ≤ n)%Z → seqZ m (n + 1) = seqZ m n ++ [(m + n)%Z].
Proof. intros. rewrite seqZ_app by lia. by rewrite (seqZ_cons (m + n)) by lia. Qed.

Lemma log_wf_logged db id t ev :
  log_wf db → db_tasks db !! id = Some t → ev_TaskID ev = id →
  ev_Seq ev = (t_EventSeq t + 1)%Z →
  Forall (λ e, ev_EventID e ≠ ev_EventID ev) (db_events db) →
  log_wf (logged db t ev).
Proof.
  intros [Hk Hs Ht Hi] Hid <- Hseq Hnew. pose proof (Hk _ _ Hid) as Hkey.
  destruct (Hs _ _ Hid) as [Hpos Hsid]. split; simpl.
  - intros id' t'. simpl. rewrite lookup_insert_Some. intros [[<- <-]|[_ H]]; [done|by apply Hk].
  - intros id' t'. unfold events_of in *. simpl. rewrite filter_app, fmap_app, filter_cons.
    rewrite Hkey. rewrite lookup_insert_Some. intros [[<- <-]|[Hne H]]; simpl.
    + rewrite decide_True by done. split; [lia|].
      rewrite Hsid, Hseq, seqZ_snoc by done. simpl. do 2 f_equal. lia.
    + rewrite decide_False by congruence. rewrite filter_nil, fmap_nil, app_nil_r. by apply Hs.
  - intros ev'. rewrite elem_of_app, list_elem_of_singleton, lookup_insert_is_Some.
    rewrite Hkey. intros [H| ->]; [|by left]. destruct (decide (ev_TaskID ev = ev_TaskID ev'));
      [by left | right; split; [done|by apply Ht]].
  - rewrite fmap_app. apply NoDup_app. split_and!; [done| |apply NoDup_singleton].
    intros x (e & -> & He)%list_elem_of_fmap. simpl. rewrite list_elem_of_singleton.
    rewrite Forall_forall in Hnew. by apply Hnew.
Qed.

(** The log depends on the tasks and the events only. *)
Definition same_log (db db' : DB) : Prop :=
  db_events db' = db_events db ∧
  ∀ id, (λ t, (t_ID t, t_EventSeq t)) <$> db_tasks db' !! id =
        (λ t, (t_ID t, t_EventSeq t)) <$> db_tasks db !! id.
Lemma log_wf_same db db' : same_log db db' → log_wf db → log_wf db'.
Proof.
  intros [He Ht] [Hk Hs Hf Hi]. unfold events_of in *.
  assert (∀ id t', db_tasks db' !! id = Some t' → ∃ t, db_tasks db !! id = Some t ∧
    t_ID t = t_ID t' ∧ t_EventSeq t = t_EventSeq t') as Hinv.
  { intros id t' H. specialize (Ht id). rewrite H in Ht.
    destruct (db_tasks db !! id) as [t|]; [|done]. simpl in Ht. injection Ht as -> ->. by exists t. }
  split; [intros id t' H|intros id t' H|intros ev|]; unfold events_of; rewrite ?He; [| | |done].
  - destruct (Hinv _ _ H) as (t & Hid & <- & _). by apply Hk.
  - destruct (Hinv _ _ H) as (t & Hid & _ & <-). by apply Hs.
  - intros [t Hid]%Hf. specialize (Ht (ev_TaskID ev)). rewrite Hid in Ht.
    by destruct (db_tasks db' !! _).
Qed.

Section emit_theorems.
Context {PF : Platform}.

(** An emitted event is the next of its task: on a well formed log the new log is well
    formed (contiguous numbers, unique ids), the event is numbered one past the events the
    task had, its timestamp is a whole microsecond, and what will be published after the
    commit is the very row that was stored, so that live and replayed envelopes agree. *)
Theorem Emit_contiguous task stage agent kind payload σ u σ' :
  log_wf (tx_db σ) → Emit task stage agent kind payload σ = Ok (u, σ') →
  log_wf (tx_db σ') ∧ ∃ ev,
    events_of (tx_db σ') task = events_of (tx_db σ) task ++ [ev] ∧
    ev_Seq ev = (Z.of_nat (length (events_of (tx_db σ) task)) + 1)%Z ∧
    ev_Type ev = kind ∧ ev_Payload ev = payload ∧ (1000 | ev_TS ev)%Z ∧
    tx_after σ' = tx_after σ ++ [HookPublish ev].
Proof.
  intros Hw (t & ev & Ht & _ & Hev & _ & Hn & ->)%Emit_ok. simpl. split.
  { subst ev. by eapply log_wf_logged. }
  exists ev. destruct (lw_seqs _ Hw _ _ Ht) as [Hp Hs]. subst ev. simpl. split_and!; try done.
  - unfold events_of. simpl. by rewrite filter_app, filter_cons, decide_True.
  - apply (f_equal length) in Hs. rewrite length_fmap, length_seqZ in Hs. lia.
  - exists (clock_at (tx_ticks σ) `div` 1000)%Z. unfold truncate_us.
    pose proof (Z.div_mod (clock_at (tx_ticks σ)) 1000). lia.
Qed.
End emit_theorems.

Definition demo_task : TaskEntity :=
  MkTask JNull "/ws" 0 0 1000 "t1" "p1" "cmd" "running" "me" 0 0 None.
Definition demo_project : ProjectEntity * Z :=
  (MkProject "p1" "n" "o" "r" "main" None ".devsquad" (Some "/src") 1000, 0)%Z.
Definition task_db : DB := MkDB {["p1" := demo_project]} {["t1" := demo_task]} ∅ ∅ ∅ [] [].
Lemma task_db_log : log_wf task_db.
Proof.
  split; simpl; [| |by intros ev ?%elem_of_nil|apply NoDup_nil_2];
    intros id t; unfold task_db; simpl; rewrite lookup_singleton_Some; by intros [<- <-].
Qed.
Lemma Emit_contiguous_witness :
  ∃ σ', Emit (PF:=demo_platform) "t1" "" "" "run.started" JNull (MkTx task_db [] 0 0)
        = Ok (tt, σ') ∧ log_wf (tx_db σ').
Proof.
  destruct (Emit (PF:=demo_platform) "t1" "" "" "run.started" JNull (MkTx task_db [] 0 0))
    as [[[] σ']|e] eqn:H; [|vm_compute in H; discriminate H].
  exists σ'. split; [done|].
  exact (proj1 (Emit_contiguous (PF:=demo_platform) "t1" "" "" "run.started" JNull
    (MkTx task_db [] 0 0) tt σ' task_db_log H)).
Defined.

(** ** Reading the log back *)
#[export] Instance seq_le_total : Total seq_le.
Proof. intros a b. unfold seq_le. lia. Qed.
Lemma seqZ_sorted m n : StronglySorted Z.le (seqZ m n).
Proof.
  remember (Z.to_nat n) as k eqn:Hk. revert m n Hk.
  induction k as [|k IH]; intros m n Hk; [rewrite seqZ_nil by lia; constructor|].
  rewrite seqZ_cons by lia. constructor; [apply IH; lia|].
  apply Forall_forall. intros x. rewrite elem_of_seqZ. lia.
Qed.
Lemma ListEvents_seqs db id t after limit :
  log_wf db → db_tasks db !! id = Some t → (0 ≤ after)%Z →
  ListEvents db id after limit =
    take limit (filter (λ ev, after < ev_Seq ev)%Z (events_of db id)) ∧
  ev_Seq <$> filter (λ ev, after < ev_Seq ev)%Z (events_of db id) =
    seqZ (after + 1) (t_EventSeq t - after).
Proof.
  intros Hw Ht Ha. destruct (lw_seqs _ Hw _ _ Ht) as [Hp Hs].
  assert (∀ l : list Event, ev_Seq <$> filter (λ ev, after < ev_Seq ev)%Z l =
               filter (λ n, after < n)%Z (ev_Seq <$> l)) as Hf.
  { induction l as [|ev l IH]; [done|]. rewrite filter_cons, fmap_cons, filter_cons.
    destruct (decide (after < ev_Seq ev)%Z); [by rewrite fmap_cons, IH|done]. }
  assert (ev_Seq <$> filter (λ ev, after < ev_Seq ev)%Z (events_of db id) =
          seqZ (after + 1) (t_EventSeq t - after)) as Hseq.
  { rewrite Hf, Hs. destruct (decide (after ≤ t_EventSeq t)%Z) as [Hle|Hgt].
    - replace (seqZ 1 (t_EventSeq t))
        with (seqZ 1 after ++ seqZ (after + 1) (t_EventSeq t - after))
        by (rewrite (Z.add_comm after 1), <- seqZ_app by lia; f_equal; lia).
      rewrite filter_app, filter_none, filter_all; [done|..];
        intros x; rewrite elem_of_seqZ; lia.
    - rewrite filter_none by (intros x; rewrite elem_of_seqZ; lia). by rewrite seqZ_nil by lia. }
  split; [|done]. unfold ListEvents. f_equal.
  assert (filter (λ ev, ev_TaskID ev = id ∧ (after < ev_Seq ev)%Z) (db_events db) =
          filter (λ ev, after < ev_Seq ev)%Z (events_of db id)) as ->.
  { unfold events_of. rewrite list_filter_filter. apply list_filter_iff. tauto. }
  apply (perm_fmap_eq ev_Seq); [apply merge_sort_Permutation|rewrite Hseq; apply NoDup_seqZ|].
  rewrite Hseq.
  apply (Sorted_unique Z.le); [|apply StronglySorted_Sorted, seqZ_sorted|].
  - apply (Sorted_fmap _ seq_le); [done|]. apply (Sorted_merge_sort seq_le).
  - by rewrite merge_sort_Permutation, Hseq.
Qed.
