(* ===== verification/Bus.v ===== *)
(** * The in-process event bus ([internal/event/bus.go])

    Published events are copied to the buffered channel of every subscriber that wants them.
    A subscriber whose channel is full is removed and told so; it is never skipped silently. *)
From S2P Require Import Prelude GoStrings Domain.

(** src: internal/event/bus.go 14-18 subscriber *)
Record subscriber := MkSubscriber {
  su_task : string; su_cap : nat; su_events : list Event; su_done : bool }.
(** Subscribers by the number of their subscription; the live ones are those not done.
    src: internal/event/bus.go 19-23 Bus *)
Record Bus := MkBus { bu_subs : gmap nat subscriber; bu_next : nat; bu_Capacity : Z }.

(** src: internal/event/bus.go 25-25 NewBus *)
Definition NewBus : Bus := MkBus ∅ 0 512.
(** [Capacity] is an exported field; the channels made afterwards have it.
    src: internal/event/bus.go 22-22 Bus.Capacity *)
Definition with_capacity (c : Z) (b : Bus) : Bus := MkBus (bu_subs b) (bu_next b) c.
(** src: internal/event/bus.go 29-29 Bus.Subscribe (capacity) *)
Definition capacity (b : Bus) : nat := Z.to_nat (1 `max` bu_Capacity b).
(** src: internal/event/bus.go 26-32 Bus.Subscribe *)
Definition Subscribe (task : string) (b : Bus) : nat * Bus :=
  (bu_next b, MkBus (<[bu_next b := MkSubscriber task (capacity b) [] false]> (bu_subs b)) (S (bu_next b))
                (bu_Capacity b)).
(** src: internal/event/bus.go 33-38 Bus.remove *)
Definition remove (s : subscriber) : subscriber := MkSubscriber (su_task s) (su_cap s) (su_events s) true.
(** src: internal/event/bus.go 31-31 Bus.Subscribe (Close) *)
Definition Close (id : nat) (b : Bus) : Bus :=
  MkBus (alter remove id (bu_subs b)) (bu_next b) (bu_Capacity b).
(** src: internal/event/bus.go 43-45 Bus.Publish (filter) *)
Definition wants (task : string) (ev : Event) : bool := (task =? "") || (task =? ev_TaskID ev).
(** What one published event does to a subscriber.
    src: internal/event/bus.go 43-50 Bus.Publish (subscriber) *)
Definition offer (ev : Event) (s : subscriber) : subscriber :=
  if su_done s || negb (wants (su_task s) ev) then s else
  if decide (length (su_events s) < su_cap s)%nat
  then MkSubscriber (su_task s) (su_cap s) (su_events s ++ [ev]) (su_done s)
  else remove s.
(** src: internal/event/bus.go 39-52 Bus.Publish *)
Definition Publish (ev : Event) (b : Bus) : Bus :=
  MkBus (offer ev <$> bu_subs b) (bu_next b) (bu_Capacity b).
(** A receive from the channel of a subscription; it also works after the removal. *)
Definition Receive (id : nat) (b : Bus) : option Event * Bus :=
  match bu_subs b !! id with
  | Some (MkSubscriber task cap (ev :: events) isdone) =>
    (Some ev, MkBus (<[id := MkSubscriber task cap events isdone]> (bu_subs b)) (bu_next b)
                (bu_Capacity b))
  | _ => (None, b)
  end.

(** ** Histories *)
Inductive action :=
  | DoSubscribe (task : string) | DoClose (id : nat) | DoPublish (ev : Event) | DoReceive (id : nat)
  | DoCapacity (c : Z).
(** The bus and, for each subscription, what has been received from it. *)
Record History := MkHistory { hi_bus : Bus; hi_received : gmap nat (list Event) }.
Definition received (h : History) (id : nat) : list Event := default [] (hi_received h !! id).
Definition act (h : History) (a : action) : History :=
  match a with
  | DoSubscribe task => MkHistory (Subscribe task (hi_bus h)).2 (hi_received h)
  | DoClose id => MkHistory (Close id (hi_bus h)) (hi_received h)
  | DoPublish ev => MkHistory (Publish ev (hi_bus h)) (hi_received h)
  | DoCapacity c => MkHistory (with_capacity c (hi_bus h)) (hi_received h)
  | DoReceive id =>
    match Receive id (hi_bus h) with
    | (Some ev, b) => MkHistory b (<[id := received h id ++ [ev]]> (hi_received h))
    | (None, b) => MkHistory b (hi_received h)
    end
  end.
Definition history (l : list action) : History := fold_left act l (MkHistory NewBus ∅).
(** The specification: the events of the subscription's task published since it began. *)
Fixpoint due_from (id next : nat) (task : option string) (l : list action) : list Event :=
  match l with
  | [] => []
  | DoSubscribe t :: l => due_from id (S next) (if decide (next = id) then Some t else task) l
  | DoPublish ev :: l =>
    (if task is Some t then if wants t ev then [ev] else [] else []) ++ due_from id next task l
  | _ :: l => due_from id next task l
  end.
Definition due (id : nat) (l : list action) : list Event := due_from id 0 None l.

(** ** What a subscription sees *)
Fixpoint nexts (next : nat) (l : list action) : nat :=
  match l with [] => next | DoSubscribe _ :: l => nexts (S next) l | _ :: l => nexts next l end.
Fixpoint tasks (id next : nat) (task : option string) (l : list action) : option string :=
  match l with
  | [] => task
  | DoSubscribe t :: l => tasks id (S next) (if decide (next = id) then Some t else task) l
  | _ :: l => tasks id next task l
  end.
Lemma nexts_app l l' next : nexts next (l ++ l') = nexts (nexts next l) l'.
Proof. revert next; induction l as [|[]]; simpl; auto. Qed.
Lemma nexts_le l next : next <= nexts next l.
Proof. revert next; induction l as [|[] l IH]; intros next; simpl; auto; specialize (IH (S next)); lia. Qed.
Lemma tasks_app id l l' next t :
  tasks id next t (l ++ l') = tasks id (nexts next l) (tasks id next t l) l'.
Proof. revert next t; induction l as [|[]]; simpl; auto. Qed.
Lemma due_app id l l' next t :
  due_from id next t (l ++ l')
  = due_from id next t l ++ due_from id (nexts next l) (tasks id next t l) l'.
Proof.
  revert next t; induction l as [|[] l IH]; intros next t; simpl; auto.
  by rewrite IH, app_assoc.
Qed.
Lemma due_fresh id l next : nexts next l <= id -> due_from id next None l = [].
Proof.
  revert next; induction l as [|[] l IH]; intros next; simpl; auto.
  intros Hl. pose proof (nexts_le l (S next)). rewrite decide_False by lia. auto.
Qed.

(** What the history owes a subscription, and what it has of it. *)
Definition served (l : list action) (h : History) (id : nat) (s : subscriber) : Prop :=
  received h id ++ su_events s `prefix_of` due id l
  /\ (su_done s = false -> received h id ++ su_events s = due id l)
  /\ length (su_events s) <= su_cap s
  /\ (su_done s = true -> DoClose id ∉ l -> su_cap s <= length (received h id ++ su_events s)).
Record sound (l : list action) (h : History) : Prop := MkSound {
  so_next : bu_next (hi_bus h) = nexts 0 l;
  so_fresh id : nexts 0 l <= id -> bu_subs (hi_bus h) !! id = None /\ received h id = [];
  so_task id s : bu_subs (hi_bus h) !! id = Some s -> tasks id 0 None l = Some (su_task s);
  so_served id s : bu_subs (hi_bus h) !! id = Some s -> served l h id s }.

(** An action that leaves a subscription and what it is owed alone. *)
Lemma served_same l a h h' id s :
  served l h id s -> due_from id (nexts 0 l) (tasks id 0 None l) [a] = [] ->
  received h' id = received h id -> served (l ++ [a]) h' id s.
Proof.
  intros (Hp & He & Hl & Hd) Ha Hr. unfold served, due in *. rewrite due_app, Ha, app_nil_r, Hr.
  split_and!; auto. intros Hs Hc. apply Hd; [done|]. set_solver.
Qed.
Lemma served_removed l a h id s :
  served l h id s -> due_from id (nexts 0 l) (tasks id 0 None l) [a] = [] ->
  (DoClose id ∈ l ++ [a]) -> served (l ++ [a]) h id (remove s).
Proof.
  intros (Hp & He & Hl & Hd) Ha Hc. unfold served, due in *. rewrite due_app, Ha, app_nil_r.
  split_and!; simpl; auto. discriminate.
Qed.
Lemma served_offer l ev h id s :
  served l h id s -> tasks id 0 None l = Some (su_task s) ->
  served (l ++ [DoPublish ev]) h id (offer ev s).
Proof.
  intros (Hp & He & Hl & Hd) Ht. unfold served, due in *. rewrite due_app, Ht. simpl.
  rewrite app_nil_r. unfold offer.
  assert (Hc : (DoClose id ∉ l ++ [DoPublish ev]) -> DoClose id ∉ l) by set_solver.
  destruct (su_done s) eqn:Hs; simpl.
  { split_and!; auto; [by apply prefix_app_r | congruence]. }
  destruct (wants (su_task s) ev); simpl.
  2: { rewrite app_nil_r. split_and!; auto; congruence. }
  specialize (He eq_refl). case_decide as Hfull; simpl.
  - rewrite app_assoc, He. split_and!; auto; [rewrite length_app; simpl; lia | discriminate].
  - split_and!; auto; [by apply prefix_app_r | discriminate |]. rewrite length_app; lia.
Qed.
Lemma received_insert b m id evs : received (MkHistory b (<[id := evs]> m)) id = evs.
Proof. unfold received. simpl. by rewrite lookup_insert_eq. Qed.
Lemma served_receive l h id task cap ev events isdone b :
  served l h id (MkSubscriber task cap (ev :: events) isdone) ->
  served (l ++ [DoReceive id]) (MkHistory b (<[id := received h id ++ [ev]]> (hi_received h))) id
    (MkSubscriber task cap events isdone).
Proof.
  intros (Hp & He & Hl & Hd). unfold served, due in *. rewrite due_app. simpl in *.
  rewrite app_nil_r, received_insert, <- app_assoc. simpl.
  split_and!; auto; [lia|]. intros Hs Hc. apply Hd; [done|]. set_solver.
Qed.

Section Sound.
Context (l : list action) (h : History) (S0 : sound l h).
Lemma sound_lt id s : bu_subs (hi_bus h) !! id = Some s -> id < nexts 0 l.
Proof.
  intros Hid. destruct (decide (id < nexts 0 l)) as [|Hge]; [done|].
  destruct (so_fresh _ _ S0 id) as [Hno _]; [lia | congruence].
Qed.
Lemma sound_subscribe task : sound (l ++ [DoSubscribe task]) (act h (DoSubscribe task)).
Proof.
  destruct S0 as [Hn Hf Ht Hs]. split; simpl; rewrite ?nexts_app; simpl; [by rewrite Hn | | |].
  - intros id Hid. rewrite lookup_insert_ne by (rewrite Hn; lia). apply Hf; lia.
  - intros id s. rewrite tasks_app, Hn. simpl. destruct (decide (nexts 0 l = id)) as [<-|Hne].
    + rewrite lookup_insert_eq. by intros [= <-].
    + rewrite lookup_insert_ne by done. apply Ht.
  - intros id s. rewrite Hn. destruct (decide (nexts 0 l = id)) as [<-|Hne].
    + rewrite lookup_insert_eq. intros [= <-]. unfold served, due, received.
      destruct (Hf _ (le_n _)) as [_ Hr]. unfold received in Hr.
      rewrite due_app, due_fresh by done. simpl. rewrite Hr. split_and!; simpl; auto; lia.
    + rewrite lookup_insert_ne by done. intros Hid. apply (served_same _ _ h); auto.
Qed.
Lemma sound_close id : sound (l ++ [DoClose id]) (act h (DoClose id)).
Proof.
  destruct S0 as [Hn Hf Ht Hs]. split; simpl; rewrite ?nexts_app; simpl; auto.
  - intros id' Hid. destruct (Hf id' Hid) as [Hno Hr]. by rewrite lookup_alter_None.
  - intros id' s. rewrite tasks_app, lookup_alter_Some.
    intros [(<- & s' & Hid & ->)|[_ Hid]]; simpl; eauto.
  - intros id' s. rewrite lookup_alter_Some. intros [(<- & s' & Hid & ->)|[_ Hid]].
    + apply (served_removed l (DoClose id) h id s'); [by apply Hs | done | set_solver].
    + apply (served_same _ _ h); auto.
Qed.
Lemma sound_publish ev : sound (l ++ [DoPublish ev]) (act h (DoPublish ev)).
Proof.
  destruct S0 as [Hn Hf Ht Hs]. split; simpl; rewrite ?nexts_app; simpl; auto.
  - intros id' Hid. destruct (Hf id' Hid) as [Hno Hr]. by rewrite lookup_fmap, Hno.
  - intros id' s. rewrite tasks_app, lookup_fmap. intros (s' & Hid & ->)%fmap_Some.
    simpl. rewrite (Ht _ _ Hid). unfold offer. by repeat case_match.
  - intros id' s. rewrite lookup_fmap. intros (s' & Hid & ->)%fmap_Some.
    apply (served_offer l ev h id' s'); auto.
Qed.
Lemma sound_receive id : sound (l ++ [DoReceive id]) (act h (DoReceive id)).
Proof.
  destruct S0 as [Hn Hf Ht Hs]. simpl. unfold Receive.
  destruct (bu_subs (hi_bus h) !! id) as [[task cap [|ev events] isdone]|] eqn:Hid.
  2: pose proof (sound_lt _ _ Hid);
    split; simpl; unfold received; simpl; rewrite ?nexts_app; simpl; auto.
  2: { intros id' Hid'. destruct (Hf id' Hid') as [Hno Hr]. by rewrite !lookup_insert_ne by lia. }
  2: { intros id' s. rewrite tasks_app, lookup_insert_Some. intros [[<- <-]|[_ Hid']]; simpl; auto.
       apply (Ht _ _ Hid). }
  2: { intros id' s. rewrite lookup_insert_Some. intros [[<- <-]|[Hne Hid']].
       - by apply served_receive, Hs.
       - apply (served_same _ _ h); auto. unfold received. simpl. by rewrite lookup_insert_ne. }
  all: split; simpl; rewrite ?nexts_app; simpl; auto.
  all: intros id' s; rewrite ?tasks_app; simpl; eauto; intros Hid'; apply (served_same _ _ h); auto.
Qed.
Lemma sound_capacity c : sound (l ++ [DoCapacity c]) (act h (DoCapacity c)).
Proof.
  destruct S0 as [Hn Hf Ht Hs]. split; simpl; rewrite ?nexts_app; simpl; auto.
  - intros id s. rewrite tasks_app. apply Ht.
  - intros id s Hid. apply (served_same _ _ h); auto.
Qed.
End Sound.
Lemma sound_history l : sound l (history l).
Proof.
  induction l as [|a l IH] using rev_ind.
  - split; simpl; [done | | |]; by intros.
  - unfold history. rewrite fold_left_app. simpl. fold (history l).
    destruct a; auto using sound_subscribe, sound_close, sound_publish, sound_receive, sound_capacity.
Qed.

(** C39: a subscription of the event bus loses nothing silently. Whatever was subscribed, closed,
    published and received in whatever order, what its subscriber has received and what waits in
    its channel is an initial part of the events of its task published since it began, in their
    order, and all of them as long as the subscription has not been told it is done; it is told so
    only when closed or when its whole channel was full, and the channel never exceeds its
    capacity. *)
Theorem bus_no_silent_loss (l : list action) (id : nat) (s : subscriber) :
  bu_subs (hi_bus (history l)) !! id = Some s ->
  received (history l) id ++ su_events s `prefix_of` due id l
  /\ (su_done s = false -> received (history l) id ++ su_events s = due id l)
  /\ length (su_events s) <= su_cap s
  /\ (su_done s = true -> DoClose id ∉ l -> su_cap s <= length (received (history l) id ++ su_events s)).
Proof. apply so_served, sound_history. Qed.

(** ** A subscriber that falls behind *)
Definition note (task : string) (seq : Z) : Event :=
  MkEvent "e" task seq 0 None None "tool.used" JNull.
Definition slow_reader : list action :=
  [DoCapacity 1; DoPublish (note "t" 1); DoSubscribe "t"; DoPublish (note "u" 1);
   DoPublish (note "t" 2); DoReceive 0; DoPublish (note "t" 3); DoPublish (note "t" 4);
   DoPublish (note "t" 5)].
Lemma bus_no_silent_loss_witness :
  bu_subs (hi_bus (history slow_reader)) !! 0 = Some (MkSubscriber "t" 1 [note "t" 3] true)
  /\ 1 <= length (received (history slow_reader) 0 ++ [note "t" 3])
  /\ received (history slow_reader) 0 = [note "t" 2]
  /\ due 0 slow_reader = [note "t" 2; note "t" 3; note "t" 4; note "t" 5].
Proof.
  assert (H : bu_subs (hi_bus (history slow_reader)) !! 0
              = Some (MkSubscriber "t" 1 [note "t" 3] true)) by reflexivity.
  pose proof (bus_no_silent_loss slow_reader 0 _ H) as (_ & _ & _ & Hd).
  split_and!; [exact H | | reflexivity | reflexivity]. apply Hd; [done|].
  rewrite list_elem_of_In. simpl. naive_solver.
Defined.
