(* ===== verification/Notify.v ===== *)
(** * The notifier ([internal/notify/notifier.go])

    A subscriber of the bus that hands every event to a [Notify] function, until it is told to
    stop or has fallen behind. *)
From S2P Require Import Prelude GoStrings Domain Bus.

(** The bus by its history, the subscription, the events handed on with whether that worked,
    and the counter of failures. *)
Record Notifier := MkNotifier {
  no_log : list action; no_id : nat; no_handled : list (Event * bool); no_failures : Z;
  no_overflowed : bool; no_running : bool }.
(** src: internal/notify/notifier.go 20-20 Run (subscribe) *)
Definition started (log : list action) : Notifier :=
  MkNotifier (log ++ [DoSubscribe ""]) (bu_next (hi_bus (history log))) [] 0 false true.
(** What others do to the bus. *)
Definition foreign (id : nat) (a : action) : Prop := a ≠ DoReceive id ∧ a ≠ DoClose id.
(** One round of the loop takes any case that is ready.
    src: internal/notify/notifier.go 19-37 Run *)
Inductive step : Notifier → Notifier → Prop :=
  | step_bus a log id handled n over run :
      foreign id a →
      step (MkNotifier log id handled n over run) (MkNotifier (log ++ [a]) id handled n over run)
  | step_cancelled log id handled n over :
      step (MkNotifier log id handled n over true)
           (MkNotifier (log ++ [DoClose id]) id handled n over false)
  | step_overflow log id handled n over s :
      bu_subs (hi_bus (history log)) !! id = Some s → su_done s = true →
      step (MkNotifier log id handled n over true)
           (MkNotifier (log ++ [DoClose id]) id handled (n + 1) true false)
  | step_event log id handled n over ev ok :
      (Receive id (hi_bus (history log))).1 = Some ev →
      step (MkNotifier log id handled n over true)
           (MkNotifier (log ++ [DoReceive id]) id (handled ++ [(ev, ok)])
              (if ok : bool then n else n + 1)%Z over true).
Definition running (log : list action) : Notifier → Prop := rtc step (started log).

(** ** Nothing is lost silently *)
Record heard (log : list action) (x : Notifier) : Prop := {
  hd_received : received (history (no_log x)) (no_id x) = (no_handled x).*1;
  hd_sub : is_Some (bu_subs (hi_bus (history (no_log x))) !! no_id x);
  hd_failures : no_failures x =
    (Z.of_nat (length (filter (λ e, e.2 = false) (no_handled x))) + (if no_overflowed x then 1 else 0))%Z;
  hd_over : no_overflowed x = true → no_running x = false }.
Lemma history_snoc l a : history (l ++ [a]) = act (history l) a.
Proof. unfold history. by rewrite fold_left_app. Qed.
Lemma act_sub h a id : is_Some (bu_subs (hi_bus h) !! id) → is_Some (bu_subs (hi_bus (act h a)) !! id).
Proof.
  intros H. destruct a as [t|id'|ev|id'|c]; simpl; try done.
  - destruct (decide (id = bu_next (hi_bus h))) as [->|]; [by rewrite lookup_insert_eq|].
    by rewrite lookup_insert_ne.
  - rewrite lookup_alter_is_Some. done.
  - by rewrite lookup_fmap, fmap_is_Some.
  - unfold Receive. destruct (bu_subs (hi_bus h) !! id') as [[t c [|ev evs] d]|] eqn:E; simpl; try done.
    destruct (decide (id = id')) as [->|]; [by rewrite lookup_insert_eq|by rewrite lookup_insert_ne].
Qed.
Lemma act_received h a id : foreign id a → received (act h a) id = received h id.
Proof.
  intros [Hr _]. destruct a as [t|id'|ev|id'|c]; simpl; try done.
  destruct (Receive id' (hi_bus h)) as [[ev|] b]; simpl; [|done]. unfold received. simpl.
  rewrite lookup_insert_ne; [done|]. congruence.
Qed.
Lemma step_heard log x y : heard log x → step x y → heard log y.
Proof.
  intros [Hr Hs Hf Ho] Hxy. destruct Hxy as [a log' id handled n over run Ha|log' id handled n over
    |log' id handled n over s Hsub Hd|log' id handled n over ev ok Hev]; cbn [no_log no_id no_handled
    no_failures no_overflowed no_running] in *; split; cbn [no_log no_id no_handled no_failures
    no_overflowed no_running]; rewrite ?history_snoc; try (by apply act_sub); try done.
  - by rewrite act_received.
  - rewrite Hf. destruct over; [by specialize (Ho eq_refl)|lia].
  - unfold act. destruct (Receive id _) as [[ev'|] b]; simpl in Hev; [|done]. injection Hev as ->.
    unfold received at 1. simpl. rewrite lookup_insert_eq. simpl. by rewrite Hr, fmap_app.
  - rewrite filter_app, length_app, Hf. destruct ok.
    + rewrite filter_cons_False, filter_nil by done. simpl. lia.
    + rewrite filter_cons_True, filter_nil by done. simpl. lia.
Qed.
(** The notifier started after [log] has handed on, in order and without a gap, the events
    published since, up to those still waiting; as long as its subscription is alive none is
    missing.  The counter is the number of failed notifications, plus one when it stopped
    because it had fallen behind. *)
Lemma notifier_hears log x :
  running log x →
  ∃ s, bu_subs (hi_bus (history (no_log x))) !! no_id x = Some s ∧
    (no_handled x).*1 ++ su_events s `prefix_of` due (no_id x) (no_log x) ∧
    (su_done s = false → (no_handled x).*1 ++ su_events s = due (no_id x) (no_log x)) ∧
    no_failures x = (Z.of_nat (length (filter (λ e, e.2 = false) (no_handled x))) +
                     (if no_overflowed x then 1 else 0))%Z.
Proof.
  intros H. assert (heard log x) as [Hr [s Hs] Hf _].
  { assert (heard log (started log)) as H0.
    { split; simpl; rewrite ?history_snoc; simpl; [|by rewrite lookup_insert_eq|done|done].
      unfold received. simpl. destruct (so_fresh _ _ (sound_history log) (bu_next (hi_bus (history log)))) as [_ E];
        [by rewrite (so_next _ _ (sound_history log))|exact E]. }
    unfold running in H. revert H0. generalize dependent (started log). intros x0 H H0.
    induction H; [done|]. apply IHrtc. by eapply step_heard. }
  exists s. split; [done|]. rewrite <- Hr.
  destruct (so_served _ _ (sound_history (no_log x)) _ _ Hs) as (Hp & He & _ & _). by split_and!.
Qed.
