(* ===== verification/Runner.v ===== *)
(** * The agent runner ([internal/stage/runner.go])

    [Run] drives a model through the turns of a stage.  What it acts on is an interface,
    [Ops]: the budget guard, the event callback, the model, the sandbox and the clock, each
    over an arbitrary state.  The theorems are about its actions, their order, their number and what
    they are given, whatever they return. *)
From S2P Require Import Prelude GoStrings Protocol Domain Pipeline PipelineJSON Agent Llm Tools.
From S2P Require Import Event.

(** ** The interface *)
Record Ops (S : Type) := MkOps {
  op_open : string → io S unit;
  op_emit : string → json → io S unit;
  op_chat : LLM → ChatRequest → io S ChatResponse;
  op_alive : io S unit;
  op_call : Sandbox → string → RawMessage → io S string;
  op_read : Sandbox → string → io S string;
  op_write : Sandbox → string → string → io S unit;
  op_clock : io S Z }.
Arguments op_open {S}. Arguments op_emit {S}. Arguments op_chat {S}. Arguments op_alive {S}.
Arguments op_call {S}. Arguments op_read {S}. Arguments op_write {S}. Arguments op_clock {S}.

(** src: internal/stage/runner.go 35-39 AgentRunner *)
Record AgentRunner (S : Type) := MkRunner {
  rn_Registry : Registry; rn_Budget : option (string → io S unit); rn_TestTimeout : Z }.
Arguments rn_Registry {S}. Arguments rn_Budget {S}. Arguments rn_TestTimeout {S}.

(** src: internal/llm/llm.go 79-81 NoopBudget.Check *)
Definition NoopBudget {S} (task : string) : io S unit := mret tt.

Definition with_Content (r : Result) content := MkResult content (r_Ref r) (r_WrittenPaths r)
  (r_Iterations r) (r_HitLimit r).
Definition with_Ref (r : Result) ref := MkResult (r_Content r) ref (r_WrittenPaths r)
  (r_Iterations r) (r_HitLimit r).
Definition with_Written (r : Result) path := MkResult (r_Content r) (r_Ref r)
  (Some (elems (r_WrittenPaths r) ++ [path])) (r_Iterations r) (r_HitLimit r).
Definition with_Iterations (r : Result) n := MkResult (r_Content r) (r_Ref r)
  (r_WrittenPaths r) n (r_HitLimit r).
Definition with_HitLimit (r : Result) := MkResult (r_Content r) (r_Ref r) (r_WrittenPaths r)
  (r_Iterations r) true.

Section runner.
Context {UC : Unicode}.

(** src: internal/stage/runner.go 165-179 Prompts *)
Definition Prompts (i : Input) (a : AgentSpec) : string * string :=
  let nl := String (chr 10) "" in
  let mission := if in_Mode i =? "execute" then
      "Execute the approved plan, write deliverables, and check completion criteria. Include rejection feedback in the revision."
    else "Write only a short plan following conventions. Do not use tools or write files." in
  let system := "<persona>" +:+ nl +:+ ag_Persona a +:+ nl +:+ "</persona>" +:+ nl +:+
    "<conventions>" +:+ nl +:+ ag_Conventions a +:+ nl +:+ "</conventions>" +:+ nl +:+
    "<project>" +:+ nl +:+ df_ProjectSpec (in_Definition i) +:+ nl +:+ "</project>" +:+ nl +:+
    "<mission>" +:+ nl +:+ mission +:+ nl +:+ "</mission>" +:+ nl +:+
    "<knowledge>" +:+ nl +:+ ag_Knowledge a +:+ nl +:+ "</knowledge>" +:+ nl +:+
    "<tools>" +:+ nl +:+ "profile=" +:+ ag_ToolProfile a +:+ "; write_paths=" +:+
    fmt_q_strings (elems (ag_WritePaths a)) +:+ nl +:+ "</tools>" in
  let user := "[[MODE:" +:+ in_Mode i +:+ "]]" +:+ nl +:+ "[[COMMAND]]" +:+ nl +:+
    in_Command i +:+ nl +:+ "[[/COMMAND]]" +:+ nl +:+ "<inputs>" +:+ nl +:+ in_Inputs i +:+
    nl +:+ "</inputs>" in
  let user := if in_Plan i ≠? "" then
      user +:+ nl +:+ "<approved_plan>" +:+ nl +:+ in_Plan i +:+ nl +:+ "</approved_plan>"
    else user in
  let user := if in_Feedback i ≠? "" then
      user +:+ nl +:+ "[[FEEDBACK]]" +:+ nl +:+ in_Feedback i +:+ nl +:+ "[[/FEEDBACK]]"
    else user in
  (system, user).

(** The name of the model that events carry.
    src: internal/stage/runner.go 77-80 AgentRunner.Run (model name) *)
Definition model_name (r : Registry) (i : Input) : string :=
  let name := Model (in_Definition i) (in_Stage i) in
  if rg_ForceFake r || (name =? "") || (name =? "fake") then "fake/echo" else name.
(** src: internal/stage/runner.go 69-72 AgentRunner.Run (limit) *)
Definition turn_limit (i : Input) : Z :=
  if in_Mode i =? "plan" then 1%Z
  else MaxIterations (pl_Policy (df_Pipeline (in_Definition i))).

(** [event.UsagePayload{turn.Model, turn.Usage}] *)
Definition usage_payload (turn : ChatResponse) : json :=
  let u := ch_Usage turn in
  marshal_usage (MkUsagePayload (ch_Model turn) (us_Input u) (us_Output u) (us_CacheRead u)
                   (us_CacheWrite u)).
(** The other events of a turn; [n] turns are over.
    src: internal/stage/runner.go 85-85 AgentRunner.Run (thinking) *)
Definition thinking_payload (i : Input) (name : string) (n : Z) : json :=
  JObj [("summary", JStr (in_Mode i)); ("iteration", JNum (n + 1)); ("model", JStr name)].
(** src: internal/stage/runner.go 108-108 AgentRunner.Run (tool_call) *)
Definition call_payload (tc : ToolCall) : json :=
  JObj [("call_id", JStr (tc_ID tc)); ("tool", JStr (tc_Name tc));
        ("args_summary", JStr (Truncate (raw_text (tc_Args tc)) 200))].
(** src: internal/stage/runner.go 129-129 AgentRunner.Run (tool_result) *)
Definition result_payload (tc : ToolCall) (ok : bool) (observation : string) (ms : Z) : json :=
  JObj [("call_id", JStr (tc_ID tc)); ("tool", JStr (tc_Name tc)); ("ok", JBool ok);
        ("summary", JStr (Truncate observation 200)); ("duration_ms", JNum ms)].
Definition limit_text : string := "[iteration limit reached — submitting current deliverable]".
(** src: internal/stage/runner.go 137-137 AgentRunner.Run (message) *)
Definition limit_payload : json := JObj [("text", JStr limit_text); ("hit_limit", JBool true)].
(** The header that marks a deliverable with its version.
    src: internal/stage/runner.go 150-150 AgentRunner.Run (header) *)
Definition header (i : Input) (agent : AgentSpec) : string :=
  let nl := String (chr 10) "" in
  "> Task: " +:+ in_TaskID i +:+ " · 작성: " +:+ ag_Name agent +:+ " · 버전: v" +:+
  fmt_d (int64 (in_RetryNo i + 1)) +:+ nl +:+ nl.

Context {S : Type} (ops : Ops S).

(** What the model sees of a failed call.
    src: internal/stage/runner.go 114-121 AgentRunner.Run (failed call) *)
Definition denial (args : RawMessage) (e : error) : string :=
  (if negb (is_ok (unmarshal_args args)) then "[bad args] "
   else if is_not_exist e then "[not found] " else "[denied] ") +:+ error_text e.

(** One tool call: the observation goes back to the model, failed calls included.
    src: internal/stage/runner.go 104-133 AgentRunner.Run (tool calls) *)
Definition tool_call (sandbox : Sandbox) (acc : Result * list Message) (tc : ToolCall)
    : io S (Result * list Message) :=
  let '(out, messages) := acc in
  op_alive ops;;
  op_emit ops "agent.tool_call" (call_payload tc);;
  start ← op_clock ops;
  r ← attempt (op_call ops sandbox (tc_Name tc) (tc_Args tc));
  '(observation, out) ←
    match r with
    | Err e => mret (denial (tc_Args tc) e, out)
    | Ok observation =>
      if tc_Name tc =? "write_file" then
        args ← give (unmarshal_args (tc_Args tc));
        mret (observation, with_Written out (ta_Path args))
      else mret (observation, out)
    end;
  stop ← op_clock ops;
  op_emit ops "agent.tool_result"
    (result_payload tc (is_ok r) observation ((stop - start) `quot` 1000000));;
  mret (out, messages ++ [MkMessage "tool" observation (tc_ID tc) []]).

(** The loop; [fuel] is the number of turns left, [i] the number of turns made.
    src: internal/stage/runner.go 81-141 AgentRunner.Run (turns) *)
Fixpoint turns (budget : string → io S unit) (model : LLM) (name system : string)
    (specs : list ToolSpec) (sandbox : Sandbox) (input : Input) (fuel : nat) (i : Z)
    (out : Result) (messages : list Message) : io S Result :=
  match fuel with
  | O => mret out
  | Datatypes.S fuel =>
    budget (in_TaskID input);;
    op_emit ops "agent.thinking" (thinking_payload input name i);;
    turn ← op_chat ops model (MkChatRequest system messages specs 8192);
    let out := with_Iterations out (i + 1) in
    op_emit ops "usage" (usage_payload turn);;
    let messages := messages ++ [MkMessage "assistant" (ch_Text turn) "" (ch_ToolCalls turn)] in
    if decide (ch_ToolCalls turn = []) then mret (with_Content out (ch_Text turn)) else
    if in_Mode input =? "plan" then raise (ErrorText "plan phase must not call tools") else
    '(out, messages) ← each_fold (tool_call sandbox) (out, messages) (ch_ToolCalls turn);
    if (i =? turn_limit input - 1)%Z then
      let out := with_Content (with_HitLimit out) limit_text in
      op_emit ops "agent.message" limit_payload;;
      turns budget model name system specs sandbox input fuel (i + 1) out messages
    else turns budget model name system specs sandbox input fuel (i + 1) out messages
  end.

(** The deliverable of a run that wrote files is the last one, with its header.
    src: internal/stage/runner.go 142-156 AgentRunner.Run (deliverable) *)
Definition deliver (sandbox : Sandbox) (input : Input) (out : Result) : io S Result :=
  match last (elems (r_WrittenPaths out)) with
  | Some primary =>
    if in_Mode input =? "execute" then
      content ← op_read ops sandbox primary;
      let out := with_Content (with_Ref out (Some primary)) content in
      if HasPrefix content "> Task:" then mret out else
      let content := header input (sb_Agent sandbox) +:+ content in
      op_write ops sandbox primary content;;
      mret (with_Content out content)
    else mret out
  | None => mret out
  end.

(** [limit] iterations are as much fuel as the loop can use.
    src: internal/stage/runner.go 50-157 AgentRunner.Run *)
Definition Run (a : AgentRunner S) (input : Input) : io S Result :=
  let d := in_Definition input in
  op_open ops (df_Workspace d);;
  let agent := agent_of d (ss_Agent (in_Stage input)) in
  let sandbox := MkSandbox (df_Workspace d) agent (rn_TestTimeout a) (ss_Tools (in_Stage input)) in
  model ← give (Get (rn_Registry a) (Model d (in_Stage input)));
  let '(system, user) := Prompts input agent in
  let specs := if in_Mode input =? "execute"
               then Tools (sb_Agent sandbox) (sb_Allowed sandbox) else [] in
  let budget := default NoopBudget (rn_Budget a) in
  out ← turns budget model (model_name (rn_Registry a) input) system specs sandbox input
          (Z.to_nat (turn_limit input)) 0 (MkResult "" None (Some []) 0 false)
          [MkMessage "user" user "" []];
  deliver sandbox input out.

(** Every action moves the state along a preorder, so does a run. *)
Record ops_conduct (R : relation S) : Prop := {
  oc_open p : conducts R (op_open ops p);
  oc_emit k p : conducts R (op_emit ops k p);
  oc_chat m r : conducts R (op_chat ops m r);
  oc_alive : conducts R (op_alive ops);
  oc_call s n a : conducts R (op_call ops s n a);
  oc_read s p : conducts R (op_read ops s p);
  oc_write s p c : conducts R (op_write ops s p c);
  oc_clock : conducts R (op_clock ops) }.

Lemma Run_conducts (R : relation S) `{!PreOrder R} a input :
  ops_conduct R → (∀ check task, rn_Budget a = Some check → conducts R (check task)) →
  conducts R (Run a input).
Proof.
  intros [] Hb. assert (∀ task, conducts R (default NoopBudget (rn_Budget a) task)) as Hbudget.
  { intros task. destruct (rn_Budget a) eqn:E; [by eapply Hb|]. apply conducts_ret, _. }
  assert (∀ model name system specs sandbox fuel i out messages,
    conducts R (turns (default NoopBudget (rn_Budget a)) model name system specs sandbox input
      fuel i out messages)) as Hturns.
  { intros model name system specs sandbox fuel. induction fuel as [|fuel IH]; intros; simpl;
      unfold tool_call; solve_conducts. }
  unfold Run, deliver. solve_conducts.
Qed.

(** Its errors are those of its actions, or a text of its own. *)
Definition texts {A} (r : result A) : Prop := ∀ e, r = Err e → ∃ text, e = ErrorText text.
Lemma texts_bind {A B} (r : result A) (f : A → result B) :
  texts r → (∀ a, texts (f a)) → texts (r ≫= f).
Proof.
  intros Hr Hf e. destruct r as [a|e']; simpl; [apply Hf|]. intros [= <-]. by apply Hr.
Qed.
Lemma texts_ok {A} (a : A) : texts (Ok a).
Proof. by intros e. Qed.
Lemma un_string_texts j : texts (un_string j).
Proof. intros e. destruct j; intros [= <-]; eauto. Qed.
Lemma unmarshal_args_texts raw : texts (unmarshal_args raw).
Proof.
  unfold unmarshal_args. case_match; [|intros e [= <-]; eauto].
  unfold un_object. case_match; try (intros e [= <-]; eauto).
  repeat (apply texts_bind; [apply un_string_texts|intros ?]). apply texts_ok.
Qed.
Lemma Validate_texts r name : texts (Validate r name).
Proof.
  intros e. unfold Validate. cbv zeta. repeat case_match; intros [= <-]; eauto.
Qed.
Lemma Get_texts r name : texts (Get r name).
Proof.
  apply texts_bind; [apply Validate_texts|intros u]. repeat case_match; apply texts_ok.
Qed.

Record ops_fail (F : error → Prop) : Prop := {
  of_open p : fails_in F (op_open ops p);
  of_emit k p : fails_in F (op_emit ops k p);
  of_chat m r : fails_in F (op_chat ops m r);
  of_alive : fails_in F (op_alive ops);
  of_read s p : fails_in F (op_read ops s p);
  of_write s p c : fails_in F (op_write ops s p c);
  of_clock : fails_in F (op_clock ops) }.
Lemma Run_fails (F : error → Prop) a input :
  ops_fail F → (∀ check task, rn_Budget a = Some check → fails_in F (check task)) →
  (∀ text, F (ErrorText text)) → fails_in F (Run a input).
Proof.
  intros [] Hb Ht. assert (∀ task, fails_in F (default NoopBudget (rn_Budget a) task)) as Hbudget.
  { intros task. destruct (rn_Budget a) eqn:E; [by eapply Hb|]. apply fails_ret. }
  assert (∀ A (r : result A), texts r → fails_in F (give (S:=S) r)) as Hgive.
  { intros A r Hr. apply fails_give. intros e He. by destruct (Hr e He) as [t ->]. }
  pose proof (λ raw, Hgive _ _ (unmarshal_args_texts raw)).
  pose proof (λ r name, Hgive _ _ (Get_texts r name)).
  assert (∀ t, fails_in F (raise (S:=S) (A:=Result) (ErrorText t))) as Hraise.
  { intros t. by apply fails_raise. }
  assert (∀ model name system specs sandbox fuel i out messages,
    fails_in F (turns (default NoopBudget (rn_Budget a)) model name system specs sandbox input
      fuel i out messages)) as Hturns.
  { intros model name system specs sandbox fuel. induction fuel as [|fuel IH]; intros; simpl;
      unfold tool_call; solve_fails. }
  unfold Run, deliver. solve_fails.
Qed.
End runner.

Module Session.
(** ** The protocol of a run

    [recorded ops] does what [ops] does and keeps a log of the actions, with what they were
    given, what they returned and whether they succeeded; [protocol] is the automaton of the
    logs that a run may leave. *)
Inductive Op :=
  | OpCheck (task : string) | OpOpen (dir : string) | OpEmit (kind : string) (payload : json)
  | OpChat (request : ChatRequest) (answer : result ChatResponse) | OpAlive
  | OpCall (name : string) (args : RawMessage) (answer : result string)
  | OpRead (path : string) (answer : result string) | OpWrite (path content : string).
Abbreviation Log := (list (Op * bool)).

Section recorded.
Context {S : Type}.
Definition recorded (ops : Ops S) : Ops (S * Log) := {|
  op_open p := record (OpOpen p) (op_open ops p);
  op_emit k p := record (OpEmit k p) (op_emit ops k p);
  op_chat m r := record_as (OpChat r) (op_chat ops m r);
  op_alive := record OpAlive (op_alive ops);
  op_call s n a := record_as (OpCall n a) (op_call ops s n a);
  op_read s p := record_as (OpRead p) (op_read ops s p);
  op_write s p c := record (OpWrite p c) (op_write ops s p c);
  op_clock := silent (op_clock ops) |}.
Definition recorded_runner (a : AgentRunner S) (check : string → io S unit)
    : AgentRunner (S * Log) :=
  MkRunner _ (rn_Registry a) (Some (λ task, record (OpCheck task) (check task))) (rn_TestTimeout a).
End recorded.

(** Between actions, with the calls of the last answer that are still to be made; after the
    check; after the announcement; after an answer; before, during and after a call; after the
    last turn; after the deliverable was read and after it was written; [Stopped] after any
    failure but a tool's. *)
Inductive phase :=
  | Closed | Ready (calls : list ToolCall) | Checked | Announced | Answered (turn : ChatResponse)
  | Calling (tc : ToolCall) (rest : list ToolCall) | Called (tc : ToolCall) (rest : list ToolCall)
  | Observed (tc : ToolCall) (rest : list ToolCall) (answer : result string)
  | Finished | Delivering (content : string) | Stored | Stopped.
Record Progress := MkProgress { pg_phase : phase; pg_chats : Z; pg_written : list string }.
Definition goto (p : Progress) (ok : bool) (q : phase) : option Progress :=
  Some (MkProgress (if ok then q else Stopped) (pg_chats p) (pg_written p)).
(** The event that is expected. *)
Definition emits (kind : string) (payload : json) (k : string) (j : json) : bool :=
  (k =? kind) && bool_decide (j = payload).
(** The path that a successful call of [write_file] writes. *)
Definition written_path (name : string) (args : RawMessage) (ok : bool) : list string :=
  if ok && (name =? "write_file") then
    match unmarshal_args args with Ok a => [ta_Path a] | Err _ => [] end
  else [].
(** What the model is shown of a call. *)
Definition observation (tc : ToolCall) (answer : result string) : string :=
  match answer with Ok o => o | Err e => denial (tc_Args tc) e end.
(** Any duration will do. *)
Definition duration (j : json) : Z := default 0%Z (json_field "duration_ms" j ≫= json_num).
(** What the events carry. *)
Definition announcement (mode name : string) (n : Z) : json :=
  JObj [("summary", JStr mode); ("iteration", JNum (n + 1)); ("model", JStr name)].
Definition usage_report (turn : ChatResponse) : json :=
  JObj [("model", JStr (ch_Model turn)); ("input_tokens", JNum (us_Input (ch_Usage turn)));
        ("output_tokens", JNum (us_Output (ch_Usage turn)));
        ("cache_read_tokens", JNum (us_CacheRead (ch_Usage turn)));
        ("cache_write_tokens", JNum (us_CacheWrite (ch_Usage turn)))].
Definition call_report (tc : ToolCall) : json :=
  JObj [("call_id", JStr (tc_ID tc)); ("tool", JStr (tc_Name tc));
        ("args_summary", JStr (Truncate (raw_text (tc_Args tc)) 200))].
Definition result_report (tc : ToolCall) (answer : result string) (ms : Z) : json :=
  JObj [("call_id", JStr (tc_ID tc)); ("tool", JStr (tc_Name tc)); ("ok", JBool (is_ok answer));
        ("summary", JStr (Truncate (observation tc answer) 200)); ("duration_ms", JNum ms)].
Definition limit_report : json :=
  JObj [("text", JStr "[iteration limit reached — submitting current deliverable]"); ("hit_limit", JBool true)].
#[export] Instance raw_eq_dec : EqDecision RawMessage.
Proof. solve_decision. Defined.
Definition is_nil {A} (l : list A) : bool := if l is [] then true else false.

Section delta.
Context (name : string) (input : Input).
Abbreviation limit := (turn_limit input).
Abbreviation mode := (in_Mode input).
Definition agent : AgentSpec := agent_of (in_Definition input) (ss_Agent (in_Stage input)).
Definition delta (p : Progress) (e : Op * bool) : option Progress :=
  let '(o, ok) := e in
  match pg_phase p, o with
  | Closed, OpOpen dir => if dir =? df_Workspace (in_Definition input) then goto p ok (Ready []) else None
  | Ready [], OpCheck task =>
    if (task =? in_TaskID input) && (pg_chats p <? limit)%Z then goto p ok Checked else None
  | Checked, OpEmit k j =>
    if emits "agent.thinking" (announcement mode name (pg_chats p)) k j
    then goto p ok Announced else None
  | Announced, OpChat request answer =>
    if (pg_chats p <? limit)%Z && ((mode =? "execute") || is_nil (cr_Tools request)) then
      Some (MkProgress (if answer is Ok turn then Answered turn else Stopped) (pg_chats p + 1)
              (pg_written p))
    else None
  | Answered turn, OpEmit k j =>
    if emits "usage" (usage_report turn) k j
    then goto p ok (if is_nil (ch_ToolCalls turn) then Finished else Ready (ch_ToolCalls turn))
    else None
  | Ready (tc :: rest), OpAlive => if mode ≠? "plan" then goto p ok (Calling tc rest) else None
  | Calling tc rest, OpEmit k j =>
    if emits "agent.tool_call" (call_report tc) k j then goto p ok (Called tc rest) else None
  | Called tc rest, OpCall n args answer =>
    if (n =? tc_Name tc) && bool_decide (args = tc_Args tc) then
      Some (MkProgress (Observed tc rest answer) (pg_chats p)
              (pg_written p ++ written_path n args ok))
    else None
  | Observed tc rest answer, OpEmit k j =>
    if emits "agent.tool_result" (result_report tc answer (duration j)) k j
    then goto p ok (Ready rest) else None
  | Ready [], OpEmit k j =>
    if emits "agent.message" limit_report k j && (pg_chats p =? limit)%Z
    then goto p ok Finished else None
  | Finished, OpRead path answer =>
    if (mode =? "execute") && bool_decide (last (pg_written p) = Some path) then
      Some (MkProgress (if answer is Ok content then Delivering content else Stopped)
              (pg_chats p) (pg_written p))
    else None
  | Delivering content, OpWrite path c =>
    if bool_decide (last (pg_written p) = Some path) && negb (HasPrefix content "> Task:") &&
       (c =? header input agent +:+ content)
    then goto p ok Stored else None
  | _, _ => None
  end.
End delta.
Definition run_protocol (name : string) (input : Input) : Log → option Progress :=
  protocol (delta name input) (MkProgress Closed 0 []).

Lemma emits_that kind payload j : payload = j → emits kind payload kind j = true.
Proof. intros ->. unfold emits. by rewrite String.eqb_refl, bool_decide_eq_true_2. Qed.

Section run.
Context {UC : Unicode} {S : Type} (ops : Ops S) (input : Input) (name : string).
Abbreviation limit := (turn_limit input).
Abbreviation mode := (in_Mode input).
Abbreviation rops := (recorded ops).
Abbreviation start := (MkProgress Closed 0 []).
Abbreviation at_run := (at_ (delta name input) start (S:=S)).
Abbreviation lawful := (legal (delta name input) start (S:=S)).

(** An event that the automaton expects. *)
Lemma emit_triple ph q n ws k j :
  (∀ ok, delta name input (MkProgress ph n ws) (OpEmit k j, ok) =
         goto (MkProgress ph n ws) ok q) →
  triple (at_run (MkProgress ph n ws)) (op_emit rops k j) (λ _, at_run (MkProgress q n ws)) lawful.
Proof. intros H. eapply triple_record; rewrite H; [reflexivity|by eexists]. Qed.

(** The result between two actions of a turn, after [n] answers. *)
Definition plain (n : Z) (out : Result) : Prop :=
  r_Iterations out = n ∧ r_Ref out = None ∧ r_HitLimit out = false ∧ is_Some (r_WrittenPaths out).
Definition between (n : Z) (calls : list ToolCall) (out : Result) (σ : S * Log) : Prop :=
  plain n out ∧ at_run (MkProgress (Ready calls) n (elems (r_WrittenPaths out))) σ.

(** What a call leaves: the observation, and its path when it wrote a file. *)
Lemma observe_triple n out tc rest r :
  plain n out →
  triple
    (at_run (MkProgress (Observed tc rest r) n
            (elems (r_WrittenPaths out) ++ written_path (tc_Name tc) (tc_Args tc) (is_ok r))))
    (match r with
     | Err e => mret (denial (tc_Args tc) e, out)
     | Ok observation =>
       if tc_Name tc =? "write_file" then
         args ← give (unmarshal_args (tc_Args tc));
         mret (observation, with_Written out (ta_Path args))
       else mret (observation, out)
     end : io (S * Log) _)
    (λ '(o, out') σ, (plain n out' ∧ o = observation tc r) ∧
       at_run (MkProgress (Observed tc rest r) n (elems (r_WrittenPaths out'))) σ) lawful.
Proof.
  intros Hp. unfold written_path. destruct r as [o|e]; simpl.
  - case_eqb.
    + eapply triple_bind; [apply triple_give_at|]. intros args. apply triple_pre. intros ->.
      apply triple_done. intros σ Hσ. split; [|done]. split; [|done].
      destruct Hp as (?&?&?&?). by repeat split.
    + rewrite app_nil_r. by apply triple_done.
  - rewrite app_nil_r. by apply triple_done.
Qed.
Lemma tool_call_triple sandbox n acc tc rest :
  mode ≠ "plan" →
  triple (between n (tc :: rest) acc.1) (tool_call rops sandbox acc tc)
    (λ acc', between n rest acc'.1) lawful.
Proof.
  intros Hm. destruct acc as [out messages]. unfold tool_call. simpl.
  apply triple_pre. intros Hp.
  eapply triple_bind.
  { eapply triple_record with (q := MkProgress (Calling tc rest) n _); simpl;
      rewrite (proj2 (String.eqb_neq mode "plan") Hm); [reflexivity|by eexists]. }
  intros u1. eapply triple_bind.
  { apply emit_triple with (q := Called tc rest). intros ok. simpl. by rewrite emits_that. }
  intros u5. eapply triple_bind; [apply triple_silent|]. intros start.
  eapply triple_bind.
  { apply triple_tried_as with (q := λ r, MkProgress (Observed tc rest r) n
      (elems (r_WrittenPaths out) ++ written_path (tc_Name tc) (tc_Args tc) (is_ok r))).
    intros r. simpl. by rewrite String.eqb_refl, bool_decide_eq_true_2. }
  intros r. eapply triple_bind; [by apply observe_triple|].
  intros [o out']. apply triple_pre. intros [Hp' ->].
  eapply triple_bind; [apply triple_silent|]. intros stop.
  eapply triple_bind.
  { apply emit_triple with (q := Ready rest). intros ok. simpl. by rewrite emits_that. }
  intros u6. by apply triple_done.
Qed.
Lemma tool_calls_triple sandbox n calls acc :
  mode ≠ "plan" →
  triple (between n calls acc.1) (each_fold (tool_call rops sandbox) acc calls)
    (λ acc', between n [] acc'.1) lawful.
Proof.
  intros Hm. revert acc. induction calls as [|tc calls IH]; intros acc; simpl.
  { by apply triple_done. }
  eapply triple_bind; [by apply tool_call_triple|]. intros acc'. apply IH.
Qed.

(** What the loop leaves: the count of answers, the limit mark only at the limit, and that
    the last turn is over when something was written. *)
Definition turned (out : Result) (σ : S * Log) : Prop :=
  (∃ ph, at_run (MkProgress ph (r_Iterations out) (elems (r_WrittenPaths out))) σ ∧
     (elems (r_WrittenPaths out) ≠ [] → ph = Finished)) ∧
  r_Ref out = None ∧ is_Some (r_WrittenPaths out) ∧
  (r_HitLimit out = true → r_Iterations out = limit).

Lemma check_triple (check : string → io S unit) n ws :
  (n < limit)%Z →
  triple (at_run (MkProgress (Ready []) n ws))
    (record (OpCheck (in_TaskID input)) (check (in_TaskID input)))
    (λ _, at_run (MkProgress Checked n ws)) lawful.
Proof.
  intros Hn. eapply triple_record; simpl; rewrite String.eqb_refl, (proj2 (Z.ltb_lt _ _) Hn);
    [reflexivity|by eexists].
Qed.
Lemma chat_triple model req n ws :
  (n < limit)%Z → (mode ≠ "execute" → cr_Tools req = []) →
  triple (at_run (MkProgress Announced n ws)) (op_chat rops model req)
    (λ turn, at_run (MkProgress (Answered turn) (n + 1) ws)) lawful.
Proof.
  intros Hn Ht. assert ((mode =? "execute") || is_nil (cr_Tools req) = true) as Hb.
  { destruct (String.eqb_spec mode "execute"); [done|]. by rewrite Ht. }
  eapply triple_record_as; intros; simpl; rewrite (proj2 (Z.ltb_lt _ _) Hn), Hb;
    [reflexivity|by eexists].
Qed.

Lemma turns_triple check model system specs sandbox fuel i out messages :
  (mode ≠ "execute" → specs = []) →
  (i + Z.of_nat fuel = Z.max 0 limit)%Z → (0 ≤ i)%Z → plain i out →
  (fuel = 0 → elems (r_WrittenPaths out) = []) →
  triple (at_run (MkProgress (Ready []) i (elems (r_WrittenPaths out))))
    (turns rops (λ task, record (OpCheck task) (check task)) model name system specs sandbox
       input fuel i out messages) turned lawful.
Proof.
  intros Hspecs. revert i out messages.
  induction fuel as [|fuel IH]; intros i out messages Hf Hi Hp Hempty.
  { apply triple_done. intros σ Hσ. destruct Hp as (Hit & Hr & Hl & Hw). unfold turned.
    rewrite Hit. split_and!; [|done|done|by rewrite Hl].
    exists (Ready []). split; [done|]. by rewrite Hempty. }
  assert (i < limit)%Z as Hlt by lia. simpl.
  eapply triple_bind; [by apply check_triple|]. intros u1.
  eapply triple_bind.
  { apply emit_triple with (q := Announced). intros ok. simpl. by rewrite emits_that. }
  intros u2. eapply triple_bind; [by apply chat_triple|]. intros turn.
  eapply triple_bind.
  { apply emit_triple with
      (q := if is_nil (ch_ToolCalls turn) then Finished else Ready (ch_ToolCalls turn)).
    intros ok. simpl. by rewrite emits_that. }
  intros u3. destruct Hp as (Hit & Hr & Hl & Hw). case_decide as Hcalls.
  { rewrite Hcalls. apply triple_done. intros σ Hσ. unfold turned. simpl.
    split_and!; try done; [|by rewrite Hl]. by exists Finished. }
  destruct (String.eqb_spec mode "plan"); [apply legal_raise|].
  replace (is_nil (ch_ToolCalls turn)) with false by (by destruct (ch_ToolCalls turn)).
  eapply triple_bind.
  { eapply triple_from; [|by apply (tool_calls_triple sandbox (i + 1))].
    intros σ Hσ. by repeat split. }
  intros [out' messages']. simpl. apply triple_pre. intros (Hi' & Hr' & Hl' & Hw').
  destruct (Z.eqb_spec i (limit - 1)) as [El|El].
  - replace (i + 1)%Z with limit in * by lia. assert (fuel = 0) as -> by lia.
    eapply triple_bind.
    { apply emit_triple with (q := Finished). intros ok. simpl.
      by rewrite Z.eqb_refl. }
    intros u4. apply triple_done. intros σ Hσ. unfold turned. simpl. rewrite Hi'.
    split_and!; try done. by exists Finished.
  - apply IH; simpl; try done; lia.
Qed.

(** What a successful run returns, given the log. *)
Definition delivered (out : Result) (σ : S * Log) : Prop :=
  ∃ p, run_protocol name input σ.2 = Some p ∧ pg_chats p = r_Iterations out ∧
    r_WrittenPaths out = Some (pg_written p) ∧
    (r_HitLimit out = true → r_Iterations out = limit) ∧
    if decide (mode = "execute" ∧ pg_written p ≠ [])
    then r_Ref out = last (pg_written p) ∧ HasPrefix (r_Content out) "> Task:" = true
    else r_Ref out = None.

Lemma header_prefix a s : HasPrefix (header input a +:+ s) "> Task:" = true.
Proof. unfold header. by rewrite <- !string_app_assoc. Qed.

Lemma read_triple sandbox primary n ws :
  mode = "execute" → last ws = Some primary →
  triple (at_run (MkProgress Finished n ws)) (op_read rops sandbox primary)
    (λ content, at_run (MkProgress (Delivering content) n ws)) lawful.
Proof.
  intros Hm Hl. eapply triple_record_as; intros; simpl;
    rewrite Hm, bool_decide_eq_true_2 by done; [reflexivity|by eexists].
Qed.
Lemma write_triple sandbox primary content n ws :
  last ws = Some primary → HasPrefix content "> Task:" = false →
  triple (at_run (MkProgress (Delivering content) n ws))
    (op_write rops sandbox primary (header input (agent input) +:+ content))
    (λ _, at_run (MkProgress Stored n ws)) lawful.
Proof.
  intros Hl Hp. eapply triple_record; simpl;
    rewrite Hp, bool_decide_eq_true_2, String.eqb_refl by done; [reflexivity|by eexists].
Qed.

Lemma deliver_triple sandbox out :
  sb_Agent sandbox = agent input →
  triple (turned out) (deliver rops sandbox input out) delivered lawful.
Proof.
  intros Hagent. unfold deliver. eapply triple_from with (P := λ σ, (r_Ref out = None ∧
    is_Some (r_WrittenPaths out) ∧ (r_HitLimit out = true → r_Iterations out = limit)) ∧
    ∃ ph, (elems (r_WrittenPaths out) ≠ [] → ph = Finished) ∧
      at_run (MkProgress ph (r_Iterations out) (elems (r_WrittenPaths out))) σ).
  { unfold turned. intros σ ((ph & ? & ?) & ?). eauto 10. }
  apply triple_pre. intros (Hr & [ws Hw] & Hh). rewrite Hw. simpl.
  apply triple_ex. intros ph. apply triple_pre. intros Hph.
  destruct (last ws) as [primary|] eqn:Hl; last first.
  { apply last_None in Hl as ->. apply triple_done. intros σ Hσ.
    eexists; split; [exact Hσ|]. rewrite decide_False by (by intros []). done. }
  assert (ws ≠ []) as Hne by by intros ->. rewrite (Hph Hne).
  destruct (String.eqb_spec mode "execute") as [Hm|Hm]; last first.
  { apply triple_done. intros σ Hσ.
    eexists; split; [exact Hσ|]. rewrite decide_False by (by intros []). done. }
  eapply triple_bind; [by apply read_triple|]. intros content. rewrite Hagent.
  destruct (HasPrefix content "> Task:") eqn:Hp.
  - apply triple_done. intros σ Hσ. eexists; split; [exact Hσ|].
    rewrite decide_True by done. simpl. by rewrite Hw, Hl.
  - eapply triple_bind; [by apply write_triple|]. intros u1.
    apply triple_done. intros σ Hσ. eexists; split; [exact Hσ|].
    rewrite decide_True by done. split_and!; [done|done|done|by rewrite <- Hl|apply header_prefix].
Qed.
End run.

Section theorems.
Context {UC : Unicode} {S : Type} (ops : Ops S) (input : Input).
Abbreviation limit := (turn_limit input).
Abbreviation mode := (in_Mode input).
Abbreviation start := (MkProgress Closed 0 []).

Lemma Run_triple a check :
  triple (λ σ, σ.2 = []) (Run (recorded ops) (recorded_runner a check) input)
    (delivered input (model_name (rn_Registry a) input))
    (legal (delta (model_name (rn_Registry a) input) input) start (S:=S)).
Proof.
  set (name := model_name _ _). unfold Run. destruct (Prompts input _) as [system user].
  eapply triple_bind with (M := λ _, at_ (delta name input) start (MkProgress (Ready []) 0 [])).
  { apply triple_from with (P := at_ (delta name input) start (MkProgress Closed 0 [])).
    - intros [σ l]. simpl. by intros ->.
    - eapply triple_record; simpl; rewrite String.eqb_refl; [reflexivity|by eexists]. }
  intros u1. eapply triple_bind; [apply triple_give_at|]. intros model. simpl.
  apply triple_pre. intros _.
  eapply triple_bind.
  { apply (turns_triple ops input name check _ _ _ _ _ 0 (MkResult "" None (Some []) 0 false));
      simpl; try done; try lia. by intros Hm%String.eqb_neq; rewrite Hm. }
  intros out. by apply deliver_triple.
Qed.

(** ** What the automaton means *)
Definition is_chat (o : Op) : bool := if o is OpChat _ _ then true else false.
Definition is_call (o : Op) : bool := if o is OpCall _ _ _ then true else false.
(** The tools that a request offers. *)
Definition offered (o : Op) : list ToolSpec := if o is OpChat req _ then cr_Tools req else [].
(** The number of model calls of a log, and the files it wrote. *)
Definition chats (l : Log) : Z := Z.of_nat (length (filter (λ e, is_chat e.1 = true) l)).
Definition writes (l : Log) : list string :=
  concat (map (λ e, if e.1 is OpCall name args _ then written_path name args e.2 else []) l).
(** The phases of a tool call. *)
Definition in_call (q : phase) : bool :=
  match q with Calling _ _ | Called _ _ | Observed _ _ _ => true | _ => false end.

Lemma delta_spec name p o ok q :
  delta name input p (o, ok) = Some q →
  pg_chats q = (pg_chats p + if is_chat o then 1 else 0)%Z ∧
  pg_written q = pg_written p ++ (if o is OpCall name args _ then written_path name args ok else []) ∧
  (is_chat o = true → (pg_chats p < limit)%Z) ∧
  (mode ≠ "execute" → offered o = []) ∧
  (mode = "plan" → in_call (pg_phase p) = false →
   in_call (pg_phase q) = false ∧ is_call o = false).
Proof.
  unfold delta, goto. destruct p as [ph n ws]. simpl.
  destruct ph as [|[|tc rest]| | |turn|tc rest|tc rest|tc rest answer| |content| |], o; simpl;
    intros H; try done; repeat case_match; simplify_eq/=;
    rewrite ?app_nil_r; split_and!; try done; try lia; intros; simplify_eq/=; try lia.
  all: try (by destruct ok).
  all: repeat match goal with Hb : _ && _ = true |- _ => apply andb_true_iff in Hb as [??] end.
  all: try match goal with Hm : mode ≠ "execute", Hb : _ || _ = true |- _ =>
    apply String.eqb_neq in Hm; rewrite Hm in Hb; simpl in Hb;
    by destruct (cr_Tools _) end.
  all: try lia.
  all: try match goal with Hm : mode = "plan", Hb : context [mode =? "plan"] |- _ =>
    by rewrite Hm in Hb end.
Qed.
Lemma protocol_spec name l p :
  run_protocol name input l = Some p →
  pg_chats p = chats l ∧ pg_written p = writes l ∧ (chats l ≤ Z.max 0 limit)%Z ∧
  (mode ≠ "execute" → Forall (λ e, offered e.1 = []) l) ∧
  (mode = "plan" → in_call (pg_phase p) = false ∧ Forall (λ e, is_call e.1 = false) l).
Proof.
  revert p. induction l as [|[o ok] l IH] using rev_ind; intros p.
  { intros [= <-]. unfold chats. simpl. split_and!; try done. lia. }
  unfold run_protocol. rewrite protocol_snoc. intros (p1 & Hp1 & Hd)%bind_Some.
  destruct (IH _ Hp1) as (Hc & Hw & Hb & Ho & Hplan),
    (delta_spec _ _ _ _ _ Hd) as (Hc' & Hw' & Hb' & Ho' & Hp').
  unfold chats, writes in *. rewrite filter_app, length_app, map_app, concat_app. simpl.
  rewrite app_nil_r, filter_cons, filter_nil.
  assert (Z.of_nat (length (if decide (is_chat o = true) then [(o, ok)] else [])) =
    if is_chat o then 1 else 0)%Z as El by by destruct (is_chat o).
  simpl in El |- *. split_and!.
  - lia.
  - by rewrite Hw', Hw.
  - destruct (is_chat o); [specialize (Hb' eq_refl)|]; lia.
  - intros Hm. apply Forall_app. split; [by apply Ho|by apply Forall_singleton, Ho'].
  - intros Hm. destruct (Hplan Hm) as [H1 H2], (Hp' Hm H1) as [H3 H4]. split; [done|].
    apply Forall_app. split; [done|by apply Forall_singleton].
Qed.


(** C31: a run ends: it calls the model at most [execute_max_iterations] times, whatever the
    model answers; when it plans, it calls it at most once, no request offers a tool and no
    tool runs. *)
Theorem Run_bounded a check σ r σ' l :
  Run (recorded ops) (recorded_runner a check) input (σ, []) = (r, (σ', l)) →
  (chats l ≤ Z.max 0 limit)%Z ∧
  (mode = "plan" → (chats l ≤ 1)%Z ∧ Forall (λ e, is_call e.1 = false) l ∧
     Forall (λ e, offered e.1 = []) l).
Proof.
  intros H. pose proof (Run_triple a check (σ, []) _ _ eq_refl H) as Ht.
  assert (∃ p, run_protocol (model_name (rn_Registry a) input) input l = Some p) as [p Hp].
  { destruct r; [destruct Ht as (p & Hp & _)|destruct Ht as [p Hp]]; by exists p. }
  destruct (protocol_spec _ _ _ Hp) as (_ & _ & Hb & Ho & Hplan). split; [done|].
  intros Hm. split; [|split; [by apply Hplan|apply Ho; by rewrite Hm]].
  unfold turn_limit in Hb. rewrite Hm in Hb. simpl in Hb. lia.
Qed.
End theorems.

(** ** A run that writes a file *)
Definition demo_files : Type := gmap string string * list ChatResponse.
Definition demo_ops : Ops demo_files := {|
  op_open _ := mret tt;
  op_emit _ _ := mret tt;
  op_chat _ _ := λ '(fs, turns), match turns with
                                 | t :: turns => (Ok t, (fs, turns))
                                 | [] => (Err (ErrorText "no answer"), (fs, []))
                                 end;
  op_alive := mret tt;
  op_call _ name raw := λ '(fs, turns),
    match unmarshal_args raw with
    | Ok a => (Ok ("wrote " +:+ ta_Path a), (<[ta_Path a := ta_Content a]> fs, turns))
    | Err e => (Err e, (fs, turns))
    end;
  op_read _ path := λ '(fs, turns), (result_of_option (ErrNotExist path) (fs !! path), (fs, turns));
  op_write _ path content := λ '(fs, turns), (Ok tt, (<[path := content]> fs, turns));
  op_clock := mret 0%Z |}.
Definition demo_write : ChatResponse := MkChatResponse ""
  [MkToolCall "c1" "write_file"
     (MkRaw "{}" (Some (JObj [("path", JStr "docs/a.md"); ("content", JStr "# A")])))]
  "fake/echo" (MkTokens 10 3 0 0).
Definition demo_answer : ChatResponse := MkChatResponse "done" [] "fake/echo" (MkTokens 12 1 0 0).
Definition demo_runner : AgentRunner demo_files := MkRunner _ (MkRegistry [] true) None 0.
Definition demo_agent : AgentSpec :=
  MkAgent "" "writer" "" "docs-writer" (Some ["docs/**"]) "" "" "" "" "".
Definition demo_run_input (mode : string) : Input :=
  MkInput "t1" "cmd" mode "plan" "" "" (MkSpec "s" "writer" (Some []) (Some []) "" None)
    (MkDef (MkPipeline 1 [] (MkPolicy 3 40 "fake" None "" "")) {["writer" := demo_agent]} "" "/w") 0.
Definition demo_session (mode : string) (answers : list ChatResponse) :=
  Run (UC:=ascii_unicode) (recorded demo_ops) (recorded_runner demo_runner (λ _, mret tt))
    (demo_run_input mode) ((∅, answers), []).

Lemma Run_bounded_witness :
  (chats (demo_session "plan" [demo_write; demo_answer]).2.2 ≤ 1)%Z.
Proof.
  apply (Run_bounded (UC:=ascii_unicode) demo_ops (demo_run_input "plan") demo_runner
    (λ _, mret tt) (∅, [demo_write; demo_answer]) (demo_session "plan" [demo_write; demo_answer]).1
    (demo_session "plan" [demo_write; demo_answer]).2.1
    (demo_session "plan" [demo_write; demo_answer]).2.2); [|reflexivity].
  unfold demo_session. by destruct (Run _ _ _ _) as [? [??]].
Defined.
End Session.
