(* ===== verification/Conversation.v ===== *)
(** * What a run says to its model

    The runner builds a conversation turn by turn, and an adapter turns it into the messages of
    a provider.  A provider accepts messages that take turns and answer every tool use; the
    theorem says that a run never sends others. *)
From S2P Require Import Prelude GoStrings Protocol Domain Pipeline PipelineJSON Agent Llm Tools.
From S2P Require Import Output Splitting Runner Adapters Anthropic.

(** ** Conversations *)
(** A question, then turns of the model that call tools, each followed by the result of every
    call. *)
Definition answers (c : ToolCall) (m : Message) : Prop :=
  ms_Role m = "tool" ∧ ms_CallID m = tc_ID c.
Inductive conversation : list Message → Prop :=
  | conv_user text : text ≠ "" → conversation [MkMessage "user" text "" []]
  | conv_turn ms text calls results :
      conversation ms → calls ≠ [] → Forall2 answers calls results →
      conversation (ms ++ MkMessage "assistant" text "" calls :: results).

(** ** What the provider accepts *)
Definition use_of (b : Block) : option string := if b is ToolUseBlock id _ _ then Some id else None.
Definition result_of (b : Block) : option string :=
  if b is ToolResultBlock id _ _ then Some id else None.
Definition uses (p : Param) : list string := omap use_of (pm_Content p).
Definition results (p : Param) : list string := omap result_of (pm_Content p).
(** User and assistant take turns, the user first and last; no message is empty; a user message
    has exactly the results of the tool uses before it, in their order, and an assistant's has
    none. *)
Fixpoint exchange (pending : list string) (l : list Param) : Prop :=
  match l with
  | [] => False
  | u :: l =>
    pm_Role u = "user" ∧ pm_Content u ≠ [] ∧ results u = pending ∧ uses u = [] ∧
    match l with
    | [] => True
    | a :: l => pm_Role a = "assistant" ∧ pm_Content a ≠ [] ∧ results a = [] ∧ exchange (uses a) l
    end
  end.
Lemma exchange_snoc pending l a u :
  exchange pending l → pm_Role a = "assistant" → pm_Content a ≠ [] → results a = [] →
  exchange (uses a) [u] → exchange pending (l ++ [a; u]).
Proof.
  revert pending l. fix IH 2. intros pending [|u0 [|a0 l]] Hl Ha Hc Hr Hu; [done|..].
  - destruct Hl as (? & ? & ? & ? & _). simpl. split_and!; try done; apply Hu.
  - destruct Hl as (H1 & H2 & H3 & H4 & H5 & H6 & H7 & Hl).
    pose proof (IH (uses a0) l Hl Ha Hc Hr Hu) as Htail. clear IH. simpl. by split_and!.
Qed.

(** ** The translation *)
Lemma tool_uses_ok calls blocks :
  tool_uses calls = Ok blocks →
  omap use_of blocks = map tc_ID calls ∧ omap result_of blocks = [] ∧ length blocks = length calls.
Proof.
  revert blocks. induction calls as [|t calls IH]; intros blocks H; simpl in H; [by injection H as <-|].
  destruct (raw_json _); [|done]. destruct (tool_uses calls) as [l|]; [|done]. injection H as <-.
  destruct (IH l eq_refl) as (H1 & H2 & H3). split_and!; [|exact H2|simpl; congruence].
  change (tc_ID t :: omap use_of l = tc_ID t :: map tc_ID calls). congruence.
Qed.
Lemma add_results_user params content ms calls :
  Forall2 answers calls ms → content ≠ [] →
  ∃ content', add_messages (params ++ [MkParam "user" content]) ms
    = Ok (params ++ [MkParam "user" content']) ∧ content' ≠ [] ∧
    omap result_of content' = omap result_of content ++ map tc_ID calls ∧
    omap use_of content' = omap use_of content.
Proof.
  intros H. revert content. induction H as [|c m calls ms [Hrole Hid] _ IH]; intros content Hne.
  { exists content. by rewrite app_nil_r. }
  cbn [add_messages]. unfold add_message. rewrite Hrole, String.eqb_refl. cbn [mbind result_bind].
  unfold add_result. rewrite last_snoc. cbn [pm_Role pm_Content]. rewrite String.eqb_refl, removelast_last.
  set (block := ToolResultBlock _ _ _).
  destruct (IH (content ++ [block])) as (content' & -> & Hne' & Hres & Huse); [by destruct content|].
  exists content'. split_and!; [done..| |].
  - rewrite Hres, omap_app. simpl. by rewrite Hid, <- (assoc_L (++)).
  - by rewrite Huse, omap_app, app_nil_r.
Qed.
Lemma add_results params a ms calls :
  Forall2 answers calls ms → calls ≠ [] → pm_Role a ≠ "user" →
  ∃ content, add_messages (params ++ [a]) ms = Ok ((params ++ [a]) ++ [MkParam "user" content]) ∧
    content ≠ [] ∧ omap result_of content = map tc_ID calls ∧ omap use_of content = [].
Proof.
  intros H Hne Ha. destruct H as [|c m calls ms [Hrole Hid] Hms]; [done|].
  cbn [add_messages]. unfold add_message. rewrite Hrole, String.eqb_refl. cbn [mbind result_bind].
  unfold add_result. rewrite last_snoc. rewrite (proj2 (String.eqb_neq _ _) Ha).
  destruct (add_results_user (params ++ [a])
    [ToolResultBlock (ms_CallID m) (ms_Text m) (is_denial (ms_Text m))] ms calls Hms ltac:(done))
    as (content & -> & Hc & Hres & Huse).
  exists content. split_and!; [done..| |done]. rewrite Hres. simpl. by rewrite Hid.
Qed.
Lemma add_messages_app params l l' :
  add_messages params (l ++ l') = (params' ← add_messages params l; add_messages params' l').
Proof.
  revert params. induction l as [|m l IH]; intros params; [done|]. simpl.
  destruct (add_message params m); [apply IH|done].
Qed.
(** Translating a conversation fails only for calls whose arguments are not JSON. *)
Definition calls_valid (ms : list Message) : Prop :=
  ∀ m c, m ∈ ms → c ∈ ms_Calls m → is_Some (raw_json (tc_Args c)).
Lemma conversation_exchange ms :
  conversation ms →
  match add_messages [] ms with
  | Ok l => exchange [] l
  | Err e => ¬ calls_valid ms
  end.
Proof.
  induction 1 as [text Ht|ms text calls rs _ IH Hne Hrs].
  { simpl. unfold text_blocks. apply String.eqb_neq in Ht. rewrite Ht. simpl. done. }
  rewrite add_messages_app. destruct (add_messages [] ms) as [l|e].
  2: { cbn. intros Hv. apply IH. intros m c Hm. apply Hv. apply elem_of_app. by left. }
  cbn [mbind result_bind add_messages]. unfold add_message at 1. cbn [ms_Role ms_Calls ms_Text].
  change ("assistant" =? "tool")%string with false. cbn iota.
  destruct (tool_uses calls) as [blocks|e] eqn:Hb.
  - cbn [mbind result_bind]. rewrite String.eqb_refl. destruct (tool_uses_ok _ _ Hb) as (Hu & Hr & Hlen).
    assert (omap result_of (text_blocks text) = [] ∧ omap use_of (text_blocks text) = []) as [Htr Htu]
      by (unfold text_blocks; by destruct (text =? "")%string).
    cbn [mbind result_bind]. destruct (add_results l (MkParam "assistant" (text_blocks text ++ blocks)) rs calls Hrs Hne ltac:(done))
      as (content & -> & Hc & Hres & Huse).
    rewrite <- (assoc_L (++)). simpl. apply exchange_snoc; [done|done| | |].
    + intros E%app_eq_nil. destruct E as [_ ->]. by destruct calls.
    + unfold results. cbn [pm_Content]. by rewrite omap_app, Htr, Hr.
    + unfold uses. cbn [pm_Content]. rewrite omap_app, Htu, Hu. simpl. by split_and!.
  - cbn. intros Hv. assert (∃ c, c ∈ calls ∧ raw_json (tc_Args c) = None) as (c & Hin & Hc).
    { clear -Hb. induction calls as [|t calls IH]; simpl in Hb; [done|].
      destruct (raw_json (tc_Args t)) eqn:E; [|exists t; split; [apply list_elem_of_here|done]].
      destruct (tool_uses calls); [done|]. destruct (IH Hb) as (c & ? & ?). exists c.
      split; [by apply list_elem_of_further|done]. }
    destruct (Hv (MkMessage "assistant" text "" calls) c) as [j Hj]; [|done|congruence].
    apply elem_of_app. right. apply list_elem_of_here.
Qed.

(** ** What a run sends *)
(** [heard ops] does what [ops] does and keeps the requests to the model. *)
Section heard.
Context {S : Type}.
Definition quiet {A} (m : io S A) : io (S * list ChatRequest) A :=
  λ '(σ, l), let '(r, σ') := m σ in (r, (σ', l)).
Definition noted {A} (req : ChatRequest) (m : io S A) : io (S * list ChatRequest) A :=
  λ '(σ, l), let '(r, σ') := m σ in (r, (σ', l ++ [req])).
Definition heard (ops : Ops S) : Ops (S * list ChatRequest) := {|
  op_open p := quiet (op_open ops p);
  op_emit k p := quiet (op_emit ops k p);
  op_chat m r := noted r (op_chat ops m r);
  op_alive := quiet (op_alive ops);
  op_call s n a := quiet (op_call ops s n a);
  op_read s p := quiet (op_read ops s p);
  op_write s p c := quiet (op_write ops s p c);
  op_clock := quiet (op_clock ops) |}.
Definition heard_runner (a : AgentRunner S) : AgentRunner (S * list ChatRequest) :=
  MkRunner _ (rn_Registry a) ((λ check task, quiet (check task)) <$> rn_Budget a) (rn_TestTimeout a).

Definition good (σ : S * list ChatRequest) : Prop :=
  Forall (λ req, conversation (cr_Messages req)) σ.2.
Lemma quiet_triple {A} (m : io S A) : triple good (quiet m) (λ _, good) (λ _, good).
Proof.
  intros [σ l] r σ' Hg. unfold quiet. destruct (m σ) as [r' σ1]. intros [= <- <-]. by destruct r'.
Qed.
Lemma noted_triple {A} req (m : io S A) :
  conversation (cr_Messages req) → triple good (noted req m) (λ _, good) (λ _, good).
Proof.
  intros Hc [σ l] r σ' Hg. unfold noted. destruct (m σ) as [r' σ1]. intros [= <- <-].
  assert (good (σ1, l ++ [req])) by (apply Forall_app; by split; [|repeat constructor]). by destruct r'.
Qed.
Lemma good_ret {A} (a : A) : triple good (mret a) (λ _, good) (λ _, good).
Proof. by apply triple_done. Qed.
Lemma good_then {A B} (m : io _ A) (f : A → io _ B) (Q : B → _ → Prop) :
  triple good m (λ _, good) (λ _, good) → (∀ a, triple good (f a) Q (λ _, good)) →
  triple good (m ≫= f) Q (λ _, good).
Proof. apply triple_bind. Qed.
Lemma good_give {A} (r : result A) : triple good (give r) (λ _, good) (λ _, good).
Proof. intros σ r' σ' Hg [= <- <-]. by destruct r. Qed.
Lemma good_attempt {A} (m : io _ A) :
  triple good m (λ _, good) (λ _, good) → triple good (attempt m) (λ _, good) (λ _, good).
Proof.
  intros Hm σ r σ' Hg. unfold attempt. destruct (m σ) as [r1 σ1] eqn:E. intros [= <- <-].
  pose proof (Hm _ _ _ Hg E). by destruct r1.
Qed.

Context {UC : Unicode} (ops : Ops S).
(** A call adds its result to the messages. *)
Lemma tool_call_heard sandbox out messages tc :
  triple good (tool_call (heard ops) sandbox (out, messages) tc)
    (λ acc σ, (∃ m, acc.2 = messages ++ [m] ∧ answers tc m) ∧ good σ) (λ _, good).
Proof.
  unfold tool_call. apply good_then; [apply quiet_triple|intros _].
  apply good_then; [apply quiet_triple|intros _]. apply good_then; [apply quiet_triple|intros start].
  apply good_then; [apply good_attempt, quiet_triple|intros r].
  apply good_then.
  { destruct r as [o|e]; [|apply good_ret]. destruct (tc_Name tc =? "write_file")%string; [|apply good_ret].
    apply good_then; [apply good_give|intros args; apply good_ret]. }
  intros [o out']. apply good_then; [apply quiet_triple|intros stop].
  apply good_then; [apply quiet_triple|intros _]. apply triple_done. intros σ Hg. split; [|done].
  by eexists.
Qed.
Lemma tool_calls_heard sandbox calls out messages :
  triple good (each_fold (tool_call (heard ops) sandbox) (out, messages) calls)
    (λ acc σ, (∃ rs, acc.2 = messages ++ rs ∧ Forall2 answers calls rs) ∧ good σ) (λ _, good).
Proof.
  revert out messages. induction calls as [|c calls IH]; intros out messages; simpl.
  { apply triple_done. intros σ Hg. split; [|done]. exists []. by rewrite app_nil_r. }
  eapply triple_bind; [apply tool_call_heard|]. intros [out' messages']. simpl.
  apply triple_pre. intros (m & -> & Hm). eapply triple_conseq; [apply IH|done| |done].
  intros acc σ [(rs & Hacc & Hrs) Hg]. split; [|done]. exists (m :: rs).
  rewrite Hacc, <- (assoc_L (++)). split; [done|by constructor].
Qed.
Lemma turns_heard budget model name system specs sandbox input fuel i out messages :
  (∀ task, triple good (budget task) (λ _, good) (λ _, good)) → conversation messages →
  triple good (turns (heard ops) budget model name system specs sandbox input fuel i out messages)
    (λ _, good) (λ _, good).
Proof.
  intros Hb. revert i out messages. induction fuel as [|fuel IH]; intros i out messages Hc; simpl;
    [apply good_ret|].
  apply good_then; [apply Hb|intros _]. apply good_then; [apply quiet_triple|intros _].
  apply good_then; [by apply noted_triple|intros turn]. apply good_then; [apply quiet_triple|intros _].
  case_decide as Hcalls; [apply good_ret|].
  destruct (in_Mode input =? "plan")%string; [by eapply triple_from; [|apply triple_raise]|].
  eapply triple_bind; [apply tool_calls_heard|]. intros [out' messages']. simpl.
  apply triple_pre. intros (rs & -> & Hrs). rewrite <- (assoc_L (++)).
  pose proof (conv_turn messages (ch_Text turn) (ch_ToolCalls turn) rs Hc Hcalls Hrs) as Hnext.
  destruct (i =? turn_limit input - 1)%Z; [|by apply IH].
  apply good_then; [apply quiet_triple|intros _; by apply IH].
Qed.
Lemma user_prompt input agent : (Prompts input agent).2 ≠ "".
Proof.
  unfold Prompts. destruct (in_Plan input ≠? ""), (in_Feedback input ≠? ""); simpl; intros E;
    apply (f_equal (λ s, HasPrefix s "[[")) in E; by rewrite <- ?string_app_assoc in E.
Qed.
Lemma Run_heard a input :
  triple good (Run (heard ops) (heard_runner a) input) (λ _, good) (λ _, good).
Proof.
  unfold Run. apply good_then; [apply quiet_triple|intros _].
  apply good_then; [apply good_give|intros model].
  pose proof (user_prompt input (agent_of (in_Definition input) (ss_Agent (in_Stage input)))) as Hu.
  destruct (Prompts _ _) as [system user]. simpl in Hu. apply good_then.
  - apply turns_heard; [|by constructor]. intros task. simpl.
    destruct (rn_Budget a); simpl; [apply quiet_triple|apply good_ret].
  - intros out. unfold deliver. destruct (last _); [|apply good_ret].
    destruct (in_Mode input =? "execute")%string; [|apply good_ret].
    apply good_then; [apply quiet_triple|intros content]. destruct (HasPrefix _ _); [apply good_ret|].
    apply good_then; [apply quiet_triple|intros _; apply good_ret].
Qed.

(** C26: whatever the model answers and the tools do, every request of a run is one that
    Anthropic's interface accepts: translated by its adapter, the
    only one that this is about, its messages take turns from the user to the user, none is empty, and each user message has exactly the results of the tool uses of the
    message before it, in their order.  The translation fails only when the model called a tool
    with arguments that are not JSON. *)
Theorem Run_conversation a input σ r σ' log :
  Run (heard ops) (heard_runner a) input (σ, []) = (r, (σ', log)) →
  ∀ req, req ∈ log →
  match add_messages [] (cr_Messages req) with
  | Ok l => exchange [] l
  | Err e => ¬ calls_valid (cr_Messages req)
  end.
Proof.
  intros H req Hreq. apply conversation_exchange.
  assert (good (σ', log)) as Hg.
  { assert (good (σ, [])) as H0 by constructor. pose proof (Run_heard a input _ _ _ H0 H) as Hr.
    by destruct r. }
  unfold good in Hg. rewrite Forall_forall in Hg. by apply Hg.
Qed.
End heard.

(** ** A run that writes a file, and then answers *)
Definition demo_talk :=
  Run (UC:=ascii_unicode) (heard Session.demo_ops) (heard_runner Session.demo_runner)
    (Session.demo_run_input "execute") ((∅, [Session.demo_write; Session.demo_answer]), []).
Definition demo_log : list ChatRequest := Eval vm_compute in demo_talk.2.2.
Definition demo_last : ChatRequest := Eval vm_compute in List.last demo_log (MkChatRequest "" [] [] 0).
Lemma Run_conversation_witness :
  length demo_log = 2 ∧
  match add_messages [] (cr_Messages demo_last) with
  | Ok l => exchange [] l ∧ map pm_Role l = ["user"; "assistant"; "user"]
  | Err e => False
  end.
Proof.
  split; [reflexivity|].
  assert (demo_last ∈ demo_log) as Hin.
  { apply list_elem_of_further, list_elem_of_here. }
  assert (Run (UC:=ascii_unicode) (heard Session.demo_ops) (heard_runner Session.demo_runner)
    (Session.demo_run_input "execute") ((∅, [Session.demo_write; Session.demo_answer]), [])
    = (demo_talk.1, (demo_talk.2.1, demo_log))) as H.
  { change (demo_talk = (demo_talk.1, (demo_talk.2.1, demo_log))).
    assert (demo_talk.2.2 = demo_log) as <- by (vm_compute; reflexivity). by destruct demo_talk as [? [??]]. }
  pose proof (@Run_conversation _ ascii_unicode Session.demo_ops Session.demo_runner
    (Session.demo_run_input "execute") _ _ _ _ H demo_last Hin) as Hx.
  revert Hx. vm_compute. intros Hx. split; [exact Hx|reflexivity].
Defined.
