(* ===== verification/History.v ===== *)
(** * How the database evolves

    Every statement only moves the rows forward: identities never change, versions and
    attempts grow, a row whose version did not change is the same row, the event log and
    the usage records are appended to.  [evolves] is that order on transactions; the
    services' transactions follow it because their statements do. *)
From S2P Require Import Prelude GoStrings Domain Pipeline PipelineJSON Store Event.

(** ** The order on rows and databases *)
Record task_le (t t' : TaskEntity) : Prop := {
  tle_id : t_ID t' = t_ID t;
  tle_project : t_ProjectID t' = t_ProjectID t;
  tle_command : t_Command t' = t_Command t;
  tle_pipeline : t_Pipeline t' = t_Pipeline t;
  tle_workspace : t_Workspace t' = t_Workspace t;
  tle_version : (t_Version t ≤ t_Version t')%Z;
  tle_seq : (t_EventSeq t ≤ t_EventSeq t')%Z;
  tle_same : t_Version t' = t_Version t →
    t_Status t' = t_Status t ∧ t_TokenBudget t' = t_TokenBudget t }.

Record stage_le (s s' : StageEntity) : Prop := {
  sle_id : s_ID s' = s_ID s;
  sle_task : s_TaskID s' = s_TaskID s;
  sle_key : s_StageKey s' = s_StageKey s;
  sle_role : s_Role s' = s_Role s;
  sle_deps : s_DependsOn s' = s_DependsOn s;
  sle_attempt : (s_Attempt s ≤ s_Attempt s')%Z;
  sle_version : (s_Version s ≤ s_Version s')%Z;
  sle_same : s_Version s' = s_Version s → s' = s }.

(** A decided approval never changes again. *)
Definition approval_le (a a' : ApprovalEntity) : Prop :=
  a' = a ∨
  (a_Status a = "pending" ∧ (a_Version a < a_Version a')%Z ∧ a_ID a' = a_ID a ∧
   a_TaskID a' = a_TaskID a ∧ a_StageID a' = a_StageID a ∧ a_Kind a' = a_Kind a ∧
   a_RetryNo a' = a_RetryNo a ∧ a_Content a' = a_Content a).

(** Every row of [m] is still there, possibly moved along [R]. *)
Definition table_le {A} (R : relation A) (m m' : gmap string A) : Prop :=
  ∀ id x, m !! id = Some x → ∃ x', m' !! id = Some x' ∧ R x x'.

Record db_le (db db' : DB) : Prop := {
  dle_projects : table_le eq (db_projects db) (db_projects db');
  dle_tasks : table_le task_le (db_tasks db) (db_tasks db');
  dle_stages : table_le stage_le (db_stages db) (db_stages db');
  dle_approvals : table_le approval_le (db_approvals db) (db_approvals db');
  dle_deliverables : table_le eq (db_deliverables db) (db_deliverables db');
  dle_events : db_events db `prefix_of` db_events db';
  dle_usage : db_usage db `prefix_of` db_usage db' }.

#[export] Instance task_le_preorder : PreOrder task_le.
Proof.
  split; [by intros t; split; auto with lia|].
  intros t1 t2 t3 [] []. split; try congruence; try lia. intros Hv.
  assert (t_Version t2 = t_Version t1) as H by lia.
  assert (t_Version t3 = t_Version t2) as H' by lia. naive_solver congruence.
Qed.
#[export] Instance stage_le_preorder : PreOrder stage_le.
Proof.
  split; [by intros s; split; auto with lia|].
  intros s1 s2 s3 [] []. split; try congruence; try lia. intros Hv.
  rewrite sle_same1 by lia. apply sle_same0. lia.
Qed.
#[export] Instance approval_le_preorder : PreOrder approval_le.
Proof.
  split; [by left|]. intros a b c [->|(?&?&?&?&?&?&?&?)] [->|(?&?&?&?&?&?&?&?)];
    [by left|by right; split_and!|by right; split_and!|].
  right. split_and!; try congruence. lia.
Qed.
#[export] Instance table_le_preorder {A} (R : relation A) `{!PreOrder R} :
  PreOrder (table_le R).
Proof.
  split; [intros m id x H; by exists x|].
  intros m1 m2 m3 H1 H2 id x H. destruct (H1 id x H) as (y & Hy & Hxy).
  destruct (H2 id y Hy) as (z & Hz & Hyz). exists z. split; [done|by trans y].
Qed.
#[export] Instance db_le_preorder : PreOrder db_le.
Proof.
  split; [intros db; split; reflexivity|].
  intros d1 d2 d3 [] []. split; etrans; eassumption.
Qed.

(** The tables are keyed by the rows' ids. *)
Definition table_keyed {A} (key : A → string) (m : gmap string A) : Prop :=
  ∀ id x, m !! id = Some x → key x = id.
Record keyed (db : DB) : Prop := {
  k_projects : table_keyed (λ p, p_ID p.1) (db_projects db);
  k_tasks : table_keyed t_ID (db_tasks db);
  k_stages : table_keyed s_ID (db_stages db);
  k_approvals : table_keyed a_ID (db_approvals db);
  k_deliverables : table_keyed d_ID (db_deliverables db) }.

Lemma table_keyed_insert {A} (key : A → string) m x :
  table_keyed key m → table_keyed key (<[key x := x]> m).
Proof. intros Hm id y. rewrite lookup_insert_Some. intros [[<- <-]|[_ H]]; [done|by apply Hm]. Qed.
Lemma table_le_insert {A} (R : relation A) `{!PreOrder R} m id x x' :
  m !! id = Some x → R x x' → table_le R m (<[id := x']> m).
Proof.
  intros Hx HR id' y Hy. destruct (decide (id = id')) as [<-|].
  - exists x'. rewrite lookup_insert_eq. split; [done|]. by replace y with x by congruence.
  - exists y. by rewrite lookup_insert_ne.
Qed.
Lemma table_le_new {A} (R : relation A) `{!PreOrder R} m id x :
  m !! id = None → table_le R m (<[id := x]> m).
Proof. intros Hn id' y Hy. exists y. rewrite lookup_insert_ne by congruence. done. Qed.

(** ** The order on transactions *)
Definition evolves (σ σ' : TxState) : Prop :=
  keyed (tx_db σ) → keyed (tx_db σ') ∧ db_le (tx_db σ) (tx_db σ').
#[export] Instance evolves_preorder : PreOrder evolves.
Proof.
  split; [by intros σ Hk|]. intros σ1 σ2 σ3 H1 H2 Hk.
  destruct (H1 Hk) as [Hk2 H12]. destruct (H2 Hk2) as [Hk3 H23]. split; [done|by trans (tx_db σ2)].
Qed.

(** A computation that leaves the database alone evolves it. *)
Lemma follows_same_db {A} (m : Tx A) :
  (∀ σ a σ', m σ = Ok (a, σ') → tx_db σ' = tx_db σ) → follows evolves m.
Proof. intros Hm σ a σ' H Hk. rewrite (Hm _ _ _ H). by split. Qed.

Lemma follows_update_stage row row' σ :
  db_stages (tx_db σ) !! s_ID row = Some row → stage_le row row' →
  evolves σ (with_db σ (set_stages (tx_db σ) (<[s_ID row' := row']> (db_stages (tx_db σ))))).
Proof.
  intros Hr Hle [? ? Hk ? ?]. simpl. split; split; simpl; try done; try reflexivity.
  - by apply table_keyed_insert.
  - rewrite (sle_id _ _ Hle). by eapply table_le_insert; [apply _|..].
Qed.
Lemma follows_update_task row row' σ :
  db_tasks (tx_db σ) !! t_ID row = Some row → task_le row row' →
  evolves σ (with_db σ (set_tasks (tx_db σ) (<[t_ID row' := row']> (db_tasks (tx_db σ))))).
Proof.
  intros Hr Hle [? Hk ? ? ?]. simpl. split; split; simpl; try done; try reflexivity.
  - by apply table_keyed_insert.
  - rewrite (tle_id _ _ Hle). by eapply table_le_insert; [apply _|..].
Qed.

(** ** The statements evolve the database *)
Section statements.
Context {PF : Platform}.

Lemma evolves_LockTask id : follows evolves (LockTask id).
Proof. apply follows_same_db. by intros ??? [_ ->]%LockTask_ok. Qed.
Lemma evolves_reading {A} (f : DB → result A) : follows evolves (reading f).
Proof. apply follows_same_db. by intros ??? [_ ->]%reading_ok. Qed.
Lemma evolves_require P `{!Decision P} c : follows evolves (require P c).
Proof. apply follows_same_db. by intros ??? [_ ->]%require_ok. Qed.
Lemma evolves_now : follows evolves now.
Proof. apply follows_same_db. by intros ??? [_ ->]%now_ok. Qed.
Lemma evolves_AfterCommit h : follows evolves (AfterCommit h).
Proof. apply follows_same_db. by intros ??? ->%AfterCommit_ok. Qed.
Lemma evolves_tick : follows evolves tick.
Proof. apply follows_same_db. by intros ??? [_ ->]%tick_ok. Qed.

Lemma evolves_UpdateStage s old : follows evolves (UpdateStage s old).
Proof.
  intros σ u σ' (row & Hr & Ha & Hs & Hv & _ & _ & _ & _ & ->)%UpdateStage_ok Hk.
  pose proof (k_stages _ Hk _ _ Hr) as Hid.
  eapply (follows_update_stage row (written row s)); [by rewrite Hid| |done].
  split; simpl; try done; lia.
Qed.
Lemma evolves_ClaimStage id attempt status old : follows evolves (ClaimStage id attempt status old).
Proof.
  intros σ n σ' (row & Hr & Ha & Hs & -> & _ & _ & _ & ->)%ClaimStage_ok Hk.
  pose proof (k_stages _ Hk _ _ Hr) as Hid.
  eapply (follows_update_stage row (with_claim row _ _ _)); [by rewrite Hid| |done].
  split; simpl; try done; lia.
Qed.
Lemma evolves_SetStatus t status : follows evolves (SetStatus t status).
Proof.
  intros σ u σ' (row & Hr & Hv & _ & _ & ->)%SetStatus_ok Hk.
  pose proof (k_tasks _ Hk _ _ Hr) as Hid.
  eapply (follows_update_task row (with_TaskStatus row _ _ _)); [by rewrite Hid| |done].
  split; simpl; try done; lia.
Qed.
Lemma evolves_UpdateTaskBudget id budget version :
  follows evolves (UpdateTaskBudget id budget version).
Proof.
  unfold UpdateTaskBudget. intros σ u σ' H. inv_tx; [|by intros ?..]. intros Hk.
  match goal with E : _ !! id = Some ?r |- _ =>
    rename r into row; pose proof (k_tasks _ Hk _ _ E) as Hid end.
  eapply (follows_update_task row (with_TokenBudget row _ _ _)); [by rewrite Hid| |done].
  split; simpl; try done; lia.
Qed.
Lemma evolves_NextSequence id : follows evolves (NextSequence id).
Proof.
  unfold NextSequence. intros σ u σ' H. inv_tx. intros Hk.
  match goal with E : _ !! id = Some ?r |- _ =>
    rename r into row; pose proof (k_tasks _ Hk _ _ E) as Hid end.
  eapply (follows_update_task row (with_EventSeq row _)); [by rewrite Hid| |done].
  split; simpl; try done; lia.
Qed.
Lemma evolves_CreateEvent ev : follows evolves (CreateEvent ev).
Proof.
  unfold CreateEvent. intros σ u σ' H. inv_tx. intros [].
  split; split; simpl; try done; try reflexivity. by exists [ev].
Qed.
Lemma evolves_CreateUsage u : follows evolves (CreateUsage u).
Proof.
  unfold CreateUsage. intros σ v σ' H. inv_tx. intros [].
  split; split; simpl; try done; try reflexivity. by exists [u].
Qed.
Lemma evolves_Emit task stage agent kind payload :
  follows evolves (Emit task stage agent kind payload).
Proof.
  unfold Emit, time_now, new_uuid.
  repeat first [ apply evolves_NextSequence | apply evolves_tick | apply evolves_CreateEvent
               | apply evolves_CreateUsage | apply evolves_AfterCommit
               | apply follows_ret; exact _ | apply follows_lift; exact _
               | apply follows_bind; [exact _| |intros ?] | case_match ].
Qed.

Lemma evolves_CreateProject id name owner repo branch inst loc :
  follows evolves (CreateProject id name owner repo branch inst loc).
Proof.
  unfold CreateProject. intros σ u σ' H. inv_tx. intros [].
  split; split; simpl; try done; try reflexivity.
  - by apply (table_keyed_insert (λ p, p_ID p.1) _ (MkProject id _ _ _ _ _ _ _ _, _)).
  - apply table_le_new; [apply _|done].
Qed.
Lemma evolves_CreateTask id project command user p ws budget :
  follows evolves (CreateTask id project command user p ws budget).
Proof.
  unfold CreateTask. intros σ u σ' H. inv_tx. intros [].
  split; split; simpl; try done; try reflexivity.
  - by apply (table_keyed_insert t_ID _ (MkTask _ _ _ _ _ id _ _ _ _ _ _ _)).
  - apply table_le_new; [apply _|done].
Qed.
Lemma evolves_CreateStage id task key role deps :
  follows evolves (CreateStage id task key role deps).
Proof.
  unfold CreateStage. intros σ u σ' H. inv_tx. intros [].
  split; split; simpl; try done; try reflexivity.
  - by apply (table_keyed_insert s_ID _ (MkStage _ _ _ _ _ _ _ _ _ id _ _ _ _ _ _)).
  - apply table_le_new; [apply _|done].
Qed.
Lemma evolves_CreateApproval id task stage kind retry title content :
  follows evolves (CreateApproval id task stage kind retry title content).
Proof.
  intros σ u σ' (Hn & _ & _ & _ & ->)%CreateApproval_ok [].
  split; split; simpl; try done; try reflexivity.
  - by apply (table_keyed_insert a_ID _ (MkApproval _ id _ _ _ _ _ _ _ _ _ _ _ _ _ _)).
  - apply table_le_new; [apply _|done].
Qed.
Lemma evolves_DecideApproval id status feedback edited user version :
  follows evolves (DecideApproval id status feedback edited user version).
Proof.
  unfold DecideApproval. intros σ u σ' H. inv_tx; [|by intros ?..]. intros Hk.
  match goal with E : _ !! id = Some ?r |- _ =>
    rename r into row; pose proof (k_approvals _ Hk _ _ E) as Hid end.
  destruct Hk. split; split; simpl; try done; try reflexivity.
  - by apply (table_keyed_insert a_ID _ (decided_row row status feedback edited user (tx_now σ))).
  - eapply table_le_insert; [apply _|by rewrite Hid|]. right. simpl.
    destruct_and?. split_and!; try done. lia.
Qed.
Lemma evolves_CreateDeliverable id task stage uri content summary :
  follows evolves (CreateDeliverable id task stage uri content summary).
Proof.
  unfold CreateDeliverable. intros σ u σ' H. inv_tx. intros [].
  split; split; simpl; try done; try reflexivity.
  - by apply (table_keyed_insert d_ID _ (MkDeliverable id _ _ _ _ _ _ _)).
  - apply table_le_new; [apply _|done].
Qed.
End statements.

#[export] Hint Resolve evolves_LockTask evolves_reading evolves_require evolves_now
  evolves_AfterCommit evolves_tick evolves_UpdateStage evolves_ClaimStage evolves_SetStatus
  evolves_UpdateTaskBudget evolves_Emit evolves_CreateProject evolves_CreateTask
  evolves_CreateStage evolves_CreateApproval evolves_DecideApproval
  evolves_CreateDeliverable : follows.

(** ** The statements keep the log well formed *)
Section log.
Context {PF : Platform}.
Definition logs : relation TxState := keeps (λ σ, log_wf (tx_db σ)).
#[export] Instance logs_preorder : PreOrder logs.
Proof. apply keeps_preorder. Qed.

Lemma logs_same {A} (m : Tx A) :
  (∀ σ a σ', m σ = Ok (a, σ') → log_wf (tx_db σ) → same_log (tx_db σ) (tx_db σ')) →
  follows logs m.
Proof. intros Hm σ a σ' H Hw. eapply log_wf_same; [|exact Hw]. by eapply Hm. Qed.
Lemma logs_same_db {A} (m : Tx A) :
  (∀ σ a σ', m σ = Ok (a, σ') → tx_db σ' = tx_db σ) → follows logs m.
Proof. intros Hm σ a σ' H Hw. by rewrite (Hm _ _ _ H). Qed.

Lemma logs_LockTask id : follows logs (LockTask id).
Proof. apply logs_same_db. by intros ??? [_ ->]%LockTask_ok. Qed.
Lemma logs_reading {A} (f : DB → result A) : follows logs (reading f).
Proof. apply logs_same_db. by intros ??? [_ ->]%reading_ok. Qed.
Lemma logs_AfterCommit h : follows logs (AfterCommit h).
Proof. apply logs_same_db. by intros ??? ->%AfterCommit_ok. Qed.
Lemma logs_tick : follows logs tick.
Proof. apply logs_same_db. by intros ??? [_ ->]%tick_ok. Qed.
Lemma logs_UpdateStage s old : follows logs (UpdateStage s old).
Proof. apply logs_same. by intros σ u σ' (row & _ & _ & _ & _ & _ & _ & _ & _ & ->)%UpdateStage_ok _. Qed.
Lemma logs_ClaimStage id attempt status old : follows logs (ClaimStage id attempt status old).
Proof. apply logs_same. by intros σ u σ' (row & _ & _ & _ & _ & _ & _ & _ & ->)%ClaimStage_ok _. Qed.
Lemma log_wf_put_task db id t t' :
  db_tasks db !! id = Some t → t_ID t' = t_ID t → t_EventSeq t' = t_EventSeq t →
  log_wf db → log_wf (set_tasks db (<[t_ID t' := t']> (db_tasks db))).
Proof.
  intros Ht Hid Hs Hw. eapply log_wf_same; [|exact Hw]. split; [done|]. simpl. intros id'.
  pose proof (lw_keyed _ Hw _ _ Ht) as Hk. rewrite Hid, Hk. destruct (decide (id = id')) as [<-|].
  - rewrite lookup_insert_eq, Ht. simpl. by rewrite Hid, Hs.
  - by rewrite lookup_insert_ne.
Qed.
Lemma logs_SetStatus t status : follows logs (SetStatus t status).
Proof.
  intros σ u σ' (row & Hr & _ & _ & _ & ->)%SetStatus_ok. intros Hw.
  by eapply (log_wf_put_task _ _ row (with_TaskStatus row _ _ _)).
Qed.
Lemma logs_CreateApproval id task stage kind retry title content :
  follows logs (CreateApproval id task stage kind retry title content).
Proof. apply logs_same. by intros σ u σ' (_ & _ & _ & _ & ->)%CreateApproval_ok _. Qed.
Lemma logs_DecideApproval id status feedback edited user version :
  follows logs (DecideApproval id status feedback edited user version).
Proof. apply logs_same. unfold DecideApproval. intros σ u σ' H _. by inv_tx. Qed.
Lemma logs_CreateDeliverable id task stage uri content summary :
  follows logs (CreateDeliverable id task stage uri content summary).
Proof. apply logs_same. unfold CreateDeliverable. intros σ u σ' H _. by inv_tx. Qed.
Lemma logs_CreateProject id name owner repo branch inst loc :
  follows logs (CreateProject id name owner repo branch inst loc).
Proof. apply logs_same. unfold CreateProject. intros σ u σ' H _. by inv_tx. Qed.
Lemma logs_CreateStage id task key role deps :
  follows logs (CreateStage id task key role deps).
Proof. apply logs_same. unfold CreateStage. intros σ u σ' H _. by inv_tx. Qed.
Lemma logs_Emit task stage agent kind payload :
  follows logs (Emit task stage agent kind payload).
Proof.
  intros σ u σ' (t & ev & Ht & _ & -> & _ & Hn & ->)%Emit_ok Hw. by eapply log_wf_logged.
Qed.
Lemma logs_UpdateTaskBudget id budget version :
  follows logs (UpdateTaskBudget id budget version).
Proof.
  unfold UpdateTaskBudget. intros σ u σ' H. inv_tx; [|by intros ?..]. intros Hw.
  match goal with E : _ !! id = Some ?r |- _ =>
    by eapply (log_wf_put_task _ _ r (with_TokenBudget r _ _ _)) end.
Qed.
(** A new task has no events yet. *)
Lemma logs_CreateTask id project command user p ws budget :
  follows logs (CreateTask id project command user p ws budget).
Proof.
  unfold CreateTask. intros σ u σ' H. inv_tx. intros [Hk Hs Ht Hi].
  match goal with E : _ !! id = None |- _ => rename E into Hn end.
  split; simpl; [..|done].
  - intros id' t'. simpl. rewrite lookup_insert_Some. intros [[<- <-]|[_ E]]; [done|by apply Hk].
  - intros id' t'. rewrite lookup_insert_Some. intros [[<- <-]|[_ E]]; [|by apply Hs].
    simpl. split; [done|]. unfold events_of. simpl.
    enough (filter (λ ev, ev_TaskID ev = id) (db_events (tx_db σ)) = []) as -> by done.
    apply filter_none. intros ev Hev Heq. destruct (Ht ev Hev). congruence.
  - intros ev Hev. rewrite lookup_insert_is_Some. simpl.
    destruct (decide (id = ev_TaskID ev)); [by left|right; split; [done|by apply Ht]].
Qed.
End log.

#[export] Hint Resolve logs_LockTask logs_reading logs_AfterCommit logs_tick logs_UpdateStage
  logs_ClaimStage logs_SetStatus logs_CreateApproval logs_DecideApproval
  logs_CreateDeliverable logs_CreateProject logs_CreateStage logs_Emit logs_UpdateTaskBudget
  logs_CreateTask : follows.
