(* ===== verification/Derived.v ===== *)
(** * Recomputing the status of a task from its stages

    [deriveTx] is the last statement of every transaction that changes a stage; the approval
    service has the same statements inline. *)
From S2P Require Import Prelude GoStrings Domain Pipeline PipelineJSON Store Event History.

Section derive.
Context {PF : Platform}.
(** src: internal/orchestrator/orchestrator.go 364-384 Orchestrator.deriveTx *)
Definition deriveTx (t : TaskEntity) : Tx unit :=
  stages ← reading (λ db, Stages db (t_ID t));
  let to := Derive (t_Status t) stages in
  if to =? t_Status t then mret tt else
  t ← SetStatus t to;
  if to =? "completed" then
    payload ← reading (λ db, Completion db (t_ID t));
    Emit (t_ID t) "" "" "run.completed" payload
  else mret tt.

Lemma deriveTx_evolves t : follows evolves (deriveTx t).
Proof. unfold deriveTx. solve_follows. Qed.
Lemma deriveTx_logs t : follows logs (deriveTx t).
Proof. unfold deriveTx. solve_follows. Qed.
End derive.
#[export] Hint Resolve deriveTx_evolves deriveTx_logs : follows.
