(* ===== verification/Approval.v ===== *)
(** * The approval service ([internal/app/approval.go]) *)
From S2P Require Import Prelude GoStrings Domain Pipeline PipelineJSON Store Event History.
From S2P Require Import Derived.

(** src: internal/app/dto.go 78-86 DecisionRequest *)
Record DecisionRequest := MkDecision {
  dr_StageKey : string; dr_Kind : string; dr_RetryNo : Z; dr_ApprovalID : string;
  dr_Decision : string; dr_Feedback : option string; dr_EditedContent : option string }.
(** src: internal/app/dto.go 87-92 DecidedResponse *)
Record DecidedResponse := MkDecided {
  dd_ID : string; dd_Status : string; dd_DecidedAt : option Z; dd_DecidedVia : option string }.

(** src: internal/app/dto.go 12-27 ApprovalEntity *)
Record ApprovalResponse := MkApprovalResponse {
  ar_ID : string; ar_TaskID : string; ar_StageID : string; ar_Kind : string; ar_RetryNo : Z;
  ar_Status : string; ar_Title : string; ar_Content : option string;
  ar_DecisionFeedback : option string; ar_EditedContent : option string;
  ar_DecidedBy : option string; ar_DecidedVia : option string; ar_RequestedAt : Z;
  ar_DecidedAt : option Z }.
(** src: internal/app/approval.go 147-149 approvalResponse *)
Definition approvalResponse (a : ApprovalEntity) : ApprovalResponse :=
  MkApprovalResponse (a_ID a) (a_TaskID a) (a_StageID a) (a_Kind a) (a_RetryNo a) (a_Status a)
    (a_Title a) (a_Content a) (a_DecisionFeedback a) (a_EditedContent a) (a_DecidedBy a)
    (a_DecidedVia a) (a_RequestedAt a) (a_DecidedAt a).

(** The lookup in [map[string]string{"approve": ...}].
    src: internal/app/approval.go 66-66 ApprovalService.UpdateApproval (status) *)
Definition decided_status (decision : string) : string :=
  if decision =? "approve" then "approved" else if decision =? "reject" then "rejected"
  else if decision =? "edit" then "edited" else "".

Section approval.
Context {PF : Platform} {UC : Unicode}.

(** src: internal/app/approval.go 21-24 ApprovalService.FetchApproval *)
Definition FetchApproval (db : DB) (id : string) : result ApprovalResponse :=
  approvalResponse <$> Approval db id.

(** src: internal/app/approval.go 40-43 ApprovalService.FetchApprovals (preview) *)
Definition without_content (a : ApprovalEntity) : ApprovalEntity :=
  MkApproval (a_Version a) (a_ID a) (a_TaskID a) (a_StageID a) (a_Kind a) (a_RetryNo a)
    (a_Status a) (a_Title a) None (a_DecisionFeedback a) None (a_DecidedBy a) (a_DecidedVia a)
    (a_RequestedAt a) (a_DecidedAt a) (a_ResumePending a).
(** src: internal/app/approval.go 25-50 ApprovalService.FetchApprovals *)
Definition FetchApprovals (db : DB) (task status : option string) (preview : bool)
    : result (list ApprovalResponse) :=
  status ← match status with
           | Some v =>
             let v := ToLower v in
             if (v ≠? "pending") && (v ≠? "approved") && (v ≠? "rejected") && (v ≠? "edited")
             then FaultE 400 "BAD_REQUEST" "unknown approval status" else Ok (Some v)
           | None => Ok None
           end;
  _ ← match task with
      | Some task => _ ← Task db task; Ok tt
      | None => Ok tt
      end;
  l ← Approvals db task status;
  Ok (map approvalResponse (if preview then map without_content l else l)).

(** The payloads of the decision's events.
    src: internal/app/approval.go 96-96 ApprovalService.UpdateApproval (decided) *)
Definition decided_payload (id user : string) (a : ApprovalEntity) (decision : string)
    (feedback edited : option string) : json :=
  JObj [("approval_id", JStr id); ("kind", JStr (a_Kind a)); ("decision", JStr decision);
        ("retry_no", JNum (a_RetryNo a)); ("feedback", JOpt feedback);
        ("edited_content", JOpt edited); ("decided_by", JStr user);
        ("decided_via", JStr "web")].
(** src: internal/app/approval.go 100-100 ApprovalService.UpdateApproval (blocked) *)
Definition blocked_payload (kind : string) (st : StageEntity) : json :=
  JObj [("reason", JStr "max_retries"); ("kind", JStr kind);
        ("retry_no", JNum (s_RetryCount st)); ("last_feedback", JOpt (s_LastFeedback st))].
(** src: internal/app/approval.go 109-109 ApprovalService.UpdateApproval (completed) *)
Definition completed_payload (ref : option string) (did : string) : json :=
  JObj [("deliverable_ref", JOpt ref); ("deliverable_id", JStr did)].

(** The transaction, for the approval [a] that was read before it; [decision] is already
    lower case.  The statements of lines 113-131 are [deriveTx].
    src: internal/app/approval.go 61-143 ApprovalService.UpdateApproval (transaction) *)
Definition decide_tx (a : ApprovalEntity) (id decision : string)
    (feedback edited : option string) (user : string) : Tx DecidedResponse :=
  t ← LockTask (a_TaskID a);
  n ← DecideApproval id (decided_status decision) feedback edited user (a_Version a);
  (if (n =? 1)%Z then mret tt
   else fail (Fault 409 "APPROVAL_ALREADY_DECIDED" "approval already decided"));;
  (if Terminal (t_Status t) then fail (Fault 409 "INVALID_TRANSITION" "task is terminal")
   else mret tt);;
  stages ← reading (λ db, Stages db (t_ID t));
  old ← lift (FindStage stages (a_StageID a));
  p ← lift (unmarshal_pipeline (t_Pipeline t));
  st ← lift (Decide old (a_Kind a) decision feedback edited (MaxRetries (pl_Policy p)));
  UpdateStage st (s_Status old);;
  Emit (t_ID t) (s_StageKey st) (s_Role st) "approval.decided"
    (decided_payload id user a decision feedback edited);;
  (if s_Status st =? "blocked" then
     Emit (t_ID t) (s_StageKey st) (s_Role st) "stage.blocked" (blocked_payload (a_Kind a) st)
   else mret tt);;
  (if s_Status st =? "approved" then
     did ← reading (λ db, LatestDeliverableID db (s_ID st));
     Emit (t_ID t) (s_StageKey st) (s_Role st) "stage.completed"
       (completed_payload (s_DeliverableRef st) did)
   else mret tt);;
  deriveTx t;;
  decided ← reading (λ db, Approval db id);
  AfterCommit (HookWake (t_ID t));;
  mret (MkDecided (a_ID decided) (a_Status decided) (a_DecidedAt decided)
          (a_DecidedVia decided)).

(** src: internal/app/approval.go 51-145 ApprovalService.UpdateApproval *)
Definition UpdateApproval (fate : Fate) (id : string) (r : DecisionRequest) (user : string)
    (w : World) : result DecidedResponse * World :=
  let decision := ToLower (dr_Decision r) in
  match ValidateDecision decision (dr_Feedback r) (dr_EditedContent r) with
  | Err e => (Err e, w)
  | Ok _ =>
    match Approval (w_db w) id with
    | Err e => (Err e, w)
    | Ok a => WithTx fate (decide_tx a id decision (dr_Feedback r) (dr_EditedContent r) user) w
    end
  end.

Lemma decide_tx_evolves a id decision feedback edited user :
  follows evolves (decide_tx a id decision feedback edited user).
Proof. unfold decide_tx. solve_follows. Qed.
Lemma decide_tx_logs a id decision feedback edited user :
  follows logs (decide_tx a id decision feedback edited user).
Proof. unfold decide_tx. solve_follows. Qed.
End approval.
#[export] Hint Resolve decide_tx_evolves decide_tx_logs : follows.
