(* ===== verification/Task.v ===== *)
(** * The task, budget and project services
    ([internal/app/task.go], [budget.go], [project.go]) *)
From S2P Require Import Prelude GoStrings Domain Pipeline PipelineJSON Agent Llm Tools Store.
From S2P Require Import Event History Derived.

(** ** Responses ([dto.go]) *)
(** src: internal/app/dto.go 37-43 StageResponse *)
Record StageResponse := MkStageResponse {
  sr_Key : string; sr_Role : string; sr_Status : string; sr_DependsOn : list string;
  sr_RetryCount : Z }.
(** src: internal/app/dto.go 44-50 PendingApprovalResponse *)
Record PendingApprovalResponse := MkPendingResponse {
  pr_ID : string; pr_Kind : string; pr_StageKey : string; pr_Title : string;
  pr_RequestedAt : Z }.
(** src: internal/app/dto.go 51-55 LastEventResponse *)
Record LastEventResponse := MkLastEvent { le_Seq : Z; le_Type : string; le_TS : Z }.
(** src: internal/app/dto.go 56-69 TaskResponse *)
Record TaskResponse := MkTaskResponse {
  tr_ID : string; tr_ProjectID : string; tr_Command : string; tr_Status : string;
  tr_CreatedAt : Z; tr_UpdatedAt : Z; tr_DiscordThreadID : option string;
  tr_Stages : list StageResponse; tr_PendingApprovals : list PendingApprovalResponse;
  tr_LastEvent : option LastEventResponse; tr_TokenBudget : Z; tr_TokensUsed : Z }.

Section task.
Context {PF : Platform} {UC : Unicode}.

(** src: internal/app/task.go 146-178 TaskService.response *)
Definition response (db : DB) (t : TaskEntity) : result TaskResponse :=
  stages ← Stages db (t_ID t);
  used ← TokensUsed db (t_ID t);
  approvals ← Approvals db (Some (t_ID t)) (Some "pending");
  last ← (if (0 <? t_EventSeq t)%Z then
            evs ← Events db (t_ID t) (t_EventSeq t - 1) 1;
            Ok ((λ ev, MkLastEvent (ev_Seq ev) (ev_Type ev) (ev_TS ev)) <$> head evs)
          else Ok None);
  let key_of id := default "" (s_StageKey <$> (list_find (λ s, s_ID s = id) stages ≫= λ x, Some x.2)) in
  Ok (MkTaskResponse (t_ID t) (t_ProjectID t) (t_Command t) (t_Status t) (t_CreatedAt t)
    (t_UpdatedAt t) (t_DiscordThreadID t)
    (map (λ s, MkStageResponse (s_StageKey s) (s_Role s) (s_Status s) (s_DependsOn s)
                 (s_RetryCount s)) stages)
    (map (λ a, MkPendingResponse (a_ID a) (a_Kind a) (key_of (a_StageID a)) (a_Title a)
                 (a_RequestedAt a)) approvals)
    last (t_TokenBudget t) used).
(** src: internal/app/task.go 139-145 TaskService.FetchTask *)
Definition FetchTask (db : DB) (id : string) : result TaskResponse :=
  t ← Task db id; response db t.

(** src: internal/app/task.go 181-181 TaskService.FetchTasks (statuses) *)
Definition allowed_statuses : string :=
  ",queued,running,waiting_approval,paused,blocked,completed,failed,cancelled,".
Fixpoint map_result {A B} (f : A → result B) (l : list A) : result (list B) :=
  match l with
  | [] => Ok []
  | x :: l => y ← f x; l ← map_result f l; Ok (y :: l)
  end.
(** src: internal/app/task.go 179-200 TaskService.FetchTasks *)
Definition FetchTasks (db : DB) (project : option string) (statuses : option (list string))
    : result (list TaskResponse) :=
  statuses ← match statuses with
             | None => Ok None
             | Some l =>
               l ← map_result (λ v, let v := ToLower v in
                     if Contains allowed_statuses ("," +:+ v +:+ ",") then Ok v
                     else FaultE 400 "BAD_REQUEST" "unknown task status") l;
               Ok (Some l)
             end;
  l ← Tasks db project statuses;
  map_result (response db) l.

(** ** Creating a task *)
(** [^[A-Za-z0-9_.-]+$].
    src: internal/app/task.go 121-121 repoName (class) *)
Definition repo_char (r : N) : bool :=
  (((65 <=? r) && (r <=? 90)) || ((97 <=? r) && (r <=? 122)) || ((48 <=? r) && (r <=? 57))
   || (r =? 95) || (r =? 46) || (r =? 45))%N.
(** src: internal/app/task.go 121-121 repoName *)
Definition repoName (s : string) : bool := (s ≠? "") && forallb repo_char (runes s).

(** [workspace.Prepare] and [workspace.Clone] act on the file system: their results are
    arguments.
    src: internal/app/task.go 125-138 TaskService.prepare *)
Definition prepare (scm : bool) (copied cloned : result string) (p : ProjectEntity)
    : result string :=
  if Text (p_LocalPath p) ≠? "" then copied else
  if negb scm then
    Err (ErrorText "project.local_path is required unless DEVSQUAD_GITHUB_TOKEN is set")
  else
    match filter (λ n, negb (repoName n) || (Trim n "." =? ""))
            [p_GithubOwner p; p_GithubRepo p] with
    | n :: _ => Err (ErrorText ("invalid GitHub owner or repository: " +:+ Quote n))
    | [] => cloned
    end.

(** The checks on each stage: its tools exist for its agent, its model is supported.
    src: internal/app/task.go 66-82 TaskService.CreateTask (stage checks) *)
Definition check_stage (reg : Registry) (d : Def) (st : StageSpec) : result unit :=
  let available := Tools (agent_of d (ss_Agent st)) None in
  match filter (λ name, negb (existsb (λ t, ts_Name t =? name) available)) (elems (ss_Tools st)) with
  | name :: _ => FaultE 400 "PIPELINE_INVALID" ("tool is not allowed for stage: " +:+ name)
  | [] => match Validate reg (Model d st) with
          | Err e => FaultE 400 "PIPELINE_INVALID" (error_text e)
          | Ok _ => Ok tt
          end
  end.
(** src: internal/app/task.go 94-109 TaskService.CreateTask (transaction) *)
Definition create_tx (id project command user dir : string) (d : Def) (budget : Z) : Tx unit :=
  CreateTask id project (TrimSpace command) user (marshal_pipeline (df_Pipeline d)) dir budget;;
  for_each (λ st, sid ← new_uuid;
              CreateStage sid id (ss_ID st) (ss_Agent st) (ss_DependsOn st))
    (pl_Stages (df_Pipeline d));;
  AfterCommit (HookWake id).

(** What a creation did to the task's directory: never made, removed again, or kept. *)
Inductive Directory := Unmade | Removed | Kept.

(** The file system's part is given by its results: [made] of [prepare], [loaded] of
    [agentdef.LoadDefinition] and [saved] of [workspace.SaveDefinition]; [is_uuid] is
    [uuid.Parse].
    src: internal/app/task.go 39-119 TaskService.CreateTask *)
Definition Service_CreateTask (is_uuid : string → bool) (reg : Registry) (fate : Fate)
    (made : string → ProjectEntity → result string) (loaded : result Def) (saved : result unit)
    (project command user : string) (w : World) : result TaskResponse * World * Directory :=
  if negb (is_uuid project)
  then (FaultE 400 "BAD_REQUEST" "project_id must be a UUID", w, Unmade) else
  if TrimSpace command =? ""
  then (FaultE 400 "BAD_REQUEST" "command is required", w, Unmade) else
  match Project (w_db w) project with
  | Err e => (Err e, w, Unmade)
  | Ok p =>
    let id := uuid_of (w_ticks w) in
    let w := MkWorld (w_db w) (S (w_ticks w)) (w_hooks w) in
    match made id p with
    | Err e => (FaultE 400 "PROJECT_INVALID" (error_text e), w, Unmade)
    | Ok dir =>
      match loaded with
      | Err e => (FaultE 400 "PIPELINE_INVALID" (error_text e), w, Removed)
      | Ok d =>
        match (_ ← map_result (check_stage reg d) (pl_Stages (df_Pipeline d)); saved) with
        | Err e => (Err e, w, Removed)
        | Ok _ =>
          let budget := default (p_TokenBudget p) (po_TokenBudget (pl_Policy (df_Pipeline d))) in
          match WithTx fate (create_tx id project command user dir d budget) w with
          | (Ok _, w) => (FetchTask (w_db w) id, w, Kept)
          | (Err e, w) =>
            (Err e, w, if errors_as is_commit_error e is Some _ then Kept else Removed)
          end
        end
      end
    end
  end.

(** ** Controlling a task *)
(** Where a resume puts a blocked stage.
    src: internal/app/task.go 227-239 TaskService.UpdateTask (blocked stages) *)
Definition unblock (st : StageEntity) : StageEntity :=
  let st := with_Status st
    (if (Text (s_BlockedReason st) =? "deliverable") || (Text (s_BlockedReason st) =? "publish")
     then "executing" else "planning") in
  with_BlockedReason st None.
(** src: internal/app/task.go 222-240 TaskService.UpdateTask (resume) *)
Definition resume_stages (stages : list StageEntity) : Tx unit :=
  for_each (λ st, if s_Status st ≠? "blocked" then mret tt
                  else UpdateStage (unblock st) "blocked") stages.

(** The lookup of the event type; the actions are the three that [TaskTransition] lets by
    besides [start].
    src: internal/app/task.go 244-244 TaskService.UpdateTask (event type) *)
Definition action_event (action : string) : string :=
  if action =? "pause" then "run.paused" else if action =? "resume" then "run.resumed"
  else if action =? "cancel" then "run.cancelled" else "".

(** src: internal/app/task.go 204-262 TaskService.UpdateTask (transaction) *)
Definition update_tx (id action : string) : Tx unit :=
  t ← LockTask id;
  to ← lift (TaskTransition (t_Status t) action);
  (if action =? "resume" then
     used ← reading (λ db, TokensUsed db id);
     if (t_TokenBudget t <=? used)%Z
     then fail (Fault 409 "BUDGET_EXCEEDED"
            "token budget is exhausted; increase it before resuming")
     else mret tt
   else mret tt);;
  (if (action =? "resume") && (t_Status t =? "blocked") then
     stages ← reading (λ db, Stages db id);
     resume_stages stages
   else mret tt);;
  _ ← SetStatus t to;
  Emit id "" "" (action_event action)
    (JObj (if action =? "pause" then [("reason", JStr "user")] else []));;
  (if action =? "cancel" then AfterCommit (HookCancel id)
   else if action =? "resume" then AfterCommit (HookWake id) else mret tt).
(** src: internal/app/task.go 201-267 TaskService.UpdateTask *)
Definition UpdateTask (fate : Fate) (id action : string) (w : World)
    : result TaskResponse * World :=
  match WithTx fate (update_tx id action) w with
  | (Ok _, w) => (FetchTask (w_db w) id, w)
  | (Err e, w) => (Err e, w)
  end.

(** The count of updated rows is not looked at; the row is locked.
    src: internal/app/task.go 274-284 TaskService.SetBudget (transaction) *)
Definition budget_tx (id : string) (budget : Z) : Tx unit :=
  t ← LockTask id;
  if Terminal (t_Status t)
  then fail (Fault 409 "INVALID_TRANSITION"
         ("cannot change the budget of a " +:+ t_Status t +:+ " task"))
  else _ ← UpdateTaskBudget id budget (t_Version t); mret tt.
(** src: internal/app/task.go 269-289 TaskService.SetBudget *)
Definition SetBudget (fate : Fate) (id : string) (budget : Z) (w : World)
    : result TaskResponse * World :=
  if (budget <? 1)%Z
  then (FaultE 400 "BAD_REQUEST" "token_budget must be positive", w) else
  match WithTx fate (budget_tx id budget) w with
  | (Ok _, w) => (FetchTask (w_db w) id, w)
  | (Err e, w) => (Err e, w)
  end.

(** src: internal/app/dto.go 97-100 EventPage *)
Record EventPage := MkEventPage { ep_Items : list Event; ep_NextAfterSeq : option Z }.
(** src: internal/app/task.go 290-305 TaskService.FetchEvents *)
Definition FetchEvents (db : DB) (id : string) (after limit : Z) : result EventPage :=
  if (after <? 0)%Z then FaultE 400 "BAD_REQUEST" "after_seq must be nonnegative" else
  let limit := Z.to_nat (1 `max` (limit `min` 1000)) in
  _ ← Task db id;
  l ← Events db id after limit;
  Ok (MkEventPage l (if (length l =? limit)%nat then ev_Seq <$> last l else None)).

(** ** The budget guard ([budget.go]) *)
(** src: internal/app/budget.go 28-45 BudgetService.Check (transaction) *)
Definition check_tx (id : string) : Tx bool :=
  t ← LockTask id;
  used ← reading (λ db, TokensUsed db id);
  if (used <? t_TokenBudget t)%Z then mret false else
  if (t_Status t ≠? "running") && (t_Status t ≠? "waiting_approval") then mret true else
  _ ← SetStatus t "paused";
  Emit id "" "" "run.paused"
    (JObj [("reason", JStr "budget"); ("tokens_used", JNum used);
           ("token_budget", JNum (t_TokenBudget t))]);;
  mret true.
(** src: internal/app/budget.go 18-50 BudgetService.Check *)
Definition Check_ (fate : Fate) (id : string) (w : World) : result unit * World :=
  match Task (w_db w) id with
  | Err e => (Err e, w)
  | Ok t =>
    match TokensUsed (w_db w) id with
    | Err e => (Err e, w)
    | Ok used =>
      if (used <? t_TokenBudget t)%Z then (Ok tt, w) else
      match WithTx fate (check_tx id) w with
      | (Ok true, w) => (Err ErrBudgetExceeded, w)
      | (Ok false, w) => (Ok tt, w)
      | (Err e, w) => (Err e, w)
      end
    end
  end.

(** ** Projects ([project.go]) *)
(** src: internal/app/dto.go 29-36 CreateProjectRequest *)
Record CreateProjectRequest := MkProjectRequest {
  cp_Name : string; cp_GithubOwner : string; cp_GithubRepo : string;
  cp_DefaultBranch : string; cp_InstallationID : option Z; cp_LocalPath : option string }.
(** src: internal/app/project.go 17-19 ProjectService.FetchProjects *)
Definition FetchProjects (db : DB) : result (list ProjectEntity) := Projects db.
(** src: internal/app/project.go 20-22 ProjectService.FetchProject *)
Definition FetchProject (db : DB) (id : string) : result ProjectEntity := Project db id.
(** src: internal/app/project.go 23-43 ProjectService.CreateProject *)
Definition Service_CreateProject (fate : Fate) (r : CreateProjectRequest) (w : World)
    : result ProjectEntity * World :=
  if (TrimSpace (cp_Name r) =? "") || (TrimSpace (cp_GithubOwner r) =? "")
     || (TrimSpace (cp_GithubRepo r) =? "")
  then (FaultE 400 "BAD_REQUEST" "name, github_owner and github_repo are required", w) else
  let branch := if TrimSpace (cp_DefaultBranch r) =? "" then "main"
                else TrimSpace (cp_DefaultBranch r) in
  let id := uuid_of (w_ticks w) in
  let w := MkWorld (w_db w) (S (w_ticks w)) (w_hooks w) in
  match WithTx fate (CreateProject id (TrimSpace (cp_Name r)) (cp_GithubOwner r)
          (cp_GithubRepo r) branch (cp_InstallationID r) (cp_LocalPath r)) w with
  | (Err e, w) => (Err e, w)
  | (Ok _, w) => (Project (w_db w) id, w)
  end.

Lemma create_tx_evolves id project command user dir d budget :
  follows evolves (create_tx id project command user dir d budget).
Proof. unfold create_tx, new_uuid. solve_follows. Qed.
Lemma create_tx_logs id project command user dir d budget :
  follows logs (create_tx id project command user dir d budget).
Proof. unfold create_tx, new_uuid. solve_follows. Qed.
Lemma update_tx_evolves id action : follows evolves (update_tx id action).
Proof. unfold update_tx, resume_stages. solve_follows. Qed.
Lemma update_tx_logs id action : follows logs (update_tx id action).
Proof. unfold update_tx, resume_stages. solve_follows. Qed.
Lemma budget_tx_evolves id budget : follows evolves (budget_tx id budget).
Proof. unfold budget_tx. solve_follows. Qed.
Lemma budget_tx_logs id budget : follows logs (budget_tx id budget).
Proof. unfold budget_tx. solve_follows. Qed.
Lemma check_tx_evolves id : follows evolves (check_tx id).
Proof. unfold check_tx. solve_follows. Qed.
Lemma check_tx_logs id : follows logs (check_tx id).
Proof. unfold check_tx. solve_follows. Qed.
End task.
#[export] Hint Resolve create_tx_evolves create_tx_logs update_tx_evolves update_tx_logs
  budget_tx_evolves budget_tx_logs check_tx_evolves check_tx_logs : follows.
