(* ===== verification/Commit.v ===== *)
(** * The orchestrator's transactions ([internal/orchestrator/orchestrator.go], [publish.go])

    Each definition is the function passed to [WithTx] by the method of the same name.  The
    stage [s] of [claim_tx], [progress_tx], [commit_tx] and [block_tx] was read in an earlier
    transaction and may be stale. *)
From S2P Require Import Prelude GoStrings Domain Pipeline PipelineJSON Agent Store Event History.
From S2P Require Import Derived.

(** The mode in which a stage of this status is claimed.
    src: internal/orchestrator/orchestrator.go 129-142 Orchestrator.Reconcile (mode) *)
Definition claim_mode (s : StageEntity) (stages : list StageEntity) : string :=
  if s_Status s =? "pending" then (if Ready s stages then "plan" else "")
  else if s_Status s =? "planning" then "plan"
  else if s_Status s =? "executing" then "execute" else "".

Section transactions.
Context {PF : Platform}.

(** src: internal/orchestrator/orchestrator.go 219-237 Orchestrator.start *)
Definition start_tx (id : string) (d : Def) : Tx unit :=
  t ← LockTask id;
  if t_Status t ≠? "queued" then mret tt else
  _ ← SetStatus t "running";
  levels ← lift (Levels (df_Pipeline d));
  Emit id "" "" "run.started"
    (JObj [("stages", JArr (map marshal_spec (pl_Stages (df_Pipeline d))));
           ("levels", JArr (map JStrs levels))]).

(** src: internal/orchestrator/orchestrator.go 238-275 Orchestrator.claim *)
Definition claim_tx (id : string) (s : StageEntity) (mode : string) : Tx StageEntity :=
  t ← LockTask id;
  if Terminal (t_Status t) || (t_Status t =? "paused") || (t_Status t =? "blocked")
  then fail ErrStale else
  (if s_Status s =? "pending" then
     all ← reading (λ db, Stages db id);
     if Ready s all then mret tt else fail ErrStale
   else mret tt);;
  let to := if mode =? "execute" then "executing" else "planning" in
  attempt ← ClaimStage (s_ID s) (s_Attempt s) to (s_Status s);
  (if s_Status s =? "pending" then
     Emit id (s_StageKey s) (s_Role s) "stage.started" (JObj [("role", JStr (s_Role s))])
   else mret tt);;
  mret (with_claim s to attempt (int64 (s_Version s + 1))).

(** src: internal/orchestrator/orchestrator.go 276-298 Orchestrator.progress *)
Definition progress_tx (id : string) (s : StageEntity) (kind : string) (payload : json)
    : Tx unit :=
  t ← LockTask id;
  if Terminal (t_Status t) then fail ErrStale else
  stages ← reading (λ db, Stages db id);
  current ← lift (FindStage stages (s_ID s));
  if negb (s_Attempt current =? s_Attempt s)%Z || (s_Status current ≠? s_Status s)
  then fail ErrStale
  else Emit id (s_StageKey s) (s_Role s) kind payload.

(** src: internal/orchestrator/orchestrator.go 463-468 optionalID *)
Definition optionalID (id : string) : option string := if id =? "" then None else Some id.

(** The kind of approval that closes a mode, its retry counter and its gate.
    src: internal/orchestrator/orchestrator.go 309-320 Orchestrator.commit (kind) *)
Definition mode_kind (mode : string) : string :=
  if mode =? "execute" then "deliverable" else "plan".
(** src: internal/orchestrator/orchestrator.go 321-321 Orchestrator.commit (gate) *)
Definition gated (i : Input) : bool :=
  existsb (λ k, k =? mode_kind (in_Mode i)) (elems (ss_Approvals (in_Stage i))).
(** The stage a commit writes.
    src: internal/orchestrator/orchestrator.go 308-324 Orchestrator.commit (stage) *)
Definition committed (s : StageEntity) (i : Input) (r : Result) : StageEntity :=
  let s := with_Status (with_Plan s (Some (r_Content r))) "executing" in
  let s := if in_Mode i =? "execute"
           then with_Deliverable (with_Status (with_Plan s (Some (in_Plan i))) "approved")
                  (r_Ref r) (Some (Truncate (r_Content r) 400))
           else s in
  if gated i then with_Status s (mode_kind (in_Mode i) +:+ "_review") else s.

(** src: internal/orchestrator/orchestrator.go 334-334 Orchestrator.commit (produced) *)
Definition produced_payload (did : string) (s : StageEntity) (r : Result) : json :=
  JObj [("deliverable_id", JStr did); ("kind", JStr "markdown"); ("uri", JOpt (r_Ref r));
        ("summary", JOpt (s_DeliverableSummary s));
        ("written_paths", marshal_strings (r_WrittenPaths r));
        ("iterations", JNum (r_Iterations r)); ("hit_limit", JBool (r_HitLimit r))].
(** src: internal/orchestrator/orchestrator.go 344-344 Orchestrator.commit (requested) *)
Definition requested_payload (aid kind : string) (retry : Z) (title content did : string)
    : json :=
  JObj [("approval_id", JStr aid); ("kind", JStr kind); ("retry_no", JNum retry);
        ("title", JStr title); ("content", JStr content);
        ("content_preview", JStr (Truncate content 1500));
        ("deliverable_id", JOpt (optionalID did))].

(** src: internal/orchestrator/orchestrator.go 299-354 Orchestrator.commit *)
Definition commit_tx (id : string) (s : StageEntity) (i : Input) (r : Result) : Tx unit :=
  t ← LockTask id;
  if Terminal (t_Status t) then fail ErrStale else
  let old := s_Status s in
  let kind := mode_kind (in_Mode i) in
  let retry := if in_Mode i =? "execute" then s_DeliverableRetryNo s else s_PlanRetryNo s in
  let s := committed s i r in
  UpdateStage s old;;
  did ← (if in_Mode i =? "execute" then
           did ← new_uuid;
           CreateDeliverable did id (s_ID s) (r_Ref r) (Some (r_Content r))
             (s_DeliverableSummary s);;
           Emit id (s_StageKey s) (s_Role s) "deliverable.produced" (produced_payload did s r);;
           mret did
         else mret "");
  (if gated i then
     aid ← new_uuid;
     let title := s_StageKey s +:+ " " +:+ kind +:+ " 승인 (v" +:+ fmt_d (int64 (retry + 1))
                  +:+ ")" in
     CreateApproval aid id (s_ID s) kind retry title (r_Content r);;
     Emit id (s_StageKey s) (s_Role s) "approval.requested"
       (requested_payload aid kind retry title (r_Content r) did)
   else if in_Mode i =? "execute" then
     Emit id (s_StageKey s) (s_Role s) "stage.completed"
       (JObj [("deliverable_ref", JOpt (s_DeliverableRef s)); ("deliverable_id", JStr did)])
   else mret tt);;
  deriveTx t.

(** src: internal/orchestrator/orchestrator.go 355-363 Orchestrator.derive *)
Definition derive_tx (id : string) : Tx unit := t ← LockTask id; deriveTx t.

(** src: internal/orchestrator/orchestrator.go 385-418 Orchestrator.fail *)
Definition fail_tx (id stage : string) (attempt : Z) (cause : error) : Tx unit :=
  t ← LockTask id;
  if Terminal (t_Status t) then mret tt else
  key ← (if stage ≠? "" then
           stages ← reading (λ db, Stages db id);
           s ← lift (FindStage stages stage);
           if (s_Attempt s =? attempt)%Z then mret (s_StageKey s) else fail ErrStale
         else mret "");
  _ ← SetStatus t "failed";
  Emit id key "" "run.failed" (JObj [("error", JStr (error_text cause)); ("node", JStr key)]);;
  AfterCommit (HookCancel id).

(** src: internal/orchestrator/publish.go 143-160 Orchestrator.block *)
Definition block_tx (id : string) (s : StageEntity) (cause : error) : Tx unit :=
  t ← LockTask id;
  if Terminal (t_Status t) then mret tt else
  let old := s_Status s in
  let s := with_BlockedReason (with_Status s "blocked") (Some "publish") in
  UpdateStage s old;;
  Emit id (s_StageKey s) (s_Role s) "stage.blocked"
    (JObj [("reason", JStr "publish_failed"); ("error", JStr (error_text cause));
           ("last_feedback", JOpt (s_LastFeedback s))]);;
  deriveTx t.

Ltac solve_tx := unfold start_tx, claim_tx, progress_tx, commit_tx, derive_tx, fail_tx,
  block_tx, new_uuid; solve_follows.
Lemma start_tx_evolves id d : follows evolves (start_tx id d).
Proof. solve_tx. Qed.
Lemma start_tx_logs id d : follows logs (start_tx id d).
Proof. solve_tx. Qed.
Lemma claim_tx_evolves id s mode : follows evolves (claim_tx id s mode).
Proof. solve_tx. Qed.
Lemma claim_tx_logs id s mode : follows logs (claim_tx id s mode).
Proof. solve_tx. Qed.
Lemma progress_tx_evolves id s kind payload : follows evolves (progress_tx id s kind payload).
Proof. solve_tx. Qed.
Lemma progress_tx_logs id s kind payload : follows logs (progress_tx id s kind payload).
Proof. solve_tx. Qed.
Lemma commit_tx_evolves id s i r : follows evolves (commit_tx id s i r).
Proof. solve_tx. Qed.
Lemma commit_tx_logs id s i r : follows logs (commit_tx id s i r).
Proof. solve_tx. Qed.
Lemma derive_tx_evolves id : follows evolves (derive_tx id).
Proof. solve_tx. Qed.
Lemma derive_tx_logs id : follows logs (derive_tx id).
Proof. solve_tx. Qed.
Lemma fail_tx_evolves id stage attempt cause : follows evolves (fail_tx id stage attempt cause).
Proof. solve_tx. Qed.
Lemma fail_tx_logs id stage attempt cause : follows logs (fail_tx id stage attempt cause).
Proof. solve_tx. Qed.
Lemma block_tx_evolves id s cause : follows evolves (block_tx id s cause).
Proof. solve_tx. Qed.
Lemma block_tx_logs id s cause : follows logs (block_tx id s cause).
Proof. solve_tx. Qed.
End transactions.
#[export] Hint Resolve start_tx_evolves start_tx_logs claim_tx_evolves claim_tx_logs
  progress_tx_evolves progress_tx_logs commit_tx_evolves commit_tx_logs derive_tx_evolves
  derive_tx_logs fail_tx_evolves fail_tx_logs block_tx_evolves block_tx_logs : follows.
