(* ===== verification/Flow.v ===== *)
(** * Stages and their approvals: the invariant behind the review loop

    A stage is under review exactly while it has one pending approval of that kind; an
    approval's retry number never exceeds the stage's counter, and stays below it in the
    phases from which the next approval of its kind will be asked. *)
From S2P Require Import Prelude GoStrings Domain Pipeline PipelineJSON Store Event History.

Definition kinds : list string := ["plan"; "deliverable"].
Lemma plan_kind : "plan" ∈ kinds.
Proof. constructor. Qed.
Lemma deliverable_kind : "deliverable" ∈ kinds.
Proof. do 2 constructor. Qed.
#[export] Hint Resolve plan_kind deliverable_kind : core.
Definition under_review (s : StageEntity) : Prop :=
  ∃ kind, kind ∈ kinds ∧ s_Status s = kind +:+ "_review".

(** The phases in which the next approval of [kind] is still to be asked. *)
Definition free (kind : string) (s : StageEntity) : Prop :=
  if kind =? "deliverable"
  then s_Status s ≠ "deliverable_review" ∧ s_Status s ≠ "approved"
  else s_Status s = "pending" ∨ s_Status s = "planning" ∨
       (s_Status s = "blocked" ∧ s_BlockedReason s = Some "plan").

Record stage_ok (s : StageEntity) : Prop := {
  so_status : s_Status s ∈ stage_statuses;
  so_plan : (0 ≤ s_PlanRetryNo s)%Z ∧ in_int4 (s_PlanRetryNo s);
  so_deliverable : (0 ≤ s_DeliverableRetryNo s)%Z ∧ in_int4 (s_DeliverableRetryNo s);
  so_count : s_RetryCount s = (s_PlanRetryNo s + s_DeliverableRetryNo s)%Z;
  so_version : (0 ≤ s_Version s)%Z ∧ in_int4 (s_Version s);
  so_attempt : (0 ≤ s_Attempt s)%Z ∧ in_int4 (s_Attempt s);
  so_blocked : s_Status s = "blocked" →
    s_BlockedReason s ∈ [Some "plan"; Some "deliverable"; Some "publish"] }.

(** The approvals of one stage. *)
Definition approval_of (am : gmap string ApprovalEntity) (s : StageEntity) (a : ApprovalEntity)
    : Prop := am !! a_ID a = Some a ∧ a_StageID a = s_ID s.
Record approval_ok (s : StageEntity) (a : ApprovalEntity) : Prop := {
  ao_task : a_TaskID a = s_TaskID s;
  ao_kind : a_Kind a ∈ kinds;
  ao_retry : (0 ≤ a_RetryNo a ≤ retry_no (a_Kind a) s)%Z;
  ao_free : free (a_Kind a) s → (a_RetryNo a < retry_no (a_Kind a) s)%Z;
  ao_pending : a_Status a = "pending" →
    s_Status s = a_Kind a +:+ "_review" ∧ a_RetryNo a = retry_no (a_Kind a) s }.
Record reviewed (am : gmap string ApprovalEntity) (s : StageEntity) : Prop := {
  rv_ok : ∀ a, approval_of am s a → approval_ok s a;
  rv_pending : under_review s → ∃ a, approval_of am s a ∧ a_Status a = "pending";
  rv_one : ∀ a b, approval_of am s a → approval_of am s b →
    a_Status a = "pending" → a_Status b = "pending" → a = b;
  rv_retry : ∀ a b, approval_of am s a → approval_of am s b →
    a_Kind a = a_Kind b → a_RetryNo a = a_RetryNo b → a = b }.

Lemma kinds_cases kind : kind ∈ kinds → kind = "plan" ∨ kind = "deliverable".
Proof. unfold kinds. rewrite !elem_of_cons, elem_of_nil. tauto. Qed.
Lemma review_inj k k' :
  k ∈ kinds → k' ∈ kinds → k +:+ "_review" = k' +:+ "_review" → k = k'.
Proof. by intros [-> | ->]%kinds_cases [-> | ->]%kinds_cases. Qed.
Lemma under_review_not s :
  ¬ under_review s → s_Status s ≠ "plan_review" ∧ s_Status s ≠ "deliverable_review".
Proof.
  intros Hn. split; intros E; apply Hn; [exists "plan"|exists "deliverable"];
    (split; [unfold kinds; set_solver|done]).
Qed.

(** ** One stage moves *)
Section moves.
Context (am : gmap string ApprovalEntity) (s s' : StageEntity).
Hypothesis (Hid : s_ID s' = s_ID s) (Htask : s_TaskID s' = s_TaskID s).
Hypothesis (Hrev : reviewed am s).

Lemma approval_of_same am' a : approval_of am' s' a ↔ approval_of am' s a.
Proof. unfold approval_of. by rewrite Hid. Qed.

(** A move between phases that are not reviews. *)
Lemma reviewed_move :
  ¬ under_review s → ¬ under_review s' →
  (∀ kind, kind ∈ kinds → retry_no kind s' = retry_no kind s) →
  (∀ kind, kind ∈ kinds → free kind s' → free kind s) → reviewed am s'.
Proof.
  intros Hn Hn' Hr Hf. destruct Hrev as [Hok _ Hone Hretry]. split.
  - intros a Ha%approval_of_same. destruct (Hok a Ha) as [? Hk ? Hfree Hp]. rewrite <- (Hr _ Hk) in *.
    split; try done; [congruence|auto|]. intros E. destruct Hn. exists (a_Kind a).
    by destruct (Hp E).
  - done.
  - intros a b Ha%approval_of_same Hb%approval_of_same. by apply Hone.
  - intros a b Ha%approval_of_same Hb%approval_of_same. by apply Hretry.
Qed.

(** A phase ends by asking for an approval. *)
Lemma reviewed_submit a :
  am !! a_ID a = None → a_StageID a = s_ID s → a_TaskID a = s_TaskID s →
  a_Kind a ∈ kinds → a_Status a = "pending" → a_RetryNo a = retry_no (a_Kind a) s →
  (0 ≤ retry_no (a_Kind a) s)%Z →
  ¬ under_review s → s_Status s' = a_Kind a +:+ "_review" → free (a_Kind a) s →
  ¬ free (a_Kind a) s' →
  (∀ kind, kind ∈ kinds → retry_no kind s' = retry_no kind s) →
  (∀ kind, kind ∈ kinds → free kind s' → free kind s) →
  reviewed (<[a_ID a := a]> am) s'.
Proof.
  intros Hnew Hsid Htid Hk Hpend Hretry Hpos Hn Hs' Hfree Hnfree Hr Hf.
  destruct Hrev as [Hok _ Hone Huniq].
  assert (∀ b, approval_of (<[a_ID a:=a]> am) s' b → b = a ∨ approval_of am s b) as Hcase.
  { intros b. rewrite approval_of_same. unfold approval_of. rewrite lookup_insert_Some.
    intros [[[_ <-]|[_ ?]] ?]; [by left|by right]. }
  assert (∀ b, approval_of am s b → a_Status b ≠ "pending") as Hnone.
  { intros b Hb E. destruct (ao_pending _ _ (Hok b Hb) E) as [Hst _]. destruct Hn.
    exists (a_Kind b). split; [apply (ao_kind _ _ (Hok b Hb))|done]. }
  split.
  - intros b [->|Hb]%Hcase; [split; try done; [congruence|rewrite Hr by done; lia|
      intros _; rewrite Hr by done; done]|].
    destruct (Hok b Hb) as [? Hkb ? Hfb _]. rewrite <- (Hr _ Hkb) in *.
    split; try done; [congruence|auto|by intros E; destruct (Hnone b Hb)].
  - intros _. exists a. split; [|done]. unfold approval_of. rewrite lookup_insert_eq. by rewrite Hid.
  - intros b c [->|Hb]%Hcase [->|Hc]%Hcase ??; try done; naive_solver.
  - assert (∀ b, approval_of am s b → a_Kind b = a_Kind a → a_RetryNo b ≠ a_RetryNo a) as Hlt.
    { intros b Hb E. pose proof (ao_free _ _ (Hok b Hb)) as Hlt. rewrite E in Hlt.
      specialize (Hlt Hfree). lia. }
    intros b c [->|Hb]%Hcase [->|Hc]%Hcase ??; try done;
      [destruct (Hlt c Hc)|destruct (Hlt b Hb)|by apply Huniq]; done.
Qed.

(** A review ends with the decision [a'] on its approval [a]. *)
Lemma reviewed_decide a a' (rejected : bool) :
  approval_of am s a → a_Status a = "pending" →
  a_ID a' = a_ID a → a_StageID a' = a_StageID a → a_TaskID a' = a_TaskID a →
  a_Kind a' = a_Kind a → a_RetryNo a' = a_RetryNo a → a_Status a' ≠ "pending" →
  ¬ under_review s' →
  (∀ kind, kind ∈ kinds → retry_no kind s' =
     (retry_no kind s + if (rejected && (kind =? a_Kind a))%ds then 1 else 0)%Z) →
  (∀ kind, kind ∈ kinds → free kind s' → free kind s ∨ (rejected = true ∧ kind = a_Kind a)) →
  reviewed (<[a_ID a' := a']> am) s'.
Proof.
  intros Ha Hp HidA HsidA HtidA HkA HrA Hp' Hn' Hr Hf. destruct Hrev as [Hok _ Hone Huniq].
  assert (∀ b, approval_of (<[a_ID a':=a']> am) s' b →
            b = a' ∨ (approval_of am s b ∧ b ≠ a)) as Hcase.
  { intros b. rewrite approval_of_same. unfold approval_of. rewrite lookup_insert_Some.
    intros [[[_ <-]|[Hne ?]] ?]; [by left|right]. split; [done|]. intros ->. congruence. }
  assert (∀ b, approval_of am s b → b ≠ a → a_Status b ≠ "pending") as Hnone.
  { intros b Hb Hne E. by apply Hne, Hone. }
  assert (approval_ok s a) as Hoka by auto.
  assert (∀ b, approval_of am s b →
    (0 ≤ a_RetryNo b ≤ retry_no (a_Kind b) s')%Z ∧
    (free (a_Kind b) s' → (a_RetryNo b < retry_no (a_Kind b) s')%Z)) as Hall.
  { intros b Hb. pose proof (Hok b Hb) as [_ Hkb Hrb Hfb _]. rewrite (Hr _ Hkb).
    split; [case_match; lia|]. intros [Hfr|[-> Ek]]%Hf; [|..|done].
    - specialize (Hfb Hfr). case_match; lia.
    - rewrite Ek, String.eqb_refl in *. simpl. lia. }
  split.
  - intros b [->|[Hb Hne]]%Hcase.
    + destruct Hoka, (Hall a Ha). split; rewrite ?HkA, ?HrA; try done. congruence.
    + destruct (Hok b Hb), (Hall b Hb). split; try done; [congruence|].
      by intros E; destruct (Hnone b Hb Hne).
  - done.
  - intros b c [->|[Hb Hne]]%Hcase [->|[Hc Hnec]]%Hcase Eb Ec; try done.
    by apply Hone.
  - intros b c [->|[Hb Hne]]%Hcase [->|[Hc Hnec]]%Hcase Ek Er; try done.
    + destruct Hnec. apply Huniq; congruence.
    + destruct Hne. apply Huniq; congruence.
    + by apply Huniq.
Qed.
End moves.

(** ** Phases: the abstract state machine of a stage *)
Inductive phase :=
  | Pending | Planning | PlanReview | Executing | DeliverableReview | Approved
  | Blocked (reason : string).
Definition status_of (p : phase) : string :=
  match p with
  | Pending => "pending" | Planning => "planning" | PlanReview => "plan_review"
  | Executing => "executing" | DeliverableReview => "deliverable_review"
  | Approved => "approved" | Blocked _ => "blocked"
  end.
Definition in_phase (s : StageEntity) (p : phase) : Prop :=
  s_Status s = status_of p ∧
  match p with Blocked r => s_BlockedReason s = Some r | _ => True end.

(** The work of a stage and the phases of its kinds of approval. *)
Definition work_phase (kind : string) : phase := if kind =? "deliverable" then Executing else Planning.
Definition review_phase (kind : string) : phase :=
  if kind =? "deliverable" then DeliverableReview else PlanReview.
Definition done_phase (kind : string) : phase := if kind =? "deliverable" then Approved else Executing.

(** The life cycle of a stage: the moves of the work itself, of the reviews, and of
    blocking and resuming. *)
Inductive phase_step : phase → phase → Prop :=
  | ps_start : phase_step Pending Planning
  | ps_redo kind : kind ∈ kinds → phase_step (work_phase kind) (work_phase kind)
  | ps_submit kind : kind ∈ kinds → phase_step (work_phase kind) (review_phase kind)
  | ps_pass kind : kind ∈ kinds → phase_step (work_phase kind) (done_phase kind)
  | ps_accept kind : kind ∈ kinds → phase_step (review_phase kind) (done_phase kind)
  | ps_reject kind : kind ∈ kinds → phase_step (review_phase kind) (work_phase kind)
  | ps_exhaust kind : kind ∈ kinds → phase_step (review_phase kind) (Blocked kind)
  | ps_publish : phase_step Executing (Blocked "publish")
  | ps_replan : phase_step (Blocked "plan") Planning
  | ps_rework reason : reason ∈ ["deliverable"; "publish"] → phase_step (Blocked reason) Executing.

(** An approved stage never moves again. *)
Lemma phase_step_approved p : ¬ phase_step Approved p.
Proof.
  intros H. inversion H as [|k Hk E|k Hk E|k Hk E|k Hk E|k Hk E|k Hk E| | |];
    by apply kinds_cases in Hk as [-> | ->].
Qed.

(** ** The flow of a database: its stages and approvals *)
Abbreviation flow := (gmap string StageEntity * gmap string ApprovalEntity)%type.

Definition same_identity (s s' : StageEntity) : Prop :=
  s_ID s' = s_ID s ∧ s_TaskID s' = s_TaskID s ∧ s_StageKey s' = s_StageKey s ∧
  s_DependsOn s' = s_DependsOn s.
(** Every dependency of [s] is an approved stage of the same task. *)
Definition deps_done (sm : gmap string StageEntity) (s : StageEntity) : Prop :=
  ∀ dep, dep ∈ s_DependsOn s → ∃ p, sm !! s_ID p = Some p ∧ s_TaskID p = s_TaskID s ∧
    s_StageKey p = dep ∧ s_Status p = "approved".

Record flow_inv (f : flow) : Prop := {
  fi_id : ∀ id s, f.1 !! id = Some s → s_ID s = id;
  fi_ok : ∀ id s, f.1 !! id = Some s → stage_ok s;
  fi_reviewed : ∀ id s, f.1 !! id = Some s → reviewed f.2 s;
  fi_deps : ∀ id s, f.1 !! id = Some s → s_Status s ≠ "pending" → deps_done f.1 s;
  fi_keys : ∀ id id' s s', f.1 !! id = Some s → f.1 !! id' = Some s' →
    s_TaskID s = s_TaskID s' → s_StageKey s = s_StageKey s' → id = id';
  fi_aid : ∀ id a, f.2 !! id = Some a → a_ID a = id;
  fi_astage : ∀ id a, f.2 !! id = Some a → is_Some (f.1 !! a_StageID a) }.

(** One row of the flow moves. *)
Inductive flow_step : flow → flow → Prop :=
  | fs_new sm am s :
      sm !! s_ID s = None → in_phase s Pending → stage_ok s →
      (∀ id s', sm !! id = Some s' → s_TaskID s' = s_TaskID s → s_StageKey s' ≠ s_StageKey s) →
      flow_step (sm, am) (<[s_ID s := s]> sm, am)
  | fs_move sm am s s' p p' :
      sm !! s_ID s = Some s → same_identity s s' → stage_ok s' →
      in_phase s p → in_phase s' p' → phase_step p p' →
      (∀ kind, kind ∈ kinds → retry_no kind s' = retry_no kind s ∧
         p ≠ review_phase kind ∧ p' ≠ review_phase kind) →
      (p = Pending → deps_done sm s) →
      flow_step (sm, am) (<[s_ID s := s']> sm, am)
  | fs_submit sm am s s' kind a :
      sm !! s_ID s = Some s → same_identity s s' → stage_ok s' → kind ∈ kinds →
      in_phase s (work_phase kind) → in_phase s' (review_phase kind) →
      (∀ k, k ∈ kinds → retry_no k s' = retry_no k s) →
      am !! a_ID a = None → a_StageID a = s_ID s → a_TaskID a = s_TaskID s → a_Kind a = kind →
      a_Status a = "pending" → a_RetryNo a = retry_no kind s →
      flow_step (sm, am) (<[s_ID s := s']> sm, <[a_ID a := a]> am)
  | fs_decide sm am s s' p' a a' (rejected : bool) :
      sm !! s_ID s = Some s → same_identity s s' → stage_ok s' → a_Kind a ∈ kinds →
      am !! a_ID a = Some a → a_StageID a = s_ID s → a_Status a = "pending" →
      a_ID a' = a_ID a → a_StageID a' = a_StageID a → a_TaskID a' = a_TaskID a →
      a_Kind a' = a_Kind a → a_RetryNo a' = a_RetryNo a → a_Status a' ≠ "pending" →
      in_phase s (review_phase (a_Kind a)) → in_phase s' p' →
      p' ∈ (if rejected then [work_phase (a_Kind a); Blocked (a_Kind a)]
            else [done_phase (a_Kind a)]) →
      (∀ k, k ∈ kinds → retry_no k s' =
         (retry_no k s + if (rejected && (k =? a_Kind a))%ds then 1 else 0)%Z) →
      flow_step (sm, am) (<[s_ID s := s']> sm, <[a_ID a' := a']> am).

Lemma in_phase_review s kind :
  kind ∈ kinds → in_phase s (review_phase kind) → s_Status s = kind +:+ "_review".
Proof. by intros [-> | ->]%kinds_cases [H _]. Qed.
Lemma in_phase_not_review s p :
  in_phase s p → (∀ kind, kind ∈ kinds → p ≠ review_phase kind) → ¬ under_review s.
Proof.
  intros [Hs _] Hp (kind & Hk & E). specialize (Hp kind Hk).
  apply kinds_cases in Hk as [-> | ->]; rewrite Hs in E; by destruct p.
Qed.

(** The row of a moved stage is replaced; the others keep their part of the invariant. *)
Lemma flow_inv_update sm am am' s s' :
  flow_inv (sm, am) → sm !! s_ID s = Some s → same_identity s s' →
  (s_Status s = "approved" → s_Status s' = "approved") →
  stage_ok s' → reviewed am' s' →
  (s_Status s = "pending" → s_Status s' ≠ "pending" → deps_done sm s) →
  (∀ id a, am' !! id = Some a → a_ID a = id ∧ is_Some (sm !! a_StageID a)) →
  (∀ a, a_StageID a ≠ s_ID s → am' !! a_ID a = Some a ↔ am !! a_ID a = Some a) →
  flow_inv (<[s_ID s := s']> sm, am').
Proof.
  intros [Hid Hok Hrev Hdeps Hkeys _ _] Hs (Ei & Et & Ek & Ed) Happ Hok' Hrev' Hd' Ham Hsame.
  assert (∀ t, deps_done sm t → deps_done (<[s_ID s:=s']> sm) t) as Hmono.
  { intros t Ht dep (p & Hp & Hpt & Hpk & Hpa)%Ht. destruct (decide (s_ID p = s_ID s)) as [E|].
    - assert (p = s) as -> by congruence. exists s'. rewrite Ei, lookup_insert_eq.
      split_and!; try done; [congruence..|auto].
    - exists p. by rewrite lookup_insert_ne. }
  assert (∀ id t, <[s_ID s:=s']> sm !! id = Some t → id = s_ID s ∧ t = s' ∨
            id ≠ s_ID s ∧ sm !! id = Some t) as Hcase.
  { intros id t. rewrite lookup_insert_Some. naive_solver. }
  split; simpl.
  - intros id t [[-> ->]|[_ Ht]]%Hcase; [done|by apply Hid].
  - intros id t [[-> ->]|[_ Ht]]%Hcase; [done|by eapply Hok].
  - intros id t [[-> ->]|[Hne Ht]]%Hcase; [done|]. pose proof (Hid _ _ Ht) as Hidt.
    simpl in Hidt.
    assert (∀ a, approval_of am' t a ↔ approval_of am t a) as Heq.
    { intros a. unfold approval_of.
      split; intros [? E]; (split; [|done]); apply (Hsame a); try done; congruence. }
    destruct (Hrev _ _ Ht) as [H1 H2 H3 H4]. split.
    + intros a Ha%Heq. by apply H1.
    + intros (a & Ha & ?)%H2. exists a. by rewrite Heq.
    + intros a b Ha%Heq Hb%Heq. by apply H3.
    + intros a b Ha%Heq Hb%Heq. by apply H4.
  - intros id t [[-> ->]|[_ Ht]]%Hcase Hp; apply Hmono; [|by eapply Hdeps].
    intros dep Hdep. rewrite Ed in Hdep. rewrite Et.
    destruct (decide (s_Status s = "pending")) as [E|E]; [by apply Hd'|by eapply Hdeps].
  - intros id id' t t' [[-> ->]|[? Ht]]%Hcase [[-> ->]|[? Ht']]%Hcase E1 E2; try done.
    + eapply Hkeys; [done..| |]; congruence.
    + eapply Hkeys; [done..| |]; congruence.
    + by eapply Hkeys.
  - intros id a Ha. by apply Ham.
  - intros id a Ha. rewrite lookup_insert_is_Some. destruct (decide (s_ID s = a_StageID a));
      [by left|right; split; [done|by eapply Ham]].
Qed.

(** ** Every step keeps the invariant *)
(** [free] on phases. *)
Definition free_phase (kind : string) (p : phase) : Prop :=
  if kind =? "deliverable" then p ≠ DeliverableReview ∧ p ≠ Approved
  else p = Pending ∨ p = Planning ∨ p = Blocked "plan".
Lemma in_phase_free s p kind : in_phase s p → free kind s ↔ free_phase kind p.
Proof.
  intros [Hs Hb]. unfold free, free_phase. rewrite Hs.
  destruct (kind =? "deliverable"); destruct p; simpl in *; naive_solver.
Qed.

Lemma phase_step_free p p' kind :
  kind ∈ kinds → phase_step p p' →
  (∀ k, k ∈ kinds → p ≠ review_phase k) → free_phase kind p' → free_phase kind p.
Proof.
  intros Hkind Hstep Hne. apply kinds_cases in Hkind as Hk'. unfold free_phase.
  destruct Hstep as [|k Hk|k Hk|k Hk|k Hk|k Hk|k Hk| | |r Hr];
    try (by destruct (Hne k Hk)); try apply kinds_cases in Hk as [-> | ->];
    destruct Hk' as [-> | ->]; simpl; try naive_solver.
  all: rewrite !elem_of_cons, elem_of_nil in Hr; naive_solver.
Qed.

Lemma in_phase_approved s p : in_phase s p → s_Status s = "approved" → p = Approved.
Proof. intros [-> _]. by destruct p. Qed.
Lemma in_phase_pending s p : in_phase s p → s_Status s = "pending" → p = Pending.
Proof. intros [-> _]. by destruct p. Qed.

Lemma reviewed_new am s :
  (∀ id a, am !! id = Some a → a_StageID a ≠ s_ID s) → s_Status s = "pending" → reviewed am s.
Proof.
  intros Hno Hs. assert (∀ a, ¬ approval_of am s a) as Hn by (intros a [Ha E]; by eapply Hno).
  split; try (intros a; intros; by destruct (Hn a)).
  intros (k & Hk & E). rewrite Hs in E. by apply kinds_cases in Hk as [-> | ->].
Qed.

Lemma flow_step_new sm am s :
  flow_inv (sm, am) → sm !! s_ID s = None → in_phase s Pending → stage_ok s →
  (∀ id s', sm !! id = Some s' → s_TaskID s' = s_TaskID s → s_StageKey s' ≠ s_StageKey s) →
  flow_inv (<[s_ID s := s]> sm, am).
Proof.
  intros [Hid Hok Hrev Hdeps Hkeys Haid Hast] Hnew [Hs _] Hoks Hun. simpl in *.
  assert (∀ id a, am !! id = Some a → a_StageID a ≠ s_ID s) as Hno.
  { intros id a Ha E. destruct (Hast _ _ Ha) as [x Hx]. congruence. }
  assert (∀ t, deps_done sm t → deps_done (<[s_ID s:=s]> sm) t) as Hmono.
  { intros t Ht dep (p & Hp & ?)%Ht. exists p. rewrite lookup_insert_ne by congruence. done. }
  assert (∀ id t, <[s_ID s:=s]> sm !! id = Some t → id = s_ID s ∧ t = s ∨ sm !! id = Some t)
    as Hcase by (intros id t; rewrite lookup_insert_Some; naive_solver).
  split; simpl; [..|done|].
  - intros id t [[-> ->]|Ht]%Hcase; [done|by apply Hid].
  - intros id t [[-> ->]|Ht]%Hcase; [done|by eapply Hok].
  - intros id t [[-> ->]|Ht]%Hcase; [by apply reviewed_new|by eapply Hrev].
  - intros id t [[-> ->]|Ht]%Hcase Hp; [by rewrite Hs in Hp|by eapply Hmono, Hdeps].
  - intros id id' t t' [[-> ->]|Ht]%Hcase [[-> ->]|Ht']%Hcase E1 E2; try done.
    + by destruct (Hun _ _ Ht').
    + by destruct (Hun _ _ Ht).
    + by eapply Hkeys.
  - intros id a Ha. apply lookup_insert_is_Some. destruct (decide (s_ID s = a_StageID a));
      [by left|right; split; [done|by eapply Hast]].
Qed.

Lemma flow_step_move sm am s s' p p' :
  flow_inv (sm, am) → sm !! s_ID s = Some s → same_identity s s' → stage_ok s' →
  in_phase s p → in_phase s' p' → phase_step p p' →
  (∀ kind, kind ∈ kinds → retry_no kind s' = retry_no kind s ∧
     p ≠ review_phase kind ∧ p' ≠ review_phase kind) →
  (p = Pending → deps_done sm s) →
  flow_inv (<[s_ID s := s']> sm, am).
Proof.
  intros Hf Hs Hi Hok Hp Hp' Hph Hk Hd.
  pose proof Hi as (Ei & Et & _).
  assert (∀ kind, kind ∈ kinds → p ≠ review_phase kind) as Hpr by (intros; by apply Hk).
  apply (flow_inv_update _ am); try done.
  + intros E. pose proof (in_phase_approved _ _ Hp E) as ->. by destruct (phase_step_approved p').
  + apply (reviewed_move am s s'); try done; [by eapply (fi_reviewed _ Hf)|..].
    * by apply (in_phase_not_review _ p).
    * apply (in_phase_not_review _ p'); [done|]. intros; by apply Hk.
    * intros; by apply Hk.
    * intros kind Hkind. rewrite (in_phase_free s' p'), (in_phase_free s p) by done.
      by apply phase_step_free.
  + intros E _. apply Hd. by eapply in_phase_pending.
  + intros id a Ha. split; [by apply (fi_aid _ Hf)|by eapply (fi_astage _ Hf)].
Qed.

Lemma flow_step_submit sm am s s' kind a :
  flow_inv (sm, am) → sm !! s_ID s = Some s → same_identity s s' → stage_ok s' → kind ∈ kinds →
  in_phase s (work_phase kind) → in_phase s' (review_phase kind) →
  (∀ k, k ∈ kinds → retry_no k s' = retry_no k s) →
  am !! a_ID a = None → a_StageID a = s_ID s → a_TaskID a = s_TaskID s → a_Kind a = kind →
  a_Status a = "pending" → a_RetryNo a = retry_no kind s →
  flow_inv (<[s_ID s := s']> sm, <[a_ID a := a]> am).
Proof.
  intros Hf Hs Hi Hok Hk Hp Hp' Hr Hnew Hsa Hta Hka Hst Hra.
  pose proof Hi as (Ei & Et & _).
  apply (flow_inv_update _ am); try done.
  + intros E. pose proof (in_phase_approved _ _ Hp E). by apply kinds_cases in Hk as [-> | ->].
  + apply (reviewed_submit am s s'); rewrite ?Hka; try done.
    * by eapply (fi_reviewed _ Hf).
    * pose proof (fi_ok _ Hf _ _ Hs) as [_ [? _] [? _] _ _ _ _]. unfold retry_no. by case_match.
    * apply (in_phase_not_review _ _ Hp). intros k Hk'.
      by apply kinds_cases in Hk as [-> | ->]; apply kinds_cases in Hk' as [-> | ->].
    * by apply in_phase_review.
    * rewrite (in_phase_free _ _ _ Hp). unfold free_phase.
      apply kinds_cases in Hk as [-> | ->]; simpl; naive_solver.
    * rewrite (in_phase_free _ _ _ Hp'). unfold free_phase.
      apply kinds_cases in Hk as [-> | ->]; simpl; naive_solver.
    * intros k Hk'. rewrite (in_phase_free _ _ _ Hp), (in_phase_free _ _ _ Hp'). unfold free_phase.
      apply kinds_cases in Hk as [-> | ->]; apply kinds_cases in Hk' as [-> | ->];
        simpl; naive_solver.
  + intros E. pose proof (in_phase_pending _ _ Hp E). by apply kinds_cases in Hk as [-> | ->].
  + intros id b. rewrite lookup_insert_Some. intros [[<- <-]|[_ Hb]].
    * split; [done|]. rewrite Hsa. by eexists.
    * split; [by apply (fi_aid _ Hf)|by eapply (fi_astage _ Hf)].
  + intros b Hb. rewrite lookup_insert_Some. split; [|right; split; [congruence|done]].
    intros [[_ <-]|[_ ?]]; [by destruct Hb|done].
Qed.

Lemma flow_step_decide sm am s s' p' a a' (rej : bool) :
  flow_inv (sm, am) → sm !! s_ID s = Some s → same_identity s s' → stage_ok s' →
  a_Kind a ∈ kinds → am !! a_ID a = Some a → a_StageID a = s_ID s → a_Status a = "pending" →
  a_ID a' = a_ID a → a_StageID a' = a_StageID a → a_TaskID a' = a_TaskID a →
  a_Kind a' = a_Kind a → a_RetryNo a' = a_RetryNo a → a_Status a' ≠ "pending" →
  in_phase s (review_phase (a_Kind a)) → in_phase s' p' →
  p' ∈ (if rej then [work_phase (a_Kind a); Blocked (a_Kind a)] else [done_phase (a_Kind a)]) →
  (∀ k, k ∈ kinds → retry_no k s' =
     (retry_no k s + if (rej && (k =? a_Kind a))%ds then 1 else 0)%Z) →
  flow_inv (<[s_ID s := s']> sm, <[a_ID a' := a']> am).
Proof.
  intros Hf Hs Hi Hok Hk Ha Hsa Hst E1 E2 E3 E4 E5 E6 Hp Hp' Hin Hr.
  pose proof Hi as (Ei & Et & _).
  apply (flow_inv_update _ am); try done.
  + intros E. pose proof (in_phase_approved _ _ Hp E) as E'.
    by apply kinds_cases in Hk as [Ek|Ek]; rewrite Ek in E'.
  + eapply (reviewed_decide am s s'); try done; [by eapply (fi_reviewed _ Hf)|..].
    * apply (in_phase_not_review _ _ Hp'). intros k Hk'.
      apply kinds_cases in Hk as [Ek|Ek]; apply kinds_cases in Hk' as [-> | ->];
        rewrite Ek in Hin; destruct rej; rewrite !elem_of_cons, ?elem_of_nil in Hin; naive_solver.
    * intros k Hk'. rewrite (in_phase_free _ _ _ Hp), (in_phase_free _ _ _ Hp'). unfold free_phase.
      apply kinds_cases in Hk as [Ek|Ek]; apply kinds_cases in Hk' as [-> | ->]; rewrite Ek in Hin |- *;
        destruct rej; rewrite !elem_of_cons, ?elem_of_nil in Hin; simpl in *; naive_solver.
  + intros E. pose proof (in_phase_pending _ _ Hp E) as E'.
    by apply kinds_cases in Hk as [Ek|Ek]; rewrite Ek in E'.
  + intros id b. rewrite lookup_insert_Some. intros [[<- <-]|[_ Hb]].
    * split; [done|]. rewrite E2, Hsa. by eexists.
    * split; [by apply (fi_aid _ Hf)|by eapply (fi_astage _ Hf)].
  + intros b Hb. rewrite lookup_insert_Some. rewrite E1. split.
    * intros [[_ <-]|[_ ?]]; [congruence|done].
    * intros Hb'. right. split; [|done]. intros E. congruence.
Qed.

(** Every move of the flow keeps the invariant of the review loop: whichever stage is
    created, started, submitted, decided, blocked or resumed, a stage is under review
    exactly while it has one pending approval of that kind, retry numbers are used once,
    and a stage that has started has all its dependencies approved. *)
Lemma flow_step_inv f f' : flow_inv f → flow_step f f' → flow_inv f'.
Proof.
  intros Hf Hstep. destruct Hstep;
    [by apply flow_step_new|by eapply flow_step_move|by eapply flow_step_submit
    |by eapply flow_step_decide].
Qed.
