(* ===== verification/Effects.v ===== *)
(** * What each transaction does to the stages and their approvals

    Every service's transaction, when it succeeds on a database that satisfies the invariant,
    makes moves of the abstract flow: the refinement half of the review loop. *)
From S2P Require Import Prelude GoStrings Domain Pipeline PipelineJSON Agent Store Event History.
From S2P Require Import Derived Approval Task Commit Flow.

Definition flow_of (db : DB) : flow := (db_stages db, db_approvals db).

(** ** Statements that leave the flow alone *)
Definition quiet (σ σ' : TxState) : Prop := flow_of (tx_db σ') = flow_of (tx_db σ).
#[export] Instance quiet_preorder : PreOrder quiet.
Proof. split; [done|]. intros σ1 σ2 σ3 H1 H2. unfold quiet in *. congruence. Qed.

Section quiet.
Context {PF : Platform}.
Lemma quiet_same_db {A} (m : Tx A) :
  (∀ σ a σ', m σ = Ok (a, σ') → tx_db σ' = tx_db σ) → follows quiet m.
Proof. intros Hm σ a σ' H. unfold quiet. by rewrite (Hm _ _ _ H). Qed.
Lemma quiet_LockTask id : follows quiet (LockTask id).
Proof. apply quiet_same_db. by intros ??? [_ ->]%LockTask_ok. Qed.
Lemma quiet_reading {A} (f : DB → result A) : follows quiet (reading f).
Proof. apply quiet_same_db. by intros ??? [_ ->]%reading_ok. Qed.
Lemma quiet_AfterCommit h : follows quiet (AfterCommit h).
Proof. apply quiet_same_db. by intros ??? ->%AfterCommit_ok. Qed.
Lemma quiet_tick : follows quiet tick.
Proof. apply quiet_same_db. by intros ??? [_ ->]%tick_ok. Qed.
Lemma quiet_SetStatus t status : follows quiet (SetStatus t status).
Proof. by intros σ u σ' (row & _ & _ & _ & _ & ->)%SetStatus_ok. Qed.
Lemma quiet_Emit task stage agent kind payload : follows quiet (Emit task stage agent kind payload).
Proof. by intros σ u σ' (t & ev & _ & _ & _ & _ & _ & ->)%Emit_ok. Qed.
Lemma quiet_CreateDeliverable id task stage uri content summary :
  follows quiet (CreateDeliverable id task stage uri content summary).
Proof. unfold CreateDeliverable. intros σ u σ' H. by inv_tx. Qed.
Lemma quiet_UpdateTaskBudget id budget version : follows quiet (UpdateTaskBudget id budget version).
Proof. unfold UpdateTaskBudget. intros σ u σ' H. by inv_tx. Qed.
Lemma quiet_CreateProject id name owner repo branch inst loc :
  follows quiet (CreateProject id name owner repo branch inst loc).
Proof. unfold CreateProject. intros σ u σ' H. by inv_tx. Qed.
Lemma quiet_CreateTask id project command user p ws budget :
  follows quiet (CreateTask id project command user p ws budget).
Proof. unfold CreateTask. intros σ u σ' H. by inv_tx. Qed.
End quiet.
#[export] Hint Resolve quiet_LockTask quiet_reading quiet_AfterCommit quiet_tick
  quiet_SetStatus quiet_Emit quiet_CreateDeliverable quiet_UpdateTaskBudget
  quiet_CreateProject quiet_CreateTask : follows.

Section quiet_tx.
Context {PF : Platform}.
Lemma quiet_deriveTx t : follows quiet (deriveTx t).
Proof. unfold deriveTx. solve_follows. Qed.
Lemma quiet_start_tx id d : follows quiet (start_tx id d).
Proof. unfold start_tx. solve_follows. Qed.
Lemma quiet_progress_tx id s kind payload : follows quiet (progress_tx id s kind payload).
Proof. unfold progress_tx. solve_follows. Qed.
Lemma quiet_fail_tx id stage attempt cause : follows quiet (fail_tx id stage attempt cause).
Proof. unfold fail_tx. solve_follows. Qed.
Lemma quiet_budget_tx id budget : follows quiet (budget_tx id budget).
Proof. unfold budget_tx. solve_follows. Qed.
Lemma quiet_check_tx id : follows quiet (check_tx id).
Proof. unfold check_tx. solve_follows. Qed.
End quiet_tx.
#[export] Hint Resolve quiet_deriveTx : follows.
Lemma quiet_derive_tx `{PF : Platform} id : follows quiet (derive_tx id).
Proof. unfold derive_tx. solve_follows. Qed.
#[export] Hint Resolve quiet_start_tx quiet_progress_tx quiet_fail_tx quiet_budget_tx
  quiet_check_tx quiet_derive_tx : follows.

(** Turn a run that does not touch the flow into an equation. *)
Lemma quiet_run {A} (m : Tx A) σ a σ' :
  m σ = Ok (a, σ') → follows quiet m → flow_of (tx_db σ') = flow_of (tx_db σ).
Proof. intros H Hm. by eapply Hm. Qed.
Ltac flow_eq :=
  match goal with
  | H : _ _ = Ok (_, _) |- _ =>
      let E := fresh "Eflow" in
      pose proof (quiet_run _ _ _ _ H ltac:(solve_follows)) as E; clear H
  end.

(** A commit changes neither identity nor counters. *)
Lemma committed_same s i r k :
  s_ID (committed s i r) = s_ID s ∧ s_TaskID (committed s i r) = s_TaskID s ∧
  s_StageKey (committed s i r) = s_StageKey s ∧ s_DependsOn (committed s i r) = s_DependsOn s ∧
  s_PlanRetryNo (committed s i r) = s_PlanRetryNo s ∧
  s_DeliverableRetryNo (committed s i r) = s_DeliverableRetryNo s ∧
  retry_no k (committed s i r) = retry_no k s ∧
  s_Version (committed s i r) = s_Version s ∧ s_Attempt (committed s i r) = s_Attempt s.
Proof. unfold committed, retry_no. by repeat case_match. Qed.
Ltac flow_chain :=
  unfold flow_of in *; simpl in *;
  repeat match goal with H : (_, _) = (_, _) |- _ => injection H as ? ? end;
  repeat match goal with E : ?f (tx_db ?y) = _ |- _ =>
    match goal with |- context [f (tx_db y)] => rewrite E; clear E end end;
  rewrite ?(proj1 (committed_same _ _ _ "plan")); first [reflexivity | congruence].

(** ** Snapshots *)
(** What a reader still knows of a stage it read: the row is at its version or past it, and
    at its version it is the same row. *)
Definition known (db : DB) (s : StageEntity) : Prop :=
  ∃ row, db_stages db !! s_ID s = Some row ∧ stage_le s row ∧
    (0 ≤ s_Version s)%Z ∧ in_int4 (s_Version s).

Lemma known_current db s row :
  known db s → db_stages db !! s_ID s = Some row → s_Version row = s_Version s → row = s.
Proof.
  intros (row' & Hr & Hle & _) Hr' Hv. assert (row' = row) as -> by congruence.
  by apply (sle_same _ _ Hle).
Qed.
Lemma known_mono db db' s : db_le db db' → known db s → known db' s.
Proof.
  intros Hle (row & Hr & Hs & ?). destruct (dle_stages _ _ Hle _ _ Hr) as (row' & Hr' & Hs').
  exists row'. split; [done|]. split; [by trans row|done].
Qed.
Lemma known_row db id s :
  flow_inv (flow_of db) → db_stages db !! id = Some s → known db s.
Proof.
  intros Hf Hs. pose proof (fi_id _ Hf _ _ Hs) as E. simpl in E. exists s.
  rewrite E. destruct (fi_ok _ Hf _ _ Hs) as [_ _ _ _ [? ?] _ _]. by split_and!.
Qed.

(** ** Claiming *)
Section effects.
Context {PF : Platform}.

Lemma ready_deps_done db s t row :
  flow_inv (flow_of db) → db_stages db !! s_ID s = Some row → s_TaskID row = t →
  s_DependsOn row = s_DependsOn s → Ready s (ListStages db t) = true →
  deps_done (db_stages db) row.
Proof.
  intros Hf Hr Ht Hd Hready dep Hdep. rewrite Hd in Hdep.
  destruct (proj1 (Ready_spec _ _) Hready dep Hdep) as (p & Hp & Hk & Hs).
  apply elem_of_ListStages in Hp as (Hpt & id & Hp). exists p.
  pose proof (fi_id _ Hf _ _ Hp) as E. simpl in E. rewrite E. split_and!; congruence.
Qed.

(** The phases a claim moves between. *)
Definition claims (p p' : phase) : Prop :=
  (p = Pending ∧ p' = Planning) ∨ (p = Planning ∧ p' = Planning) ∨
  (p = Executing ∧ p' = Executing).

Lemma claim_row_step db db' s row p p' :
  let to := status_of p' in
  let row' := with_claim row to (s_Attempt s + 1) (s_Version row + 1) in
  let s' := with_claim s to (s_Attempt s + 1) (int64 (s_Version s + 1)) in
  flow_inv (flow_of db) → known db s → db_stages db !! s_ID s = Some row →
  s_Attempt row = s_Attempt s → s_Status row = s_Status s →
  in_int4 (s_Attempt s + 1) → in_int4 (s_Version row + 1) →
  s_Status s = status_of p → claims p p' →
  (p = Pending → Ready s (ListStages db (s_TaskID s)) = true) →
  flow_of db' = (<[s_ID row := row']> (db_stages db), db_approvals db) →
  flow_step (flow_of db) (flow_of db') ∧ known db' s' ∧ in_phase s' p'.
Proof.
  intros to row' s' Hf (row0 & Hr0 & Hle & Hv0 & Hv4) Hr Ha Hst Hia Hiv Hp Hc Hd Hdb.
  assert (row0 = row) as -> by congruence. pose proof (fi_id _ Hf _ _ Hr) as Hid. simpl in Hid.
  pose proof (fi_ok _ Hf _ _ Hr) as [Ks K1 K2 K3 K4 K5 K6].
  assert (int64 (s_Version s + 1) = s_Version s + 1)%Z as Hi64.
  { apply int64_id. unfold in_int4, in_int8 in *. lia. }
  pose proof (sle_version _ _ Hle) as Hlev. split_and!.
  - rewrite Hdb. apply (fs_move _ _ row row' p p'); simpl; try done.
    + by rewrite Hid.
    + destruct Hc as [[-> ->]|[[-> ->]|[-> ->]]]; split; simpl; unfold stage_statuses; try done; try solve_elem;
        split; try done; lia.
    + destruct Hc as [[-> ->]|[[-> ->]|[-> ->]]]; split; simpl in *; done || congruence.
    + destruct Hc as [[-> ->]|[[-> ->]|[-> ->]]]; done.
    + destruct Hc as [[-> ->]|[[-> ->]|[-> ->]]]; [constructor| |].
      * by apply (ps_redo "plan").
      * by apply (ps_redo "deliverable").
    + intros k Hk. split; [done|].
      destruct Hc as [[-> ->]|[[-> ->]|[-> ->]]]; by apply kinds_cases in Hk as [-> | ->].
    + intros ->. eapply ready_deps_done; [done|done| | |by apply Hd].
      * apply (sle_task _ _ Hle).
      * apply (sle_deps _ _ Hle).
  - exists row'. injection Hdb as E1 E2. simpl. rewrite E1, Hid, lookup_insert_eq, Hi64.
    split; [done|]. unfold in_int4 in *. split; [|lia]. destruct Hle.
    split; simpl; try done; try lia. intros E.
    assert (row = s) as -> by (apply sle_same; lia). unfold row', s'. by rewrite Hi64.
  - destruct Hc as [[-> ->]|[[-> ->]|[-> ->]]]; done.
Qed.

(** A claim starts or restarts the work of the stage; what it returns is known. *)
Lemma claim_tx_flow id s mode all σ s' σ' :
  flow_inv (flow_of (tx_db σ)) → known (tx_db σ) s → s_TaskID s = id →
  claim_mode s all = mode → mode ≠ "" →
  claim_tx id s mode σ = Ok (s', σ') →
  flow_step (flow_of (tx_db σ)) (flow_of (tx_db σ')) ∧ known (tx_db σ') s' ∧
  s_TaskID s' = id ∧ in_phase s' (work_phase (mode_kind mode)).
Proof.
  intros Hf Hk Ht Hmode Hne H.
  assert (∃ p, s_Status s = status_of p ∧ claims p (work_phase (mode_kind mode)) ∧
            (s_Status s = "pending" ↔ p = Pending)) as (p & Hp & Hc & Hpp).
  { unfold claim_mode in Hmode. unfold claims. revert Hmode.
    repeat case_eqb; [destruct (Ready s all)|..]; intros <-; try done;
      [exists Pending|exists Planning|exists Executing]; by split_and!; auto. }
  assert ((if mode =? "execute" then "executing" else "planning") =
            status_of (work_phase (mode_kind mode))) as Hto.
  { unfold mode_kind. by destruct (mode =? "execute"). }
  unfold claim_tx in H. rewrite Hto in H. clear Hmode Hto. inv_tx.
  all: repeat match goal with
    | H : LockTask _ _ = Ok _ |- _ => apply LockTask_ok in H as [? ->]
    | H : ClaimStage _ _ _ _ _ = Ok _ |- _ =>
        apply ClaimStage_ok in H as (row & Hr & Ha & Hs & -> & _ & Hia & Hiv & ->)
    end.
  all: repeat flow_eq.
  all: edestruct (claim_row_step (tx_db σ)) with (p := p) (s := s) as (? & ? & ?);
    [done..| | |by split_and!].
  all: try (intros ->; by naive_solver). all: try (rewrite ?Eflow; reflexivity).
  all: intros _; match goal with H : Stages _ _ = Ok _ |- _ => by injection H as -> end.
Qed.

(** ** Committing *)
Lemma mode_kinds mode : mode_kind mode ∈ kinds.
Proof. unfold mode_kind. by case_match. Qed.
Lemma committed_status s i r :
  s_Status (committed s i r) = status_of (if gated i then review_phase (mode_kind (in_Mode i))
                                          else done_phase (mode_kind (in_Mode i))).
Proof.
  unfold committed, mode_kind. by destruct (in_Mode i =? "execute"), (gated i).
Qed.

(** What [UpdateStage] writes for a caller that changes neither identity nor counters. *)
Lemma written_ok s x :
  stage_ok s → s_Status x ∈ stage_statuses → (s_Status x = "blocked" →
    s_BlockedReason x ∈ [Some "plan"; Some "deliverable"; Some "publish"]) →
  (0 ≤ s_PlanRetryNo x)%Z ∧ in_int4 (s_PlanRetryNo x) →
  (0 ≤ s_DeliverableRetryNo x)%Z ∧ in_int4 (s_DeliverableRetryNo x) →
  in_int4 (s_Version s + 1) → stage_ok (written s x).
Proof. intros [_ _ _ _ [??] ? _] ?????. split; simpl; try done. split; [lia|done]. Qed.

Lemma commit_row db s i r row :
  flow_inv (flow_of db) → known db s → db_stages db !! s_ID (committed s i r) = Some row →
  s_Version row = s_Version (committed s i r) →
  row = s ∧ db_stages db !! s_ID s = Some s ∧ stage_ok s.
Proof.
  intros Hf Hk Hr Hv. destruct (committed_same s i r "plan") as (E & _ & _ & _ & _ & _ & _ & Ev & _).
  rewrite E in Hr. rewrite Ev in Hv. pose proof (known_current _ _ _ Hk Hr Hv) as ->.
  split_and!; try done. apply (fi_ok _ Hf _ _ Hr).
Qed.
Lemma commit_ok s i r :
  stage_ok s → s_Status (committed s i r) ∈ stage_statuses → in_int4 (s_Version s + 1) →
  stage_ok (written s (committed s i r)) ∧ same_identity s (written s (committed s i r)).
Proof.
  intros Hok Hst Hv. destruct (committed_same s i r "plan") as (_&_&_&_&E1&E2&_).
  split; [|by split_and!]. pose proof Hok as [_ ? ? _ _ _ _].
  apply written_ok; rewrite ?E1, ?E2; try done. rewrite committed_status. unfold mode_kind.
  by repeat case_match.
Qed.
Lemma commit_phase s i r :
  in_phase (written s (committed s i r))
    (if gated i then review_phase (mode_kind (in_Mode i)) else done_phase (mode_kind (in_Mode i))).
Proof.
  split; [apply committed_status|]. unfold mode_kind. by repeat case_match.
Qed.

Lemma commit_pass_step db db' s i r :
  let s' := written s (committed s i r) in
  flow_inv (flow_of db) → db_stages db !! s_ID s = Some s → stage_ok s' → same_identity s s' →
  in_phase s (work_phase (mode_kind (in_Mode i))) → gated i = false →
  flow_of db' = (<[s_ID s := s']> (db_stages db), db_approvals db) →
  flow_step (flow_of db) (flow_of db').
Proof.
  intros s' Hf Hs Hok Hid Hp Hg Hdb. rewrite Hdb. pose proof (commit_phase s i r) as Hp'.
  rewrite Hg in Hp'. pose proof (mode_kinds (in_Mode i)) as Hk.
  eapply (fs_move _ _ s); try done.
  - by apply ps_pass.
  - intros k Hk'. split; [apply committed_same|].
    apply kinds_cases in Hk as [-> | ->]; by apply kinds_cases in Hk' as [-> | ->].
  - by apply kinds_cases in Hk as [-> | ->].
Qed.
Lemma commit_submit_step db db' s i r a :
  let s' := written s (committed s i r) in
  flow_inv (flow_of db) → db_stages db !! s_ID s = Some s → stage_ok s' → same_identity s s' →
  in_phase s (work_phase (mode_kind (in_Mode i))) → gated i = true →
  db_approvals db !! a_ID a = None → a_StageID a = s_ID s → a_TaskID a = s_TaskID s →
  a_Kind a = mode_kind (in_Mode i) → a_Status a = "pending" →
  a_RetryNo a = retry_no (mode_kind (in_Mode i)) s →
  flow_of db' = (<[s_ID s := s']> (db_stages db), <[a_ID a := a]> (db_approvals db)) →
  flow_step (flow_of db) (flow_of db').
Proof.
  intros s' Hf Hs Hok Hid Hp Hg Ha H1 H2 H3 H4 H5 Hdb. rewrite Hdb.
  pose proof (commit_phase s i r) as Hp'. rewrite Hg in Hp'.
  eapply (fs_submit _ _ s _ (mode_kind (in_Mode i))); try done; [apply mode_kinds|].
  intros k Hk. apply committed_same.
Qed.

(** A commit submits the work of the stage it was claimed with, or fails: what it writes is
    one move of the flow. *)
Lemma commit_tx_flow id s i r σ u σ' :
  flow_inv (flow_of (tx_db σ)) → known (tx_db σ) s → s_TaskID s = id →
  in_phase s (work_phase (mode_kind (in_Mode i))) →
  commit_tx id s i r σ = Ok (u, σ') →
  flow_step (flow_of (tx_db σ)) (flow_of (tx_db σ')).
Proof.
  intros Hf Hk Ht Hp H. unfold commit_tx in H.
  assert (retry_no (mode_kind (in_Mode i)) s =
          if in_Mode i =? "execute" then s_DeliverableRetryNo s else s_PlanRetryNo s) as Hretry.
  { unfold retry_no, mode_kind. by destruct (in_Mode i =? "execute"). }
  inv_tx.
  all: repeat match goal with
    | H : LockTask _ _ = Ok _ |- _ => apply LockTask_ok in H as [? ->]
    | H : UpdateStage _ _ _ = Ok _ |- _ =>
        apply UpdateStage_ok in H as (row & Hr & _ & _ & Hv & Hst & _ & _ & Hiv & ->)
    | H : CreateApproval _ _ _ _ _ _ _ _ = Ok _ |- _ =>
        apply CreateApproval_ok in H as (Hna & _ & _ & _ & ->)
    end.
  all: destruct (commit_row _ _ _ _ _ Hf Hk Hr Hv) as (-> & Hs & Hok).
  all: destruct (commit_ok s i r Hok Hst Hiv) as [Hok' Hid'].
  all: repeat flow_eq.
  all: try solve [eapply (commit_pass_step (tx_db σ) _ s i r); try done; flow_chain].
  all: match type of Hna with _ !! ?aid = None =>
    eapply (commit_submit_step (tx_db σ) _ s i r (MkApproval 0 aid _ _ _ _ _ _ _ _ _ _ _ _ _ _))
    end; simpl; try done; flow_chain.
Qed.

(** ** Deciding *)
Lemma Decide_flow s kind decision feedback edited m st :
  kind ∈ kinds → stage_ok s → Decide s kind decision feedback edited m = Ok st →
  let rejected := decision =? "reject" in
  in_phase s (review_phase kind) ∧ same_identity s st ∧
  s_Version st = s_Version s ∧ s_Attempt st = s_Attempt s ∧
  (∃ p, in_phase st p ∧
     p ∈ if rejected then [work_phase kind; Blocked kind] else [done_phase kind]) ∧
  ∀ k, k ∈ kinds → retry_no k st =
    (retry_no k s + if (rejected && (k =? kind))%ds then 1 else 0)%Z.
Proof.
  intros Hk [_ [_ H1] [_ H2] _ _ _ _] H. pose proof (Decide_ok_inv _ _ _ _ _ _ _ H) as [Hv Hs].
  unfold Decide in H. rewrite Hv, Hs, String.eqb_refl in H. simpl in H. injection H as <-.
  apply ValidateDecision_ok in Hv. unfold decide_reject, same_identity, retry_no.
  assert (in_phase s (review_phase kind)) as Hp.
  { split; [|by apply kinds_cases in Hk as [-> | ->]].
    by rewrite Hs; apply kinds_cases in Hk as [-> | ->]. }
  apply kinds_cases in Hk. destruct Hv as [-> | [-> | ->]], Hk as [-> | ->]; simpl.
  all: counters; repeat (case_match; simpl).
  all: split_and!; try done.
  all: try (eexists; split; [|by constructor]; by split).
  all: try (eexists; split; [|by do 2 constructor]; by split).
  all: intros k [-> | ->]%kinds_cases; simpl; counters; lia.
Qed.

(** An approval that was read: its row is the same or has been decided since. *)
Definition known_approval (db : DB) (a : ApprovalEntity) : Prop :=
  ∃ row, db_approvals db !! a_ID a = Some row ∧ approval_le a row.
Lemma known_approval_current db a row :
  known_approval db a → db_approvals db !! a_ID a = Some row → a_Version row = a_Version a →
  row = a.
Proof.
  intros (row' & Hr & Hle) Hr' Hv. assert (row' = row) as -> by congruence.
  destruct Hle as [?|(_ & ? & _)]; [done|lia].
Qed.
Lemma known_approval_mono db db' a : db_le db db' → known_approval db a → known_approval db' a.
Proof.
  intros Hle (row & Hr & Ha). destruct (dle_approvals _ _ Hle _ _ Hr) as (row' & Hr' & Hle').
  exists row'. split; [done|by trans row].
Qed.

Lemma decided_not_pending decision : decided_status decision ≠ "pending".
Proof. unfold decided_status. by repeat case_match. Qed.

Lemma approval_stage db id a :
  flow_inv (flow_of db) → db_approvals db !! id = Some a →
  ∃ s, db_stages db !! a_StageID a = Some s ∧ s_ID s = a_StageID a ∧ stage_ok s ∧
    approval_ok s a.
Proof.
  intros Hf Ha. destruct (fi_astage _ Hf _ _ Ha) as [s Hs]. simpl in Hs. exists s.
  pose proof (fi_id _ Hf _ _ Hs) as Hid. simpl in Hid. split_and!; try done.
  - apply (fi_ok _ Hf _ _ Hs).
  - apply (rv_ok _ _ (fi_reviewed _ Hf _ _ Hs)). split; [|done].
    pose proof (fi_aid _ Hf _ _ Ha) as E. simpl in E. by rewrite E.
Qed.

Lemma stages_row db t ss s :
  flow_inv (flow_of db) → Stages db t = Ok ss → s ∈ ss →
  db_stages db !! s_ID s = Some s ∧ s_TaskID s = t.
Proof.
  intros Hf [= <-] (Ht & id & Hs)%elem_of_ListStages. split; [|done].
  pose proof (fi_id _ Hf _ _ Hs) as E. simpl in E. by rewrite E.
Qed.

Lemma decide_row_step db db' a a' old decision feedback edited m st :
  flow_inv (flow_of db) → db_approvals db !! a_ID a = Some a → a_Status a = "pending" →
  db_stages db !! s_ID old = Some old → s_ID old = a_StageID a →
  Decide old (a_Kind a) decision feedback edited m = Ok st →
  s_Status st ∈ stage_statuses → in_int4 (s_PlanRetryNo st) →
  in_int4 (s_DeliverableRetryNo st) → in_int4 (s_Version old + 1) →
  a_ID a' = a_ID a → a_StageID a' = a_StageID a → a_TaskID a' = a_TaskID a →
  a_Kind a' = a_Kind a → a_RetryNo a' = a_RetryNo a → a_Status a' ≠ "pending" →
  flow_of db' = (<[s_ID old := written old st]> (db_stages db),
                 <[a_ID a' := a']> (db_approvals db)) →
  flow_step (flow_of db) (flow_of db').
Proof.
  intros Hf Ha Hpend Hold Hid Hd Hst Hp4 Hd4 Hv E1 E2 E3 E4 E5 E6 Hdb. rewrite Hdb.
  destruct (approval_stage _ _ _ Hf Ha) as (s & Hs & _ & Hok & Hka).
  assert (s = old) as -> by congruence.
  destruct (Decide_flow _ _ _ _ _ _ _ (ao_kind _ _ Hka) Hok Hd)
    as (Hp & Hi & _ & _ & (p' & Hp' & Hin) & Hretry).
  pose proof (Hretry "plan" plan_kind) as R1. pose proof (Hretry "deliverable" deliverable_kind) as R2.
  change (retry_no "plan") with s_PlanRetryNo in R1.
  change (retry_no "deliverable") with s_DeliverableRetryNo in R2.
  eapply (fs_decide _ _ old (written old st) p' a); try done; [|apply (ao_kind _ _ Hka)].
  pose proof Hok as [_ [??] [??] _ _ _ _]. apply written_ok; try done.
  - intros Hb. destruct Hp' as [E Hr]. rewrite Hb in E.
    destruct p'; try done. rewrite Hr.
    destruct (decision =? "reject"); rewrite !elem_of_cons, ?elem_of_nil in Hin;
      destruct (kinds_cases _ (ao_kind _ _ Hka)) as [Ek|Ek]; rewrite Ek in Hin;
      destruct Hin as [Hin|Hin]; try done; try (destruct Hin as [Hin|[]]; try done);
      injection Hin as ->; solve_elem.
  - split; [|done]. rewrite R1. clear -H. destruct (_ && _); lia.
  - split; [|done]. rewrite R2. clear -H1. destruct (_ && _); lia.
Qed.

Lemma decide_tx_flow a id decision feedback edited user σ d σ' :
  flow_inv (flow_of (tx_db σ)) → known_approval (tx_db σ) a → a_ID a = id →
  decide_tx a id decision feedback edited user σ = Ok (d, σ') →
  flow_step (flow_of (tx_db σ)) (flow_of (tx_db σ')).
Proof.
  intros Hf Hk Hid H. unfold decide_tx in H. inv_tx.
  all: repeat match goal with
    | H : LockTask _ _ = Ok _ |- _ => apply LockTask_ok in H as [? ->]
    | H : UpdateStage _ _ _ = Ok _ |- _ =>
        apply UpdateStage_ok in H as (row & Hr & _ & _ & Hv & Hst & Hp4 & Hd4 & Hiv & ->)
    | H : FindStage _ _ = Ok _ |- _ => apply FindStage_ok in H as [Hfind Hfid]
    | H : DecideApproval _ _ _ _ _ _ _ = Ok _ |- _ =>
        apply DecideApproval_ok in H as (arow & Har & Hap & Hav & ->); [|lia]
    end.
  all: pose proof (known_approval_current _ _ _ Hk Har Hav) as ->.
  all: match goal with H : Stages _ _ = Ok ?ss, E : ?old ∈ ?ss, E' : Decide ?old _ _ _ _ _ = Ok _ |- _ =>
    destruct (stages_row (tx_db σ) _ ss old Hf H E) as [Hold Ht];
    destruct (approval_stage _ _ _ Hf Har) as (s & Hs & _ & Hok & Hka);
    assert (s = old) as -> by congruence;
    destruct (Decide_flow _ _ _ _ _ _ _ (ao_kind _ _ Hka) Hok E') as (_ & (Ei & _) & _);
    rewrite Ei in Hr; simpl in Hr; assert (row = old) as -> by congruence end.
  all: repeat flow_eq.
  all: eapply (decide_row_step (tx_db σ) _ a (decided_row a _ _ _ _ _)); try done;
    [apply decided_not_pending|flow_chain].
Qed.

(** ** Blocking and resuming *)
(** An update of a known stage that keeps its identity and counters and moves it between
    phases that are not reviews. *)
Lemma update_row_step db db' s x p p' :
  flow_inv (flow_of db) → db_stages db !! s_ID s = Some s → same_identity s x →
  s_PlanRetryNo x = s_PlanRetryNo s → s_DeliverableRetryNo x = s_DeliverableRetryNo s →
  s_Status x ∈ stage_statuses → in_int4 (s_Version s + 1) →
  in_phase s p → in_phase x p' → phase_step p p' → p ≠ Pending →
  (∀ kind, kind ∈ kinds → p ≠ review_phase kind ∧ p' ≠ review_phase kind) →
  (∀ r, p' = Blocked r → r ∈ ["plan"; "deliverable"; "publish"]) →
  flow_of db' = (<[s_ID s := written s x]> (db_stages db), db_approvals db) →
  flow_step (flow_of db) (flow_of db').
Proof.
  intros Hf Hs Hi E1 E2 Hst Hv Hp Hp' Hph Hpend Hk Hb Hdb. rewrite Hdb.
  pose proof (fi_ok _ Hf _ _ Hs) as Hok. simpl in Hok. pose proof Hok as [_ ? ? _ _ _ _].
  apply (fs_move _ _ s (written s x) p p'); try done.
  - apply written_ok; rewrite ?E1, ?E2; try done. intros Hbl. destruct Hp' as [E Hr].
    rewrite Hbl in E. destruct p' as [| | | | | |r]; try done. rewrite Hr.
    exact (list_elem_of_fmap_2 Some _ _ (Hb r eq_refl)).
  - intros k Hk'. split; [|by apply Hk]. apply kinds_cases in Hk' as [-> | ->]; done.
Qed.

Lemma block_tx_flow id s cause σ u σ' :
  flow_inv (flow_of (tx_db σ)) → known (tx_db σ) s → in_phase s Executing →
  block_tx id s cause σ = Ok (u, σ') →
  rtc flow_step (flow_of (tx_db σ)) (flow_of (tx_db σ')).
Proof.
  intros Hf Hk Hp H. unfold block_tx in H. inv_tx.
  all: repeat match goal with
    | H : LockTask _ _ = Ok _ |- _ => apply LockTask_ok in H as [? ->]
    | H : UpdateStage _ _ _ = Ok _ |- _ =>
        apply UpdateStage_ok in H as (row & Hr & _ & _ & Hv & Hst & _ & _ & Hiv & ->)
    end; try reflexivity.
  simpl in Hr, Hv. pose proof (known_current _ _ _ Hk Hr Hv) as ->. repeat flow_eq.
  apply rtc_once. eapply (update_row_step (tx_db σ) _ s
    (with_BlockedReason (with_Status s "blocked") (Some "publish")) Executing
    (Blocked "publish"));
    try done; [constructor| | |flow_chain].
  - intros k [-> | ->]%kinds_cases; done.
  - intros r [= <-]. solve_elem.
Qed.

Lemma unblock_step db db' s :
  flow_inv (flow_of db) → db_stages db !! s_ID s = Some s → s_Status s = "blocked" →
  in_int4 (s_Version s + 1) →
  flow_of db' = (<[s_ID s := written s (unblock s)]> (db_stages db), db_approvals db) →
  flow_step (flow_of db) (flow_of db').
Proof.
  intros Hf Hs Hb Hv Hdb. pose proof (fi_ok _ Hf _ _ Hs) as Hok. simpl in Hok.
  pose proof (so_blocked _ Hok Hb) as Hr. rewrite !elem_of_cons, elem_of_nil in Hr.
  assert (∃ r, s_BlockedReason s = Some r ∧ in_phase s (Blocked r) ∧
    ((r = "plan" ∧ in_phase (unblock s) Planning) ∨
     (r ∈ ["deliverable"; "publish"] ∧ in_phase (unblock s) Executing)))
    as (r & _ & Hp & Hcase).
  { unfold unblock, in_phase. destruct Hr as [E|[E|[E|[]]]]; rewrite E; simpl.
    - exists "plan". split_and!; try done. by left.
    - exists "deliverable". split_and!; try done. right. split_and!; try done. solve_elem.
    - exists "publish". split_and!; try done. right. split_and!; try done. solve_elem. }
  assert (same_identity s (unblock s)) as Hi by done.
  destruct Hcase as [[-> Hp']|[Hr' Hp']].
  - eapply (update_row_step _ _ s (unblock s) _ Planning); try done.
    + destruct Hp' as [-> _]. unfold stage_statuses. solve_elem.
    + constructor.
    + intros k [-> | ->]%kinds_cases; done.
  - eapply (update_row_step _ _ s (unblock s) _ Executing); try done.
    + destruct Hp' as [-> _]. unfold stage_statuses. solve_elem.
    + by constructor.
    + intros k [-> | ->]%kinds_cases; done.
Qed.

Lemma resume_stages_flow ss σ u σ' :
  keyed (tx_db σ) → flow_inv (flow_of (tx_db σ)) → Forall (known (tx_db σ)) ss →
  resume_stages ss σ = Ok (u, σ') → rtc flow_step (flow_of (tx_db σ)) (flow_of (tx_db σ')).
Proof.
  revert σ. unfold resume_stages. induction ss as [|s ss IH]; intros σ Hkey Hf Hk H; simpl in H;
    [by inv_tx|]. apply bind_ok in H as ([] & σ1 & H1 & H).
  apply Forall_cons in Hk as [Hks Hk].
  destruct (s_Status s ≠? "blocked") eqn:Hb; [inv_tx; by apply IH|].
  apply negb_false_iff, String.eqb_eq in Hb.
  destruct (evolves_UpdateStage _ _ _ _ _ H1 Hkey) as [Hkey1 Hle].
  apply UpdateStage_ok in H1 as (row & Hr & _ & _ & Hv & Hst & _ & _ & Hiv & ->).
  simpl in Hr, Hv. pose proof (known_current _ _ _ Hks Hr Hv) as ->.
  assert (flow_step (flow_of (tx_db σ)) (flow_of (set_stages (tx_db σ)
    (<[s_ID s:=written s (unblock s)]> (db_stages (tx_db σ)))))) as Hstep
    by by eapply (unblock_step (tx_db σ) _ s).
  eapply rtc_l; [exact Hstep|]. refine (IH _ Hkey1 _ _ H); [by eapply flow_step_inv|].
  eapply Forall_impl; [exact Hk|]. intros x. by apply known_mono.
Qed.

Lemma update_tx_flow id action σ u σ' :
  keyed (tx_db σ) → flow_inv (flow_of (tx_db σ)) → update_tx id action σ = Ok (u, σ') →
  rtc flow_step (flow_of (tx_db σ)) (flow_of (tx_db σ')).
Proof.
  intros Hkey Hf H. unfold update_tx in H. inv_tx.
  all: repeat match goal with
    | H : LockTask _ _ = Ok _ |- _ => apply LockTask_ok in H as [? ->]
    | H : resume_stages _ _ = Ok _ |- _ =>
        apply resume_stages_flow in H as Hrtc; [clear H|done|done|
          apply Forall_forall; intros s Hs; eapply known_row, stages_row; eassumption]
    end.
  all: repeat flow_eq; simpl in *.
  all: rewrite ?Eflow, ?Eflow0, ?Eflow1; done.
Qed.

(** ** Creating a task *)
Lemma create_stages_flow id specs σ u σ' :
  flow_inv (flow_of (tx_db σ)) →
  for_each (λ st, sid ← new_uuid; CreateStage sid id (ss_ID st) (ss_Agent st)
    (ss_DependsOn st)) specs σ = Ok (u, σ') →
  rtc flow_step (flow_of (tx_db σ)) (flow_of (tx_db σ')).
Proof.
  revert σ. induction specs as [|sp specs IH]; intros σ Hf H; simpl in H; [by inv_tx|].
  apply bind_ok in H as ([] & σ1 & H1 & H).
  assert (flow_step (flow_of (tx_db σ)) (flow_of (tx_db σ1))) as Hstep; [|
    eapply rtc_l; [exact Hstep|]; refine (IH _ _ H); by eapply flow_step_inv].
  unfold new_uuid, CreateStage in H1. inv_tx. simpl in *.
  apply (fs_new _ _ (MkStage None 0 None None 0 None None 0 0 _ id (ss_ID sp) (ss_Agent sp)
    "pending" _ 0)); try done.
  - split; simpl; try done. unfold stage_statuses. solve_elem.
  - intros id' s' Hs' E1 E2. match goal with H : Forall _ (rows _) |- _ =>
      rewrite Forall_rows in H; by destruct (H _ _ Hs') end.
Qed.
Lemma create_tx_flow id project command user dir d budget σ u σ' :
  flow_inv (flow_of (tx_db σ)) → create_tx id project command user dir d budget σ = Ok (u, σ') →
  rtc flow_step (flow_of (tx_db σ)) (flow_of (tx_db σ')).
Proof.
  intros Hf H. unfold create_tx in H. apply bind_ok in H as ([] & σ1 & H1 & H).
  apply bind_ok in H as ([] & σ2 & H2 & H). inv_tx.
  pose proof (quiet_run _ _ _ _ H1 ltac:(solve_follows)) as E. simpl.
  rewrite <- E. eapply create_stages_flow; [|done]. by rewrite E.
Qed.
End effects.

(** ** Errors that cannot happen *)
(** [m] never fails with an error in [E]. *)
Definition never {A} (E : error → Prop) (m : Tx A) : Prop := ∀ σ e, m σ = Err e → ¬ E e.
Create HintDb never.
Section never.
Context (E : error → Prop).
Lemma never_bind {A B} (m : Tx A) (f : A → Tx B) :
  never E m → (∀ a, never E (f a)) → never E (m ≫= f).
Proof.
  intros Hm Hf σ e. unfold mbind, state_bind.
  destruct (m σ) as [[a σ1]|e'] eqn:H; [apply Hf|intros [= ->]; by eapply Hm].
Qed.
Lemma never_ret {A} (a : A) : never E (mret (M:=state TxState) a).
Proof. by intros σ e. Qed.
Lemma never_fail {A} e : ¬ E e → never E (fail (A:=A) e).
Proof. by intros He σ e' [= <-]. Qed.
Lemma never_lift {A} (r : result A) : (∀ e, r = Err e → ¬ E e) → never E (lift r).
Proof. intros Hr σ e. unfold lift. destruct r; [done|]. intros [= <-]. by apply Hr. Qed.
Lemma never_reading {A} (f : DB → result A) :
  (∀ db e, f db = Err e → ¬ E e) → never E (reading f).
Proof. intros Hf σ e. unfold reading. apply never_lift. apply Hf. Qed.
Lemma never_require P `{!Decision P} c : ¬ E (ErrDB c) → never E (require P c).
Proof. intros Hc. unfold require. case_decide; [apply never_ret|by apply never_fail]. Qed.
Lemma never_update_db f : never E (update_db f).
Proof. by intros σ e. Qed.
Lemma never_AfterCommit h : never E (AfterCommit h).
Proof. by intros σ e. Qed.
Lemma never_now : never E now.
Proof. by intros σ e. Qed.
Lemma never_tick : never E tick.
Proof. by intros σ e. Qed.
End never.

(** The errors that any statement may fail with.  The others are rare: the violation of a
    unique index on approvals, and the wrappers that a transaction never makes. *)
Definition ordinary (e : error) : bool :=
  match e with
  | Fault _ _ _ | ErrStale | ErrNoRows | ErrorText _ => true
  | ErrDB c => c ≠? "ux_approval_stage"
  | _ => false
  end.
Class Rare (E : error → Prop) := rare e : E e → ordinary e = false.
Lemma not_rare (E : error → Prop) `{!Rare E} e : ordinary e = true → ¬ E e.
Proof. intros Ho He. apply rare in He. congruence. Qed.
Definition is_clash (e : error) : Prop := e = ErrDB "ux_approval_stage".
#[export] Instance clash_rare : Rare is_clash.
Proof. by intros e ->. Qed.
Definition is_publish (e : error) : Prop := is_Some (errors_as is_publish_error e).
#[export] Instance publish_rare : Rare is_publish.
Proof. intros [] [x H]; try done. Qed.

Ltac solve_never :=
  repeat first
    [ apply never_ret | apply never_update_db | apply never_AfterCommit | apply never_now
    | apply never_tick | solve [eauto with never typeclass_instances]
    | apply never_bind; [|intros ?]
    | apply never_require; by apply (not_rare _)
    | apply never_fail; by apply (not_rare _)
    | case_decide | case_match ].

Ltac plain_error := first [intros [= <-]; by apply not_rare | by intros [=]].
Section rare.
Context {PF : Platform} (E : error → Prop) `{!Rare E}.
Lemma row_by_id_rare {A} (m : gmap string A) id e : row_by_id m id = Err e → ¬ E e.
Proof. unfold row_by_id. destruct (m !! id); plain_error. Qed.
Lemma decode_rare {A} resource upper (r : result A) e :
  (∀ e, r = Err e → ¬ E e) → decode resource upper r = Err e → ¬ E e.
Proof.
  intros Hr. destruct r as [|e0]; [done|]. destruct e0; simpl; first [intros [= <-]; by apply Hr | plain_error].
Qed.
Lemma rare_LockTask id : never E (LockTask id).
Proof. apply never_reading. intros db e. apply decode_rare, row_by_id_rare. Qed.
Lemma rare_read {A} (f : DB → A) : never E (reading (λ db, Ok (f db))).
Proof. by apply never_reading. Qed.
Lemma rare_Stages id : never E (reading (λ db, Stages db id)).
Proof. apply rare_read. Qed.
Hint Resolve rare_LockTask rare_read rare_Stages : never.
Lemma rare_UpdateStage s old : never E (UpdateStage s old).
Proof. unfold UpdateStage, Q_UpdateStage, put_stage. solve_never. Qed.
Lemma rare_SetStatus t status : never E (SetStatus t status).
Proof. unfold SetStatus, UpdateTaskStatus, put_task. solve_never. Qed.
Lemma rare_CreateDeliverable id task stage uri content summary :
  never E (CreateDeliverable id task stage uri content summary).
Proof. unfold CreateDeliverable. solve_never. Qed.
Lemma un_string_rare j e : un_string j = Err e → ¬ E e.
Proof. destruct j; plain_error. Qed.
Lemma un_int_rare j e : un_int j = Err e → ¬ E e.
Proof. destruct j; simpl; try case_decide; plain_error. Qed.
Lemma result_bind_rare {A B} (r : result A) (f : A → result B) e :
  (∀ e, r = Err e → ¬ E e) → (∀ a e, f a = Err e → ¬ E e) →
  r ≫= f = Err e → ¬ E e.
Proof. intros Hr Hf. destruct r; simpl; [apply Hf|]. intros [= <-]. by apply Hr. Qed.
Lemma unmarshal_usage_rare j e : unmarshal_usage j = Err e → ¬ E e.
Proof.
  unfold unmarshal_usage, un_object, type_error. destruct j; try plain_error.
  repeat (apply result_bind_rare;
    [by first [apply un_string_rare|apply un_int_rare]|intros ? ?]). done.
Qed.
Lemma rare_Emit task stage agent kind payload :
  never E (Emit task stage agent kind payload).
Proof.
  unfold Emit, NextSequence, time_now, new_uuid, CreateEvent, CreateUsage, put_task.
  solve_never.
  - apply never_reading. intros db e. apply row_by_id_rare.
  - apply never_lift, unmarshal_usage_rare.
Qed.
Lemma PullRequestURLs_rare db task e : PullRequestURLs db task = Err e → ¬ E e.
Proof.
  unfold PullRequestURLs. generalize (filter (λ ev, ev_TaskID ev = task ∧
    ev_Type ev = "pr.opened") (db_events db)). intros l.
  set (f := foldr _ _ l). assert (∀ e, f = Err e → ¬ E e) as Hf.
  { subst f. induction l as [|ev l IH]; [done|]. simpl. intros e'.
    destruct (foldr _ _ l); simpl; [|intros [= <-]; by apply IH].
    destruct (payload_url ev); simpl; [done|]. plain_error. }
  destruct f; simpl; [done|]. intros [= <-]. by apply Hf.
Qed.
Lemma rare_Completion task : never E (reading (λ db, Completion db task)).
Proof.
  apply never_reading. intros db e. unfold Completion.
  destruct (PullRequestURLs db task) eqn:H; simpl; [done|]. intros [= <-].
  by eapply PullRequestURLs_rare.
Qed.
Hint Resolve rare_UpdateStage rare_SetStatus rare_CreateDeliverable rare_Emit
  rare_Completion : never.
Lemma rare_deriveTx t : never E (deriveTx t).
Proof. unfold deriveTx. solve_never. Qed.
Hint Resolve rare_deriveTx : never.

Lemma rare_progress_tx id s kind payload : never E (progress_tx id s kind payload).
Proof.
  unfold progress_tx. solve_never. apply never_lift. intros e. generalize a0 as stages.
  intros stages. induction stages as [|x stages IH]; simpl; [plain_error|]. by case_match.
Qed.
Lemma rare_commit_tx id s i r :
  (∀ c, ¬ E (ErrDB c)) → never E (commit_tx id s i r).
Proof.
  intros Hdb. unfold commit_tx, new_uuid, CreateApproval, put_approval. solve_never.
  all: by apply never_require.
Qed.
End rare.
#[export] Hint Resolve rare_LockTask rare_read rare_Stages rare_UpdateStage rare_SetStatus
  rare_CreateDeliverable rare_Emit rare_deriveTx : never.

Lemma bind_err_inv {A B} (m : Tx A) (f : A → Tx B) σ e :
  (m ≫= f) σ = Err e → m σ = Err e ∨ ∃ a σ1, m σ = Ok (a, σ1) ∧ f a σ1 = Err e.
Proof. unfold mbind, state_bind. destruct (m σ) as [[a σ1]|]; naive_solver. Qed.

Lemma require_err P `{!Decision P} c σ e : require P c σ = Err e → ¬ P ∧ e = ErrDB c.
Proof. unfold require. case_decide; [done|]. by intros [= <-]. Qed.

Section commit_clash.
Context {PF : Platform}.
Lemma CreateApproval_clash id task stage kind retry title content σ e :
  CreateApproval id task stage kind retry title content σ = Err e → is_clash e →
  ∃ aid a, db_approvals (tx_db σ) !! aid = Some a ∧ approval_clash stage kind retry a.
Proof.
  intros H ->. unfold CreateApproval, reading, put_approval in H.
  repeat (apply bind_err_inv in H as [H|(? & ? & ? & H)];
    [try discriminate H; try (apply require_err in H as [H E]; try discriminate E)|]; inv_tx).
  - apply not_Forall_Exists in H; [|apply _]. apply Exists_exists in H as (a & Ha & Hcl).
    apply elem_of_rows in Ha as [aid Ha]. exists aid, a. split; [done|]. by apply dec_stable.
  - done.
Qed.

(** A free phase leaves no room for a clash. *)
Lemma reviewed_no_clash am s kind a aid :
  reviewed am s → kind ∈ kinds → ¬ under_review s → free kind s →
  am !! aid = Some a → a_ID a = aid → ¬ approval_clash (s_ID s) kind (retry_no kind s) a.
Proof.
  intros Hrev Hk Hn Hf Ha Hid (Hs & Hc).
  destruct (rv_ok _ _ Hrev a) as [_ Hka _ Hfree Hp]; [by split; [rewrite Hid|]|].
  destruct Hc as [Hc|[Ek Er]].
  - destruct (Hp Hc) as [E _]. apply Hn. by exists (a_Kind a).
  - rewrite Ek in Hfree. specialize (Hfree Hf). lia.
Qed.

Lemma quiet_err {A B} (m : Tx A) (g : A → Tx B) σ e :
  (m ≫= g) σ = Err e → never is_clash m → follows quiet m → is_clash e →
  ∃ a σ1, flow_of (tx_db σ1) = flow_of (tx_db σ) ∧ g a σ1 = Err e.
Proof.
  intros [H|(a & σ1 & H1 & H)]%bind_err_inv Hn Hq Hc; [by destruct (Hn _ _ H)|].
  exists a, σ1. split; [by eapply Hq|done].
Qed.

(** A commit by the run that claimed the stage never violates the unique indexes of the
    approvals. *)
Lemma commit_tx_no_clash id s i r σ e :
  flow_inv (flow_of (tx_db σ)) → known (tx_db σ) s → s_TaskID s = id →
  in_phase s (work_phase (mode_kind (in_Mode i))) →
  commit_tx id s i r σ = Err e → ¬ is_clash e.
Proof.
  intros Hf Hk Ht Hp H Hc. unfold commit_tx in H.
  apply bind_err_inv in H as [H|(t & σ1 & [_ ->]%LockTask_ok & H)];
    [by eapply (rare_LockTask is_clash id)|].
  case_match; [injection H as <-; done|].
  apply bind_err_inv in H as [H|(u & σ1 & H1 & H)]; [by eapply (rare_UpdateStage is_clash)|].
  apply UpdateStage_ok in H1 as (row & Hr & _ & _ & Hv & Hst & _ & _ & Hiv & ->).
  destruct (commit_row _ _ _ _ _ Hf Hk Hr Hv) as (-> & Hs & Hok).
  apply quiet_err in H as (did & σ2 & Ea & H); [injection Ea as _ Ea; simpl in Ea|..|done].
  2:{ unfold new_uuid. solve_never. } 2:{ unfold new_uuid. solve_follows. }
  apply bind_err_inv in H as [H|(? & ? & _ & H)]; [|by eapply (rare_deriveTx is_clash)].
  destruct (gated i) eqn:Hg.
  2:{ destruct (in_Mode i =? "execute"); [by eapply (rare_Emit is_clash)|done]. }
  unfold new_uuid in H. apply bind_err_inv in H as [H|(aid & σ3 & H3 & H)].
  { apply bind_err_inv in H as [H|(? & ? & _ & H)]; done. }
  inv_tx.
  apply bind_err_inv in H as [H|(? & ? & _ & H)]; [|by eapply (rare_Emit is_clash)].
  apply CreateApproval_clash in H as (aid & a & Ha & Hcl); [|done]. simpl in Ha.
  rewrite Ea in Ha. rewrite (proj1 (committed_same s i r "plan")) in Hcl.
  eapply (reviewed_no_clash _ s (mode_kind (in_Mode i))); [by eapply (fi_reviewed _ Hf)| | | |done|..|].
  - apply mode_kinds.
  - apply (in_phase_not_review _ _ Hp). intros k Hk'. unfold mode_kind.
    apply kinds_cases in Hk' as [-> | ->]; by case_match.
  - rewrite (in_phase_free _ _ _ Hp). unfold mode_kind, free_phase. repeat case_match; naive_solver.
  - by apply (fi_aid _ Hf).
  - unfold mode_kind in *. unfold retry_no. by destruct (in_Mode i =? "execute").
Qed.
End commit_clash.
