(* ===== verification/Settled.v ===== *)
(** * Terminal statuses and completed tasks

    A transaction that changes the status of a task has locked it and looked at the status it
    changes: terminal statuses stay, and a task is completed only with every stage approved. *)
From S2P Require Import Prelude GoStrings Domain Pipeline PipelineJSON Agent Store Event History.
From S2P Require Import Derived Approval Task Commit.

(** The stages of a completed task are all approved. *)
Definition settled (db : DB) : Prop :=
  ∀ id t, db_tasks db !! id = Some t → t_Status t = "completed" →
    (∃ sid s, db_stages db !! sid = Some s ∧ s_TaskID s = id) ∧
    ∀ sid s, db_stages db !! sid = Some s → s_TaskID s = id → s_Status s = "approved".
(** Terminal statuses are absorbing. *)
Definition terminal_le (db db' : DB) : Prop :=
  ∀ id t, db_tasks db !! id = Some t → Terminal (t_Status t) = true →
    ∃ t', db_tasks db' !! id = Some t' ∧ t_Status t' = t_Status t.
#[export] Instance terminal_le_preorder : PreOrder terminal_le.
Proof.
  split; [by intros db id t Ht _; exists t|]. intros d1 d2 d3 H12 H23 id t Ht HT.
  destruct (H12 _ _ Ht HT) as (t2 & Ht2 & E). rewrite <- E in HT |- *. by apply H23.
Qed.

(** The order inside a transaction that has locked [t], if any: the row of [t] has not been
    left behind. *)
Definition locked (o : option TaskEntity) (db : DB) : Prop :=
  match o with
  | None => True
  | Some t => ∃ row, db_tasks db !! t_ID t = Some row ∧ task_le t row
  end.
Definition sound (o : option TaskEntity) (db : DB) : Prop :=
  keyed db ∧ settled db ∧ locked o db.
Definition settles (o : option TaskEntity) (σ σ' : TxState) : Prop :=
  sound o (tx_db σ) → sound o (tx_db σ') ∧ terminal_le (tx_db σ) (tx_db σ').
#[export] Instance settles_preorder o : PreOrder (settles o).
Proof.
  split; [by intros σ H|]. intros σ1 σ2 σ3 H12 H23 H.
  destruct (H12 H) as [H2 T12]. destruct (H23 H2) as [H3 T23]. split; [done|by trans (tx_db σ2)].
Qed.

(** A statement that evolves the database, keeps the statuses and the stages. *)
Definition same_status (db db' : DB) : Prop :=
  db_stages db' = db_stages db ∧
  ∀ id t', db_tasks db' !! id = Some t' →
    t_Status t' = default "queued" (t_Status <$> db_tasks db !! id).
Lemma locked_mono o db db' : db_le db db' → locked o db → locked o db'.
Proof.
  intros Hle. destruct o as [t|]; [|done]. intros (row & Hr & Hle').
  destruct (dle_tasks _ _ Hle _ _ Hr) as (row' & Hr' & Hle''). exists row'.
  split; [done|by trans row].
Qed.
Lemma settles_same {A} o (m : Tx A) :
  follows evolves m →
  (∀ σ a σ', m σ = Ok (a, σ') → keyed (tx_db σ) → same_status (tx_db σ) (tx_db σ')) →
  follows (settles o) m.
Proof.
  intros He Hm σ a σ' H (Hk & Hs & Ho). destruct (He _ _ _ H Hk) as [Hk' Hle].
  destruct (Hm _ _ _ H Hk) as [Est Ht].
  assert (∀ id t', db_tasks (tx_db σ') !! id = Some t' → t_Status t' ≠ "queued" →
    ∃ t, db_tasks (tx_db σ) !! id = Some t ∧ t_Status t' = t_Status t) as Hold.
  { intros id t' Ht' Hq. specialize (Ht _ _ Ht'). destruct (db_tasks (tx_db σ) !! id) as [t|];
      [by exists t|done]. }
  split; [split_and!; [done| |by eapply locked_mono]|].
  - intros id t' Ht' Hc. rewrite Est.
    destruct (Hold _ _ Ht') as (t & Hid & E); [by rewrite Hc|]. apply (Hs _ _ Hid). congruence.
  - intros id t Hid HT. destruct (dle_tasks _ _ Hle _ _ Hid) as (t' & Ht' & _).
    exists t'. split; [done|]. rewrite (Ht _ _ Ht'), Hid. done.
Qed.

Lemma same_status_same db db' :
  db_stages db' = db_stages db → db_tasks db' = db_tasks db → same_status db db'.
Proof. intros E1 E2. split; [done|]. intros id t'. rewrite E2. by intros ->. Qed.
Lemma same_status_put db id row t' :
  keyed db → db_tasks db !! id = Some row → t_ID t' = t_ID row → t_Status t' = t_Status row →
  same_status db (set_tasks db (<[t_ID t' := t']> (db_tasks db))).
Proof.
  intros Hk Hr E1 E2. split; [done|]. intros id' x. simpl.
  pose proof (k_tasks _ Hk _ _ Hr) as Hid. simpl in Hid. rewrite E1, Hid, lookup_insert_Some.
  intros [[<- <-]|[_ Hx]]; [by rewrite Hr|by rewrite Hx].
Qed.

(** An update of a stage that is not approved leaves the completed tasks alone. *)
Lemma settled_stage db row row' :
  settled db → db_stages db !! s_ID row = Some row → s_ID row' = s_ID row →
  s_TaskID row' = s_TaskID row → s_Status row ≠ "approved" →
  settled (set_stages db (<[s_ID row' := row']> (db_stages db))).
Proof.
  intros Hs Hr Ei Et Hne id t Ht Hc. destruct (Hs id t Ht Hc) as ((sid & s & Hsid & Hst) & Hall).
  simpl. assert (s_TaskID row ≠ id) as Hn.
  { intros E. by apply Hne, (Hall _ _ Hr). }
  rewrite Ei. split.
  - exists sid, s. split; [|done]. rewrite lookup_insert_ne; [done|]. intros E. subst sid.
    assert (s = row) by congruence. congruence.
  - intros sid' s'. rewrite lookup_insert_Some. intros [[<- <-]|[_ Hs']] E; [congruence|].
    by apply (Hall sid').
Qed.

Section statements.
Context {PF : Platform} (o : option TaskEntity).

Lemma settles_LockTask id : follows (settles o) (LockTask id).
Proof. apply settles_same; [auto with follows|]. by intros ??? [_ ->]%LockTask_ok _; apply same_status_same. Qed.
Lemma settles_reading {A} (f : DB → result A) : follows (settles o) (reading f).
Proof. apply settles_same; [auto with follows|]. by intros ??? [_ ->]%reading_ok _; apply same_status_same. Qed.
Lemma settles_AfterCommit h : follows (settles o) (AfterCommit h).
Proof. apply settles_same; [auto with follows|]. by intros ??? ->%AfterCommit_ok _; apply same_status_same. Qed.
Lemma settles_tick : follows (settles o) tick.
Proof. apply settles_same; [auto with follows|]. by intros ??? [_ ->]%tick_ok _; apply same_status_same. Qed.
Lemma settles_Emit task stage agent kind payload :
  follows (settles o) (Emit task stage agent kind payload).
Proof.
  apply settles_same; [auto with follows|].
  intros σ u σ' (t & ev & Ht & _ & _ & _ & _ & ->)%Emit_ok Hk. simpl.
  by apply (same_status_put _ task t (with_EventSeq t (ev_Seq ev))).
Qed.
Lemma settles_CreateDeliverable id task stage uri content summary :
  follows (settles o) (CreateDeliverable id task stage uri content summary).
Proof.
  apply settles_same; [auto with follows|]. unfold CreateDeliverable. intros σ u σ' H _.
  inv_tx. by apply same_status_same.
Qed.
Lemma settles_CreateApproval id task stage kind retry title content :
  follows (settles o) (CreateApproval id task stage kind retry title content).
Proof.
  apply settles_same; [auto with follows|].
  intros σ u σ' (_ & _ & _ & _ & ->)%CreateApproval_ok _. by apply same_status_same.
Qed.
Lemma settles_DecideApproval id status feedback edited user version :
  follows (settles o) (DecideApproval id status feedback edited user version).
Proof.
  apply settles_same; [auto with follows|]. unfold DecideApproval. intros σ u σ' H _.
  inv_tx; by apply same_status_same.
Qed.
Lemma settles_CreateProject id name owner repo branch inst loc :
  follows (settles o) (CreateProject id name owner repo branch inst loc).
Proof.
  apply settles_same; [auto with follows|]. unfold CreateProject. intros σ u σ' H _.
  inv_tx; by apply same_status_same.
Qed.
Lemma settles_UpdateTaskBudget id budget version :
  follows (settles o) (UpdateTaskBudget id budget version).
Proof.
  apply settles_same; [auto with follows|]. unfold UpdateTaskBudget. intros σ u σ' H Hk.
  inv_tx; [|by apply same_status_same..].
  match goal with E : _ !! id = Some ?r |- _ =>
    by apply (same_status_put _ id r (with_TokenBudget r _ _ _)) end.
Qed.
Lemma settles_CreateTask id project command user p ws budget :
  follows (settles o) (CreateTask id project command user p ws budget).
Proof.
  apply settles_same; [auto with follows|]. unfold CreateTask. intros σ u σ' H Hk. inv_tx.
  match goal with E : _ !! id = None |- _ => rename E into Hn end.
  split; [done|]. simpl. intros id' t'. rewrite lookup_insert_Some.
  intros [[<- <-]|[_ E]]; [by rewrite Hn|by rewrite E].
Qed.

Lemma settles_stage_update {A} (m : Tx A) :
  follows evolves m →
  (∀ σ a σ', m σ = Ok (a, σ') → keyed (tx_db σ) → ∃ row row',
     db_stages (tx_db σ) !! s_ID row = Some row ∧ s_ID row' = s_ID row ∧
     s_TaskID row' = s_TaskID row ∧ s_Status row ≠ "approved" ∧
     tx_db σ' = set_stages (tx_db σ) (<[s_ID row' := row']> (db_stages (tx_db σ)))) →
  follows (settles o) m.
Proof.
  intros He Hm σ a σ' H (Hk & Hs & Ho). destruct (He _ _ _ H Hk) as [Hk' Hle].
  destruct (Hm _ _ _ H Hk) as (row & row' & Hr & Ei & Et & Hne & E).
  split; [split_and!; [done| |by eapply locked_mono]|].
  - rewrite E. by eapply settled_stage.
  - intros id t Ht _. exists t. by rewrite E.
Qed.
Lemma settles_UpdateStage s old : old ≠ "approved" → follows (settles o) (UpdateStage s old).
Proof.
  intros Hne. apply settles_stage_update; [auto with follows|].
  intros σ u σ' (row & Hr & _ & Hs & _ & _ & _ & _ & _ & ->)%UpdateStage_ok Hk.
  pose proof (k_stages _ Hk _ _ Hr) as Hid. simpl in Hid.
  exists row, (written row s). rewrite Hid. by split_and!; simpl; try congruence.
Qed.
Lemma settles_ClaimStage id attempt status old :
  old ≠ "approved" → follows (settles o) (ClaimStage id attempt status old).
Proof.
  intros Hne. apply settles_stage_update; [auto with follows|].
  intros σ u σ' (row & Hr & _ & Hs & _ & _ & _ & _ & ->)%ClaimStage_ok Hk.
  pose proof (k_stages _ Hk _ _ Hr) as Hid. simpl in Hid.
  exists row, (with_claim row status (attempt + 1) (s_Version row + 1)). rewrite Hid. by split_and!; simpl; try congruence.
Qed.
End statements.
#[export] Hint Resolve settles_LockTask settles_reading settles_AfterCommit settles_tick
  settles_Emit settles_CreateDeliverable settles_CreateApproval settles_DecideApproval
  settles_CreateProject settles_UpdateTaskBudget settles_CreateTask : follows.

(** ** Changing the status of the locked task *)
Section locked.
Context {PF : Platform}.

(** The general rule: the new status may be [completed] only when the stages are. *)
Lemma settles_SetStatus_run t status σ u σ' :
  Terminal (t_Status t) = false → SetStatus t status σ = Ok (u, σ') →
  (status = "completed" →
     (∃ sid s, db_stages (tx_db σ) !! sid = Some s ∧ s_TaskID s = t_ID t) ∧
     ∀ sid s, db_stages (tx_db σ) !! sid = Some s → s_TaskID s = t_ID t →
       s_Status s = "approved") →
  settles (Some t) σ σ'.
Proof.
  intros HT H Hc (Hk & Hs & Ho). destruct (evolves_SetStatus _ _ _ _ _ H Hk) as [Hk' Hle].
  apply SetStatus_ok in H as (row & Hr & Hv & _ & _ & ->).
  pose proof (k_tasks _ Hk _ _ Hr) as Hid. simpl in Hid. destruct Ho as (row' & Hr' & Hle').
  assert (row' = row) as -> by congruence. destruct (tle_same _ _ Hle' Hv) as [Est _].
  split; [split_and!; [done| |apply (locked_mono (Some t) (tx_db σ)); [exact Hle|by exists row]]|]; simpl in *.
  - intros id x. simpl. rewrite Hid, lookup_insert_Some. intros [[<- <-]|[_ Hx]]; simpl;
      [apply Hc|by apply Hs].
  - intros id x Hx HTx. simpl. rewrite Hid. destruct (decide (id = t_ID t)) as [->|].
    + assert (x = row) by congruence. subst x. congruence.
    + exists x. by rewrite lookup_insert_ne.
Qed.
Lemma settles_SetStatus t status :
  Terminal (t_Status t) = false → status ≠ "completed" →
  follows (settles (Some t)) (SetStatus t status).
Proof. intros HT Hne σ u σ' H. by eapply settles_SetStatus_run. Qed.

Lemma settles_deriveTx t : follows (settles (Some t)) (deriveTx t).
Proof.
  intros σ u σ' H. unfold deriveTx in H.
  apply bind_ok in H as (ss & σ1 & [[= <-] ->]%reading_ok & H). simpl in H.
  destruct (String.eqb_spec (Derive (t_Status t) (ListStages (tx_db σ) (t_ID t))) (t_Status t))
    as [E|E]; [by apply ret_ok in H as [_ ->]|].
  assert (derivable (t_Status t) = true) as Hd.
  { apply not_false_iff_true. intros Hd. by apply E, Derive_closed. }
  assert (Terminal (t_Status t) = false) as HT.
  { unfold derivable in Hd. by destruct (Terminal (t_Status t)). }
  apply bind_ok in H as (t' & σ1 & H1 & H).
  trans σ1.
  - eapply settles_SetStatus_run; [done|done|].
    rewrite Derive_completed_iff by done. intros [Hne Hall]. split.
    + destruct (ListStages (tx_db σ) (t_ID t)) as [|s l] eqn:Hl; [done|].
      assert (s ∈ ListStages (tx_db σ) (t_ID t)) as (Hs & sid & Hsid)%elem_of_ListStages
        by (rewrite Hl; by left). by exists sid, s.
    + intros sid s Hsid Hs. apply Hall, elem_of_ListStages. split; [done|by exists sid].
  - eapply follows_run; [exact H|]. solve_follows.
Qed.
End locked.
#[export] Hint Resolve settles_deriveTx settles_SetStatus settles_UpdateStage settles_ClaimStage
  : follows.

(** Taking the lock: the row that is read is not left behind. *)
Lemma settles_lock {PF : Platform} {A} id (f : TaskEntity → Tx A) :
  (∀ t, follows (settles (Some t)) (f t)) → follows (settles None) (t ← LockTask id; f t).
Proof.
  intros Hf σ a σ' H. apply bind_ok in H as (t & σ1 & [Ht ->]%LockTask_ok & H).
  intros (Hk & Hs & _). pose proof (k_tasks _ Hk _ _ Ht) as Hid. simpl in Hid. subst id.
  destruct (Hf t _ _ _ H) as [(Hk' & Hs' & _) Hle]; [|done].
  split_and!; [done..|]. by exists t.
Qed.

(** Where a decision and an action start from, and where they cannot lead. *)
Lemma review_not_approved kind : kind +:+ "_review" ≠ "approved".
Proof.
  intros E. pose proof (f_equal String.length E) as L. rewrite string_length_app in L.
  destruct kind as [|c [|c' kind]]; [done|done|simpl in L; lia].
Qed.
Lemma Decide_not_approved s kind decision feedback edited m s' :
  Decide s kind decision feedback edited m = Ok s' → s_Status s ≠ "approved".
Proof. intros [_ ->]%Decide_ok_inv. apply review_not_approved. Qed.
#[export] Hint Extern 1 (s_Status _ ≠ "approved") =>
  match goal with H : Decide ?s _ _ _ _ _ = Ok _ |- s_Status ?s ≠ _ =>
    exact (Decide_not_approved _ _ _ _ _ _ _ H) end : follows.
#[export] Hint Extern 1 (_ ≠ _) => discriminate : follows.
Lemma TaskTransition_open status action to :
  TaskTransition status action = Ok to → Terminal status = false ∧ to ≠ "completed".
Proof.
  intros H. split.
  - apply not_true_iff_false. intros HT. by apply (TaskTransition_terminal _ action to HT).
  - revert H. unfold TaskTransition, FaultE. repeat case_match; congruence.
Qed.

(** ** The transactions *)
Section transactions.
Context {PF : Platform} {UC : Unicode}.

Lemma settles_start_tx id d : follows (settles None) (start_tx id d).
Proof.
  apply settles_lock. intros t. destruct (String.eqb_spec (t_Status t) "queued") as [E|E]; simpl;
    [|solve_follows].
  assert (Terminal (t_Status t) = false) by by rewrite E. solve_follows.
Qed.
Lemma settles_progress_tx id s kind payload : follows (settles None) (progress_tx id s kind payload).
Proof. apply settles_lock. intros t. solve_follows. Qed.
Lemma settles_derive_tx id : follows (settles None) (derive_tx id).
Proof. apply settles_lock. intros t. solve_follows. Qed.
Lemma settles_fail_tx id stage attempt cause : follows (settles None) (fail_tx id stage attempt cause).
Proof. apply settles_lock. intros t. solve_follows. Qed.
Lemma settles_budget_tx id budget : follows (settles None) (budget_tx id budget).
Proof. apply settles_lock. intros t. solve_follows. Qed.
Lemma settles_check_tx id : follows (settles None) (check_tx id).
Proof.
  apply settles_lock. intros t. apply follows_bind; [exact _|solve_follows|intros used].
  case_match; [solve_follows|].
  destruct (String.eqb_spec (t_Status t) "running") as [E|E]; simpl;
    [assert (Terminal (t_Status t) = false) by (by rewrite E); solve_follows|].
  destruct (String.eqb_spec (t_Status t) "waiting_approval") as [E'|E']; simpl; [|solve_follows].
  assert (Terminal (t_Status t) = false) by (by rewrite E'). solve_follows.
Qed.
Lemma settles_block_tx id s cause :
  s_Status s ≠ "approved" → follows (settles None) (block_tx id s cause).
Proof. intros Hne. apply settles_lock. intros t. solve_follows. Qed.
Lemma settles_commit_tx id s i r :
  s_Status s ≠ "approved" → follows (settles None) (commit_tx id s i r).
Proof. intros Hne. apply settles_lock. intros t. unfold new_uuid. solve_follows. Qed.
Lemma settles_claim_tx id s mode :
  s_Status s ≠ "approved" → follows (settles None) (claim_tx id s mode).
Proof. intros Hne. apply settles_lock. intros t. solve_follows. Qed.
Lemma settles_decide_tx a id decision feedback edited user :
  follows (settles None) (decide_tx a id decision feedback edited user).
Proof. apply settles_lock. intros t. solve_follows. Qed.
Lemma settles_update_tx id action : follows (settles None) (update_tx id action).
Proof.
  apply settles_lock. intros t. apply follows_bind_lift. intros to Hto.
  destruct (TaskTransition_open _ _ _ Hto). unfold resume_stages. solve_follows.
Qed.
Lemma settles_project_tx id name owner repo branch inst loc :
  follows (settles None) (CreateProject id name owner repo branch inst loc).
Proof. solve_follows. Qed.

(** A new task is queued while its stages are created. *)
Lemma create_stages_settled id t specs σ u σ' :
  sound None (tx_db σ) → db_tasks (tx_db σ) !! id = Some t → t_Status t = "queued" →
  for_each (λ st, sid ← new_uuid; CreateStage sid id (ss_ID st) (ss_Agent st)
    (ss_DependsOn st)) specs σ = Ok (u, σ') →
  sound None (tx_db σ') ∧ db_tasks (tx_db σ') = db_tasks (tx_db σ).
Proof.
  revert σ. induction specs as [|sp specs IH]; intros σ Hs Ht Hq H; simpl in H; [by inv_tx|].
  apply bind_ok in H as ([] & σ1 & H1 & H).
  assert (evolves σ σ1) as HE
    by (eapply follows_run; [exact H1|]; unfold new_uuid; solve_follows).
  destruct (HE (proj1 Hs)) as [Hk1 _].
  assert (sound None (tx_db σ1) ∧ db_tasks (tx_db σ1) = db_tasks (tx_db σ)) as [Hs1 E1].
  { destruct Hs as (Hk & Hs & _). unfold new_uuid, CreateStage in H1. inv_tx. split; [|done].
    split_and!; [done| |done]. simpl in *. intros id' t' Ht' Hc.
    destruct (Hs _ _ Ht' Hc) as ((sid & s & Hsid & Hst) & Hall). split.
    - exists sid, s. split; [|done]. simpl. rewrite lookup_insert_ne by congruence. done.
    - intros sid' s'. simpl. rewrite lookup_insert_Some. intros [[_ <-]|[_ Hs']] E; simpl in *;
        [congruence|by apply (Hall sid')]. }
  destruct (IH σ1) as [Hs' E']; [done|by rewrite E1|done|done|]. split; [done|congruence].
Qed.
Lemma settles_create_tx id project command user dir d budget :
  follows (settles None) (create_tx id project command user dir d budget).
Proof.
  intros σ u σ' H Hs. unfold create_tx in H. apply bind_ok in H as ([] & σ1 & H1 & H).
  apply bind_ok in H as ([] & σ2 & H2 & H). apply AfterCommit_ok in H as ->. simpl.
  assert (settles None σ σ1) as HS by (eapply follows_run; [exact H1|]; solve_follows).
  destruct (HS Hs) as [Hs1 T1].
  unfold CreateTask in H1. inv_tx. simpl in *.
  eapply create_stages_settled in H2 as [Hs2 E2]; [|done| |]; simpl.
  2:{ apply lookup_insert_eq. } 2:{ done. }
  split; [done|]. trans (tx_db σ); [done|]. intros id' t' Ht' HT.
  destruct (T1 id' t' Ht' HT) as (t2 & Ht2 & E). exists t2. split; [|done]. by rewrite E2.
Qed.
End transactions.
