(* ===== verification/System.v ===== *)
(** * The whole system: interleaved transactions and stale snapshots

    The services and the orchestrator's goroutines run one transaction at a time against the
    database (each locks the task's row first), in any order, with whatever they read in
    earlier transactions.  A step reads rows, runs one transaction with any fate, or crashes
    the process; the theorems hold in every reachable state. *)
From S2P Require Import Prelude GoStrings Domain Pipeline PipelineJSON Agent Store Event History.
From S2P Require Import Derived Approval Task Commit Flow Effects Settled.

(** The rows that running requests and goroutines hold: stages read by [Reconcile], stages
    it has claimed (with the mode of the run) and approvals read by [UpdateApproval]. *)
Record Sys := MkSys {
  sy_world : World;
  sy_seen : list StageEntity;
  sy_held : list (StageEntity * string);
  sy_read : list ApprovalEntity }.
Abbreviation sy_db sys := (w_db (sy_world sys)).

(** The transactions, with the values their callers supply. *)
Inductive call :=
  | CallProject (id name owner repo branch : string) (inst : option Z) (loc : option string)
  | CallCreate (id project command user dir : string) (d : Def) (budget : Z)
  | CallUpdate (id action : string)
  | CallBudget (id : string) (budget : Z)
  | CallCheck (id : string)
  | CallDecide (a : ApprovalEntity) (decision : string) (feedback edited : option string)
      (user : string)
  | CallStart (id : string) (d : Def)
  | CallProgress (s : StageEntity) (kind : string) (payload : json)
  | CallCommit (s : StageEntity) (i : Input) (r : Result)
  | CallDerive (id : string)
  | CallFail (id stage : string) (attempt : Z) (cause : error)
  | CallBlock (s : StageEntity) (cause : error).

Section system.
Context {PF : Platform} {UC : Unicode}.

Definition call_tx (c : call) : Tx unit :=
  match c with
  | CallProject id name owner repo branch inst loc =>
      CreateProject id name owner repo branch inst loc
  | CallCreate id project command user dir d budget =>
      create_tx id project command user dir d budget
  | CallUpdate id action => update_tx id action
  | CallBudget id budget => budget_tx id budget
  | CallCheck id => _ ← check_tx id; mret tt
  | CallDecide a decision feedback edited user =>
      _ ← decide_tx a (a_ID a) decision feedback edited user; mret tt
  | CallStart id d => start_tx id d
  | CallProgress s kind payload => progress_tx (s_TaskID s) s kind payload
  | CallCommit s i r => commit_tx (s_TaskID s) s i r
  | CallDerive id => derive_tx id
  | CallFail id stage attempt cause => fail_tx id stage attempt cause
  | CallBlock s cause => block_tx (s_TaskID s) s cause
  end.

(** Who may run what: a decision is about an approval that was read, a run reports and
    commits for the stage it was claimed with, in the mode of the claim, and only the
    publisher's execution blocks its stage. *)
Definition allowed (sys : Sys) (c : call) : Prop :=
  match c with
  | CallDecide a _ _ _ _ => a ∈ sy_read sys
  | CallProgress s _ _ => ∃ mode, (s, mode) ∈ sy_held sys
  | CallCommit s i _ => (s, in_Mode i) ∈ sy_held sys
  | CallBlock s _ => (s, "execute") ∈ sy_held sys
  | _ => True
  end.

Inductive step : Sys → Sys → Prop :=
  | step_stages sys id ss :
      Stages (sy_db sys) id = Ok ss →
      step sys (MkSys (sy_world sys) (ss ++ sy_seen sys) (sy_held sys) (sy_read sys))
  | step_approval sys id a :
      Approval (sy_db sys) id = Ok a →
      step sys (MkSys (sy_world sys) (sy_seen sys) (sy_held sys) (a :: sy_read sys))
  | step_call sys c fate r w :
      allowed sys c → WithTx fate (call_tx c) (sy_world sys) = (r, w) →
      step sys (MkSys w (sy_seen sys) (sy_held sys) (sy_read sys))
  | step_claim sys s all fate s' w :
      s ∈ sy_seen sys → claim_mode s all ≠ "" →
      WithTx fate (claim_tx (s_TaskID s) s (claim_mode s all)) (sy_world sys) = (Ok s', w) →
      step sys (MkSys w (sy_seen sys) ((s', claim_mode s all) :: sy_held sys) (sy_read sys))
  | step_claim_failed sys s all fate e w :
      s ∈ sy_seen sys → claim_mode s all ≠ "" →
      WithTx fate (claim_tx (s_TaskID s) s (claim_mode s all)) (sy_world sys) = (Err e, w) →
      step sys (MkSys w (sy_seen sys) (sy_held sys) (sy_read sys))
  | step_draw sys :
      step sys (MkSys (MkWorld (sy_db sys) (S (w_ticks (sy_world sys)))
                         (w_hooks (sy_world sys))) (sy_seen sys) (sy_held sys) (sy_read sys))
  | step_crash sys :
      step sys (MkSys (MkWorld (sy_db sys) (w_ticks (sy_world sys)) []) [] [] []).

Definition initial : Sys := MkSys (MkWorld empty_db 0 []) [] [] [].
Definition reachable (sys : Sys) : Prop := rtc step initial sys.

(** ** The invariant *)
Record good (db : DB) : Prop := {
  gd_keyed : keyed db;
  gd_flow : flow_inv (flow_of db);
  gd_log : log_wf db;
  gd_settled : settled db }.
(** What one transaction may do to a good database. *)
Record effect (db db' : DB) : Prop := {
  ef_good : good db';
  ef_le : db_le db db';
  ef_terminal : terminal_le db db';
  ef_flow : rtc flow_step (flow_of db) (flow_of db') }.
Record sys_inv (sys : Sys) : Prop := {
  si_good : good (sy_db sys);
  si_seen : ∀ s, s ∈ sy_seen sys → known (sy_db sys) s;
  si_held : ∀ s mode, (s, mode) ∈ sy_held sys →
    known (sy_db sys) s ∧ in_phase s (work_phase (mode_kind mode));
  si_read : ∀ a, a ∈ sy_read sys → known_approval (sy_db sys) a }.

Lemma effect_refl db : good db → effect db db.
Proof. by split. Qed.
Lemma flow_steps_inv f f' : flow_inv f → rtc flow_step f f' → flow_inv f'.
Proof. intros Hf H. induction H as [|f f1 f' H1 _ IH]; [done|]. by eapply IH, flow_step_inv. Qed.

(** A transaction that follows the four orders has a good effect. *)
Lemma effect_of {A} (m : Tx A) σ a σ' :
  good (tx_db σ) → m σ = Ok (a, σ') → follows evolves m → follows logs m →
  follows (settles None) m → rtc flow_step (flow_of (tx_db σ)) (flow_of (tx_db σ')) →
  effect (tx_db σ) (tx_db σ').
Proof.
  intros [Hk Hf Hl Hs] H He Hlg Hst Hfl. destruct (He _ _ _ H Hk) as [Hk' Hle].
  destruct (Hst _ _ _ H) as [(_ & Hs' & _) Ht]; [by split_and!|].
  split; [|done..]. split; [done|by eapply flow_steps_inv|by eapply Hlg|done].
Qed.
Lemma effect_quiet {A} (m : Tx A) σ a σ' :
  good (tx_db σ) → m σ = Ok (a, σ') → follows evolves m → follows logs m →
  follows (settles None) m → follows quiet m → effect (tx_db σ) (tx_db σ').
Proof.
  intros Hg H He Hl Hs Hq. eapply effect_of; try done. by rewrite (Hq _ _ _ H).
Qed.

Lemma work_phase_open s mode :
  in_phase s (work_phase (mode_kind mode)) → s_Status s ≠ "approved".
Proof. intros [-> _]. unfold mode_kind. by repeat case_match. Qed.

Hint Resolve settles_start_tx settles_progress_tx settles_derive_tx settles_fail_tx
  settles_budget_tx settles_check_tx settles_decide_tx settles_update_tx settles_create_tx
  settles_project_tx : follows.

Lemma call_effect sys c u σ :
  sys_inv sys → allowed sys c → call_tx c (begin_tx (sy_world sys)) = Ok (u, σ) →
  effect (sy_db sys) (tx_db σ).
Proof.
  intros [Hg _ Hheld Hread] Ha H. pose proof Hg as [Hk Hf _ _].
  change (sy_db sys) with (tx_db (begin_tx (sy_world sys))) in *.
  destruct c; simpl in Ha, H;
    try (by eapply effect_quiet; [done|exact H|solve_follows..]).
  - eapply effect_of; [done|exact H|solve_follows..|by eapply create_tx_flow].
  - eapply effect_of; [done|exact H|solve_follows..|by eapply update_tx_flow].
  - apply bind_ok in H as (d & σ1 & H & [_ ->]%ret_ok).
    eapply effect_of; [done|exact H|solve_follows..|].
    apply rtc_once. eapply decide_tx_flow; [done|by apply Hread|done|exact H].
  - destruct (Hheld _ _ Ha) as [Hkn Hp].
    eapply effect_of; [done|exact H|solve_follows| solve_follows| |].
    + eapply settles_commit_tx, work_phase_open, Hp.
    + apply rtc_once. by eapply commit_tx_flow.
  - destruct (Hheld _ _ Ha) as [Hkn Hp].
    eapply effect_of; [done|exact H|solve_follows|solve_follows| |].
    + eapply settles_block_tx, (work_phase_open _ "execute"), Hp.
    + by eapply block_tx_flow.
Qed.

Lemma WithTx_cases {A} fate (fn : Tx A) w r w' :
  WithTx fate fn w = (r, w') →
  (w_db w' = w_db w ∧ is_ok r = false) ∨
  ∃ a σ, fn (begin_tx w) = Ok (a, σ) ∧ w_db w' = tx_db σ ∧ ∀ a', r = Ok a' → a' = a.
Proof.
  unfold WithTx. destruct (fn (begin_tx w)) as [[a σ]|e], fate as [|[]|];
    intros [= <- <-]; simpl; try (by left); right; exists a, σ; naive_solver.
Qed.

Lemma claim_effect sys s all a σ :
  sys_inv sys → s ∈ sy_seen sys → claim_mode s all ≠ "" →
  claim_tx (s_TaskID s) s (claim_mode s all) (begin_tx (sy_world sys)) = Ok (a, σ) →
  effect (sy_db sys) (tx_db σ) ∧ known (tx_db σ) a ∧
  in_phase a (work_phase (mode_kind (claim_mode s all))).
Proof.
  intros [Hg Hseen _ _] Hs Hne H. pose proof Hg as [_ Hf _ _].
  assert (s_Status s ≠ "approved") as Hna.
  { intros E. by unfold claim_mode in Hne; rewrite E in Hne. }
  change (sy_db sys) with (tx_db (begin_tx (sy_world sys))) in *.
  destruct (claim_tx_flow _ _ _ _ _ _ _ Hf (Hseen s Hs) eq_refl eq_refl Hne H)
    as (Hstep & Hkn & _ & Hp).
  split; [|done]. eapply effect_of; [done|exact H|solve_follows|solve_follows| |by apply rtc_once].
  by apply settles_claim_tx.
Qed.

(** A new database with a good effect keeps what is known. *)
Lemma sys_inv_effect sys w held :
  sys_inv sys → effect (sy_db sys) (w_db w) →
  (∀ s mode, (s, mode) ∈ held → known (w_db w) s ∧ in_phase s (work_phase (mode_kind mode))) →
  sys_inv (MkSys w (sy_seen sys) held (sy_read sys)).
Proof.
  intros [Hg Hs Hh Hr] [Hg' Hle _ _] Hheld. split; simpl; [done| |done|].
  - intros s Hin. by eapply known_mono, Hs.
  - intros a Hin. by eapply known_approval_mono, Hr.
Qed.
Lemma held_effect sys db s mode :
  sys_inv sys → effect (sy_db sys) db → (s, mode) ∈ sy_held sys →
  known db s ∧ in_phase s (work_phase (mode_kind mode)).
Proof.
  intros [_ _ Hh _] [_ Hle _ _] Hin. destruct (Hh _ _ Hin). split; [by eapply known_mono|done].
Qed.

(** The effect of a step on the database. *)
Lemma step_effect sys sys' : sys_inv sys → step sys sys' → effect (sy_db sys) (sy_db sys').
Proof.
  intros Hi Hstep. pose proof (si_good _ Hi) as Hg.
  destruct Hstep as [| |sys c fate r w Ha H|sys s all fate s' w Hs Hne H
    |sys s all fate e w Hs Hne H| |]; simpl; try by apply effect_refl.
  - apply WithTx_cases in H as [[-> _]|(u & σ & H & -> & _)]; [by apply effect_refl|].
    by eapply call_effect.
  - apply WithTx_cases in H as [[-> _]|(u & σ & H & -> & _)]; [by apply effect_refl|].
    by eapply claim_effect.
  - apply WithTx_cases in H as [[-> _]|(u & σ & H & -> & _)]; [by apply effect_refl|].
    by eapply claim_effect.
Qed.

Lemma step_inv sys sys' : sys_inv sys → step sys sys' → sys_inv sys'.
Proof.
  intros Hi Hstep. pose proof (step_effect _ _ Hi Hstep) as He. pose proof Hi as [Hg Hs Hh Hr].
  destruct Hstep as [sys id ss H|sys id a H|sys c fate r w Ha H|sys s all fate s' w Hs' Hne H
    |sys s all fate e w Hs' Hne H|sys|sys]; simpl in *.
  - split; simpl; try done. intros s. rewrite elem_of_app. intros [Hin|Hin]; [|by apply Hs].
    destruct (stages_row _ _ _ _ (gd_flow _ Hg) H Hin) as [Hrow _].
    by eapply known_row; [apply (gd_flow _ Hg)|].
  - split; simpl; try done. intros b [->|Hin]%elem_of_cons; [|by apply Hr].
    apply decode_ok, row_by_id_ok in H. exists a. split; [|by left].
    by rewrite (k_approvals _ (gd_keyed _ Hg) _ _ H).
  - apply sys_inv_effect; [done|done|]. intros s mode. by apply held_effect.
  - apply sys_inv_effect; [done|done|]. intros x mode [[= -> ->]|Hin]%elem_of_cons;
      [|by eapply held_effect].
    apply WithTx_cases in H as [[_ ?]|(x & σ & H & -> & E)]; [done|].
    rewrite (E s' eq_refl). by eapply claim_effect.
  - apply sys_inv_effect; [done|done|]. intros x mode. by apply held_effect.
  - by split.
  - split; simpl; [done|..]; intros *; by intros ?%elem_of_nil.
Qed.

Lemma good_empty : good empty_db.
Proof.
  assert (∀ A id (x : A), (∅ : gmap string A) !! id = Some x → False) as E.
  { intros A id x. by rewrite lookup_empty. }
  split.
  - split; intros id x H; by apply E in H.
  - split; simpl; try (intros id x H; by apply E in H).
    intros id id' s s' H; by apply E in H.
  - split; simpl; try (intros id x H; by apply E in H);
      [by intros ev ?%elem_of_nil|apply NoDup_nil_2].
  - intros id t H; by apply E in H.
Qed.
Lemma initial_inv : sys_inv initial.
Proof. split; simpl; [apply good_empty|..]; intros *; by intros ?%elem_of_nil. Qed.

Lemma reachable_inv sys : reachable sys → sys_inv sys.
Proof.
  unfold reachable. intros H. pose proof initial_inv as Hi. revert Hi.
  induction H as [|x y z H1 _ IH]; [done|]. intros Hi. by eapply IH, step_inv.
Qed.
End system.

(** ** What holds in every reachable state *)
Section theorems.
Context {PF : Platform} {UC : Unicode}.

(** C1: in every reachable state a stage is under review exactly when it has a pending
    approval, the pending approval is unique, it is of the kind under review and carries
    the stage's current retry number: no approval is ever lost, duplicated or left over,
    however transactions interleave, fail, or lose their acknowledgement. *)
Theorem review_iff_pending sys id s :
  reachable sys → db_stages (sy_db sys) !! id = Some s →
  (under_review s ↔ ∃ a, approval_of (db_approvals (sy_db sys)) s a ∧ a_Status a = "pending") ∧
  ∀ a, approval_of (db_approvals (sy_db sys)) s a → a_Status a = "pending" →
    s_Status s = a_Kind a +:+ "_review" ∧ a_RetryNo a = retry_no (a_Kind a) s ∧
    ∀ b, approval_of (db_approvals (sy_db sys)) s b → a_Status b = "pending" → b = a.
Proof.
  intros Hr Hs. pose proof (fi_reviewed _ (gd_flow _ (si_good _ (reachable_inv _ Hr))) _ _ Hs)
    as [Hok Hp Hone _]. split.
  - split; [apply Hp|]. intros (a & Ha & E). destruct (ao_pending _ _ (Hok a Ha) E) as [Est _].
    exists (a_Kind a). split; [apply (ao_kind _ _ (Hok a Ha))|done].
  - intros a Ha E. destruct (ao_pending _ _ (Hok a Ha) E). split_and!; try done.
    intros b Hb Eb. by apply Hone.
Qed.

(** C2: no stage runs before its dependencies: in every reachable state, a stage that has
    left [pending] has, for each dependency, an approved stage of that key in its task. *)
Theorem dependencies_first sys id s dep :
  reachable sys → db_stages (sy_db sys) !! id = Some s → s_Status s ≠ "pending" →
  dep ∈ s_DependsOn s →
  ∃ p, db_stages (sy_db sys) !! s_ID p = Some p ∧ s_TaskID p = s_TaskID s ∧
    s_StageKey p = dep ∧ s_Status p = "approved".
Proof.
  intros Hr Hs Hne Hdep.
  exact (fi_deps _ (gd_flow _ (si_good _ (reachable_inv _ Hr))) _ _ Hs Hne dep Hdep).
Qed.

(** C7: in every reachable state the stored events of a task are numbered 1, 2, ... up to
    the task's counter without gap or duplicate, and no two events share an id. *)
Theorem log_contiguous sys id t :
  reachable sys → db_tasks (sy_db sys) !! id = Some t →
  ev_Seq <$> events_of (sy_db sys) id = seqZ 1 (t_EventSeq t) ∧
  NoDup (ev_EventID <$> db_events (sy_db sys)).
Proof.
  intros Hr Ht. pose proof (gd_log _ (si_good _ (reachable_inv _ Hr))) as Hl.
  split; [by apply (lw_seqs _ Hl)|by apply (lw_ids _ Hl)].
Qed.

(** C9: in every reachable state a completed task has stages and all of them are approved. *)
Theorem completed_means_approved sys id t :
  reachable sys → db_tasks (sy_db sys) !! id = Some t → t_Status t = "completed" →
  (∃ sid s, db_stages (sy_db sys) !! sid = Some s ∧ s_TaskID s = id) ∧
  ∀ sid s, db_stages (sy_db sys) !! sid = Some s → s_TaskID s = id → s_Status s = "approved".
Proof. intros Hr. apply (gd_settled _ (si_good _ (reachable_inv _ Hr))). Qed.

(** Later states are further along both orders. *)
Lemma steps_le sys sys' :
  sys_inv sys → rtc step sys sys' →
  db_le (sy_db sys) (sy_db sys') ∧ terminal_le (sy_db sys) (sy_db sys').
Proof.
  intros Hi H. revert Hi. induction H as [|x y z H1 _ IH]; intros Hi; [done|].
  destruct (step_effect _ _ Hi H1) as [_ Hle Ht _].
  destruct (IH (step_inv _ _ Hi H1)). split; [by trans (sy_db y)|by trans (sy_db y)].
Qed.
(** C8: from a reachable state on, history is final.  Whatever happens later: a terminal
    task status stays; a decided approval is the same row; the event log is only extended at
    its end; and identities never change: every project and every deliverable is the same
    row, every task keeps its id, project, command, pipeline and workspace, every stage its
    id, task, key, role and dependencies, and every approval, pending ones included, its id,
    task, stage, kind, retry number and content. *)
Theorem history_is_final sys sys' :
  reachable sys → rtc step sys sys' →
  let db := sy_db sys in let db' := sy_db sys' in
  (terminal_le db db' ∧
   (∀ id a, db_approvals db !! id = Some a → a_Status a ≠ "pending" →
      db_approvals db' !! id = Some a) ∧
   db_events db `prefix_of` db_events db') ∧
  (∀ id p, db_projects db !! id = Some p → db_projects db' !! id = Some p) ∧
  (∀ id d, db_deliverables db !! id = Some d → db_deliverables db' !! id = Some d) ∧
  (∀ id t, db_tasks db !! id = Some t → ∃ t', db_tasks db' !! id = Some t' ∧
     t_ID t' = t_ID t ∧ t_ProjectID t' = t_ProjectID t ∧ t_Command t' = t_Command t ∧
     t_Pipeline t' = t_Pipeline t ∧ t_Workspace t' = t_Workspace t) ∧
  (∀ id s, db_stages db !! id = Some s → ∃ s', db_stages db' !! id = Some s' ∧
     s_ID s' = s_ID s ∧ s_TaskID s' = s_TaskID s ∧ s_StageKey s' = s_StageKey s ∧
     s_Role s' = s_Role s ∧ s_DependsOn s' = s_DependsOn s) ∧
  (∀ id a, db_approvals db !! id = Some a → ∃ a', db_approvals db' !! id = Some a' ∧
     a_ID a' = a_ID a ∧ a_TaskID a' = a_TaskID a ∧ a_StageID a' = a_StageID a ∧
     a_Kind a' = a_Kind a ∧ a_RetryNo a' = a_RetryNo a ∧ a_Content a' = a_Content a).
Proof.
  intros Hr H. cbv zeta. destruct (steps_le _ _ (reachable_inv _ Hr) H) as [Hle Ht].
  split_and!; [done| |by apply (dle_events _ _ Hle)|..].
  - intros id a Ha Hne. destruct (dle_approvals _ _ Hle _ _ Ha) as (a' & Ha' & [->|(E & _)]); done.
  - intros id p Hp. by destruct (dle_projects _ _ Hle _ _ Hp) as (p' & ? & ->).
  - intros id d Hd. by destruct (dle_deliverables _ _ Hle _ _ Hd) as (d' & ? & ->).
  - intros id t Hid. destruct (dle_tasks _ _ Hle _ _ Hid) as (t' & Ht' & []). by exists t'.
  - intros id s Hid. destruct (dle_stages _ _ Hle _ _ Hid) as (s' & Hs' & []). by exists s'.
  - intros id a Hid. destruct (dle_approvals _ _ Hle _ _ Hid) as (a' & Ha' & Hle').
    exists a'. destruct Hle' as [->|(_ & _ & ?)]; naive_solver.
Qed.

Lemma in_phase_fun s p p' : in_phase s p → in_phase s p' → p = p'.
Proof. intros [E H] [E' H']. rewrite E in E'. destruct p, p'; try done. simpl in *. congruence. Qed.
Lemma flow_step_phase f f' id s p :
  flow_step f f' → f.1 !! id = Some s → in_phase s p → flow_inv f →
  ∃ s' p', f'.1 !! id = Some s' ∧ in_phase s' p' ∧ same_identity s s' ∧ rtc phase_step p p'.
Proof.
  intros H Hs Hp Hf. assert (s_ID s = id) as <- by by apply (fi_id _ Hf).
  assert (∀ (sm : gmap string StageEntity) x x' p', sm !! s_ID s = Some s → sm !! s_ID x = Some x →
    same_identity x x' → in_phase x' p' → (x = s → rtc phase_step p p') →
    ∃ s' p', <[s_ID x:=x']> sm !! s_ID s = Some s' ∧ in_phase s' p' ∧ same_identity s s' ∧
      rtc phase_step p p') as Hgen.
  { intros sm x x' p' Hs' Hx Hi Hp' Hrtc. destruct (decide (s_ID x = s_ID s)) as [E|E].
    - assert (x = s) as -> by congruence. exists x', p'. rewrite lookup_insert_eq. auto.
    - exists s, p. rewrite lookup_insert_ne by done. by split_and!. }
  destruct H as [sm am x Hnew|sm am x x' q q' Hx Hi _ Hq Hq' Hqq
    |sm am x x' kind a Hx Hi _ Hk Hq Hq'|sm am x x' q' a a' rej Hx Hi _ Hk _ _ _ _ _ _ _ _ _ Hq Hq' Hin];
    simpl in *.
  - exists s, p. rewrite lookup_insert_ne by congruence. by split_and!.
  - eapply Hgen; try done. intros ->. rewrite (in_phase_fun _ _ _ Hp Hq). by apply rtc_once.
  - eapply Hgen; try done. intros ->. rewrite (in_phase_fun _ _ _ Hp Hq). by apply rtc_once, ps_submit.
  - eapply Hgen; try done. intros ->. rewrite (in_phase_fun _ _ _ Hp Hq). apply rtc_once.
    destruct rej; rewrite !elem_of_cons, ?elem_of_nil in Hin.
    + destruct Hin as [->|[->|[]]]; [by apply ps_reject|by apply ps_exhaust].
    + destruct Hin as [->|[]]. by apply ps_accept.
Qed.

(** C3: the implementation refines the life cycle of a stage: from a reachable state, every
    step of the system (any transaction with any stale snapshot and any fate, or a crash)
    moves every stage along [phase_step]s only and keeps its identity. *)
Theorem stage_refinement sys sys' id s p :
  reachable sys → step sys sys' → db_stages (sy_db sys) !! id = Some s → in_phase s p →
  ∃ s' p', db_stages (sy_db sys') !! id = Some s' ∧ in_phase s' p' ∧ same_identity s s' ∧
    rtc phase_step p p'.
Proof.
  intros Hr Hstep Hs Hp. pose proof (reachable_inv _ Hr) as Hi.
  pose proof (gd_flow _ (si_good _ Hi)) as Hf.
  destruct (step_effect _ _ Hi Hstep) as [_ _ _ Hrtc].
  change (db_stages (sy_db sys)) with (flow_of (sy_db sys)).1 in Hs.
  change (db_stages (sy_db sys')) with (flow_of (sy_db sys')).1.
  revert s p Hs Hp Hf. induction Hrtc as [f|f f1 f' H1 _ IH]; intros s p Hs Hp Hf.
  - exists s, p. by split_and!.
  - destruct (flow_step_phase _ _ _ _ _ H1 Hs Hp Hf) as (s1 & p1 & Hs1 & Hp1 & Hi1 & Hr1).
    destruct (IH _ _ Hs1 Hp1) as (s' & p' & Hs' & Hp' & Hi' & Hr'); [by eapply flow_step_inv|].
    exists s', p'. split_and!; [done|done| |by trans p1].
    unfold same_identity in *. naive_solver congruence.
Qed.

(** What a held stage finds of itself in a transaction. *)
Lemma held_row sys s mode row t current :
  reachable sys → (s, mode) ∈ sy_held sys → db_stages (sy_db sys) !! s_ID s = Some row →
  FindStage (ListStages (sy_db sys) t) (s_ID s) = Ok current → current = row.
Proof.
  intros Hr Hh Hrow H. apply FindStage_ok in H as [(_ & id & Hid)%elem_of_ListStages E].
  pose proof (k_stages _ (gd_keyed _ (si_good _ (reachable_inv _ Hr))) _ _ Hid) as Hk.
  simpl in Hk. congruence.
Qed.
(** A stale update finds no row. *)
Lemma stale_update sys s mode x old row σ u σ' :
  reachable sys → (s, mode) ∈ sy_held sys → db_stages (sy_db sys) !! s_ID s = Some row →
  row ≠ s → s_ID x = s_ID s → s_Version x = s_Version s → tx_db σ = sy_db sys →
  UpdateStage x old σ = Ok (u, σ') → False.
Proof.
  intros Hr Hh Hrow Hne Ei Ev Hdb H. destruct (si_held _ (reachable_inv _ Hr) _ _ Hh) as [Hk _].
  apply UpdateStage_ok in H as (row' & Hr' & _ & _ & Hv & _). rewrite Hdb, Ei in Hr'.
  apply Hne. assert (row' = row) as -> by congruence. eapply known_current; [done..|congruence].
Qed.

(** C10: fencing: a run that holds a stage whose row is not the one it claimed any more
    (claimed again, decided, blocked or resumed since) cannot commit a result: its commit
    fails and leaves the database as it was, whatever the fate of the transaction, and
    neither can it block the stage.  It cannot store an event when the row has another
    attempt or another status, and cannot fail the task when the row has another attempt.
    (With the same attempt and status, as after a rejection, these two still go through.) *)
Theorem stale_commit_fails sys s mode row :
  reachable sys → (s, mode) ∈ sy_held sys →
  db_stages (sy_db sys) !! s_ID s = Some row → row ≠ s →
  (∀ i r fate res w, in_Mode i = mode →
     WithTx fate (commit_tx (s_TaskID s) s i r) (sy_world sys) = (res, w) →
     is_ok res = false ∧ w_db w = sy_db sys) ∧
  (∀ cause fate res w,
     WithTx fate (block_tx (s_TaskID s) s cause) (sy_world sys) = (res, w) →
     w_db w = sy_db sys) ∧
  (∀ kind payload fate res w, s_Attempt row ≠ s_Attempt s ∨ s_Status row ≠ s_Status s →
     WithTx fate (progress_tx (s_TaskID s) s kind payload) (sy_world sys) = (res, w) →
     is_ok res = false ∧ w_db w = sy_db sys) ∧
  (∀ cause fate res w, s_Attempt row ≠ s_Attempt s → s_ID s ≠ "" →
     WithTx fate (fail_tx (s_TaskID s) (s_ID s) (s_Attempt s) cause) (sy_world sys) = (res, w) →
     w_db w = sy_db sys).
Proof.
  intros Hr Hh Hrow Hne. split_and!.
  - intros i r fate res w _ [[-> ?]|(u & σ & H & _ & _)]%WithTx_cases; [done|]. exfalso.
    unfold commit_tx in H. apply bind_ok in H as (t & σ1 & [_ ->]%LockTask_ok & H).
    case_match; [done|]. apply bind_ok in H as (? & σ1 & H1 & _).
    destruct (committed_same s i r "plan") as (E & _ & _ & _ & _ & _ & _ & Ev & _).
    by eapply stale_update in H1.
  - intros cause fate res w [[-> ?]|(u & σ & H & -> & _)]%WithTx_cases; [done|].
    unfold block_tx in H. apply bind_ok in H as (t & σ1 & [_ ->]%LockTask_ok & H).
    case_match; [by apply ret_ok in H as [_ ->]|]. apply bind_ok in H as (? & σ1 & H1 & _).
    by eapply stale_update in H1.
  - intros kind payload fate res w Hd [[-> ?]|(u & σ & H & _ & _)]%WithTx_cases; [done|].
    exfalso. unfold progress_tx in H. apply bind_ok in H as (t & σ1 & [_ ->]%LockTask_ok & H).
    case_match; [done|]. apply bind_ok in H as (ss & σ1 & [[= <-] ->]%reading_ok & H).
    apply bind_ok in H as (current & σ1 & [Hc _]%lift_ok & H). eapply held_row in Hc; [|done..].
    subst current. destruct (_ || _) eqn:E; [done|]. apply orb_false_iff in E as [E1 E2].
    apply negb_false_iff, Z.eqb_eq in E1. apply negb_false_iff, String.eqb_eq in E2. naive_solver.
  - intros cause fate res w Hd Hid [[-> ?]|(u & σ & H & -> & _)]%WithTx_cases; [done|].
    unfold fail_tx in H. apply bind_ok in H as (t & σ1 & [_ ->]%LockTask_ok & H).
    case_match; [by apply ret_ok in H as [_ ->]|]. exfalso.
    apply String.eqb_neq in Hid. rewrite Hid in H. simpl in H.
    apply bind_ok in H as (key & σ1 & H1 & _).
    apply bind_ok in H1 as (ss & σ2 & [[= <-] ->]%reading_ok & H1).
    apply bind_ok in H1 as (current & σ2 & [Hc _]%lift_ok & H1).
    eapply held_row in Hc; [|done..]. subst current.
    apply Z.eqb_neq in Hd. by rewrite Hd in H1.
Qed.

(** C11: the unique indexes of the approvals are never violated: in a reachable state, the
    commit of a run never fails because its stage already has a pending approval or one
    with the same kind and retry number. *)
Theorem commit_never_clashes sys s i r e :
  reachable sys → (s, in_Mode i) ∈ sy_held sys →
  commit_tx (s_TaskID s) s i r (begin_tx (sy_world sys)) = Err e →
  e ≠ ErrDB "ux_approval_stage".
Proof.
  intros Hr Hh H. pose proof (reachable_inv _ Hr) as Hi.
  destruct (si_held _ Hi _ _ Hh) as [Hk Hp].
  by apply (commit_tx_no_clash _ s i r (begin_tx (sy_world sys)) e
    (gd_flow _ (si_good _ Hi)) Hk eq_refl Hp).
Qed.
End theorems.

(** ** Running the system

    An executable scheduler: its runs are runs of [step], so that a concrete history can be
    evaluated. *)
Section scheduler.
Context {PF : Platform} {UC : Unicode}.
Inductive action :=
  | DoStages (id : string)
  | DoApproval (id : string)
  | DoCall (c : Sys → call)
  | DoClaim (key : string).
#[export] Instance allowed_dec sys c : Decision (allowed sys c).
Proof.
  destruct c; simpl; try apply _.
  destruct (decide (s ∈ (sy_held sys).*1)) as [H|H]; [left|right].
  - apply list_elem_of_fmap in H as ([x mode] & -> & H). by exists mode.
  - intros (mode & H'). apply H, list_elem_of_fmap. by exists (s, mode).
Defined.

Definition do_action (sys : Sys) (a : action) : option Sys :=
  match a with
  | DoStages id =>
    match Stages (sy_db sys) id with
    | Ok ss => Some (MkSys (sy_world sys) (ss ++ sy_seen sys) (sy_held sys) (sy_read sys))
    | Err _ => None
    end
  | DoApproval id =>
    match Approval (sy_db sys) id with
    | Ok a => Some (MkSys (sy_world sys) (sy_seen sys) (sy_held sys) (a :: sy_read sys))
    | Err _ => None
    end
  | DoCall c =>
    if decide (allowed sys (c sys)) then
      match WithTx Acked (call_tx (c sys)) (sy_world sys) with
      | (Ok _, w) => Some (MkSys w (sy_seen sys) (sy_held sys) (sy_read sys))
      | (Err _, _) => None
      end
    else None
  | DoClaim key =>
    match list_find (λ s, s_StageKey s = key) (sy_seen sys) with
    | Some (_, s) =>
      let mode := claim_mode s (sy_seen sys) in
      if mode =? "" then None else
      match WithTx Acked (claim_tx (s_TaskID s) s mode) (sy_world sys) with
      | (Ok s', w) => Some (MkSys w (sy_seen sys) ((s', mode) :: sy_held sys) (sy_read sys))
      | (Err _, _) => None
      end
    | None => None
    end
  end.
Fixpoint run_actions (sys : Sys) (l : list action) : option Sys :=
  match l with
  | [] => Some sys
  | a :: l => match do_action sys a with Some sys => run_actions sys l | None => None end
  end.

Lemma do_action_step sys a sys' : do_action sys a = Some sys' → step sys sys'.
Proof.
  destruct a as [id|id|c|key]; cbn [do_action].
  - destruct (Stages (sy_db sys) id) eqn:H; [|done]. intros [= <-]. by eapply step_stages.
  - destruct (Approval _ _) eqn:H; [|done]. intros [= <-]. by eapply step_approval.
  - case_decide as Ha; [|done]. destruct (WithTx Acked (call_tx (c sys)) (sy_world sys)) as [[u|e] w] eqn:H; [|done].
    intros [= <-]. by eapply step_call.
  - destruct (list_find _ _) as [[n s]|] eqn:Hs; [|done].
    apply list_find_Some in Hs as (Hs & _). cbv zeta.
    destruct (String.eqb_spec (claim_mode s (sy_seen sys)) ""); [done|].
    destruct (WithTx Acked (claim_tx (s_TaskID s) s (claim_mode s (sy_seen sys)))
      (sy_world sys)) as [[s'|e] w] eqn:H'; [|done]. intros [= <-].
    eapply step_claim; [by eapply list_elem_of_lookup_2|done|done].
Qed.
Lemma run_actions_steps l sys sys' : run_actions sys l = Some sys' → rtc step sys sys'.
Proof.
  revert sys. induction l as [|a l IH]; intros sys; simpl; [by intros [= ->]|].
  destruct (do_action sys a) as [sys1|] eqn:H; [|done]. intros H'.
  eapply rtc_l; [by eapply do_action_step|by apply IH].
Qed.
End scheduler.


(** A task with one gated stage and one that depends on it, from its creation to the approval
    of the first plan. *)
Definition demo_stages : list StageSpec :=
  [MkSpec "build" "dev" (Some ["design"]) (Some []) "" None;
   MkSpec "design" "planner" (Some []) (Some ["plan"; "deliverable"]) "" None].
Definition demo_def : Def :=
  MkDef (MkPipeline 1 demo_stages (MkPolicy 3 40 "fake" None "" "")) ∅ "" "/ws".
Definition demo_spec (key : string) : StageSpec :=
  default (MkSpec "" "" None None "" None)
    (find (λ v, ss_ID v =? key) demo_stages).
Definition demo_input (mode : string) (s : StageEntity) : Input :=
  MkInput (s_TaskID s) "cmd" mode "the plan" "" "" (demo_spec (s_StageKey s)) demo_def 0.
Definition first_held (sys : Sys) : StageEntity * string :=
  default (review_stage "plan" 0, "") (head (sy_held sys)).
Definition first_approval (sys : Sys) : ApprovalEntity :=
  default (MkApproval 0 "" "" "" "" 0 "" "" None None None None None 0 None false)
    (head (sy_read sys)).
Definition demo_submit (mode : string) : action :=
  DoCall (λ sys, CallCommit (first_held sys).1 (demo_input mode (first_held sys).1)
                   (content_result "# draft")).
Definition demo_decide (decision : string) : action :=
  DoCall (λ sys, CallDecide (first_approval sys) decision (Some "ok") (Some "edited") "me").
Definition demo_plan : list action :=
  [DoCall (λ _, CallProject "p1" "n" "o" "r" "main" None (Some "/src"));
   DoCall (λ _, CallCreate "t1" "p1" "cmd" "me" "/ws" demo_def 1000);
   DoCall (λ _, CallStart "t1" demo_def); DoStages "t1"; DoClaim "design"; demo_submit "plan"].
Definition demo_execute : list action :=
  demo_plan ++ [DoApproval "uuid-11"; demo_decide "approve"; DoStages "t1"; DoClaim "design";
                demo_submit "execute"].
Definition demo_complete : list action :=
  demo_execute ++ [DoApproval "uuid-22"; demo_decide "approve"; DoStages "t1"; DoClaim "build";
                   demo_submit "plan"; DoStages "t1"; DoClaim "build"; demo_submit "execute"].
Definition demo_run (l : list action) : Sys :=
  default initial (run_actions (PF:=demo_platform) initial l).
Definition demo_ok (l : list action) : bool :=
  if run_actions (PF:=demo_platform) initial l is Some _ then true else false.
Definition demo_stage (sys : Sys) (id : string) : StageEntity :=
  default (review_stage "plan" 0) (db_stages (sy_db sys) !! id).
Definition demo_approval (sys : Sys) (id : string) : ApprovalEntity :=
  default (first_approval initial) (db_approvals (sy_db sys) !! id).

Lemma demo_steps l l' :
  demo_ok (l ++ l') = true → rtc (step (PF:=demo_platform)) (demo_run l) (demo_run (l ++ l')).
Proof.
  unfold demo_ok, demo_run. intros H.
  destruct (run_actions initial (l ++ l')) as [sys'|] eqn:E; [|done]. simpl.
  assert (∀ l sys sys', run_actions (PF:=demo_platform) sys (l ++ l') = Some sys' →
    ∃ sys1, run_actions (PF:=demo_platform) sys l = Some sys1 ∧
      run_actions (PF:=demo_platform) sys1 l' = Some sys') as Happ.
  { clear. intros l. induction l as [|a l IH]; intros sys sys'; simpl; [by exists sys|].
    destruct (do_action sys a); [apply IH|done]. }
  apply Happ in E as (sys1 & -> & E). simpl. by eapply run_actions_steps.
Qed.
Lemma demo_reachable l : demo_ok l = true → reachable (PF:=demo_platform) (demo_run l).
Proof. apply (demo_steps []). Qed.

(** ** The theorems at the demo history *)
Lemma review_iff_pending_witness :
  under_review (demo_stage (demo_run demo_plan) "uuid-3") ↔
  ∃ a, approval_of (db_approvals (sy_db (demo_run demo_plan)))
         (demo_stage (demo_run demo_plan) "uuid-3") a ∧ a_Status a = "pending".
Proof.
  apply (review_iff_pending (PF:=demo_platform) (demo_run demo_plan) "uuid-3");
    [by apply demo_reachable|by vm_compute].
Defined.
Definition demo_row (sys : Sys) (id : string) : TaskEntity :=
  default demo_task (db_tasks (sy_db sys) !! id).
Lemma dependencies_first_witness :
  ∃ p, db_stages (sy_db (demo_run demo_complete)) !! s_ID p = Some p ∧ s_TaskID p = "t1" ∧
    s_StageKey p = "design" ∧ s_Status p = "approved".
Proof.
  apply (dependencies_first (PF:=demo_platform) (demo_run demo_complete) "uuid-2"
    (demo_stage (demo_run demo_complete) "uuid-2") "design");
    [by apply demo_reachable|by vm_compute|by vm_compute|].
  vm_compute. apply list_elem_of_here.
Defined.
Lemma log_contiguous_witness :
  ev_Seq <$> events_of (sy_db (demo_run demo_complete)) "t1" =
    seqZ 1 (t_EventSeq (demo_row (demo_run demo_complete) "t1")) ∧
  NoDup (ev_EventID <$> db_events (sy_db (demo_run demo_complete))).
Proof.
  apply (log_contiguous (PF:=demo_platform) (demo_run demo_complete));
    [by apply demo_reachable|by vm_compute].
Defined.
Lemma completed_means_approved_witness :
  s_Status (demo_stage (demo_run demo_complete) "uuid-2") = "approved".
Proof.
  apply (completed_means_approved (PF:=demo_platform) (demo_run demo_complete) "t1"
    (demo_row (demo_run demo_complete) "t1") ltac:(by apply demo_reachable)
    ltac:(by vm_compute) ltac:(by vm_compute)) with "uuid-2"; by vm_compute.
Defined.
Lemma history_is_final_witness :
  db_approvals (sy_db (demo_run demo_complete)) !! "uuid-11" =
    Some (demo_approval (demo_run demo_execute) "uuid-11") ∧
  ∃ s', db_stages (sy_db (demo_run demo_complete)) !! "uuid-3" = Some s' ∧
    s_StageKey s' = "design" ∧ s_TaskID s' = "t1".
Proof.
  destruct (history_is_final (PF:=demo_platform) (demo_run demo_execute)
    (demo_run demo_complete)) as ((_ & Ha & _) & _ & _ & _ & Hs & _);
    [by apply demo_reachable|by apply demo_steps|].
  split; [by apply Ha; vm_compute|].
  destruct (Hs "uuid-3" (demo_stage (demo_run demo_execute) "uuid-3") ltac:(by vm_compute))
    as (s' & Hs' & _ & Ht & Hk & _).
  exists s'. split; [exact Hs'|]. rewrite Hk, Ht. split; vm_compute; reflexivity.
Defined.
Lemma stage_refinement_witness :
  ∃ s' p', db_stages (sy_db (demo_run (demo_plan ++ [DoApproval "uuid-11"]
      ++ [demo_decide "approve"]))) !! "uuid-3" = Some s' ∧
    in_phase s' p' ∧ same_identity (demo_stage (demo_run demo_plan) "uuid-3") s' ∧
    rtc phase_step PlanReview p'.
Proof.
  apply (stage_refinement (PF:=demo_platform) (demo_run (demo_plan ++ [DoApproval "uuid-11"])));
    [by apply demo_reachable| |by vm_compute|by split; vm_compute].
  apply (do_action_step _ (demo_decide "approve")). by vm_compute.
Defined.
Definition demo_held : StageEntity := (first_held (demo_run demo_plan)).1.
Definition demo_commit : Tx unit :=
  commit_tx (PF:=demo_platform) (s_TaskID demo_held) demo_held (demo_input "plan" demo_held) (content_result "# late").
Definition demo_late_event : Tx unit :=
  progress_tx (PF:=demo_platform) (s_TaskID demo_held) demo_held "stage.iteration" (JObj []).
Lemma stale_commit_fails_witness :
  is_ok (WithTx (PF:=demo_platform) Acked demo_commit (sy_world (demo_run demo_plan))).1 = false ∧
  w_db (WithTx (PF:=demo_platform) Acked demo_commit (sy_world (demo_run demo_plan))).2 = sy_db (demo_run demo_plan) ∧
  is_ok (WithTx (PF:=demo_platform) Acked demo_late_event (sy_world (demo_run demo_plan))).1 = false.
Proof.
  destruct (stale_commit_fails (PF:=demo_platform) (demo_run demo_plan) demo_held "plan"
    (demo_stage (demo_run demo_plan) "uuid-3")) as (Hc & _ & Hp & _).
  - by apply demo_reachable.
  - by vm_compute; apply list_elem_of_here.
  - by vm_compute.
  - by vm_compute.
  - destruct (Hc (demo_input "plan" demo_held) (content_result "# late") Acked _ _
      ltac:(by vm_compute) (surjective_pairing _)) as [H1 H2].
    split; [exact H1|split; [exact H2|]].
    apply (Hp "stage.iteration" (JObj []) Acked _ _ ltac:(by right; vm_compute)
      (surjective_pairing _)).
Defined.
Lemma commit_never_clashes_witness :
  demo_commit (begin_tx (PF:=demo_platform) (sy_world (demo_run demo_plan))) = Err ErrStale ∧
  ErrStale ≠ ErrDB "ux_approval_stage".
Proof.
  assert (demo_commit (begin_tx (PF:=demo_platform) (sy_world (demo_run demo_plan))) = Err ErrStale) as H
    by by vm_compute.
  split; [exact H|].
  apply (commit_never_clashes (PF:=demo_platform) (demo_run demo_plan) demo_held
    (demo_input "plan" demo_held) (content_result "# late")); [by apply demo_reachable| |exact H].
  by vm_compute; apply list_elem_of_here.
Defined.
