(* ===== verification/Announce.v ===== *)
(** * Every stored event is announced

    The hooks of a transaction publish exactly the events that the transaction stored, in the
    order it stored them; so after an acknowledged commit nothing in the log is left without a
    publication on its way. *)
From S2P Require Import Prelude GoStrings Domain Pipeline PipelineJSON Agent Store Event History.
From S2P Require Import Derived Approval Task Commit Flow Effects Settled System.

(** The events that hooks publish. *)
Definition published (hooks : list Hook) : list Event :=
  omap (λ h, if h is HookPublish ev then Some ev else None) hooks.
Lemma published_app l l' : published (l ++ l') = published l ++ published l'.
Proof. apply omap_app. Qed.

(** What a computation stores is what its hooks publish. *)
Definition tells (σ σ' : TxState) : Prop :=
  ∃ evs, db_events (tx_db σ') = db_events (tx_db σ) ++ evs
         ∧ published (tx_after σ') = published (tx_after σ) ++ evs.
#[export] Instance tells_preorder : PreOrder tells.
Proof.
  split; [intros σ; exists []; by rewrite !app_nil_r|].
  intros σ1 σ2 σ3 (l & E & P) (l' & E' & P'). exists (l ++ l').
  by rewrite E', E, P', P, !app_assoc.
Qed.
Lemma tells_silent {A} (m : Tx A) :
  (∀ σ a σ', m σ = Ok (a, σ') →
     db_events (tx_db σ') = db_events (tx_db σ) ∧ tx_after σ' = tx_after σ) →
  follows tells m.
Proof. intros Hm σ a σ' [E P]%Hm. exists []. by rewrite E, P, !app_nil_r. Qed.

Section announce.
Context {PF : Platform} {UC : Unicode}.

Ltac silent := apply tells_silent; intros ??? ?; inv_tx; done.
Lemma tells_LockTask id : follows tells (LockTask id).
Proof. apply tells_silent. by intros ??? [_ ->]%LockTask_ok. Qed.
Lemma tells_reading {A} (f : DB → result A) : follows tells (reading f).
Proof. apply tells_silent. by intros ??? [_ ->]%reading_ok. Qed.
Lemma tells_now : follows tells now.
Proof. apply tells_silent. by intros ??? [_ ->]%now_ok. Qed.
Lemma tells_tick : follows tells tick.
Proof. apply tells_silent. by intros ??? [_ ->]%tick_ok. Qed.
Lemma tells_AfterCommit h : published [h] = [] → follows tells (AfterCommit h).
Proof.
  intros Hh σ u σ' ->%AfterCommit_ok. exists []. simpl. by rewrite published_app, Hh, !app_nil_r.
Qed.
Lemma tells_UpdateStage s old : follows tells (UpdateStage s old).
Proof. apply tells_silent. by intros σ u σ' (row & _ & _ & _ & _ & _ & _ & _ & _ & ->)%UpdateStage_ok. Qed.
Lemma tells_ClaimStage id attempt status old : follows tells (ClaimStage id attempt status old).
Proof. apply tells_silent. by intros σ u σ' (row & _ & _ & _ & _ & _ & _ & _ & ->)%ClaimStage_ok. Qed.
Lemma tells_SetStatus t status : follows tells (SetStatus t status).
Proof. apply tells_silent. by intros σ u σ' (row & _ & _ & _ & _ & ->)%SetStatus_ok. Qed.
Lemma tells_UpdateTaskBudget id budget version : follows tells (UpdateTaskBudget id budget version).
Proof. unfold UpdateTaskBudget. silent. Qed.
Lemma tells_CreateApproval id task stage kind retry title content :
  follows tells (CreateApproval id task stage kind retry title content).
Proof. apply tells_silent. by intros σ u σ' (_ & _ & _ & _ & ->)%CreateApproval_ok. Qed.
Lemma tells_DecideApproval id status feedback edited user version :
  follows tells (DecideApproval id status feedback edited user version).
Proof. unfold DecideApproval. silent. Qed.
Lemma tells_CreateDeliverable id task stage uri content summary :
  follows tells (CreateDeliverable id task stage uri content summary).
Proof. unfold CreateDeliverable. silent. Qed.
Lemma tells_CreateProject id name owner repo branch inst loc :
  follows tells (CreateProject id name owner repo branch inst loc).
Proof. unfold CreateProject. silent. Qed.
Lemma tells_CreateTask id project command user p ws budget :
  follows tells (CreateTask id project command user p ws budget).
Proof. unfold CreateTask. silent. Qed.
Lemma tells_CreateStage id task key role deps : follows tells (CreateStage id task key role deps).
Proof. unfold CreateStage. silent. Qed.
Lemma tells_Emit task stage agent kind payload : follows tells (Emit task stage agent kind payload).
Proof.
  intros σ u σ' (t & ev & _ & _ & _ & _ & _ & ->)%Emit_ok. exists [ev]. simpl.
  by rewrite published_app.
Qed.
#[local] Hint Resolve tells_LockTask tells_reading tells_now tells_tick tells_UpdateStage
  tells_ClaimStage tells_SetStatus tells_UpdateTaskBudget tells_CreateApproval
  tells_DecideApproval tells_CreateDeliverable tells_CreateProject tells_CreateTask
  tells_CreateStage tells_Emit : follows.
#[local] Hint Extern 1 (follows tells (AfterCommit _)) =>
  (apply tells_AfterCommit; reflexivity) : follows.

Lemma tells_deriveTx t : follows tells (deriveTx t).
Proof. unfold deriveTx. solve_follows. Qed.
#[local] Hint Resolve tells_deriveTx : follows.
Lemma tells_claim_tx id s mode : follows tells (claim_tx id s mode).
Proof. unfold claim_tx. solve_follows. Qed.
Lemma tells_call_tx c : follows tells (call_tx c).
Proof.
  destruct c; simpl; unfold create_tx, update_tx, resume_stages, budget_tx, check_tx, decide_tx,
    start_tx, progress_tx, commit_tx, derive_tx, fail_tx, block_tx, new_uuid; solve_follows.
Qed.

(** What a step of the system may do to the log and the hooks: the events it stores are those
    its hooks publish, or an acknowledgement was lost and no hook runs. *)
Definition announced (w w' : World) : Prop :=
  ∃ hs, w_hooks w' = w_hooks w ++ hs ∧ db_events (w_db w') = db_events (w_db w) ++ published hs.
Definition unannounced (w w' : World) : Prop :=
  w_hooks w' = w_hooks w ∧ ∃ evs, db_events (w_db w') = db_events (w_db w) ++ evs.

Lemma announced_same w w' : w_db w' = w_db w → w_hooks w' = w_hooks w → announced w w'.
Proof. intros E H. exists []. by rewrite E, H, !app_nil_r. Qed.
Lemma WithTx_announces {A} fate (fn : Tx A) w r w' :
  follows tells fn → WithTx fate fn w = (r, w') →
  announced w w' ∨ unannounced w w' ∧ is_ok r = false.
Proof.
  intros Hf. unfold WithTx. destruct (fn (begin_tx w)) as [[a σ]|e] eqn:H.
  - pose proof (Hf _ _ _ H) as (evs & E & P). simpl in E, P.
    destruct fate as [|[]|]; intros [= <- <-].
    + left. exists (tx_after σ). simpl. by rewrite P.
    + right. split; [|done]. split; [done|]. by exists evs.
    + left. by apply announced_same.
    + left. by apply announced_same.
  - intros Hr. left. destruct fate; injection Hr as <- <-; by apply announced_same.
Qed.
(** A step that is not a crash announces what it stores, unless an acknowledgement was lost. *)
Lemma step_announces sys sys' :
  step sys sys' →
  announced (sy_world sys) (sy_world sys') ∨ unannounced (sy_world sys) (sy_world sys')
  ∨ sys' = MkSys (MkWorld (sy_db sys) (w_ticks (sy_world sys)) []) [] [] [].
Proof.
  intros Hstep. destruct Hstep as [| |sys c fate r w _ H|sys s all fate s' w _ _ H
    |sys s all fate e w _ _ H| |]; simpl; auto using announced_same.
  all: apply WithTx_announces in H; [naive_solver|auto using tells_call_tx, tells_claim_tx].
Qed.
End announce.
