(* ===== verification/Hub.v ===== *)
(** * The event stream ([internal/ws/hub.go])

    A connection of the dashboard: it subscribes to tasks, is sent the stored events it has
    missed and then the events that the bus delivers.  A replay reads the log in batches while
    the system goes on; the connection handles nothing else in the meantime. *)
From S2P Require Import Prelude GoStrings Domain Pipeline PipelineJSON Agent Store Event History.
From S2P Require Import Derived Approval Task Commit Flow Effects Settled System Bus Announce.

(** What the code takes from elsewhere: [uuid.Parse], and whether the n-th message written to
    the socket leaves within five seconds. *)
Class Socket := { uuid_ok : string → bool; delivers : nat → bool }.

(** src: internal/ws/hub.go 36-40 message *)
Record message := MkMessage { m_Op : string; m_TaskID : option string; m_FromSeq : Z }.
(** What is written to the socket: an event, a reply or the acknowledgement of a subscription.
    src: internal/ws/hub.go 41-49 reply, subscribed *)
Inductive sent :=
  | SentEvent (ev : Event)
  | SentReply (op code : string)
  | SentSubscribed (task : string) (replayed : Z).
(** Where the handler is: in its select, in the replay loop of a subscription, or gone. *)
Inductive stage_of_conn :=
  | Waiting
  | Replaying (id : string) (upto after replayed : Z)
  | Returned.
(** The variables of [ServeHTTP].  [cn_tasks] has for each subscribed task the [from_seq] it
    was last subscribed with; the code keeps the keys only.  [cn_err] says that [e] is not nil.
    src: internal/ws/hub.go 96-97 Hub.ServeHTTP (tasks, summary) *)
Record Conn := MkConn {
  cn_tasks : gmap string Z; cn_summary : bool; cn_err : bool; cn_out : list sent;
  cn_at : stage_of_conn }.
(** src: internal/ws/hub.go 96-97 Hub.ServeHTTP (start) *)
Definition Accept : Conn := MkConn ∅ false false [] Waiting.

Definition with_tasks (m : gmap string Z) (c : Conn) : Conn :=
  MkConn m (cn_summary c) (cn_err c) (cn_out c) (cn_at c).
Definition with_summary (b : bool) (c : Conn) : Conn :=
  MkConn (cn_tasks c) b (cn_err c) (cn_out c) (cn_at c).
Definition with_err (b : bool) (c : Conn) : Conn :=
  MkConn (cn_tasks c) (cn_summary c) b (cn_out c) (cn_at c).
Definition at_ (p : stage_of_conn) (c : Conn) : Conn :=
  MkConn (cn_tasks c) (cn_summary c) (cn_err c) (cn_out c) p.

Section hub.
Context {SK : Socket}.
(** [send]: whether the write succeeded.
    src: internal/ws/hub.go 91-95 Hub.ServeHTTP (send) *)
Definition send (v : sent) (c : Conn) : bool * Conn :=
  if delivers (length (cn_out c))
  then (true, MkConn (cn_tasks c) (cn_summary c) (cn_err c) (cn_out c ++ [v]) (cn_at c))
  else (false, c).
(** [e = send(v)] *)
Definition send_err (v : sent) (c : Conn) : Conn :=
  let '(ok, c) := send v c in with_err (negb ok) c.
(** [if e != nil { return }]
    src: internal/ws/hub.go 169-171 Hub.ServeHTTP (error) *)
Definition check_err (c : Conn) : Conn := if cn_err c then at_ Returned c else c.

(** src: internal/ws/hub.go 103-103 Hub.ServeHTTP (filter) *)
Definition subscribed_to (ev : Event) (c : Conn) : bool :=
  bool_decide (is_Some (cn_tasks c !! ev_TaskID ev))
  || cn_summary c && (HasPrefix (ev_Type ev) "run." || HasPrefix (ev_Type ev) "stage."
                      || HasPrefix (ev_Type ev) "approval.").
(** src: internal/ws/hub.go 102-107 Hub.ServeHTTP (event) *)
Definition handle_event (ev : Event) (c : Conn) : Conn :=
  if subscribed_to ev c then
    let '(ok, c) := send (SentEvent ev) c in if ok then c else at_ Returned c
  else c.

(** The end of a subscription to a task.
    src: internal/ws/hub.go 165-171 Hub.ServeHTTP (ack) *)
Definition acknowledge (task : string) (replayed : Z) (c : Conn) : Conn :=
  check_err (at_ Waiting (send_err (SentSubscribed task replayed) c)).
(** The body of the select for a valid command; a subscription to a task that exists goes on in
    [replay_round].  [task] is the result of [h.Store.Task].
    src: internal/ws/hub.go 117-143 Hub.ServeHTTP (commands) *)
Definition run_command (task : result TaskEntity) (m : message) (c : Conn) : Conn :=
  if m_Op m =? "ping" then check_err (send_err (SentReply "pong" "") c) else
  if m_Op m =? "unsubscribe" then
    check_err (match m_TaskID m with
               | None => with_summary false c
               | Some id => with_tasks (delete id (cn_tasks c)) c
               end) else
  if m_Op m =? "subscribe" then
    if (m_FromSeq m <? 0)%Z then check_err (send_err (SentReply "error" "BAD_REQUEST") c) else
    match m_TaskID m with
    | None => check_err (send_err (SentSubscribed "" 0) (with_summary true c))
    | Some id =>
      match task with
      | Err _ => check_err (send_err (SentReply "error" "TASK_NOT_FOUND") c)
      | Ok t => at_ (Replaying id (t_EventSeq t) (m_FromSeq m) 0)
                    (with_tasks (<[id := m_FromSeq m]> (cn_tasks c)) c)
      end
    end
  else check_err (send_err (SentReply "error" "UNKNOWN_OP") c).
(** The check of the task id assigns [e]; a bad id is answered, and [e] stays.
    src: internal/ws/hub.go 108-116 Hub.ServeHTTP (task id) *)
Definition handle_command (task : result TaskEntity) (m : message) (c : Conn) : Conn :=
  match m_TaskID m with
  | None => run_command task m c
  | Some id =>
    if uuid_ok id then run_command task m (with_err false c) else
    let '(ok, c) := send (SentReply "error" "BAD_REQUEST") (with_err true c) in
    if ok then c else at_ Returned c
  end.

(** The loop over a batch: the last number sent and the count.
    src: internal/ws/hub.go 153-162 Hub.ServeHTTP (batch) *)
Fixpoint send_batch (upto : Z) (batch : list Event) (after replayed : Z) (c : Conn)
    : bool * Z * Z * Conn :=
  match batch with
  | [] => (true, after, replayed, c)
  | ev :: batch =>
    if (upto <? ev_Seq ev)%Z then (true, after, replayed, c) else
    let '(ok, c) := send (SentEvent ev) c in
    if ok then send_batch upto batch (ev_Seq ev) (replayed + 1)%Z c
    else (false, after, replayed, c)
  end.
(** One round of the replay loop; [events] is the result of [h.Store.Events].
    src: internal/ws/hub.go 144-165 Hub.ServeHTTP (replay) *)
Definition replay_round (events : string → Z → nat → result (list Event)) (c : Conn) : Conn :=
  match cn_at c with
  | Replaying id upto after replayed =>
    if (upto <=? after)%Z then acknowledge id replayed c else
    match events id after 500%nat with
    | Err _ => at_ Returned (send (SentReply "error" "REPLAY_FAILED") c).2
    | Ok [] => acknowledge id replayed c
    | Ok batch =>
      let '(ok, after, replayed, c) := send_batch upto batch after replayed c in
      if ok then at_ (Replaying id upto after replayed) c else at_ Returned c
    end
  | _ => c
  end.
(** The replay loop, with the database as it is when each batch is read.
    src: internal/ws/hub.go 144-163 Hub.ServeHTTP (replay loop) *)
Fixpoint replay (fuel : nat) (dbs : nat → DB) (c : Conn) : Conn :=
  match fuel with
  | 0%nat => c
  | S fuel => replay fuel (λ n, dbs (S n)) (replay_round (Events (dbs 0%nat)) c)
  end.
End hub.

(** The open connections, by number; [Close] closes them all.
    src: internal/ws/hub.go 18-23 Hub *)
Record Hub := MkHub { hb_conns : gset nat }.
(** src: internal/ws/hub.go 25-27 New *)
Definition New : Hub := MkHub ∅.
(** src: internal/ws/hub.go 59-61 Hub.ServeHTTP (register) *)
Definition register (c : nat) (h : Hub) : Hub := MkHub ({[c]} ∪ hb_conns h).
(** src: internal/ws/hub.go 62-62 Hub.ServeHTTP (unregister) *)
Definition unregister (c : nat) (h : Hub) : Hub := MkHub (hb_conns h ∖ {[c]}).
(** The connections closed; each of their handlers then returns.
    src: internal/ws/hub.go 28-34 Hub.Close *)
Definition Close (h : Hub) : gset nat := hb_conns h.

(** ** Reading the log by position *)
Lemma event_at db id t i ev :
  log_wf db → db_tasks db !! id = Some t → events_of db id !! i = Some ev →
  ev_Seq ev = (Z.of_nat i + 1)%Z.
Proof.
  intros Hw Ht Hi. destruct (lw_seqs _ Hw _ _ Ht) as [_ Hs].
  apply (f_equal (.!! i)) in Hs. rewrite list_lookup_fmap, Hi in Hs. simpl in Hs. symmetry in Hs.
  apply lookup_seqZ in Hs. lia.
Qed.
Lemma events_length db id t :
  log_wf db → db_tasks db !! id = Some t → Z.of_nat (length (events_of db id)) = t_EventSeq t.
Proof.
  intros Hw Ht. destruct (lw_seqs _ Hw _ _ Ht) as [Hp Hs].
  apply (f_equal length) in Hs. rewrite length_fmap, length_seqZ in Hs. lia.
Qed.
Lemma after_drop db id t after :
  log_wf db → db_tasks db !! id = Some t → (0 ≤ after)%Z →
  filter (λ ev, after < ev_Seq ev)%Z (events_of db id) = drop (Z.to_nat after) (events_of db id).
Proof.
  intros Hw Ht Ha. rewrite <- (take_drop (Z.to_nat after) (events_of db id)) at 1.
  rewrite filter_app, filter_none, filter_all; [done|..]; intros ev [i Hi]%list_elem_of_lookup.
  - rewrite lookup_drop in Hi. apply (event_at _ _ _ _ _ Hw Ht) in Hi. lia.
  - apply lookup_take_Some in Hi as [Hi Hlt]. apply (event_at _ _ _ _ _ Hw Ht) in Hi. lia.
Qed.
Lemma ListEvents_drop db id t after limit :
  log_wf db → db_tasks db !! id = Some t → (0 ≤ after)%Z →
  ListEvents db id after limit = take limit (drop (Z.to_nat after) (events_of db id)).
Proof.
  intros Hw Ht Ha. destruct (ListEvents_seqs db id t after limit Hw Ht Ha) as [-> _].
  by rewrite (after_drop _ _ _ _ Hw Ht Ha).
Qed.
(** A later log of a task extends an earlier one. *)
Lemma events_of_le db db' id : db_le db db' → events_of db id `prefix_of` events_of db' id.
Proof. intros [_ _ _ _ _ [l E] _]. unfold events_of. rewrite E, filter_app. by eexists. Qed.

(** ** The replay *)
Section replays.
Context {SK : Socket}.
Definition put (vs : list sent) (c : Conn) : Conn :=
  MkConn (cn_tasks c) (cn_summary c) (cn_err c) (cn_out c ++ vs) (cn_at c).
Lemma send_ok v c c' : send v c = (true, c') → c' = put [v] c.
Proof. unfold send, put. destruct (delivers _); naive_solver. Qed.
Lemma put_put vs vs' c : put vs' (put vs c) = put (vs ++ vs') c.
Proof. unfold put. simpl. by rewrite app_assoc. Qed.
Lemma put_nil c : put [] c = c.
Proof. unfold put. rewrite app_nil_r. by destruct c. Qed.

(** A batch that is sent in full up to [upto]. *)
Lemma send_batch_ok upto batch after r c a r' c' n :
  ev_Seq <$> batch = seqZ (after + 1) (Z.of_nat n) → (after ≤ upto)%Z →
  send_batch upto batch after r c = (true, a, r', c') →
  a = (upto `min` (after + Z.of_nat n))%Z ∧ r' = (r + (a - after))%Z ∧
  c' = put (SentEvent <$> take (Z.to_nat (a - after)) batch) c.
Proof.
  revert after r c n. induction batch as [|ev batch IH]; intros after r c n Hs Hle H; simpl in *.
  - symmetry in Hs. destruct n; [|by rewrite seqZ_cons in Hs by lia].
    injection H as <- <- <-. rewrite take_nil, put_nil. split_and!; [lia|lia|done].
  - destruct n as [|n]; [done|]. rewrite seqZ_cons in Hs by lia. injection Hs as Hev Hs.
    replace (Z.pred (Z.of_nat (S n))) with (Z.of_nat n) in Hs by lia.
    replace (Z.succ (after + 1)) with (ev_Seq ev + 1)%Z in Hs by lia.
    destruct (Z.ltb_spec upto (ev_Seq ev)).
    + injection H as <- <- <-. replace (after - after)%Z with 0%Z by lia. rewrite take_0.
      rewrite put_nil. split_and!; [lia|lia|done].
    + destruct (send _ c) as [[] c1] eqn:Hsend; [|done]. apply send_ok in Hsend as ->.
      apply (IH _ _ _ n Hs) in H as (-> & -> & ->); [|lia]. rewrite put_put.
      replace (Z.to_nat (upto `min` (ev_Seq ev + Z.of_nat n) - after))
        with (S (Z.to_nat (upto `min` (ev_Seq ev + Z.of_nat n) - ev_Seq ev))) by lia.
      simpl. split_and!; [lia|lia|done].
Qed.
Lemma send_batch_delivered upto batch after r c :
  (∀ n, delivers n = true) → (send_batch upto batch after r c).1.1.1 = true.
Proof.
  intros Hd. revert after r c. induction batch as [|ev batch IH]; intros after r c; [done|]. simpl.
  destruct (upto <? _)%Z; [done|]. unfold send. rewrite Hd. apply IH.
Qed.

(** One round on a log that has all events up to [upto]: a batch of five hundred goes out, or
    what is left, or a write fails. *)
Lemma round_ok db id t upto after r c :
  log_wf db → db_tasks db !! id = Some t → (upto ≤ t_EventSeq t)%Z → (0 ≤ after < upto)%Z →
  cn_at c = Replaying id upto after r →
  ((∀ n, delivers n = true) → cn_at (replay_round (Events db) c) ≠ Returned) ∧
  (cn_at (replay_round (Events db) c) = Returned ∨
   ∃ a, (after < a ≤ upto)%Z ∧ a = (upto `min` (after + 500))%Z ∧
     replay_round (Events db) c =
       at_ (Replaying id upto a (r + (a - after)))
         (put (SentEvent <$> take (Z.to_nat (a - after)) (drop (Z.to_nat after) (events_of db id))) c)).
Proof.
  intros Hw Ht Hu Ha Hat. pose proof (events_length _ _ _ Hw Ht) as Hlen.
  unfold replay_round. rewrite Hat. destruct (Z.leb_spec upto after); [lia|].
  unfold Events. rewrite (ListEvents_drop _ _ _ _ _ Hw Ht) by lia.
  set (rest := drop (Z.to_nat after) (events_of db id)). set (batch := take 500 rest).
  assert (length batch = 500 `min` Z.to_nat (t_EventSeq t - after)) as Hb.
  { unfold batch, rest. rewrite length_take, length_drop. lia. }
  assert (ev_Seq <$> batch = seqZ (after + 1) (Z.of_nat (length batch))) as Hs.
  { apply list_eq. intros i. rewrite list_lookup_fmap.
    destruct (batch !! i) as [ev|] eqn:Hi; simpl; symmetry.
    - apply lookup_seqZ. pose proof (lookup_lt_Some _ _ _ Hi).
      unfold batch, rest in Hi. apply lookup_take_Some in Hi as [Hi _]. rewrite lookup_drop in Hi.
      apply (event_at _ _ _ _ _ Hw Ht) in Hi. lia.
    - apply lookup_seqZ_ge. apply lookup_ge_None in Hi. lia. }
  destruct batch as [|ev evs] eqn:Hbatch; [cbn [length] in Hb; lia|]. rewrite <- Hbatch in *.
  pose proof (send_batch_delivered upto batch after r c) as Hd.
  destruct (send_batch upto batch after r c) as [[[[] a] r'] c'] eqn:Hsend; cbn [fst] in Hd.
  - split; [done|]. right. apply (send_batch_ok _ _ _ _ _ _ _ _ _ Hs) in Hsend as (-> & -> & ->); [|lia].
    assert (1 ≤ length batch ≤ 500)%nat as Hn.
    { split; [rewrite Hbatch; simpl; lia|]. unfold batch. rewrite length_take. lia. }
    exists (upto `min` (after + Z.of_nat (length batch)))%Z. split; [lia|]. split; [lia|].
    assert (∀ k, k ≤ length batch → take k batch = take k rest) as ->; [|done|lia].
    intros k Hk. unfold batch. rewrite take_take. f_equal. lia.
  - split; [intros E; discriminate (Hd E)|by left].
Qed.
Lemma replay_waiting fuel dbs c : cn_at c = Waiting → replay fuel dbs c = c.
Proof.
  revert dbs. induction fuel as [|fuel IH]; intros dbs Hc; [done|]. simpl.
  unfold replay_round. rewrite Hc. by apply IH.
Qed.

(** A stretch of the log, cut in two. *)
Lemma take_drop_cut {A} (l : list A) (m n k : Z) :
  (0 ≤ m ≤ n)%Z → (n ≤ k)%Z →
  take (Z.to_nat (n - m)) (drop (Z.to_nat m) l) ++ take (Z.to_nat (k - n)) (drop (Z.to_nat n) l)
  = take (Z.to_nat (k - m)) (drop (Z.to_nat m) l).
Proof.
  intros H1 H2. replace (Z.to_nat n) with (Z.to_nat m + Z.to_nat (n - m))%nat by lia.
  rewrite <- drop_drop.
  replace (Z.to_nat (k - m)) with (Z.to_nat (n - m) + Z.to_nat (k - n))%nat by lia.
  by rewrite <- take_take_drop.
Qed.

Section exact.
Hypothesis (Delivered : ∀ n, delivers n = true).
Lemma acknowledge_delivered id r c :
  acknowledge id r c = with_err false (at_ Waiting (put [SentSubscribed id r] c)).
Proof. unfold acknowledge, send_err, send. by rewrite Delivered. Qed.
(** The loop, from any point of the replay on. *)
Lemma replay_ok fuel n dbs id upto after r c evs :
  (∀ n, log_wf (dbs n) ∧ (∃ t, db_tasks (dbs n) !! id = Some t ∧ (upto ≤ t_EventSeq t)%Z) ∧
     evs `prefix_of` events_of (dbs n) id) →
  (0 ≤ after)%Z → (upto ≤ Z.of_nat (length evs))%Z →
  (upto - after ≤ 500 * Z.of_nat n)%Z → n < fuel →
  cn_at c = Replaying id upto after r →
  replay fuel dbs c =
    with_err false (at_ Waiting (put
      ((SentEvent <$> take (Z.to_nat (upto - after)) (drop (Z.to_nat after) evs))
       ++ [SentSubscribed id (r + 0 `max` (upto - after))]) c)).
Proof.
  revert n dbs after r c.
  induction fuel as [|fuel IH]; intros n dbs after r c Hdbs Ha Hlen Hn Hf Hat; [lia|].
  simpl. destruct (Hdbs 0) as (Hw & (t & Ht & Hu) & Hp).
  destruct (decide (after < upto)%Z) as [Hlt|Hge].
  - destruct (round_ok _ _ _ _ _ _ c Hw Ht Hu (conj Ha Hlt) Hat) as [Hno [?|(a & Hr & Ea & E)]];
      [by destruct (Hno Delivered)|].
    rewrite E, (IH (n - 1) (λ n, dbs (S n)) a (r + (a - after))%Z);
      [|by intros m|lia|lia|lia|lia|done].
    replace (r + (a - after) + 0 `max` (upto - a))%Z with (r + 0 `max` (upto - after))%Z by lia.
    assert (take (Z.to_nat (a - after)) (drop (Z.to_nat after) (events_of (dbs 0) id))
            = take (Z.to_nat (a - after)) (drop (Z.to_nat after) evs)) as ->.
    { destruct Hp as [l ->]. rewrite drop_app_le, take_app_le; rewrite ?length_drop; [done|lia..]. }
    rewrite <- (take_drop_cut evs after a upto), fmap_app by lia.
    unfold with_err, at_, put. simpl. by rewrite <- !app_assoc.
  - replace (Z.to_nat (upto - after)) with 0 by lia.
    unfold replay_round. rewrite Hat. destruct (Z.leb_spec upto after); [|lia].
    rewrite acknowledge_delivered, replay_waiting by done. rewrite take_0. simpl.
    by replace (r + 0 `max` (upto - after))%Z with r by lia.
Qed.
(** The loop after [k] full batches. *)
Lemma replay_batches k dbs id upto after r c evs :
  (∀ n, log_wf (dbs n) ∧ (∃ t, db_tasks (dbs n) !! id = Some t ∧ (upto ≤ t_EventSeq t)%Z) ∧
     evs `prefix_of` events_of (dbs n) id) →
  (0 ≤ after)%Z → (upto ≤ Z.of_nat (length evs))%Z → (after + 500 * Z.of_nat k ≤ upto)%Z →
  cn_at c = Replaying id upto after r →
  replay k dbs c =
    at_ (Replaying id upto (after + 500 * Z.of_nat k) (r + 500 * Z.of_nat k))
      (put (SentEvent <$> take (500 * k) (drop (Z.to_nat after) evs)) c).
Proof.
  revert dbs after r c. induction k as [|k IH]; intros dbs after r c Hdbs Ha Hlen Hk Hat.
  { change (replay 0 dbs c) with c. rewrite Nat.mul_0_r, take_0, put_nil.
    replace (after + 500 * Z.of_nat 0)%Z with after by lia.
    replace (r + 500 * Z.of_nat 0)%Z with r by lia. unfold at_. rewrite <- Hat. by destruct c. }
  change (replay (S k) dbs c) with (replay k (λ n, dbs (S n)) (replay_round (Events (dbs 0)) c)).
  destruct (Hdbs 0) as (Hw & (t & Ht & Hu) & Hp).
  assert (after < upto)%Z as Hlt by lia.
  destruct (round_ok _ _ _ _ _ _ c Hw Ht Hu (conj Ha Hlt) Hat) as [Hno [?|(a & Hr & Ea & E)]];
    [by destruct (Hno Delivered)|].
  assert (a = after + 500)%Z as -> by lia.
  rewrite E, (IH (λ n, dbs (S n)) (after + 500)%Z (r + (after + 500 - after))%Z);
    [|by intros m|lia|lia|lia|done].
  assert (take (Z.to_nat (after + 500 - after)) (drop (Z.to_nat after) (events_of (dbs 0) id))
          = take (Z.to_nat (after + 500 - after)) (drop (Z.to_nat after) evs)) as ->.
  { destruct Hp as [l ->]. rewrite drop_app_le, take_app_le; rewrite ?length_drop; [done|lia..]. }
  pose proof (take_drop_cut evs after (after + 500) (after + 500 + 500 * Z.of_nat k)) as Hcut.
  replace (Z.to_nat (after + 500 + 500 * Z.of_nat k - (after + 500))) with (500 * k) in Hcut by lia.
  replace (Z.to_nat (after + 500 + 500 * Z.of_nat k - after)) with (500 * S k) in Hcut by lia.
  rewrite <- Hcut, fmap_app by lia. unfold at_, put. simpl. rewrite <- app_assoc.
  do 2 f_equal; lia.
Qed.
End exact.

(** C24: when every write of the connection is delivered and every read of the database
    succeeds, subscribing to a task from [from_seq] replays the log exactly, whatever is
    logged meanwhile: the events the task had when it was read that come after [from_seq] are
    sent once each, in order, then the acknowledgement with their number, and the connection
    is subscribed to the task.  The events go out in batches of five hundred: as long as there
    are that many left, [k] rounds of the loop have sent the first [500 * k].  The loop ends:
    one round more than it has batches is enough. *)
Theorem replay_exact db dbs id from t c :
  (∀ n, delivers n = true) → uuid_ok id = true → (0 ≤ from)%Z → log_wf db →
  (∀ n, log_wf (dbs n) ∧ db_le db (dbs n)) → Task db id = Ok t → cn_at c = Waiting →
  let missed := filter (λ ev, from < ev_Seq ev)%Z (events_of db id) in
  let started := handle_command (Task db id) (MkMessage "subscribe" (Some id) from) c in
  (∀ k, 500 * k ≤ length missed →
     replay k dbs started =
     MkConn (<[id := from]> (cn_tasks c)) (cn_summary c) false
       (cn_out c ++ (SentEvent <$> take (500 * k) missed))
       (Replaying id (t_EventSeq t) (from + 500 * Z.of_nat k) (500 * Z.of_nat k))) ∧
  (∀ fuel n, length missed ≤ 500 * n → n < fuel →
     replay fuel dbs started =
     MkConn (<[id := from]> (cn_tasks c)) (cn_summary c) false
       (cn_out c ++ (SentEvent <$> missed) ++ [SentSubscribed id (Z.of_nat (length missed))])
       Waiting).
Proof.
  intros Hd Hid Hf Hw Hdbs Ht Hat missed started. unfold missed.
  rewrite (after_drop db id t from Hw) by (by apply decode_ok, row_by_id_ok in Ht || done).
  unfold started, handle_command, run_command. simpl. rewrite Hid, Ht.
  destruct (Z.ltb_spec from 0); [lia|]. apply decode_ok, row_by_id_ok in Ht.
  pose proof (events_length _ _ _ Hw Ht) as Hlen.
  assert (∀ n, log_wf (dbs n) ∧ (∃ t', db_tasks (dbs n) !! id = Some t' ∧
    (t_EventSeq t ≤ t_EventSeq t')%Z) ∧ events_of db id `prefix_of` events_of (dbs n) id) as Hlater.
  { intros n. destruct (Hdbs n) as [Hwn Hle]. split_and!; [done| |by apply events_of_le].
    destruct (dle_tasks _ _ Hle _ _ Ht) as (t' & Ht' & Htle). exists t'.
    split; [done|apply (tle_seq _ _ Htle)]. }
  split.
  - intros k Hk. rewrite length_drop in Hk.
    destruct (decide (k = 0)) as [->|Hk0];
      [simpl; by rewrite app_nil_r, Z.add_0_r|].
    rewrite (replay_batches Hd k dbs id (t_EventSeq t) from 0 _ (events_of db id)); try done; lia.
  - intros fuel n Hn Hfuel. rewrite length_drop in Hn.
    rewrite (replay_ok Hd fuel n dbs id (t_EventSeq t) from 0 _ (events_of db id)); try done; [|lia..].
    rewrite firstn_all2 by (rewrite length_drop; lia). unfold with_err, at_, put. simpl.
    do 5 f_equal. rewrite length_drop. lia.
Qed.

(** A bad task id leaves [e] set: a following [unsubscribe] without a task, which does not
    assign it, closes the connection. *)
Lemma bad_id_then_unsubscribe task task' id c :
  (∀ n, delivers n = true) → uuid_ok id = false →
  cn_at (handle_command task' (MkMessage "unsubscribe" None 0)
           (handle_command task (MkMessage "subscribe" (Some id) 0) c)) = Returned ∧
  cn_at (handle_command task' (MkMessage "unsubscribe" None 0) (with_err false c)) = cn_at c.
Proof.
  intros Hd Hid. unfold handle_command, run_command, send. simpl. rewrite Hid. simpl.
  rewrite Hd. by split.
Qed.
End replays.

(** ** A connection beside the running system

    The system takes its steps; the hooks of acknowledged transactions publish their events, in
    any order, to the bus; other subscribers come and go; the connection takes events and
    commands one at a time, and reads the log batch by batch while all this goes on. *)
Record Live := MkLive {
  lv_sys : Sys;
  lv_pending : list Event;  (** published by hooks that have not reached the bus yet *)
  lv_lost : list Event;  (** stored by transactions whose acknowledgement was lost *)
  lv_bus : Bus;
  lv_sub : nat;  (** the connection's subscription *)
  lv_conn : Conn }.
Definition foreign (sub : nat) (a : Bus.action) : Prop :=
  match a with DoClose id | DoReceive id => id ≠ sub | DoPublish _ => False | _ => True end.

Section live.
Context {PF : Platform} {UC : Unicode} {SK : Socket}.
(** src: internal/ws/hub.go 63-110 Hub.ServeHTTP (goroutines, select) *)
Inductive live_step : Live → Live → Prop :=
  | live_acked sys sys' hs pending lost bus sub c :
      step sys sys' → w_hooks (sy_world sys') = w_hooks (sy_world sys) ++ hs →
      db_events (sy_db sys') = db_events (sy_db sys) ++ published hs →
      live_step (MkLive sys pending lost bus sub c)
        (MkLive sys' (pending ++ published hs) lost bus sub c)
  | live_unacked sys sys' evs pending lost bus sub c :
      step sys sys' → w_hooks (sy_world sys') = w_hooks (sy_world sys) →
      db_events (sy_db sys') = db_events (sy_db sys) ++ evs →
      live_step (MkLive sys pending lost bus sub c) (MkLive sys' pending (lost ++ evs) bus sub c)
  | live_publish sys before ev after lost bus sub c :
      live_step (MkLive sys (before ++ ev :: after) lost bus sub c)
        (MkLive sys (before ++ after) lost (Publish ev bus) sub c)
  | live_others sys pending lost bus sub c a :
      foreign sub a →
      live_step (MkLive sys pending lost bus sub c)
        (MkLive sys pending lost (hi_bus (act (MkHistory bus ∅) a)) sub c)
  | live_event sys pending lost bus bus' sub c ev :
      cn_at c = Waiting → Receive sub bus = (Some ev, bus') →
      live_step (MkLive sys pending lost bus sub c)
        (MkLive sys pending lost bus' sub (handle_event ev c))
  | live_command sys pending lost bus sub c m task :
      cn_at c = Waiting →
      (∀ t id, m_TaskID m = Some id → task = Ok t → Task (sy_db sys) id = Ok t) →
      live_step (MkLive sys pending lost bus sub c)
        (MkLive sys pending lost bus sub (handle_command task m c))
  | live_round sys pending lost bus sub c events :
      events = Events (sy_db sys) ∨ (∃ e, events = λ _ _ _, Err e) →
      live_step (MkLive sys pending lost bus sub c)
        (MkLive sys pending lost bus sub (replay_round events c))
  | live_leave sys pending lost bus sub c :
      live_step (MkLive sys pending lost bus sub c)
        (MkLive sys pending lost bus sub (at_ Returned c)).

(** A fresh connection to a server in any reachable state. *)
Definition connected (sys : Sys) (l : Live) : Prop :=
  reachable sys ∧ ∃ bus pending lost,
    l = MkLive sys pending lost (Bus.Subscribe "" bus).2 (Bus.Subscribe "" bus).1 Accept.

(** Where an event may be that a subscription still owes its client. *)
Definition on_its_way (l : Live) (s : subscriber) (ev : Event) : Prop :=
  ev ∈ su_events s ∨ ev ∈ lv_pending l ∨ ev ∈ lv_lost l.
(** The part of the log that a replay has still to send. *)
Definition to_replay (c : Conn) (ev : Event) : Prop :=
  match cn_at c with
  | Replaying id upto after _ => ev_TaskID ev = id ∧ (after < ev_Seq ev ≤ upto)%Z
  | _ => False
  end.
Definition kept (l : Live) (s : subscriber) : Prop :=
  ∀ id from ev, cn_tasks (lv_conn l) !! id = Some from → ev ∈ events_of (sy_db (lv_sys l)) id →
    (from < ev_Seq ev)%Z →
    SentEvent ev ∈ cn_out (lv_conn l) ∨ on_its_way l s ev ∨ to_replay (lv_conn l) ev.
Record tuned (l : Live) : Prop := MkTuned {
  tn_good : sys_inv (lv_sys l);
  tn_next : lv_sub l < bu_next (lv_bus l);
  tn_at id upto after r : cn_at (lv_conn l) = Replaying id upto after r → (0 ≤ after)%Z ∧
    ∃ t, db_tasks (sy_db (lv_sys l)) !! id = Some t ∧ (upto ≤ t_EventSeq t)%Z;
  tn_sub : ∃ s, bu_subs (lv_bus l) !! lv_sub l = Some s ∧ su_task s = "" ∧
    (su_done s = false → cn_at (lv_conn l) ≠ Returned → kept l s) }.

(** *** What one step of the handler does to the connection *)
(** It is gone, or waits with no more subscriptions than before and everything sent. *)
Definition calm (c c' : Conn) : Prop :=
  cn_at c' = Returned ∨
  cn_at c' = Waiting ∧ (∀ id from, cn_tasks c' !! id = Some from → cn_tasks c !! id = Some from) ∧
    cn_out c `prefix_of` cn_out c'.
Lemma calm_check_err c c' : calm c c' → calm c (check_err c').
Proof. unfold check_err. destruct (cn_err c'); [by left|done]. Qed.
Lemma calm_send_err v c c' : calm c c' → calm c (send_err v c').
Proof.
  unfold send_err, send, calm. destruct (delivers _); simpl; [|done].
  intros [?|(? & ? & [l ->])]; [by left|]. right. split_and!; [done|done|].
  exists (l ++ [v]). by rewrite app_assoc.
Qed.
Lemma calm_acknowledge id r c : calm c (acknowledge id r c).
Proof.
  apply calm_check_err. unfold calm, send_err, send. right.
  destruct (delivers _); simpl; split_and!; try done. by exists [SentSubscribed id r].
Qed.
Lemma handle_event_cases ev c :
  cn_at c = Waiting →
  calm c (handle_event ev c) ∧
  (cn_at (handle_event ev c) ≠ Returned → is_Some (cn_tasks c !! ev_TaskID ev) →
   SentEvent ev ∈ cn_out (handle_event ev c)).
Proof.
  intros Hat. unfold handle_event, send.
  assert (calm c c) as Hc by by right.
  destruct (subscribed_to ev c) eqn:Hs.
  - destruct (delivers _); simpl; [|by split; [left|]]. split.
    + right. split_and!; try done. by exists [SentEvent ev].
    + intros _ _. simpl. set_solver.
  - split; [done|]. intros _ H. unfold subscribed_to in Hs.
    rewrite bool_decide_eq_true_2 in Hs by done. done.
Qed.
(** A subscription to a task that was found starts its replay. *)
Definition opened (task : result TaskEntity) (m : message) (c c' : Conn) : Prop :=
  ∃ id t, m_TaskID m = Some id ∧ task = Ok t ∧ (0 ≤ m_FromSeq m)%Z ∧
    cn_tasks c' = <[id := m_FromSeq m]> (cn_tasks c) ∧ cn_out c' = cn_out c ∧
    cn_at c' = Replaying id (t_EventSeq t) (m_FromSeq m) 0.
Lemma run_command_cases task m b c :
  cn_at c = Waiting →
  calm c (run_command task m (with_err b c)) ∨ opened task m c (run_command task m (with_err b c)).
Proof.
  intros Hat. assert (calm c (with_err b c)) as Hc by by right. unfold run_command.
  destruct (m_Op m =? "ping"); [left; by apply calm_check_err, calm_send_err|].
  destruct (m_Op m =? "unsubscribe").
  { left. apply calm_check_err. right. destruct (m_TaskID m); simpl; split_and!; try done.
    intros id from. rewrite lookup_delete_Some. tauto. }
  destruct (m_Op m =? "subscribe"); [|left; by apply calm_check_err, calm_send_err].
  destruct (Z.ltb_spec (m_FromSeq m) 0); [left; by apply calm_check_err, calm_send_err|].
  destruct (m_TaskID m) as [id|] eqn:Hid.
  - destruct task as [t|e]; [|left; by apply calm_check_err, calm_send_err].
    right. by exists id, t.
  - left. apply calm_check_err, calm_send_err. by right.
Qed.
Lemma with_same_err c : with_err (cn_err c) c = c.
Proof. by destruct c. Qed.
Lemma command_cases task m c :
  cn_at c = Waiting →
  calm c (handle_command task m c) ∨ opened task m c (handle_command task m c).
Proof.
  intros Hat. unfold handle_command. destruct (m_TaskID m) as [id|].
  - destruct (uuid_ok id); [by apply run_command_cases|]. left.
    pose proof (calm_send_err (SentReply "error" "BAD_REQUEST") c (with_err true c)) as H.
    unfold send_err, send in *. simpl in *. destruct (delivers _); [|by left].
    destruct H as [H|(? & ? & ?)]; [by right|by left|by right].
  - rewrite <- (with_same_err c) at 2 4. by apply run_command_cases.
Qed.
Lemma round_cases db events id t upto after r c :
  log_wf db → db_tasks db !! id = Some t → (upto ≤ t_EventSeq t)%Z → (0 ≤ after)%Z →
  cn_at c = Replaying id upto after r → events = Events db ∨ (∃ e, events = λ _ _ _, Err e) →
  (upto ≤ after)%Z ∧ calm c (replay_round events c) ∨
  cn_at (replay_round events c) = Returned ∨
  ∃ a r', (after < a ≤ upto)%Z ∧ replay_round events c =
    at_ (Replaying id upto a r') (put (SentEvent <$>
      take (Z.to_nat (a - after)) (drop (Z.to_nat after) (events_of db id))) c).
Proof.
  intros Hw Ht Hu Ha Hat Hev. destruct (decide (upto ≤ after)%Z) as [Hle|Hgt].
  - left. split; [done|]. unfold replay_round. rewrite Hat. destruct (Z.leb_spec upto after); [|lia].
    apply calm_acknowledge.
  - right. destruct Hev as [->|[e ->]].
    + destruct (round_ok db id t upto after r c Hw Ht Hu) as [_ [?|(a & Hr & _ & E)]];
        [lia|done|by left|]. right. by exists a, (r + (a - after))%Z.
    + left. unfold replay_round. rewrite Hat. by destruct (Z.leb_spec upto after); [lia|].
Qed.

(** *** Every step keeps what is owed *)
Lemma event_of db id ev : ev ∈ events_of db id ↔ ev_TaskID ev = id ∧ ev ∈ db_events db.
Proof. unfold events_of. by rewrite list_elem_of_filter. Qed.

Section conn.
Context (sys : Sys) (pending lost : list Event) (bus : Bus) (sub : nat) (c : Conn).
Context (Ht : tuned (MkLive sys pending lost bus sub c)).
(** The connection moves, the rest stands still. *)
Lemma tuned_conn c' :
  (∀ id upto after r, cn_at c' = Replaying id upto after r → (0 ≤ after)%Z ∧
     ∃ t, db_tasks (sy_db sys) !! id = Some t ∧ (upto ≤ t_EventSeq t)%Z) →
  (cn_at c' ≠ Returned → cn_at c ≠ Returned ∧
     ∀ s, kept (MkLive sys pending lost bus sub c) s → kept (MkLive sys pending lost bus sub c') s) →
  tuned (MkLive sys pending lost bus sub c').
Proof.
  intros Hat Hk. destruct Ht as [Hg Hn _ (s & Hs & Hw & Hkept)]. split; simpl; try done.
  exists s. do 2 (split; [done|]). intros Hd Hc. destruct (Hk Hc) as [Hc' H]. by apply H, Hkept.
Qed.
Lemma tuned_calm c' :
  calm c c' → cn_at c ≠ Returned → (∀ ev, ¬ to_replay c ev) →
  tuned (MkLive sys pending lost bus sub c').
Proof.
  intros Hc Hne Hno. apply tuned_conn.
  - destruct Hc as [->|(-> & _)]; naive_solver.
  - intros Hne'. split; [done|]. destruct Hc as [?|(Hw & Htasks & Hout)]; [done|].
    intros s Hk id from ev Hid%Htasks Hev Hlt. simpl in *.
    destruct (Hk id from ev Hid Hev Hlt) as [Hin|[Hway|Hto]]; [|right; left; exact Hway|by destruct (Hno ev)].
    left. simpl in Hin. by eapply elem_of_prefix.
Qed.
Lemma tuned_command task m :
  cn_at c = Waiting →
  (∀ t id, m_TaskID m = Some id → task = Ok t → Task (sy_db sys) id = Ok t) →
  tuned (MkLive sys pending lost bus sub (handle_command task m c)).
Proof.
  intros Hat Htask. destruct (command_cases task m c Hat) as [Hc|(id & t & Hid & E & Hf & Htasks & Hout & Hat')].
  { apply tuned_calm; [done|by rewrite Hat|]. intros ev. unfold to_replay. rewrite Hat. tauto. }
  pose proof (Htask _ _ Hid E) as Hrow%decode_ok%row_by_id_ok.
  pose proof (gd_log _ (si_good _ (tn_good _ Ht))) as Hw. simpl in Hw.
  apply tuned_conn.
  - intros ????. rewrite Hat'. intros [= <- <- <- _]. split; [done|]. by exists t.
  - intros _. split; [by rewrite Hat|]. intros s Hk id' from ev. simpl. rewrite Htasks.
    rewrite lookup_insert_Some. intros [[<- <-]|[Hne Hid']] Hev Hlt.
    + right. right. unfold to_replay. simpl. rewrite Hat'. apply event_of in Hev as Hev'.
      split; [tauto|]. split; [done|]. apply list_elem_of_lookup in Hev as [i Hi].
      rewrite (event_at _ _ _ _ _ Hw Hrow Hi). apply lookup_lt_Some in Hi.
      pose proof (events_length _ _ _ Hw Hrow). lia.
    + rewrite Hout. destruct (Hk id' from ev Hid' Hev Hlt) as [?|[Hway|Hto]]; [by left|right; left; exact Hway|].
      unfold to_replay in Hto. simpl in Hto. by rewrite Hat in Hto.
Qed.
Lemma tuned_round events :
  events = Events (sy_db sys) ∨ (∃ e, events = λ _ _ _, Err e) →
  tuned (MkLive sys pending lost bus sub (replay_round events c)).
Proof.
  intros Hev. destruct (cn_at c) as [|id upto after r|] eqn:Hat.
  1,3: replace (replay_round events c) with c; [done|]; unfold replay_round; by rewrite Hat.
  pose proof (gd_log _ (si_good _ (tn_good _ Ht))) as Hw. simpl in Hw.
  destruct (tn_at _ Ht id upto after r Hat) as (Ha & t & Hrow & Hu). simpl in Hrow.
  destruct (round_cases _ _ _ _ _ _ _ _ Hw Hrow Hu Ha Hat Hev) as [[Hle Hc]|[Hr|(a & r' & Hlt & ->)]].
  - apply tuned_calm; [done|by rewrite Hat|]. intros ev. unfold to_replay. rewrite Hat. intros [_ ?]. lia.
  - apply tuned_conn; rewrite Hr; [done|]. by intros [].
  - apply tuned_conn; simpl; [intros ? ? ? ? [= <- <- <- _]; split; [lia|by exists t]|].
    intros _. split; [by rewrite Hat|]. intros s Hk id' from ev Hid Hev' Hlt'. simpl in *.
    destruct (Hk id' from ev Hid Hev' Hlt') as [?|[Hway|Hto]]; [left; set_solver|right; left; exact Hway|].
    unfold to_replay in *. simpl in *. rewrite Hat in Hto. destruct Hto as [Htask Hr].
    destruct (decide (ev_Seq ev ≤ a)%Z) as [Hle|]; [left|right; right; split; [done|lia]].
    apply event_of in Hev' as [E Hin]. rewrite Htask in E. subst id'.
    assert (ev ∈ events_of (sy_db sys) id) as [i Hi]%list_elem_of_lookup by by apply event_of.
    pose proof (event_at _ _ _ _ _ Hw Hrow Hi) as Hseq.
    apply elem_of_app. right. apply list_elem_of_fmap. exists ev. split; [done|].
    apply (list_elem_of_lookup_2 _ (i - Z.to_nat after)). rewrite lookup_take, decide_True by lia.
    rewrite lookup_drop. replace (Z.to_nat after + (i - Z.to_nat after)) with i by lia. done.
Qed.
End conn.

(** The system moves: what it stores is on its way, or lost with an acknowledgement. *)
Lemma tuned_system sys sys' pending pending' lost lost' evs bus sub c :
  tuned (MkLive sys pending lost bus sub c) → step sys sys' →
  db_events (sy_db sys') = db_events (sy_db sys) ++ evs →
  pending ⊆ pending' → lost ⊆ lost' → evs ⊆ pending' ++ lost' →
  tuned (MkLive sys' pending' lost' bus sub c).
Proof.
  intros [Hg Hn Hat (s & Hs & Hw & Hk)] Hstep E Hp Hl He. simpl in *.
  pose proof (step_effect _ _ Hg Hstep) as [_ Hle _ _].
  split; simpl; [by eapply step_inv|done| |exists s; do 2 (split; [done|])].
  - intros id upto after r H. destruct (Hat _ _ _ _ H) as (Ha & t & Ht & Hu). split; [done|].
    destruct (dle_tasks _ _ Hle _ _ Ht) as (t' & Ht' & Htle). exists t'. split; [done|].
    pose proof (tle_seq _ _ Htle). lia.
  - intros Hd Hc id from ev Hid [Htask Hin]%event_of Hlt. simpl in *. rewrite E in Hin.
    apply elem_of_app in Hin as [Hin|Hin]; unfold on_its_way; simpl.
    + assert (ev ∈ events_of (sy_db sys) id) as Hev by by apply event_of.
      destruct (Hk Hd Hc id from ev Hid Hev Hlt) as [?|[[?|[?|?]]|?]]; simpl in *; auto 6.
    + apply He, elem_of_app in Hin. tauto.
Qed.
(** The bus moves: it keeps the subscription, and takes only what it publishes. *)
Lemma tuned_bus sys pending pending' lost bus bus' sub c :
  tuned (MkLive sys pending lost bus sub c) → bu_next bus ≤ bu_next bus' →
  (∀ s, bu_subs bus !! sub = Some s → su_task s = "" →
     ∃ s', bu_subs bus' !! sub = Some s' ∧ su_task s' = "" ∧
     (su_done s' = false → su_done s = false ∧ ∀ ev, ev ∈ su_events s ∨ ev ∈ pending →
        ev ∈ su_events s' ∨ ev ∈ pending')) →
  tuned (MkLive sys pending' lost bus' sub c).
Proof.
  intros [Hg Hn Hat (s & Hs & Hw & Hk)] Hle Hb. simpl in *. destruct (Hb s Hs Hw) as (s' & Hs' & Hw' & H').
  split; simpl; [done|lia|done|]. exists s'. do 2 (split; [done|]). intros Hd Hc.
  destruct (H' Hd) as [Hd0 Hin]. intros id from ev Hid Hev Hlt. simpl in *.
  destruct (Hk Hd0 Hc id from ev Hid Hev Hlt) as [?|[Hway|?]]; [by left| |by right; right].
  right. left. unfold on_its_way in *. simpl in *. specialize (Hin ev). tauto.
Qed.
Lemma tuned_others sys pending lost bus sub c a :
  tuned (MkLive sys pending lost bus sub c) → foreign sub a →
  tuned (MkLive sys pending lost (hi_bus (act (MkHistory bus ∅) a)) sub c).
Proof.
  intros Ht Ha. eapply tuned_bus; [exact Ht|destruct a; simpl; auto|].
  - unfold Receive. by destruct (bu_subs bus !! id) as [[? ? [] ?]|].
  - intros s Hs Hw. pose proof (tn_next _ Ht) as Hn. simpl in Hn.
    exists s. split; [|by split_and!]. destruct a as [task|id|ev|id|cap]; simpl in *; try done.
    + rewrite lookup_insert_ne; [done|lia].
    + by rewrite lookup_alter_ne.
    + unfold Receive. destruct (bu_subs bus !! id) as [[? ? [] ?]|]; simpl; try done.
      by rewrite lookup_insert_ne.
Qed.
Lemma tuned_publish sys before ev after lost bus sub c :
  tuned (MkLive sys (before ++ ev :: after) lost bus sub c) →
  tuned (MkLive sys (before ++ after) lost (Publish ev bus) sub c).
Proof.
  intros Ht. eapply tuned_bus; [exact Ht|done|]. intros s Hs Hw. simpl. rewrite lookup_fmap, Hs.
  exists (offer ev s). split; [done|]. unfold offer, wants. rewrite Hw. simpl.
  destruct (su_done s) eqn:Hd; simpl; [split; [done|congruence]|].
  case_decide; simpl; (split; [done|]); [|discriminate].
  intros _. split; [done|]. intros e. rewrite !elem_of_app, elem_of_cons, list_elem_of_singleton.
  tauto.
Qed.
Lemma Receive_inv sub bus ev bus' :
  Receive sub bus = (Some ev, bus') →
  ∃ task cap events isdone, bu_subs bus !! sub = Some (MkSubscriber task cap (ev :: events) isdone) ∧
    bus' = MkBus (<[sub := MkSubscriber task cap events isdone]> (bu_subs bus)) (bu_next bus)
             (bu_Capacity bus).
Proof.
  unfold Receive. destruct (bu_subs bus !! sub) as [[task cap [|e events] isdone]|]; [done| |done].
  intros [= -> <-]. by exists task, cap, events, isdone.
Qed.
Lemma tuned_event sys pending lost bus bus' sub c ev :
  tuned (MkLive sys pending lost bus sub c) → cn_at c = Waiting → Receive sub bus = (Some ev, bus') →
  tuned (MkLive sys pending lost bus' sub (handle_event ev c)).
Proof.
  intros [Hg Hn _ (s & Hs & Hw & Hk)] Hat (task & cap & events & isdone & Hb & ->)%Receive_inv.
  destruct (handle_event_cases ev c Hat) as [Hc Hsent]. simpl in *.
  rewrite Hb in Hs. injection Hs as <-. simpl in *. split; simpl; [done|done| |].
  { intros id upto after r E. destruct Hc as [E'|[E' _]]; congruence. }
  rewrite lookup_insert_eq. eexists. split; [done|]. split; [done|]. simpl. intros Hd Hne.
  destruct Hc as [?|(Hw' & Htasks & Hout)]; [done|]. intros id from e Hid%Htasks Hev Hlt. simpl in *.
  destruct (Hk Hd ltac:(by rewrite Hat) id from e Hid Hev Hlt) as [Hin|[[Hin|Hway]|Hto]].
  - left. by eapply elem_of_prefix.
  - simpl in Hin. apply elem_of_cons in Hin as [->|Hin]; [|by right; left; left].
    left. apply Hsent; [done|]. apply event_of in Hev as [-> _]. by rewrite Hid.
  - right. left. by right.
  - unfold to_replay in Hto. simpl in Hto. by rewrite Hat in Hto.
Qed.

Lemma tuned_step l l' : tuned l → live_step l l' → tuned l'.
Proof.
  intros Ht Hstep. destruct Hstep.
  - eapply tuned_system; [exact Ht|done|done|set_solver..].
  - eapply tuned_system; [exact Ht|done|done|set_solver..].
  - by apply tuned_publish.
  - by apply tuned_others.
  - by eapply tuned_event.
  - by apply tuned_command.
  - by apply tuned_round.
  - by eapply tuned_conn; [exact Ht|done|intros []].
Qed.
Lemma tuned_connected sys l : connected sys l → tuned l.
Proof.
  intros (Hr & bus & pending & lost & ->). split; simpl; [by apply reachable_inv|lia|done|].
  rewrite lookup_insert_eq. eexists. split; [done|]. split; [done|].
  intros _ _ id from ev. simpl. by rewrite lookup_empty.
Qed.

(** Every step of the system but a crash is one of the two system steps beside a connection. *)
Lemma live_covers sys sys' pending lost bus sub c :
  step sys sys' → w_hooks (sy_world sys') ≠ [] →
  ∃ pending' lost', live_step (MkLive sys pending lost bus sub c) (MkLive sys' pending' lost' bus sub c).
Proof.
  intros Hs Hne. destruct (step_announces _ _ Hs) as [(hs & Hh & E)|[(Hh & evs & E)|Hcrash]]; [..|by subst].
  - do 2 eexists. by eapply live_acked.
  - do 2 eexists. by eapply live_unacked.
Qed.

(** C23: the event stream skips nothing silently. Take a connection to a running server, whatever
    transactions run, commit or lose their acknowledgement, in whatever order their events reach
    the bus, whoever else subscribes and whatever the client asks for, even while a replay is
    under way. As long as the connection is open and not told to leave, whenever it waits for the
    next command or event, that is, no replay is in progress, every stored event of a
    task it is subscribed to, from the number it asked for, has been sent, or waits in its
    channel, or is about to be published, or belongs to a transaction whose acknowledgement was
    lost. *)
Theorem stream_skips_nothing sys l0 l id from ev s :
  connected sys l0 → rtc live_step l0 l →
  bu_subs (lv_bus l) !! lv_sub l = Some s → su_done s = false → cn_at (lv_conn l) = Waiting →
  cn_tasks (lv_conn l) !! id = Some from → ev ∈ events_of (sy_db (lv_sys l)) id →
  (from < ev_Seq ev)%Z →
  SentEvent ev ∈ cn_out (lv_conn l) ∨ ev ∈ su_events s ∨ ev ∈ lv_pending l ∨ ev ∈ lv_lost l.
Proof.
  intros Hc%tuned_connected Hsteps Hs Hd Hat Hid Hev Hlt.
  assert (tuned l) as [_ _ _ (s' & Hs' & _ & Hk)].
  { induction Hsteps as [|x y z H _ IH]; [done|]. eapply IH; try done. by eapply tuned_step. }
  replace s' with s in Hk by congruence.
  destruct (Hk Hd ltac:(by rewrite Hat) id from ev Hid Hev Hlt) as [?|[Hway|Hto]];
    [by left|by right|]. unfold to_replay in Hto. by rewrite Hat in Hto.
Qed.
End live.

(** ** A client that connects late *)
#[export] Instance demo_socket : Socket := {| uuid_ok _ := true; delivers _ := true |}.
Section demo.
#[local] Existing Instance demo_platform.
Definition demo_before : list System.action := demo_plan ++ [DoApproval "uuid-11"].
Definition demo_sys : Sys := demo_run demo_before.
Definition demo_sys' : Sys := demo_run (demo_before ++ [demo_decide "approve"]).
Definition demo_bus : Bus := (Bus.Subscribe "" NewBus).2.
Definition demo_asked : Conn :=
  handle_command (Task (sy_db demo_sys) "t1") (MkMessage "subscribe" (Some "t1") 1) Accept.
Definition demo_read : Conn := replay_round (Events (sy_db demo_sys)) demo_asked.
Definition demo_conn : Conn := replay_round (Events (sy_db demo_sys)) demo_read.
Definition demo_news : list Event :=
  published (drop (length (w_hooks (sy_world demo_sys))) (w_hooks (sy_world demo_sys'))).
Definition demo_ev : Event := default (note "" 0) (head demo_news).
Lemma demo_first : published (drop (length (w_hooks (sy_world demo_sys))) (w_hooks (sy_world demo_sys')))
  = demo_ev :: tail demo_news.
Proof. vm_compute. reflexivity. Qed.
Lemma demo_live : rtc live_step
  (MkLive demo_sys [] [] demo_bus 0 Accept)
  (MkLive demo_sys' (tail demo_news) [] (Publish demo_ev demo_bus) 0 demo_conn).
Proof.
  eapply rtc_l; [eapply (live_command _ _ _ _ _ _ (MkMessage "subscribe" (Some "t1") 1)
    (Task (sy_db demo_sys) "t1")); [reflexivity|by intros ? ? [= <-] ?]|].
  eapply rtc_l; [eapply (live_round _ _ _ _ _ _ (Events (sy_db demo_sys))); by left|].
  eapply rtc_l; [eapply (live_round _ _ _ _ _ _ (Events (sy_db demo_sys))); by left|].
  eapply rtc_l; [eapply (live_acked demo_sys demo_sys'
    (drop (length (w_hooks (sy_world demo_sys))) (w_hooks (sy_world demo_sys'))))|].
  - apply (do_action_step _ (demo_decide "approve")). vm_compute. reflexivity.
  - vm_compute. reflexivity.
  - vm_compute. reflexivity.
  - rewrite demo_first. eapply rtc_l; [|apply rtc_refl].
    apply (live_publish demo_sys' [] demo_ev (tail demo_news)).
Qed.
Lemma demo_connected : connected demo_sys (MkLive demo_sys [] [] demo_bus 0 Accept).
Proof.
  split; [|exists NewBus, [], []; reflexivity].
  apply (demo_reachable demo_before). vm_compute. reflexivity.
Qed.
Lemma demo_stored : demo_ev ∈ events_of (sy_db demo_sys') "t1".
Proof. apply (list_elem_of_lookup_2 _ 3). vm_compute. reflexivity. Qed.
Lemma stream_skips_nothing_witness :
  SentEvent demo_ev ∈ cn_out demo_conn ∨ demo_ev ∈ [demo_ev] ∨ demo_ev ∈ tail demo_news
  ∨ demo_ev ∈ [].
Proof.
  refine (stream_skips_nothing demo_sys _ _ "t1" 1 demo_ev (MkSubscriber "" 512 [demo_ev] false)
    demo_connected demo_live _ _ _ _ demo_stored _); vm_compute; reflexivity.
Defined.
Lemma demo_logs : log_wf (sy_db demo_sys) ∧ log_wf (sy_db demo_sys') ∧
  db_le (sy_db demo_sys) (sy_db demo_sys').
Proof.
  pose proof (reachable_inv _ (proj1 demo_connected)) as Hi.
  assert (step demo_sys demo_sys') as Hs.
  { apply (do_action_step _ (demo_decide "approve")). vm_compute. reflexivity. }
  pose proof (step_effect _ _ Hi Hs) as He.
  split; [apply (gd_log _ (si_good _ Hi))|split; [apply (gd_log _ (ef_good _ _ He))|apply (ef_le _ _ He)]].
Qed.
Definition demo_later (n : nat) : DB := sy_db demo_sys'.
Lemma replay_exact_witness :
  let missed := filter (λ ev, 1 < ev_Seq ev)%Z (events_of (sy_db demo_sys) "t1") in
  replay 2 demo_later
    (handle_command (Task (sy_db demo_sys) "t1") (MkMessage "subscribe" (Some "t1") 1) Accept) =
  MkConn (<["t1" := 1%Z]> (cn_tasks Accept)) (cn_summary Accept) false
    (cn_out Accept ++ (SentEvent <$> missed) ++ [SentSubscribed "t1" (Z.of_nat (length missed))]) Waiting.
Proof.
  assert (∃ t, Task (sy_db demo_sys) "t1" = Ok t) as (t & Ht).
  { eexists. vm_compute; reflexivity. }
  assert (length (filter (λ ev, 1 < ev_Seq ev)%Z (events_of (sy_db demo_sys) "t1")) ≤ 500 * 1) as Hn
    by (apply Nat.leb_le; vm_compute; reflexivity).
  destruct demo_logs as (Hw & Hw' & Hle).
  exact (proj2 (replay_exact (sy_db demo_sys) demo_later "t1" 1 t Accept (λ _, eq_refl) eq_refl
    ltac:(lia) Hw (λ _, conj Hw' Hle) Ht eq_refl) 2 1 Hn ltac:(lia)).
Defined.
Lemma demo_conn_out : length (cn_out demo_conn) = 3.
Proof. vm_compute. reflexivity. Qed.
End demo.
