(* ===== verification/Orchestrator.v ===== *)
(** * The orchestrator ([internal/orchestrator/orchestrator.go])

    [Reconcile] brings the goroutines of a task in line with its stages, [run] is the body of
    such a goroutine, [Recover] reconciles every task.  They act on the store by the
    transactions of [Commit], between which anybody else may act, and on the registry of
    running stages.  What they do is a sequence of steps of [System] (so that its theorems
    hold of them), no stage has two goroutines, and reconciling leaves no runnable stage
    without one. *)
From S2P Require Import Prelude GoStrings Protocol Domain Pipeline PipelineJSON Agent Llm Tools.
From S2P Require Import Scm Publish Store Event Runner History Derived Approval Task Commit Flow.
From S2P Require Import Effects Settled System.

(** ** State *)
(** A task's registry entry: whether its context is cancelled, and the stages that have a
    goroutine (the keys of [running]).
    src: internal/orchestrator/orchestrator.go 27-32 taskRun *)
Record taskRun := MkTaskRun { tr_cancelled : bool; tr_running : gset string }.
(** The bodies that [spawn] starts. *)
Inductive job :=
  | JobWake (id : string)
  | JobRun (t : TaskEntity) (s : StageEntity) (i : Input).
(** [o_live] are the goroutines that have not ended, [o_done] says that the orchestrator's
    context is cancelled, [o_hooks] counts the hooks of the store already run and [o_clock]
    the accesses to the world outside.
    src: internal/orchestrator/orchestrator.go 33-45 Orchestrator *)
Record Orch := MkOrch {
  o_sys : Sys; o_tasks : gmap string taskRun; o_live : list job; o_closed : bool; o_done : bool;
  o_hooks : nat; o_clock : nat }.

(** What the orchestrator finds outside: the fate of its [n]-th transaction, what the others
    do to the store before its [n]-th access, and the results of the workspace. *)
Class Env := {
  fate_at : nat → Fate;
  interfere : nat → Sys → Sys;
  load_definition : nat → string → result Def;
  accept : nat → string → string → option (list string) → result unit;
  reset : nat → string → option (list string) → result unit;
  WorkspaceRoot : string;
  cleanup : nat → string → list string → result unit;
  branch_commit : nat → string → string → option (list string) → string → result (string * bool);
  push_branch_to : nat → string → string → string → string → result unit }.

(** What the agent runner finds outside. *)
Class AgentWorld := {
  agent_registry : Registry;
  agent_timeout : Z;
  open_at : nat → string → result unit;
  chat_at : nat → LLM → ChatRequest → result ChatResponse;
  call_at : nat → Sandbox → string → RawMessage → result string;
  read_at : nat → Sandbox → string → result string;
  write_at : nat → Sandbox → string → string → result unit;
  time_at : nat → Z }.

Definition with_sys (o : Orch) sys clock :=
  MkOrch sys (o_tasks o) (o_live o) (o_closed o) (o_done o) (o_hooks o) clock.
Definition with_tasks (o : Orch) tasks :=
  MkOrch (o_sys o) tasks (o_live o) (o_closed o) (o_done o) (o_hooks o) (o_clock o).
Definition with_live (o : Orch) live :=
  MkOrch (o_sys o) (o_tasks o) live (o_closed o) (o_done o) (o_hooks o) (o_clock o).
Definition with_hooks (o : Orch) hooks :=
  MkOrch (o_sys o) (o_tasks o) (o_live o) (o_closed o) (o_done o) hooks (o_clock o).
Definition set_world (sys : Sys) (w : World) : Sys :=
  MkSys w (sy_seen sys) (sy_held sys) (sy_read sys).
Definition with_run (o : Orch) (id : string) (r : taskRun) := with_tasks o (<[id := r]> (o_tasks o)).
Abbreviation M := (io Orch).

(** ** The registry *)
(** src: internal/orchestrator/orchestrator.go 51-61 Orchestrator.task *)
Definition task_run (id : string) : M taskRun := λ o,
  match o_tasks o !! id with
  | Some r => (Ok r, o)
  | None => let r := MkTaskRun false ∅ in (Ok r, with_run o id r)
  end.
Definition set_run (id : string) (r : taskRun) : M unit := λ o, (Ok tt, with_run o id r).
Definition running_of (r : taskRun) running : taskRun := MkTaskRun (tr_cancelled r) running.
Definition register (f : gset string → gset string) (id : string) : M unit :=
  r ← task_run id; set_run id (running_of r (f (tr_running r))).
(** False when the orchestrator is closing.
    src: internal/orchestrator/orchestrator.go 62-71 Orchestrator.spawn *)
Definition spawn (j : job) : M bool := λ o,
  if o_closed o || o_done o then (Ok false, o) else (Ok true, with_live o (o_live o ++ [j])).
(** src: internal/orchestrator/orchestrator.go 72-78 Orchestrator.Wake *)
Definition Wake (id : string) : M unit := _ ← spawn (JobWake id); mret tt.
(** src: internal/orchestrator/orchestrator.go 79-79 Orchestrator.Cancel *)
Definition Cancel (id : string) : M unit :=
  r ← task_run id; set_run id (MkTaskRun true (tr_running r)).
(** Waiting for the goroutines to end is not part of the state.
    src: internal/orchestrator/orchestrator.go 80-80 Orchestrator.Close *)
Definition Close : M unit := λ o,
  (Ok tt, MkOrch (o_sys o) (o_tasks o) (o_live o) true true (o_hooks o) (o_clock o)).

(** The agent runner: given the input of a stage and the event callback. *)
Class StageRunner := run_stage : Input → (string → json → M unit) → M Result.

Section orchestrator.
Context {PF : Platform} {UC : Unicode} {EV : Env}.

(** ** Access to the store *)
(** The hooks of committed transactions wake and cancel tasks; the events are the bus's. *)
Definition run_hook (h : Hook) : M unit :=
  match h with
  | HookPublish _ => mret tt
  | HookWake id => Wake id
  | HookCancel id => Cancel id
  end.
Definition run_hooks : M unit := λ o,
  let hooks := w_hooks (sy_world (o_sys o)) in
  each run_hook (drop (o_hooks o) hooks) (with_hooks o (length hooks)).
(** The others act; the number of the access comes back. *)
Definition access : M nat := λ o,
  (Ok (o_clock o), with_sys o (interfere (o_clock o) (o_sys o)) (S (o_clock o))).

(** An access: the others act, pending hooks run, then [f]. *)
Definition entry {A} (f : nat → M A) : M A := n ← access; run_hooks;; f n.
Definition look {A} (f : DB → result A) : M A := λ o, (f (sy_db (o_sys o)), o).

Definition read_task (id : string) : M TaskEntity := entry (λ _, look (λ db, Task db id)).
Definition read_project (id : string) : M ProjectEntity :=
  entry (λ _, look (λ db, Project db id)).
Definition read_tasks : M (list TaskEntity) := entry (λ _, look (λ db, Tasks db None None)).
Definition read_approvals (task : string) : M (list ApprovalEntity) :=
  entry (λ _, look (λ db, Approvals db (Some task) None)).
(** The stages read are snapshots that the system remembers. *)
Definition see_stages (task : string) : M (list StageEntity) := λ o,
  let sys := o_sys o in
  match Stages (sy_db sys) task with
  | Ok ss => (Ok ss, with_sys o (MkSys (sy_world sys) (ss ++ sy_seen sys) (sy_held sys)
                                   (sy_read sys)) (o_clock o))
  | Err e => (Err e, o)
  end.
Definition read_stages (task : string) : M (list StageEntity) := entry (λ _, see_stages task).
(** A transaction; the hooks of a committed one run before it returns. *)
Definition commit_at {A} (fn : Tx A) (n : nat) : M A := λ o,
  let '(r, w) := WithTx (fate_at n) fn (sy_world (o_sys o)) in
  (r, with_sys o (set_world (o_sys o) w) (o_clock o)).
Definition transacting {A} (fn : Tx A) : M A :=
  r ← attempt (entry (commit_at fn)); run_hooks;; give r.
Definition transact (c : call) : M unit := transacting (call_tx c).
(** The claim returns the stage as the claimed goroutine will hold it. *)
Definition commit_claim (s : StageEntity) (stages : list StageEntity) (n : nat) : M StageEntity :=
  λ o,
  let sys := o_sys o in
  let mode := claim_mode s stages in
  match WithTx (fate_at n) (claim_tx (s_TaskID s) s mode) (sy_world sys) with
  | (Ok s', w) => (Ok s', with_sys o (MkSys w (sy_seen sys) ((s', mode) :: sy_held sys)
                                        (sy_read sys)) (o_clock o))
  | (Err e, w) => (Err e, with_sys o (set_world sys w) (o_clock o))
  end.
(** src: internal/orchestrator/orchestrator.go 238-275 Orchestrator.claim *)
Definition claim (s : StageEntity) (stages : list StageEntity) : M StageEntity :=
  r ← attempt (entry (commit_claim s stages)); run_hooks;; give r.

(** A call of the workspace's git or of its files. *)
Definition outside {A} (f : nat → result A) : M A := entry (λ n, give (f n)).

(** ** Reconciling *)
Definition no_spec : StageSpec := MkSpec "" "" None None "" None.
(** src: internal/orchestrator/orchestrator.go 150-156 Orchestrator.Reconcile (spec) *)
Definition spec_of (d : Def) (key : string) : StageSpec :=
  default no_spec (find (λ v, ss_ID v =? key) (pl_Stages (df_Pipeline d))).
(** The deliverables of the stages it depends on.
    src: internal/orchestrator/orchestrator.go 166-170 Orchestrator.Reconcile (inputs) *)
Definition inputs_of (s : StageEntity) (stages : list StageEntity) : string :=
  String.concat "" (map (λ dep, s_StageKey dep +:+ ": " +:+ Text (s_DeliverableRef dep) +:+ nl +:+
                                Text (s_DeliverableSummary dep) +:+ nl)
    (filter (λ dep, s_StageKey dep ∈ s_DependsOn s) stages)).
(** src: internal/orchestrator/orchestrator.go 162-165 Orchestrator.Reconcile (input) *)
Definition input_of (t : TaskEntity) (d : Def) (s claimed : StageEntity)
    (stages : list StageEntity) (mode : string) : Input :=
  MkInput (t_ID t) (t_Command t) mode (Text (s_Plan claimed)) (Text (s_LastFeedback claimed))
    (inputs_of s stages) (spec_of d (s_StageKey s)) d
    (if mode =? "execute" then s_DeliverableRetryNo claimed else s_PlanRetryNo claimed).
Definition with_Pipeline (d : Def) (p : Pipeline) : Def :=
  MkDef p (df_Agents d) (df_ProjectSpec d) (df_Workspace d).
Definition paths_of (d : Def) (role : string) : option (list string) :=
  ag_WritePaths (agent_of d role).

(** Registers the stage and starts its goroutine, unless the orchestrator is closing.
    src: internal/orchestrator/orchestrator.go 160-178 Orchestrator.Reconcile (launch) *)
Definition launch (t : TaskEntity) (sid : string) (j : job) : M unit :=
  register (λ running, {[sid]} ∪ running) (t_ID t);;
  started ← spawn j;
  if started : bool then mret tt else register (λ running, running ∖ {[sid]}) (t_ID t).

(** The body of the loop over the stages: [continue] is the end of the body.
    src: internal/orchestrator/orchestrator.go 125-178 Orchestrator.Reconcile (stage) *)
Definition reconcile_stage (t : TaskEntity) (d : Def) (stages : list StageEntity)
    (s : StageEntity) : M unit :=
  r ← task_run (t_ID t);
  let mode := claim_mode s stages in
  if bool_decide (s_ID s ∈ tr_running r) || (mode =? "") then mret tt else
  claimed ← attempt (claim s stages);
  match claimed with
  | Err e => if errors_is e ErrStale then mret tt else raise e
  | Ok claimed =>
    if ss_ID (spec_of d (s_StageKey s)) =? ""
    then raise (ErrorText ("missing stage in pipeline snapshot: " +:+ s_StageKey s)) else
    launch t (s_ID s) (JobRun t claimed (input_of t d s claimed stages mode))
  end.

(** [o.ctx.Err()] *)
Definition alive : M unit := λ o, (if o_done o then Err ErrCanceled else Ok tt, o).

(** What is done with the rows read.  The definition file and the task's snapshot hold the
    same pipeline, which [CreateTask] wrote to both: decoding the snapshot over the file's
    replaces it.  [t.ID] is [id], the key under which the row was read.
    src: internal/orchestrator/orchestrator.go 98-180 Orchestrator.Reconcile (body) *)
Definition reconcile_task (id : string) (t : TaskEntity) (stages : list StageEntity) : M unit :=
  if (t_Status t =? "failed") || (t_Status t =? "cancelled") then Cancel id else
  d ← attempt (outside (λ n, load_definition n (t_Workspace t)));
  match d with
  | Err e => transact (CallFail (t_ID t) "" 0 e)
  | Ok d =>
    p ← give (unmarshal_pipeline (t_Pipeline t));
    let d := with_Pipeline d p in
    each (λ s, if s_Status s =? "approved"
               then outside (λ n, accept n (t_Workspace t) (s_StageKey s) (paths_of d (s_Role s)))
               else mret tt) stages;;
    if Terminal (t_Status t) || (t_Status t =? "paused") || (t_Status t =? "blocked")
    then mret tt else
    (if t_Status t =? "queued" then transact (CallStart (t_ID t) d) else mret tt);;
    each (reconcile_stage t d stages) stages;;
    transact (CallDerive (t_ID t))
  end.
(** src: internal/orchestrator/orchestrator.go 81-181 Orchestrator.Reconcile *)
Definition Reconcile (id : string) : M unit :=
  alive;;
  _ ← task_run id;
  t ← read_task id;
  stages ← read_stages id;
  reconcile_task id t stages.

(** ** The goroutine of a stage *)
Context {SR : StageRunner} (SCM : option (Publisher Orch)).

(** [in.Emit] *)
Definition emit (s : StageEntity) (kind : string) (payload : json) : M unit :=
  transact (CallProgress s kind payload).
Definition publish_ops (s : StageEntity) : PublishOps Orch := {|
  po_Project := read_project;
  po_Stages := read_stages;
  po_Approvals := read_approvals;
  po_BranchCommit dir source patterns message :=
    outside (λ n, branch_commit n dir source patterns message);
  po_Push dir sha branch header := outside (λ n, push_branch_to n dir sha branch header);
  po_Emit := emit s |}.
(** src: internal/orchestrator/orchestrator.go 192-201 Orchestrator.run (work) *)
Definition work (t : TaskEntity) (s : StageEntity) (i : Input) : M Result :=
  (if in_Mode i =? "execute"
   then outside (λ n, reset n (t_Workspace t) (paths_of (in_Definition i) (s_Role s)))
   else mret tt);;
  if ag_ToolProfile (agent_of (in_Definition i) (s_Role s)) =? "publisher"
  then publish (publish_ops s) SCM t i
  else run_stage i (emit s).
(** [ctx.Err()] of the goroutine. *)
Definition ctx_err (r : taskRun) : M bool := λ o, (Ok (o_done o || tr_cancelled r), o).
Definition cancelled (id : string) : M bool := r ← task_run id; ctx_err r.
(** What becomes of a run that failed; what goes wrong here is only logged.
    src: internal/orchestrator/orchestrator.go 205-217 Orchestrator.run (error) *)
Definition settle_error (t : TaskEntity) (s : StageEntity) (e : error) : M unit :=
  stop ← cancelled (t_ID t);
  if stop : bool then mret tt else
  if errors_as is_publish_error e is Some _ then
    _ ← attempt (transact (CallBlock s e)); mret tt
  else if errors_is e ErrStale || errors_is e ErrBudgetExceeded then mret tt
  else _ ← attempt (transact (CallFail (t_ID t) (s_ID s) (s_Attempt s) e)); mret tt.
Definition job_key (j : job) : option (string * string) :=
  match j with JobWake _ => None | JobRun t s _ => Some (t_ID t, s_ID s) end.
Definition end_run (key : string * string) : M unit := λ o,
  (Ok tt, with_live o (filter (λ j, job_key j ≠ Some key) (o_live o))).
(** src: internal/orchestrator/orchestrator.go 183-191 Orchestrator.run (defer) *)
Definition finish (t : TaskEntity) (s : StageEntity) : M unit :=
  register (λ running, running ∖ {[s_ID s]}) (t_ID t);;
  end_run (t_ID t, s_ID s);;
  Wake (t_ID t).
(** src: internal/orchestrator/orchestrator.go 182-218 Orchestrator.run *)
Definition run (t : TaskEntity) (s : StageEntity) (i : Input) : M unit :=
  r ← attempt (result ← work t s i; transact (CallCommit s i result));
  match r with
  | Ok _ => mret tt
  | Err e => settle_error t s e
  end;;
  finish t s.

(** ** The agent runner

    Its model, its sandbox and its clock are outside; the budget guard is the service's. *)
Section agent.
Context {AW : AgentWorld}.
(** src: internal/app/budget.go 18-50 BudgetService.Check (as the runner's guard) *)
Definition budget_check (id : string) : M unit :=
  t ← read_task id;
  used ← entry (λ _, look (λ db, TokensUsed db id));
  if (used <? t_TokenBudget t)%Z then mret tt else
  exceeded ← transacting (check_tx id);
  if exceeded : bool then raise ErrBudgetExceeded else mret tt.
Definition agent_alive (task : string) : M unit :=
  stop ← cancelled task; if stop : bool then raise ErrCanceled else mret tt.
Definition agent_ops (task : string) (report : string → json → M unit) : Ops Orch := {|
  op_open dir := outside (λ n, open_at n dir);
  op_emit := report;
  op_chat model request := outside (λ n, chat_at n model request);
  op_alive := agent_alive task;
  op_call sandbox name args := outside (λ n, call_at n sandbox name args);
  op_read sandbox path := outside (λ n, read_at n sandbox path);
  op_write sandbox path content := outside (λ n, write_at n sandbox path content);
  op_clock := outside (λ n, Ok (time_at n)) |}.
Definition agent_runner : StageRunner := λ i report,
  Run (agent_ops (in_TaskID i) report)
    (MkRunner _ agent_registry (Some budget_check) agent_timeout) i.
End agent.

(** ** Recovery *)
(** The errors are those that [errors.Join] joins.
    src: internal/orchestrator/orchestrator.go 419-441 Orchestrator.Recover *)
Definition Recover : M (list error) :=
  tasks ← read_tasks;
  errs ← each_fold (λ errs t,
    if (t_Status t =? "failed") || (t_Status t =? "cancelled") then mret errs else
    r ← attempt (Reconcile (t_ID t));
    mret (errs ++ if r is Err e then [e] else [])) [] tasks;
  if WorkspaceRoot =? "" then mret errs else
  r ← attempt (outside (λ n, cleanup n WorkspaceRoot (map t_ID tasks)));
  mret (errs ++ if r is Err e then [e] else []).

(** ** Goroutines

    A turn runs a goroutine from its start to its end, while [interfere] lets the others
    act between its accesses; or one of the methods that others call. *)
(** src: internal/orchestrator/orchestrator.go 47-50 New *)
Definition New (sys : Sys) : Orch :=
  MkOrch sys ∅ [] false false (length (w_hooks (sy_world sys))) 0.
(** What goes wrong in a wake-up is only logged.
    src: internal/orchestrator/orchestrator.go 73-77 Orchestrator.Wake (body) *)
Definition wake_body (id : string) : M unit := _ ← attempt (Reconcile id); mret tt.

Inductive turn : Orch → Orch → Prop :=
  | turn_wake o before id after r o' :
      o_live o = before ++ JobWake id :: after →
      wake_body id (with_live o (before ++ after)) = (r, o') → turn o o'
  | turn_run o t s i r o' : JobRun t s i ∈ o_live o → run t s i o = (r, o') → turn o o'
  | turn_recover o r o' : Recover o = (r, o') → turn o o'
  | turn_woken o id r o' : Wake id o = (r, o') → turn o o'
  | turn_cancel o id r o' : Cancel id o = (r, o') → turn o o'
  | turn_close o r o' : Close o = (r, o') → turn o o'.
Definition runs (sys : Sys) (o : Orch) : Prop := rtc turn (New sys) o.
End orchestrator.
