(* ===== verification/Scheduling.v ===== *)
(** * What the orchestrator guarantees ([internal/orchestrator/orchestrator.go])

    Whatever the outside does between its accesses: all the orchestrator does is steps of
    [System], a stage has at most one goroutine, and [Reconcile] leaves no runnable stage
    without one. *)
From S2P Require Import Prelude GoStrings Protocol Domain Pipeline PipelineJSON Agent Llm Tools.
From S2P Require Import Scm Publish Store Event Runner History Derived Approval Task Commit Flow.
From S2P Require Import Effects Settled System Orchestrator.

(** ** Paths of the system *)
(** Steps that lose no snapshot (a crash would end the orchestrator itself). *)
Definition path {PF : Platform} {UC : Unicode} (a b : Sys) : Prop :=
  rtc step a b ∧ sy_seen a ⊆ sy_seen b ∧ sy_held a ⊆ sy_held b ∧ sy_read a ⊆ sy_read b.
#[export] Instance path_preorder {PF : Platform} {UC : Unicode} : PreOrder path.
Proof.
  split; [by intros a|]. intros a b c (?&?&?&?) (?&?&?&?).
  split_and!; [by trans b|by trans (sy_seen b)|by trans (sy_held b)|by trans (sy_read b)].
Qed.
Definition ordinary_error (e : error) : Prop := ¬ is_publish e.

(** The outside acts by steps; only the publisher makes a [publishError], an unexported
    type, so the driver's errors are none. *)
Class EnvLaws {PF : Platform} {UC : Unicode} {EV : Env} := {
  interfere_path n sys : path sys (interfere n sys);
  fate_error n e :
    (fate_at n = Lost e ∨ ∃ applied, fate_at n = Unacked applied e) → ordinary_error e }.
(** A runner acts on the orchestrator's state only through the event callback, the budget
    guard and the outside, and fails with their errors or its own, never a [publishError]. *)
Class RunnerLaws {PF : Platform} {UC : Unicode} {EV : Env} {SR : StageRunner} := {
  run_stage_conducts (R : relation Orch) `{!PreOrder R} i report :
    (∀ A (f : nat → result A), conducts R (outside f)) →
    (∀ id, conducts R (budget_check id)) →
    (∀ id, conducts R (cancelled id)) →
    (∀ kind payload, conducts R (report kind payload)) →
    conducts R (run_stage i report);
  run_stage_fails i report :
    (∀ kind payload, fails_in ordinary_error (report kind payload)) →
    fails_in ordinary_error (run_stage i report) }.
(** So does the publisher of pull requests. *)
Class PublisherLaws {PF : Platform} {UC : Unicode} {EV : Env} (SCM : option (Publisher Orch)) :=
  open_conducts (R : relation Orch) `{!PreOrder R} pub pr :
    (∀ A (f : nat → result A), conducts R (outside f)) →
    SCM = Some pub → conducts R (pb_Open pub pr).

(** The model, the sandbox and the files are of other packages. *)
Class AgentLaws {AW : AgentWorld} := {
  open_error n dir e : open_at n dir = Err e → ordinary_error e;
  chat_error n m q e : chat_at n m q = Err e → ordinary_error e;
  read_error n s p e : read_at n s p = Err e → ordinary_error e;
  write_error n s p c e : write_at n s p c = Err e → ordinary_error e }.

Section scheduling.
Context {PF : Platform} {UC : Unicode} {EV : Env} {EL : EnvLaws}.

(** ** Everything is a path *)
(** The stage of a goroutine is held in its mode. *)
Definition job_ready (s : StageEntity) (i : Input) (o : Orch) : Prop :=
  (s, in_Mode i) ∈ sy_held (o_sys o) ∧ in_Mode i ∈ ["plan"; "execute"].
(** The orchestrator's state moves along a path, and every new goroutine has a claim. *)
Record legit (o o' : Orch) : Prop := {
  lg_path : path (o_sys o) (o_sys o');
  lg_live t s i : JobRun t s i ∈ o_live o' →
    JobRun t s i ∈ o_live o ∨ job_ready s i o' }.
#[export] Instance legit_preorder : PreOrder legit.
Proof.
  split; [by split; auto|]. intros a b c [Hp Hl] [Hp' Hl']. split; [by trans (o_sys b)|].
  intros t s i Hin. destruct (Hl' _ _ _ Hin) as [Hb|]; [|by right].
  destruct (Hl _ _ _ Hb) as [|[Hh ?]]; [by left|right]. split; [by apply Hp'|done].
Qed.
Lemma legit_same o o' : o_sys o' = o_sys o → o_live o' = o_live o → legit o o'.
Proof. intros E E'. split; [by rewrite E|]. intros *. rewrite E'. by left. Qed.
Lemma legit_sys o sys n : path (o_sys o) sys → legit o (with_sys o sys n).
Proof. intros Hp. split; [done|]. by left. Qed.

(** What only touches the registry. *)
Lemma task_run_legit id : conducts legit (task_run id).
Proof. intros o r o'. unfold task_run. case_match; intros [= _ <-]; [done|by apply legit_same]. Qed.
Lemma set_run_legit id r : conducts legit (set_run id r).
Proof. intros o r' o' [= _ <-]. by apply legit_same. Qed.
Definition spawnable (j : job) (o : Orch) : Prop := ∀ t s i, j = JobRun t s i → job_ready s i o.
Lemma spawn_legit j : conducts (under (spawnable j) legit) (spawn j).
Proof.
  intros o r o'. unfold spawn. case_match; intros [= _ <-] Hj; (split; [|done]); [done|].
  split; [done|]. simpl. intros t s i [?|E%list_elem_of_singleton]%elem_of_app; eauto.
Qed.
Hint Resolve task_run_legit set_run_legit : conducts.
Lemma register_legit f id : conducts legit (register f id).
Proof. unfold register. solve_conducts. Qed.
Hint Resolve register_legit : conducts.
Lemma Wake_legit id : conducts legit (Wake id).
Proof.
  unfold Wake. apply conducts_bind; [exact _| |intros ?; solve_conducts].
  eapply conducts_given, spawn_legit. by intros ????.
Qed.
Lemma Cancel_legit id : conducts legit (Cancel id).
Proof. unfold Cancel. solve_conducts. Qed.
Hint Resolve Wake_legit Cancel_legit : conducts.
Lemma run_hooks_legit : conducts legit run_hooks.
Proof.
  intros o r o' H. etransitivity; [by apply (legit_same o (with_hooks o (length (w_hooks (sy_world (o_sys o))))))|].
  unfold run_hooks in H. revert H. apply conducts_each; [exact _|]. intros []; simpl; solve_conducts.
Qed.
Lemma access_legit : conducts legit access.
Proof. intros o r o' [= _ <-]. apply legit_sys, interfere_path. Qed.
Lemma look_legit {A} (f : DB → result A) : conducts legit (look f).
Proof. by intros o r o' [= _ <-]. Qed.
Hint Resolve run_hooks_legit access_legit look_legit : conducts.
Lemma entry_legit {A} (f : nat → M A) : (∀ n, conducts legit (f n)) → conducts legit (entry f).
Proof. intros Hf. unfold entry. solve_conducts. Qed.
Lemma outside_legit {A} (f : nat → result A) : conducts legit (outside f).
Proof. apply entry_legit. intros n. solve_conducts. Qed.
Lemma see_stages_legit id : conducts legit (see_stages id).
Proof.
  intros o r o'. unfold see_stages. destruct (Stages (sy_db (o_sys o)) id) as [ss|] eqn:H;
    intros [= _ <-]; [|done]. apply legit_sys. split; [by apply rtc_once, (step_stages _ id)|].
  simpl. split_and!; [|done..]. intros x. rewrite elem_of_app. auto.
Qed.
Hint Resolve outside_legit see_stages_legit : conducts.

(** [lifting H]: the parts that are [legit] anyway are so under a condition, by [H]. *)
Tactic Notation "lifting" uconstr(H) :=
  repeat first
    [ solve [apply H; solve_conducts]
    | apply conducts_bind; [exact _| |intros ?]
    | apply conducts_attempt ].

(** ** Transactions *)
Lemma allowed_path sys sys' c : path sys sys' → allowed sys c → allowed sys' c.
Proof. intros (_ & _ & Hh & Hr). destruct c; simpl; try done; naive_solver. Qed.
Definition may (c : call) (o : Orch) : Prop := allowed (o_sys o) c.
Lemma may_legit c {A} (m : M A) : conducts legit m → conducts (under (may c) legit) m.
Proof. apply conducts_under. intros o o' H [Hp _]. by eapply allowed_path. Qed.
(** A transaction that [step_call] allows when [P] holds. *)
Definition stepping (P : Orch → Prop) {A} (fn : Tx A) : Prop :=
  ∀ fate o r w, P o → WithTx fate fn (sy_world (o_sys o)) = (r, w) →
    path (o_sys o) (set_world (o_sys o) w).
Lemma commit_at_legit (P : Orch → Prop) {A} (fn : Tx A) n :
  (∀ o o', P o → legit o o' → P o') → stepping P fn → conducts (under P legit) (commit_at fn n).
Proof.
  intros HP Hfn o r o'. unfold commit_at.
  destruct (WithTx (fate_at n) fn (sy_world (o_sys o))) as [r' w] eqn:H.
  intros [= _ <-] Ho. assert (legit o (with_sys o (set_world (o_sys o) w) (o_clock o))) as Hl.
  { apply legit_sys. by eapply Hfn. }
  split; [done|]. by eapply HP.
Qed.
Lemma transacting_legit (P : Orch → Prop) {A} (fn : Tx A) :
  (∀ o o', P o → legit o o' → P o') → stepping P fn → conducts (under P legit) (transacting fn).
Proof.
  intros HP Hfn. assert (∀ B (m : M B), conducts legit m → conducts (under P legit) m) as Hl
    by by intros B m; apply conducts_under.
  unfold transacting, entry. lifting Hl. by apply commit_at_legit.
Qed.
Lemma transact_legit c : conducts (under (may c) legit) (transact c).
Proof.
  apply transacting_legit.
  - intros o o' H [Hp _]. by eapply allowed_path.
  - intros fate o r w Hm H. split; [by apply rtc_once; eapply step_call|done].
Qed.
Lemma WithTx_void {A} fate (fn : Tx A) w :
  WithTx fate (_ ← fn; mret tt) w =
    let '(r, w') := WithTx fate fn w in ((λ _, tt) <$> r, w').
Proof.
  unfold WithTx, mbind, state_bind. destruct (fn _) as [[a σ]|e], fate as [|[]|]; done.
Qed.
Lemma budget_check_legit id : conducts legit (budget_check id).
Proof.
  assert (conducts legit (transacting (check_tx id))).
  { eapply conducts_given with (P := λ _, True), transacting_legit; [done|done|].
    intros fate o r w _ H. split; [|done]. apply rtc_once.
    eapply (step_call _ (CallCheck id) fate); [done|]. simpl. by rewrite WithTx_void, H. }
  assert (∀ A (f : DB → result A), conducts legit (entry (λ _, look f))).
  { intros. apply entry_legit. intros n. solve_conducts. }
  unfold budget_check, read_task. solve_conducts.
Qed.
(** A call that anybody may make. *)
Lemma transact_free c : (∀ sys, allowed sys c) → conducts legit (transact c).
Proof. intros Hc. eapply conducts_given, transact_legit. intros o. apply Hc. Qed.

(** ** Claims *)
Definition seen (s : StageEntity) (o : Orch) : Prop := s ∈ sy_seen (o_sys o).
Definition holds (s : StageEntity) (mode : string) (o : Orch) : Prop :=
  (s, mode) ∈ sy_held (o_sys o).
Lemma seen_legit s {A} (m : M A) : conducts legit m → conducts (under (seen s) legit) m.
Proof. apply conducts_under. unfold seen. intros o o' H [(_ & Hs & _) _]. by apply Hs. Qed.
Lemma holds_legit s mode o o' : holds s mode o → legit o o' → holds s mode o'.
Proof. unfold holds. intros H [(_ & _ & Hh & _) _]. by apply Hh. Qed.

Lemma commit_claim_legit s stages n :
  claim_mode s stages ≠ "" → conducts (under (seen s) legit) (commit_claim s stages n).
Proof.
  intros Hne o r o'. unfold commit_claim.
  destruct (WithTx _ _ _) as [[s'|e] w] eqn:H; intros [= _ <-] Hs; (split; [apply legit_sys|done]).
  - split; [by apply rtc_once; eapply step_claim|]. simpl. split_and!; [done| |done].
    intros x. rewrite elem_of_cons. auto.
  - split; [by apply rtc_once; eapply step_claim_failed|done].
Qed.
Lemma claim_legit s stages :
  claim_mode s stages ≠ "" → conducts (under (seen s) legit) (claim s stages).
Proof.
  intros Hne. unfold claim, entry. lifting seen_legit. by apply commit_claim_legit.
Qed.
Lemma io_attempt_ok {S A} (m : io S A) σ r σ' :
  attempt m σ = (Ok r, σ') → m σ = (r, σ').
Proof. unfold attempt. destruct (m σ) as [r' σ1]. by intros [= -> ->]. Qed.

(** The stage that comes back is the one asked for, and it is held from then on. *)
Lemma claim_ok s stages o s' o' :
  claim s stages o = (Ok s', o') →
  holds s' (claim_mode s stages) o' ∧ s_ID s' = s_ID s ∧ s_TaskID s' = s_TaskID s.
Proof.
  unfold claim, entry. intros (r & o1 & H1%io_attempt_ok & H)%io_bind_ok.
  apply io_bind_ok in H as (u & o2 & H2 & [= -> <-]).
  apply io_bind_ok in H1 as (n & oa & _ & H1). apply io_bind_ok in H1 as (u' & ob & _ & H1).
  unfold commit_claim in H1.
  destruct (WithTx _ _ _) as [[x|e] w] eqn:H; [|done]. injection H1 as -> <-.
  split.
  - eapply holds_legit; [|by eapply run_hooks_legit]. unfold holds. simpl. by left.
  - apply WithTx_cases in H as [[_ ?]|(x & σ & H & _ & E)]; [done|]. rewrite (E _ eq_refl).
    unfold claim_tx in H. inv_run; done.
Qed.

(** ** Reconciling *)
Lemma spawnable_stable j o o' : spawnable j o → legit o o' → spawnable j o'.
Proof. intros Hj [(_ & _ & Hh & _) _] t s i E. destruct (Hj _ _ _ E). split; [by apply Hh|done]. Qed.
Lemma spawnable_legit j {A} (m : M A) : conducts legit m → conducts (under (spawnable j) legit) m.
Proof. apply conducts_under. intros o o'. apply spawnable_stable. Qed.
Lemma launch_legit t sid j : conducts (under (spawnable j) legit) (launch t sid j).
Proof. unfold launch. lifting spawnable_legit. apply spawn_legit. Qed.

Lemma claim_mode_cases s stages :
  claim_mode s stages = "" ∨ claim_mode s stages ∈ ["plan"; "execute"].
Proof. unfold claim_mode. repeat case_match; (by left) || (right; set_solver). Qed.

Lemma reconcile_stage_legit t d stages s :
  conducts (under (seen s) legit) (reconcile_stage t d stages s).
Proof.
  unfold reconcile_stage. apply conducts_bind; [exact _|by lifting seen_legit|]. intros r.
  case_match eqn:Hb; [by lifting seen_legit|]. apply orb_false_iff in Hb as [_ Hm].
  apply String.eqb_neq in Hm.
  apply conducts_bind_post with (Q := λ r o, ∀ s', r = Ok s' → holds s' (claim_mode s stages) o);
    [exact _|by apply conducts_attempt, claim_legit|..].
  - intros o a o' H%io_attempt_ok s' ->. by apply claim_ok in H as [? _].
  - intros claimed. apply conducts_under2; [intros o o' Hin [(_ & Hs & _) _]; by apply Hs|].
    destruct claimed as [claimed|e]; [|apply conducts_under; [by intros|solve_conducts]].
    case_match; [apply conducts_under; [|solve_conducts]; intros o o' Hq Hl s' E;
      eapply holds_legit; eauto|].
    eapply conducts_weaken; [| |apply launch_legit].
    + intros o Hq t' s' i' [= <- <- <-]. split; [by apply Hq|].
      by destruct (claim_mode_cases s stages).
    + intros o o' Hq Hl s' E. eapply holds_legit; eauto.
Qed.
Lemma read_stages_legit id : conducts legit (read_stages id).
Proof. apply entry_legit. intros n. solve_conducts. Qed.
Lemma read_stages_seen id o ss o' :
  read_stages id o = (Ok ss, o') → ∀ s, s ∈ ss → seen s o'.
Proof.
  unfold read_stages, entry. intros (n & o1 & _ & H)%io_bind_ok.
  apply io_bind_ok in H as (u & o2 & _ & H). revert H. unfold see_stages.
  destruct (Stages _ _) as [ss0|] eqn:E; [|done]. intros [= <- <-]. intros s Hs. unfold seen. simpl.
  apply elem_of_app. by left.
Qed.
Lemma read_legit {A} (f : DB → result A) : conducts legit (entry (λ _, look f)).
Proof. apply entry_legit. intros n. solve_conducts. Qed.
Lemma alive_legit : conducts legit alive.
Proof. by intros o r o' [= _ <-]. Qed.
Hint Resolve read_stages_legit read_legit alive_legit : conducts.

Definition all_seen (ss : list StageEntity) (o : Orch) : Prop := ∀ s, s ∈ ss → seen s o.
Lemma all_seen_legit ss {A} (m : M A) :
  conducts legit m → conducts (under (all_seen ss) legit) m.
Proof.
  apply conducts_under. intros o o' H [(_ & Hs & _) _] s Hin. by apply Hs, H.
Qed.
Lemma transact_seen ss c :
  (∀ sys, allowed sys c) → conducts (under (all_seen ss) legit) (transact c).
Proof. intros Hc. by apply all_seen_legit, transact_free. Qed.
Lemma reconcile_stage_seen t d ss s :
  s ∈ ss → conducts (under (all_seen ss) legit) (reconcile_stage t d ss s).
Proof.
  intros Hin. eapply conducts_weaken, reconcile_stage_legit; [by auto|].
  intros o o' Hs [(_ & Hi & _) _] x Hx. by apply Hi, Hs.
Qed.
Lemma reconcile_task_legit id t stages :
  conducts (under (all_seen stages) legit) (reconcile_task id t stages).
Proof.
  unfold reconcile_task.
  repeat first [ solve [lifting all_seen_legit] | by apply transact_seen
    | by apply reconcile_stage_seen
    | apply conducts_each_in; [exact _|intros ??] | apply conducts_bind; [exact _| |intros ?]
    | apply conducts_attempt | case_match ].
Qed.
Lemma Reconcile_legit id : conducts legit (Reconcile id).
Proof.
  unfold Reconcile, read_task.
  do 3 (apply conducts_bind; [exact _|by solve_conducts|intros ?]).
  apply (conducts_bind_post legit all_seen); [solve_conducts| |].
  - intros o ss o' H. exact (read_stages_seen _ _ _ _ H).
  - intros stages. apply reconcile_task_legit.
Qed.

Lemma cancelled_legit id : conducts legit (cancelled id).
Proof.
  unfold cancelled. apply conducts_bind; [exact _|solve_conducts|]. by intros r o r' o' [= _ <-].
Qed.

(** ** The goroutine of a stage *)
Context {SR : StageRunner} {RL : RunnerLaws} (SCM : option (Publisher Orch)) {PL : PublisherLaws SCM}.
Lemma ready_stable s i o o' : job_ready s i o → legit o o' → job_ready s i o'.
Proof. intros [H ?] [(_ & _ & Hh & _) _]. split; [by apply Hh|done]. Qed.
Lemma ready_legit s i {A} (m : M A) : conducts legit m → conducts (under (job_ready s i) legit) m.
Proof. apply conducts_under. intros o o'. apply ready_stable. Qed.
Lemma transact_ready s i c :
  (∀ o, job_ready s i o → may c o) → conducts (under (job_ready s i) legit) (transact c).
Proof.
  intros Hc. eapply conducts_weaken; [exact Hc| |apply transact_legit].
  intros o o'. apply ready_stable.
Qed.
Lemma emit_legit s i k p : conducts (under (job_ready s i) legit) (emit s k p).
Proof. apply transact_ready. intros o [H _]. by exists (in_Mode i). Qed.
Lemma work_legit t s i : conducts (under (job_ready s i) legit) (work SCM t s i).
Proof.
  assert (∀ A (f : nat → result A), conducts (under (job_ready s i) legit) (outside f)) as Ho.
  { intros. by apply ready_legit, outside_legit. }
  unfold work. apply conducts_bind; [exact _|case_match; [done|by lifting ready_legit]|intros ?].
  case_match.
  - apply publish_conducts; [exact _|]. split; simpl; try done.
    + intros p. by apply ready_legit, read_legit.
    + intros p. by apply ready_legit, read_stages_legit.
    + intros p. by apply ready_legit, read_legit.
    + intros k p. apply emit_legit.
    + intros pub pr E. exact (open_conducts (SCM:=SCM) _ pub pr Ho E).
  - apply run_stage_conducts; [exact _|done|..|intros *; apply emit_legit]; intros id.
    + apply ready_legit, budget_check_legit.
    + apply ready_legit, cancelled_legit.
Qed.
(** ** Planning makes no [publishError] *)
Lemma fails_bind_post {A B} (Q : A → Prop) F (m : M A) (f : A → M B) :
  fails_in F m → (∀ o a o', m o = (Ok a, o') → Q a) → (∀ a, Q a → fails_in F (f a)) →
  fails_in F (m ≫= f).
Proof.
  intros Hm HQ Hf o e o'. unfold mbind, io_bind. destruct (m o) as [[a|e'] o1] eqn:E.
  - apply Hf. by eapply HQ.
  - intros [= <- _]. by eapply Hm.
Qed.
Lemma task_run_fails F id : fails_in F (task_run id).
Proof. intros o e o'. unfold task_run. by case_match. Qed.
Lemma spawn_fails F j : fails_in F (spawn j).
Proof. intros o e o'. unfold spawn. by case_match. Qed.
Hint Resolve task_run_fails spawn_fails : fails_in.
Lemma run_hooks_fails F : fails_in F run_hooks.
Proof.
  intros o e o'. unfold run_hooks. generalize (with_hooks o (length (w_hooks (sy_world (o_sys o))))).
  intros o1. revert o1 e o'. apply fails_each. intros [e|id|id]; simpl; unfold Wake, Cancel; solve_fails.
  by intros o2 e2 o2'.
Qed.
Lemma entry_fails {A} F (f : nat → M A) : (∀ n, fails_in F (f n)) → fails_in F (entry f).
Proof.
  intros Hf. unfold entry. apply fails_bind; [by intros o e o'|intros n].
  apply fails_bind; [apply run_hooks_fails|intros _; apply Hf].
Qed.
Lemma look_fails {A} (f : DB → result A) :
  (∀ db e, f db = Err e → ordinary_error e) → fails_in ordinary_error (entry (λ _, look f)).
Proof. intros Hf. apply entry_fails. intros n o e o' [= H _]. by eapply Hf. Qed.
Lemma publish_commit_error e : is_publish (CommitError e) → is_publish e.
Proof.
  unfold is_publish, errors_as. simpl. by rewrite !fmap_is_Some.
Qed.
Lemma WithTx_fails {A} n (fn : Tx A) w e w' :
  never is_publish fn → WithTx (fate_at n) fn w = (Err e, w') → ordinary_error e.
Proof.
  intros Hn. unfold WithTx.
  pose proof (fate_error n) as Hf. destruct (fn _) as [[a σ]|e1] eqn:H, (fate_at n) as [|b e2|e2];
    intros [= <- _]; try (by eapply Hn); [intros Hp%publish_commit_error; revert Hp|];
    apply Hf; eauto.
Qed.
Lemma transacting_fails {A} (fn : Tx A) :
  never is_publish fn → fails_in ordinary_error (transacting fn).
Proof.
  intros Hn. unfold transacting.
  apply fails_bind_post with (Q := λ r, ∀ e, r = Err e → ordinary_error e).
  - apply fails_attempt.
  - intros o r o' H%io_attempt_ok e ->. revert H. apply entry_fails.
    intros n o1 e1 o1'. unfold commit_at. destruct (WithTx _ _ _) as [r w] eqn:H.
    intros [= -> _]. by eapply WithTx_fails.
  - intros r Hr. apply fails_bind; [apply run_hooks_fails|intros _]. by apply fails_give.
Qed.

Lemma publish_plan_fails s t i :
  in_Mode i = "plan" → fails_in ordinary_error (publish (publish_ops s) SCM t i).
Proof.
  intros Hm. unfold publish, report. rewrite Hm. simpl.
  apply fails_bind; [|intros p].
  { apply look_fails. intros db e. apply (decode_rare is_publish). intros e' H.
    unfold row_by_id in H. destruct (db_projects db !! _); [done|]. injection H as <-.
    by apply (not_rare is_publish). }
  apply fails_bind; [|intros r; solve_fails]. apply fails_bind; [|intros ss].
  { apply entry_fails. by intros n o e o'. }
  apply fails_bind; [by apply look_fails|intros; solve_fails].
Qed.
Lemma emit_fails s k p : fails_in ordinary_error (emit s k p).
Proof. apply transacting_fails. apply (rare_progress_tx is_publish). Qed.
Lemma commit_fails s i r : fails_in ordinary_error (transact (CallCommit s i r)).
Proof. apply transacting_fails, (rare_commit_tx is_publish). intros c [x H]. done. Qed.
Lemma work_plan_fails t s i :
  in_Mode i = "plan" → fails_in ordinary_error (work SCM t s i).
Proof.
  intros Hm. unfold work. rewrite Hm. simpl. apply fails_bind; [solve_fails|intros _].
  case_match; [by apply publish_plan_fails|]. apply run_stage_fails. intros k p. apply emit_fails.
Qed.

(** ** The whole goroutine *)
Definition blockable (s : StageEntity) (i : Input) (e : error) (o : Orch) : Prop :=
  job_ready s i o ∧ (is_publish e → in_Mode i = "execute").
Lemma blockable_stable s i e o o' : blockable s i e o → legit o o' → blockable s i e o'.
Proof. intros [H ?] Ho. split; [by eapply ready_stable|done]. Qed.
Lemma blockable_legit s i e {A} (m : M A) :
  conducts legit m → conducts (under (blockable s i e) legit) m.
Proof. apply conducts_under. intros o o'. apply blockable_stable. Qed.
Lemma block_legit s i e :
  is_publish e → conducts (under (blockable s i e) legit) (transact (CallBlock s e)).
Proof.
  intros He. eapply conducts_weaken; [| |apply transact_legit].
  - intros o [[H Hm] Hp]. unfold may, allowed. by rewrite <- Hp.
  - intros o o'. apply blockable_stable.
Qed.
Lemma settle_error_legit t s i e :
  conducts (under (blockable s i e) legit) (settle_error t s e).
Proof.
  pose proof (cancelled_legit (t_ID t)).
  assert (∀ id sid n, conducts legit (transact (CallFail id sid n e))) as Hfail
    by by intros; apply transact_free.
  unfold settle_error.
  repeat first [ solve [lifting blockable_legit] | solve [apply block_legit; unfold is_publish; eauto]
    | apply conducts_bind; [exact _| |intros ?] | apply conducts_attempt | case_match ].
Qed.
Lemma end_run_legit key : conducts legit (end_run key).
Proof.
  intros o r o' [= _ <-]. split; [done|]. simpl. intros t s i [_ Hin]%list_elem_of_filter. by left.
Qed.
Hint Resolve end_run_legit : conducts.
Lemma finish_legit t s : conducts legit (finish t s).
Proof. unfold finish. solve_conducts. Qed.
Lemma conducts_bind_fact {A B} (φ : A → Prop) (R : relation Orch) `{!PreOrder R} (m : M A)
    (f : A → M B) :
  conducts R m → (∀ o a o', m o = (Ok a, o') → φ a) → (∀ a, φ a → conducts R (f a)) →
  conducts R (m ≫= f).
Proof.
  intros Hm Hφ Hf. eapply conducts_bind_post with (Q := λ a _, φ a); [done|done|done|].
  intros a o r o' H Ha. split; [by eapply Hf|done].
Qed.
Lemma run_legit t s i :
  in_Mode i ∈ ["plan"; "execute"] → conducts (under (job_ready s i) legit) (run SCM t s i).
Proof.
  intros Hmode. unfold run.
  apply (conducts_bind_fact (λ r, ∀ e, r = Err e → is_publish e → in_Mode i = "execute")); [exact _|..].
  - apply conducts_attempt, conducts_bind; [exact _|apply work_legit|intros result].
    apply transact_ready. by intros o [? _].
  - intros o r o' H%io_attempt_ok e -> Hp.
    apply elem_of_cons in Hmode as [Hm| ->%list_elem_of_singleton]; [|done]. exfalso.
    assert (fails_in ordinary_error (result ← work SCM t s i; transact (CallCommit s i result)))
      as Hf by (apply fails_bind; [by apply work_plan_fails|apply commit_fails]).
    by eapply Hf.
  - intros r Hr. apply conducts_bind; [exact _| |intros ?; apply ready_legit, finish_legit].
    destruct r as [a|e]; [by lifting ready_legit|].
    eapply conducts_weaken; [| |apply settle_error_legit with (e := e)].
    + intros o Ho. split; [done|by apply Hr].
    + intros o o'. apply ready_stable.
Qed.

(** ** Every turn *)
Lemma Recover_legit : conducts legit Recover.
Proof. unfold Recover, read_tasks. assert (∀ id, conducts legit (Reconcile id)) by exact Reconcile_legit.
  solve_conducts. Qed.
Definition grounded (o : Orch) : Prop :=
  reachable (o_sys o) ∧ ∀ t s i, JobRun t s i ∈ o_live o → job_ready s i o.
Lemma legit_grounded o o' : grounded o → legit o o' → grounded o'.
Proof.
  intros [Hr Hl] [Hp Hl']. split; [unfold reachable in *; trans (o_sys o); [done|apply Hp]|].
  intros t s i Hin. destruct (Hl' _ _ _ Hin) as [H|]; [|done].
  by eapply ready_stable; [apply (Hl _ _ _ H)|].
Qed.
Lemma turn_grounded o o' : grounded o → turn SCM o o' → grounded o'.
Proof.
  intros Hg Ht. destruct Ht as [o1 before id after r o1' E H|o1 t s i r o1' Hin H|o1 r o1' H
    |o1 id r o1' H|o1 id r o1' H|o1 r o1' H].
  - apply (legit_grounded (with_live o1 (before ++ after))).
    + destruct Hg as [Hr Hl]. split; [done|]. simpl. intros t s i Hin. apply (Hl t).
      revert Hin. rewrite E. simpl. rewrite !elem_of_app, elem_of_cons. tauto.
    + revert H. apply conducts_bind; [exact _|apply conducts_attempt, Reconcile_legit|].
      intros ?. solve_conducts.
  - eapply legit_grounded; [done|]. destruct Hg as [_ Hl]. pose proof (Hl _ _ _ Hin) as Hr.
    by apply (run_legit t s i (proj2 Hr) _ _ _ H).
  - eapply legit_grounded; [done|]. by eapply Recover_legit.
  - eapply legit_grounded; [done|]. by eapply Wake_legit.
  - eapply legit_grounded; [done|]. by eapply Cancel_legit.
  - injection H as _ <-. done.
Qed.

(** C4: the orchestrator refines the system of interleaved transactions: starting on a
    reachable system, after any turns of its goroutines, wake-ups, cancellations and
    recoveries, with anything else happening to the database in between, it has only made
    legal steps, and each of its goroutines holds the claim it works on, in its mode.  So
    every theorem on reachable systems holds of it. *)
Theorem orchestrator_refines sys o :
  reachable sys → runs SCM sys o →
  reachable (o_sys o) ∧
  ∀ t s i, JobRun t s i ∈ o_live o →
    (s, in_Mode i) ∈ sy_held (o_sys o) ∧ in_Mode i ∈ ["plan"; "execute"].
Proof.
  intros Hr Ho. assert (grounded (New sys)) as Hg.
  { split; [done|]. intros t s i. by rewrite elem_of_nil. }
  unfold runs in Ho. change (grounded o).
  induction Ho as [|x y z H _ IH]; [done|]. by eapply IH, turn_grounded.
Qed.
End scheduling.

(** ** The agent runner obeys the laws *)
Section agent.
Context {PF : Platform} {UC : Unicode} {EV : Env} {EL : EnvLaws} {AW : AgentWorld} {AL : AgentLaws}.

Lemma outside_fails {A} (f : nat → result A) :
  (∀ n e, f n = Err e → ordinary_error e) → fails_in ordinary_error (outside f).
Proof. intros Hf. apply entry_fails. intros n. apply fails_give, Hf. Qed.
Lemma texts_ordinary text : ordinary_error (ErrorText text).
Proof. by apply (not_rare is_publish). Qed.
Lemma cancelled_fails id : fails_in ordinary_error (cancelled id).
Proof. apply fails_bind; [apply task_run_fails|]. by intros r o e o'. Qed.
Lemma add_int8_ordinary a b e : add_int8 a b = Err e → ordinary_error e.
Proof. unfold add_int8. case_decide; [done|]. intros [= <-]. by apply (not_rare is_publish). Qed.
Lemma TokensUsed_ordinary db task e : TokensUsed db task = Err e → ordinary_error e.
Proof.
  unfold TokensUsed, TaskTokensUsed. generalize (filter (λ u, u_TaskID u = task) (db_usage db)).
  intros l. set (f := foldr _ _ l). assert (∀ e, f = Err e → ordinary_error e) as Hf.
  { subst f. clear e. induction l as [|u l IH]; [done|]. simpl. intros e.
    repeat (apply (result_bind_rare is_publish); [by first [apply IH|apply add_int8_ordinary]|];
      clear e; intros ? e). done. }
  apply (result_bind_rare is_publish); [done|]. intros a e'. apply add_int8_ordinary.
Qed.
Lemma budget_check_fails id : fails_in ordinary_error (budget_check id).
Proof.
  unfold budget_check. apply fails_bind; [|intros t].
  { apply look_fails. intros db e. apply (decode_rare is_publish), (row_by_id_rare is_publish). }
  apply fails_bind; [apply look_fails; intros db e; apply TokensUsed_ordinary|intros used]. case_match; [apply fails_ret|].
  apply fails_bind; [|intros []; [|apply fails_ret]].
  - apply transacting_fails. unfold check_tx. solve_never.
    apply never_reading. intros db e. apply TokensUsed_ordinary.
  - apply fails_raise. by intros [x Hx].
Qed.
Lemma agent_runner_laws : RunnerLaws (SR:=agent_runner).
Proof.
  split.
  - intros R HR i report Ho Hb Hc Hr. apply Run_conducts; [exact _| |].
    + split; simpl; try done; try (by intros; apply Ho). unfold agent_alive. solve_conducts.
    + by intros check task [= <-].
  - intros i report Hr. apply Run_fails; [|by intros check task [= <-]; apply budget_check_fails|
      apply texts_ordinary].
    split; simpl; try done.
    + intros p. apply outside_fails. intros n e. apply open_error.
    + intros m q. apply outside_fails. intros n e. apply chat_error.
    + unfold agent_alive. apply fails_bind; [apply cancelled_fails|intros []; [|apply fails_ret]].
      apply fails_raise. by intros [x H].
    + intros s p. apply outside_fails. intros n e. apply read_error.
    + intros s p c. apply outside_fails. intros n e. apply write_error.
    + by apply outside_fails.
Qed.
End agent.
