(* ===== verification/Flight.v ===== *)
(** * The registry of running stages ([internal/orchestrator/orchestrator.go])

    A stage has at most one goroutine, and exactly the stages that have one are registered;
    and [Reconcile] leaves no runnable stage without one. *)
From S2P Require Import Prelude GoStrings Protocol Domain Pipeline PipelineJSON Agent Llm Tools.
From S2P Require Import Scm Publish Store Event Runner History Derived Approval Task Commit Flow.
From S2P Require Import Effects Settled System Orchestrator Scheduling.

(** The stages that have a goroutine, and those that are registered. *)
Definition keys (o : Orch) : list (string * string) := omap job_key (o_live o).
Definition registered (o : Orch) (id : string) : gset string :=
  default ∅ (tr_running <$> o_tasks o !! id).
Definition open_now (o : Orch) : Prop := o_closed o = false ∧ o_done o = false.
Record flight (o : Orch) : Prop := {
  fl_once : NoDup (keys o);
  fl_registered id sid : (id, sid) ∈ keys o ↔ sid ∈ registered o id }.

(** Neither the registry nor the goroutines of stages change. *)
Record same_flight (o o' : Orch) : Prop := {
  sf_keys : keys o' = keys o;
  sf_registered id : registered o' id = registered o id;
  sf_open : open_now o' ↔ open_now o }.
#[export] Instance same_flight_preorder : PreOrder same_flight.
Proof.
  split; [done|]. intros a b c [Hk Hr Ho] [Hk' Hr' Ho'].
  split; [congruence|intros id; by rewrite Hr'|by rewrite Ho'].
Qed.
Lemma same_flight_flight o o' : flight o → same_flight o o' → flight o'.
Proof. intros [Hn Hr] [Hk Hs _]. split; [by rewrite Hk|]. intros id sid. by rewrite Hk, Hs. Qed.

Lemma registered_run o id r id' :
  registered (with_run o id r) id' = if decide (id = id') then tr_running r else registered o id'.
Proof. unfold registered. simpl. case_decide; by simplify_map_eq. Qed.
(** What [task_run] returns is the registry's entry. *)
Lemma task_run_entry id o r o' :
  task_run id o = (r, o') → ∃ e, r = Ok e ∧ tr_running e = registered o id ∧ same_flight o o' ∧
    o_live o' = o_live o ∧ o_closed o' = o_closed o ∧ o_done o' = o_done o ∧ o_sys o' = o_sys o.
Proof.
  unfold task_run, registered. destruct (o_tasks o !! id) as [e|] eqn:E; intros [= <- <-].
  - exists e. by split_and!.
  - exists (MkTaskRun false ∅). split_and!; try done. split; [done| |done].
    intros id'. rewrite registered_run. case_decide; [subst|done]. unfold registered. by rewrite E.
Qed.
Lemma task_run_same id : conducts same_flight (task_run id).
Proof. intros o r o' (e & _ & _ & H & _)%task_run_entry. done. Qed.
Lemma Wake_same id : conducts same_flight (Wake id).
Proof.
  intros o r o'. unfold Wake, spawn, mbind, io_bind. simpl.
  destruct (o_closed o || o_done o); intros [= _ <-]; [done|].
  split; [|done|done]. unfold keys. simpl. rewrite omap_app. simpl. by rewrite app_nil_r.
Qed.
Lemma Cancel_same id : conducts same_flight (Cancel id).
Proof.
  intros o r o' H. unfold Cancel, mbind, io_bind in H. destruct (task_run id o) as [re o1] eqn:E.
  apply task_run_entry in E as (e & -> & He & Hs & _). injection H as _ <-.
  etransitivity; [exact Hs|]. split; [done| |done]. intros id'. rewrite registered_run.
  case_decide; [subst id'|done]. simpl. by rewrite He, (sf_registered _ _ Hs).
Qed.
#[export] Hint Resolve task_run_same Wake_same Cancel_same : conducts.

Section flight.
Context {PF : Platform} {UC : Unicode} {EV : Env}.
Lemma access_same : conducts same_flight access.
Proof. by intros o r o' [= _ <-]. Qed.
Lemma look_same {A} (f : DB → result A) : conducts same_flight (look f).
Proof. by intros o r o' [= _ <-]. Qed.
Lemma run_hooks_same : conducts same_flight run_hooks.
Proof.
  intros o r o' H. transitivity (with_hooks o (length (w_hooks (sy_world (o_sys o))))); [done|].
  revert H. apply conducts_each; [exact _|]. intros []; simpl; solve_conducts.
Qed.
Hint Resolve access_same look_same run_hooks_same : conducts.
Lemma entry_same {A} (f : nat → M A) :
  (∀ n, conducts same_flight (f n)) → conducts same_flight (entry f).
Proof. intros Hf. unfold entry. solve_conducts. Qed.
Lemma outside_same {A} (f : nat → result A) : conducts same_flight (outside f).
Proof. apply entry_same. intros n. solve_conducts. Qed.
Lemma read_same {A} (f : DB → result A) : conducts same_flight (entry (λ _, look f)).
Proof. apply entry_same. intros n. solve_conducts. Qed.
Lemma read_stages_same id : conducts same_flight (read_stages id).
Proof. apply entry_same. intros n o r o'. unfold see_stages. by case_match; intros [= _ <-]. Qed.
Lemma transacting_same {A} (fn : Tx A) : conducts same_flight (transacting fn).
Proof.
  assert (conducts same_flight (entry (commit_at fn))).
  { apply entry_same. intros n o r o'. unfold commit_at. destruct (WithTx _ _ _). by intros [= _ <-]. }
  unfold transacting. solve_conducts.
Qed.
Lemma claim_same s stages : conducts same_flight (claim s stages).
Proof.
  assert (conducts same_flight (entry (commit_claim s stages))).
  { apply entry_same. intros n o r o'. unfold commit_claim.
    destruct (WithTx _ _ _) as [[]]; by intros [= _ <-]. }
  unfold claim. solve_conducts.
Qed.
Hint Resolve outside_same read_same read_stages_same transacting_same claim_same : conducts.
Lemma transact_same c : conducts same_flight (transact c).
Proof. apply transacting_same. Qed.
Lemma cancelled_same id : conducts same_flight (cancelled id).
Proof. unfold cancelled. apply conducts_bind; [exact _|solve_conducts|]. by intros r o r' o' [= _ <-]. Qed.
Lemma alive_same : conducts same_flight alive.
Proof. by intros o r o' [= _ <-]. Qed.
Lemma budget_check_same id : conducts same_flight (budget_check id).
Proof. unfold budget_check, read_task. solve_conducts. Qed.
End flight.
#[export] Hint Resolve outside_same read_same read_stages_same transacting_same claim_same
  transact_same cancelled_same alive_same budget_check_same : conducts.

(** ** Starting and ending a goroutine *)
Lemma flight_New sys : flight (New sys).
Proof.
  split; [apply NoDup_nil_2|]. intros id sid. unfold registered. simpl. rewrite lookup_empty.
  simpl. set_solver.
Qed.
(** The goroutine that a key stands for. *)
Lemma keys_job o id sid :
  (id, sid) ∈ keys o ↔ ∃ t s i, JobRun t s i ∈ o_live o ∧ t_ID t = id ∧ s_ID s = sid.
Proof.
  unfold keys. rewrite list_elem_of_omap. split.
  - intros ([|t s i] & Hin & [= <- <-]). by exists t, s, i.
  - intros (t & s & i & Hin & <- & <-). by exists (JobRun t s i).
Qed.
Lemma spawn_cases j o r o' :
  spawn j o = (r, o') →
  (open_now o ∧ r = Ok true ∧ o' = with_live o (o_live o ++ [j])) ∨
  (¬ open_now o ∧ r = Ok false ∧ o' = o).
Proof.
  unfold spawn, open_now. destruct (o_closed o), (o_done o); intros [= <- <-]; naive_solver.
Qed.
Lemma register_spec f id o r o' :
  register f id o = (r, o') →
  r = Ok tt ∧ keys o' = keys o ∧ o_live o' = o_live o ∧ (open_now o' ↔ open_now o) ∧
  o_sys o' = o_sys o ∧
  ∀ id', registered o' id' = if decide (id = id') then f (registered o id) else registered o id'.
Proof.
  unfold register, mbind, io_bind. destruct (task_run id o) as [re o1] eqn:E.
  apply task_run_entry in E as (e & -> & He & [Hk Hr Ho] & Hl & _ & _ & Hs). intros [= <- <-].
  split_and!; try done. intros id'. rewrite registered_run. case_decide; [|done].
  simpl. by rewrite He.
Qed.
Lemma launch_spec t sid j o r o' :
  job_key j = Some (t_ID t, sid) → sid ∉ registered o (t_ID t) → launch t sid j o = (r, o') →
  r = Ok tt ∧
  ((open_now o ∧ open_now o' ∧ keys o' = keys o ++ [(t_ID t, sid)] ∧
    ∀ id, registered o' id = if decide (t_ID t = id) then {[sid]} ∪ registered o id
                             else registered o id) ∨
   (¬ open_now o ∧ same_flight o o')).
Proof.
  intros Hj Hsid. unfold launch, mbind at 1, io_bind.
  destruct (register (λ R, {[sid]} ∪ R) (t_ID t) o) as [r1 o1] eqn:E1.
  apply register_spec in E1 as (-> & Hk1 & Hl1 & Ho1 & _ & Hr1).
  destruct (spawn j o1) as [rs o2] eqn:E2. unfold mbind, io_bind. rewrite E2.
  apply spawn_cases in E2 as [(Ho & -> & ->)|(Ho & -> & ->)].
  - intros [= <- <-]. split; [done|]. left. split_and!; [by apply Ho1|done| |].
    + unfold keys in *. simpl. rewrite omap_app, Hk1. simpl. by rewrite Hj.
    + intros id. unfold registered in *. simpl. rewrite Hr1. case_decide; [by subst|done].
  - intros (-> & Hk & Hl & Ho' & _ & Hr)%register_spec. split; [done|]. right.
    split; [by rewrite <- Ho1|]. split; [by rewrite Hk| |by rewrite Ho'].
    intros id. rewrite Hr. case_decide as E; [subst id|by rewrite Hr1, decide_False].
    rewrite Hr1, decide_True by done. set_solver.
Qed.
Lemma launch_flight t sid j o r o' :
  flight o → job_key j = Some (t_ID t, sid) → sid ∉ registered o (t_ID t) →
  launch t sid j o = (r, o') → flight o'.
Proof.
  intros [Hn Hf] Hj Hsid H. destruct (launch_spec _ _ _ _ _ _ Hj Hsid H)
    as (_ & [(_ & _ & Hk & Hr)|[_ Hs]]); [|by eapply same_flight_flight].
  split.
  - rewrite Hk. apply NoDup_app. split_and!; [done| |apply NoDup_singleton].
    intros k Hin ->%list_elem_of_singleton. by apply Hsid, Hf.
  - intros id sid'. rewrite Hk, Hr, elem_of_app, list_elem_of_singleton, Hf.
    case_decide; set_solver.
Qed.
Lemma keys_filter k (l : list job) :
  omap job_key (filter (λ j, job_key j ≠ Some k) l) = filter (λ x, x ≠ k) (omap job_key l).
Proof.
  induction l as [|j l IH]; [done|]. rewrite filter_cons. simpl.
  destruct (job_key j) as [k'|] eqn:E.
  - rewrite filter_cons. destruct (decide (k' = k)) as [->|Hne].
    + rewrite decide_False by (by intros []). by rewrite decide_False by (by intros []).
    + rewrite decide_True by congruence. rewrite decide_True by done. simpl. rewrite E. f_equal. exact IH.
  - rewrite decide_True by done. simpl. rewrite E. exact IH.
Qed.
Lemma finish_flight t s o r o' : flight o → finish t s o = (r, o') → flight o'.
Proof.
  intros [Hn Hf]. unfold finish, mbind at 1, io_bind.
  destruct (register _ _ o) as [r1 o1] eqn:E. apply register_spec in E as (-> & Hk & _ & _ & _ & Hr).
  intros H. unfold end_run, mbind, io_bind in H. apply Wake_same in H.
  eapply same_flight_flight; [|exact H]. unfold keys in *. split; unfold keys; simpl.
  - rewrite keys_filter, Hk. by apply NoDup_filter.
  - intros id sid. rewrite keys_filter, list_elem_of_filter, Hk.
    match goal with |- _ ↔ _ ∈ registered ?o2 id => change (registered o2 id) with (registered o1 id) end.
    rewrite Hr, Hf. case_decide; set_solver.
Qed.

(** ** Every turn *)
Section turns.
Context {PF : Platform} {UC : Unicode} {EV : Env} {EL : EnvLaws}.
(** Every run of [m] keeps the registry right. *)
Abbreviation flies := (conducts (keeps flight)).
Lemma flies_same {A} (m : M A) : conducts same_flight m → flies m.
Proof. intros Hm o r o' H Hf. eapply same_flight_flight; [done|by eapply Hm]. Qed.

(** The three ways through the body of the loop. *)
Lemma reconcile_stage_cases t d stages s o r o' :
  reconcile_stage t d stages s o = (r, o') →
  (same_flight o o' ∧ (r = Ok tt → (claim_mode s stages = "" ∨ s_ID s ∈ registered o (t_ID t) ∨
     ∃ o1 e, o_sys o1 = o_sys o ∧ claim s stages o1 = (Err e, o') ∧
       errors_is e ErrStale = true))) ∨
  ∃ o1 i s', same_flight o o1 ∧ (s_ID s ∉ registered o (t_ID t)) ∧ s_ID s' = s_ID s ∧
    launch t (s_ID s) (JobRun t s' i) o1 = (r, o').
Proof.
  intros H. unfold reconcile_stage, mbind at 1, io_bind in H.
  destruct (task_run (t_ID t) o) as [re o1] eqn:E.
  apply task_run_entry in E as (e & -> & He & Hs & _ & _ & _ & Hsys).
  destruct (_ || _) eqn:Hb.
  { injection H as <- <-. left. split; [done|]. intros _. apply orb_true_iff in Hb as [Hb|Hb].
    - right. left. rewrite <- He. by apply bool_decide_eq_true in Hb.
    - left. by apply String.eqb_eq. }
  apply orb_false_iff in Hb as [Hb _]. apply bool_decide_eq_false in Hb. rewrite He in Hb.
  unfold mbind, io_bind, attempt in H. destruct (claim s stages o1) as [[s'|e'] o2] eqn:Ec.
  - pose proof (claim_ok _ _ _ _ _ Ec) as (_ & Hid & _). apply claim_same in Ec.
    destruct (_ =? _).
    + injection H as <- <-. left. split; [by etransitivity|done].
    + right. eexists o2, _, s'. split; [by etransitivity|done].
  - pose proof (claim_same _ _ _ _ _ Ec) as Hc. destruct (errors_is e' ErrStale) eqn:Ee';
      injection H as <- <-; left; (split; [by etransitivity|]); [|done].
    intros _. right. right. by exists o1, e'.
Qed.
Lemma reconcile_stage_flies t d stages s : flies (reconcile_stage t d stages s).
Proof.
  intros o r o' H Hf. apply reconcile_stage_cases in H as [[Hs _]|(o1 & i & s' & Hs & Hn & Hid & H)].
  - by eapply same_flight_flight.
  - eapply launch_flight; [by eapply same_flight_flight| | |exact H].
    + simpl. by rewrite Hid.
    + by rewrite (sf_registered _ _ Hs).
Qed.
Lemma Reconcile_flies id : flies (Reconcile id).
Proof.
  unfold Reconcile, reconcile_task, read_task.
  repeat first [ apply reconcile_stage_flies | solve [apply flies_same; solve_conducts]
    | apply conducts_each; [exact _|intros ?] | apply conducts_bind; [exact _| |intros ?]
    | apply conducts_attempt | case_match ].
Qed.

Context {SR : StageRunner} {RL : RunnerLaws} (SCM : option (Publisher Orch)) {PL : PublisherLaws SCM}.
Lemma work_same t s i : conducts same_flight (work SCM t s i).
Proof.
  unfold work, emit. apply conducts_bind; [exact _|case_match; solve_conducts|intros ?]. case_match.
  - apply publish_conducts; [exact _|]. split; simpl; intros; solve_conducts.
  - apply run_stage_conducts; [exact _|intros; solve_conducts..].
Qed.
Lemma run_flies t s i : flies (run SCM t s i).
Proof.
  unfold run. apply conducts_bind; [exact _|apply flies_same|intros r].
  - apply conducts_attempt, conducts_bind; [exact _|apply work_same|intros ?; solve_conducts].
  - apply conducts_bind; [exact _| |intros ?; intros o r' o' H Hf; by eapply finish_flight].
    apply flies_same. unfold settle_error. solve_conducts.
Qed.
Lemma turn_flight o o' : turn SCM o o' → flight o → flight o'.
Proof.
  intros Ht. destruct Ht as [o1 before id after r o1' E H|o1 t s i r o1' Hin H|o1 r o1' H
    |o1 id r o1' H|o1 id r o1' H|o1 r o1' H]; intros Hf.
  - assert (flies (wake_body id)) as Hw
      by (apply conducts_bind; [exact _|apply conducts_attempt, Reconcile_flies|intros ?; solve_conducts]).
    apply (Hw _ _ _ H). eapply same_flight_flight; [exact Hf|]. split; [|done|done].
    unfold keys. simpl. by rewrite E, !omap_app.
  - by eapply run_flies.
  - assert (flies Recover) as Hr; [|by eapply Hr].
    unfold Recover, read_tasks.
    repeat first [ apply Reconcile_flies | solve [apply flies_same; solve_conducts]
      | apply conducts_each_fold; [exact _|intros ? ?] | apply conducts_bind; [exact _| |intros ?]
      | apply conducts_attempt | case_match ].
  - eapply same_flight_flight; [exact Hf|by eapply Wake_same].
  - eapply same_flight_flight; [exact Hf|by eapply Cancel_same].
  - injection H as _ <-. by destruct Hf.
Qed.

(** C5: single flight: however goroutines, wake-ups, recoveries and requests interleave, a
    stage never has two goroutines, and the registry of running stages lists exactly the
    stages that have one. *)
Theorem single_flight sys o :
  runs SCM sys o →
  NoDup (omap job_key (o_live o)) ∧
  ∀ id sid, (∃ t s i, JobRun t s i ∈ o_live o ∧ t_ID t = id ∧ s_ID s = sid) ↔
    ∃ r, o_tasks o !! id = Some r ∧ sid ∈ tr_running r.
Proof.
  intros Ho. assert (flight o) as [Hn Hf].
  { pose proof (flight_New sys) as Hg. unfold runs in Ho. induction Ho as [|x y z H _ IH]; [done|]. by eapply IH, turn_flight. }
  split; [done|]. intros id sid. transitivity ((id, sid) ∈ keys o).
  - by rewrite keys_job.
  - rewrite Hf. unfold registered. destruct (o_tasks o !! id); simpl; [naive_solver|].
    split; [set_solver|naive_solver].
Qed.
End turns.

(** ** No runnable stage without a goroutine *)
Section idle.
Context {PF : Platform} {UC : Unicode} {EV : Env} {EL : EnvLaws}.

(** Somewhere on the way from [a] to [b] the claim of [s] failed as stale: the task was no
    longer open, a dependency was no longer approved, or the driver said so. *)
Definition refused (s : StageEntity) (stages : list StageEntity) (a b : Sys) : Prop :=
  ∃ sys n e w, path a sys ∧ path sys b ∧ errors_is e ErrStale = true ∧
    WithTx (fate_at n) (claim_tx (s_TaskID s) s (claim_mode s stages)) (sy_world sys) = (Err e, w).
Lemma refused_wider s stages a a' b b' :
  refused s stages a b → path a' a → path b b' → refused s stages a' b'.
Proof.
  intros (sys & n & e & w & Ha & Hb & He & H) Ha' Hb'. exists sys, n, e, w.
  split_and!; [by trans a|by trans b|done|done].
Qed.

Lemma entry_inv {A} (f : nat → M A) o r o' :
  entry f o = (r, o') → ∃ o1, legit o o1 ∧ f (o_clock o) o1 = (r, o').
Proof.
  unfold entry, mbind, io_bind. destruct (access o) as [rn o1] eqn:E1.
  pose proof (access_legit _ _ _ E1) as H1. injection E1 as <- <-. cbn [mbind io_bind].
  destruct (run_hooks _) as [[u|e] o2] eqn:E2.
  - intros H. exists o2. split; [|exact H]. etransitivity; [exact H1|by eapply run_hooks_legit].
  - by destruct (run_hooks_fails (λ _, False) _ _ _ E2).
Qed.
Lemma claim_refused s stages o e o' :
  claim_mode s stages ≠ "" → seen s o → errors_is e ErrStale = true →
  claim s stages o = (Err e, o') → refused s stages (o_sys o) (o_sys o').
Proof.
  intros Hm Hs He H. unfold claim, mbind at 1, io_bind, attempt in H.
  destruct (entry (commit_claim s stages) o) as [r o1] eqn:E1.
  apply entry_inv in E1 as (oa & Ha & E1). revert E1. generalize (o_clock o). intros n E1.
  assert (seen s oa) as Hsa by (apply Ha; exact Hs).
  unfold mbind, io_bind in H. destruct (run_hooks o1) as [[u|e'] o2] eqn:E2;
    [|by destruct (run_hooks_fails (λ _, False) _ _ _ E2)].
  injection H as -> <-. destruct (commit_claim_legit _ _ n Hm _ _ _ E1 Hsa) as [Hl _].
  unfold commit_claim in E1. destruct (WithTx _ _ _) as [[s'|e''] w] eqn:Ew; [done|].
  injection E1 as -> <-. exists (o_sys oa), n, e, w. split_and!; [apply Ha| |done|done].
  etransitivity; [apply Hl|]. by eapply run_hooks_legit.
Qed.

(** What the loop leaves of a stage, and what it keeps meanwhile. *)
Definition served (tid : string) (s : StageEntity) stages (o o' : Orch) : Prop :=
  claim_mode s stages ≠ "" →
  s_ID s ∈ registered o' tid ∨ refused s stages (o_sys o) (o_sys o').
Record grows (o o' : Orch) : Prop := {
  gr_open : open_now o';
  gr_registered id : registered o id ⊆ registered o' id;
  gr_path : path (o_sys o) (o_sys o') }.
Lemma served_wider tid s stages o1 o2 o3 o4 :
  served tid s stages o2 o3 → path (o_sys o1) (o_sys o2) → grows o3 o4 → served tid s stages o1 o4.
Proof.
  intros Hs H12 [_ Hr H34] Hm. destruct (Hs Hm) as [Hin|H]; [left; by apply Hr|right].
  by eapply refused_wider.
Qed.
Lemma same_grows o o' :
  open_now o → same_flight o o' → path (o_sys o) (o_sys o') → grows o o'.
Proof. intros Ho [_ Hr Hop] Hp. split; [by apply Hop|intros id; by rewrite Hr|done]. Qed.

Lemma reconcile_stage_served t d stages s o o' :
  open_now o → seen s o → reconcile_stage t d stages s o = (Ok tt, o') →
  served (t_ID t) s stages o o' ∧ grows o o'.
Proof.
  intros Ho Hseen H. destruct (reconcile_stage_legit _ _ _ _ _ _ _ H Hseen) as [[Hp _] _].
  apply reconcile_stage_cases in H as [[Hs Hc]|(o1 & i & s' & Hs & Hn & Hid & H)].
  - split; [|by apply same_grows]. intros Hm.
    destruct (Hc eq_refl) as [?|[Hin|(o1 & e & E & Hcl & He)]]; [done|left|right].
    + by rewrite (sf_registered _ _ Hs).
    + rewrite <- E. eapply claim_refused; try done. unfold seen. by rewrite E.
  - apply launch_spec in H as (_ & [(_ & Ho' & _ & Hr)|[Hno _]]); [| |by simpl; rewrite Hid
      |by rewrite (sf_registered _ _ Hs)].
    + split; [intros _; left|split; [done| |done]].
      * rewrite Hr, decide_True by done. set_solver.
      * intros id. rewrite Hr, <- (sf_registered _ _ Hs). case_decide; [subst|done]. set_solver.
    + by apply (sf_open _ _ Hs) in Ho.
Qed.
Lemma reconcile_stages_served t d stages l o o' :
  open_now o → (∀ s, s ∈ l → seen s o) → each (reconcile_stage t d stages) l o = (Ok tt, o') →
  (∀ s, s ∈ l → served (t_ID t) s stages o o') ∧ grows o o'.
Proof.
  revert o. induction l as [|s l IH]; intros o Ho Hseen; simpl.
  { intros [= <-]. split; [by intros s ?%elem_of_nil|]. by split. }
  intros ([] & o1 & H1 & H)%io_bind_ok.
  apply reconcile_stage_served in H1 as [H1 Hg1]; [|done|apply Hseen; by left].
  apply IH in H as [Hl Hg]; [|apply Hg1|].
  - split.
    + intros x [->|Hx]%elem_of_cons.
      * by eapply served_wider.
      * eapply served_wider; [by apply Hl|apply Hg1|]. split; [apply Hg|done|done].
    + split; [apply Hg| |].
      * intros id. trans (registered o1 id); [apply Hg1|apply Hg].
      * trans (o_sys o1); [apply Hg1|apply Hg].
  - intros x Hx. apply Hg1, Hseen. by right.
Qed.
Lemma quiet_grows {A} (m : M A) o r o' :
  open_now o → conducts same_flight m → conducts legit m → m o = (r, o') → grows o o'.
Proof. intros Ho Hs Hl H. apply same_grows; [done|by eapply Hs|]. by destruct (Hl _ _ _ H). Qed.
Lemma grows_open o o' : grows o o' → open_now o'.
Proof. by intros []. Qed.
Lemma grows_trans a b c : grows a b → grows b c → grows a c.
Proof.
  intros [_ Hr Hp] [Ho Hr' Hp']. split; [done|intros id; by trans (registered b id)|by trans (o_sys b)].
Qed.
Lemma look_inv {A} (f : DB → result A) o a o' :
  entry (λ _, look f) o = (Ok a, o') → f (sy_db (o_sys o')) = Ok a.
Proof. intros (o1 & _ & H)%entry_inv. by injection H as H <-. Qed.
Lemma read_stages_inv id o ss o' :
  read_stages id o = (Ok ss, o') → Stages (sy_db (o_sys o')) id = Ok ss.
Proof.
  intros (o1 & _ & H)%entry_inv. revert H. unfold see_stages.
  destruct (Stages _ _) as [ss0|] eqn:E; [|done]. by intros [= <- <-].
Qed.

(** Between [a] and [b] the transaction that fails the task [id] with [e] was acknowledged,
    and in [b] the task has ended. *)
Definition failed_with (id : string) (e : error) (a b : Sys) : Prop :=
  (∃ sys n w, path a sys ∧ WithTx (fate_at n) (fail_tx id "" 0 e) (sy_world sys) = (Ok tt, w) ∧
     path (set_world sys w) b) ∧
  ∃ row, db_tasks (sy_db b) !! id = Some row ∧ Terminal (t_Status row) = true.
Lemma fail_tx_ends id e σ u σ' :
  keyed (tx_db σ) → fail_tx id "" 0 e σ = Ok (u, σ') →
  ∃ row, db_tasks (tx_db σ') !! id = Some row ∧ Terminal (t_Status row) = true.
Proof.
  intros Hk H. unfold fail_tx in H. apply bind_ok in H as (t & σ1 & [Ht ->]%LockTask_ok & H).
  destruct (Terminal (t_Status t)) eqn:HT; [apply ret_ok in H as [_ ->]; by exists t|].
  pose proof (k_tasks _ Hk _ _ Ht) as Hid. simpl in Hid. subst id.
  apply bind_ok in H as (key & σ1 & [-> ->]%ret_ok & H).
  apply bind_ok in H as (t' & σ1 & H1%SetStatus_ok & H).
  destruct H1 as (row & Hr & _ & _ & _ & ->). rewrite Ht in Hr. injection Hr as <-.
  apply bind_ok in H as ([] & σ1 & H1 & ->%AfterCommit_ok).
  apply Emit_ok in H1 as (t1 & ev & Ht1 & _ & _ & _ & _ & ->). simpl in *.
  rewrite lookup_insert_eq in Ht1. injection Ht1 as <-. simpl.
  rewrite lookup_insert_eq. by eexists.
Qed.
Lemma reachable_path a b : reachable a → path a b → reachable b.
Proof. intros Ha [Hb _]. unfold reachable in *. by trans a. Qed.
Lemma transact_fail id e o o' :
  reachable (o_sys o) → transact (CallFail id "" 0 e) o = (Ok tt, o') →
  failed_with id e (o_sys o) (o_sys o').
Proof.
  intros Hreach H. unfold transact, transacting in H.
  apply io_bind_ok in H as (r & o1 & H1%io_attempt_ok & H).
  apply entry_inv in H1 as (oa & [Ha _] & H1). unfold commit_at in H1.
  destruct (WithTx _ _ _) as [r' w] eqn:Hw. injection H1 as -> <-.
  apply io_bind_ok in H as (u & o2 & H2 & [= -> <-]).
  apply run_hooks_legit in H2 as [Hb _]. simpl in Hb.
  set (n := o_clock o) in *. clearbody n.
  assert (sys_inv (o_sys oa)) as Hi.
  { apply reachable_inv. by eapply reachable_path. }
  assert (step (o_sys oa) (set_world (o_sys oa) w)) as Hstep
    by by eapply (step_call _ (CallFail id "" 0 e)).
  split; [exists (o_sys oa), n, w; split_and!; [exact Ha|exact Hw|exact Hb]|].
  apply WithTx_cases in Hw as [[_ ?]|(a & σ & Hf & Ew & _)]; [done|].
  apply fail_tx_ends in Hf as (row & Hrow & HT); [|apply (gd_keyed _ (si_good _ Hi))].
  destruct (steps_le (set_world (o_sys oa) w) (o_sys o2)) as [_ Hle];
    [by eapply step_inv|apply Hb|].
  destruct (Hle id row) as (row' & Hrow' & E); [simpl; by rewrite Ew|done|].
  exists row'. by rewrite E.
Qed.

Lemma at_rest status :
  Terminal status || (status =? "paused") || (status =? "blocked") = true →
  status ∈ ["failed"; "cancelled"; "completed"; "paused"; "blocked"].
Proof.
  unfold Terminal. rewrite !orb_true_iff, !String.eqb_eq. intros H.
  repeat destruct H as [H|H]; rewrite H; set_solver.
Qed.
Lemma reconcile_task_served id t stages o o' :
  reachable (o_sys o) → open_now o → all_seen stages o → reconcile_task id t stages o = (Ok tt, o') →
  t_Status t ∈ ["failed"; "cancelled"; "completed"; "paused"; "blocked"] ∨
  (∃ e, load_definition (o_clock o) (t_Workspace t) = Err e ∧
     failed_with (t_ID t) e (o_sys o) (o_sys o')) ∨
  ∀ s, s ∈ stages → served (t_ID t) s stages o o'.
Proof.
  intros Hreach Ho Hseen. unfold reconcile_task.
  destruct (_ || _) eqn:Hst.
  { intros _. left. apply orb_true_iff in Hst as [E|E]; apply String.eqb_eq in E as ->; set_solver. }
  destruct (Terminal (t_Status t) || (t_Status t =? "paused") || (t_Status t =? "blocked"))
    eqn:Hterm.
  { intros _. left. by apply at_rest. }
  intros (rd & o1 & H1 & H)%io_bind_ok. pose proof H1 as Hd%io_attempt_ok.
  apply entry_inv in Hd as (oa & _ & [= Hd _]).
  apply quiet_grows in H1; [|done|apply conducts_attempt, outside_same
    |apply conducts_attempt, outside_legit].
  destruct rd as [d|e].
  2:{ right; left. exists e. split; [done|]. apply transact_fail in H.
      - destruct H as [(sys & n & w & Hp & Hw) Hrow]. split; [|done]. exists sys, n, w.
        split; [|done]. trans (o_sys o1); [apply H1|done].
      - eapply reachable_path; [done|apply H1]. }
  right.
  apply io_bind_ok in H as (p & o2 & [= _ <-] & H).
  apply io_bind_ok in H as ([] & o3 & H2 & H).
  apply quiet_grows in H2; [|apply H1
    |apply conducts_each; [exact _|]; intros s; destruct (s_Status s =? "approved"); solve_conducts
    |apply conducts_each; [exact _|]; intros s; destruct (s_Status s =? "approved");
       [apply outside_legit|solve_conducts]].
  right.
  apply io_bind_ok in H as ([] & o4 & H3 & H).
  apply quiet_grows in H3; [|apply H2|destruct (t_Status t =? "queued"); solve_conducts
    |destruct (t_Status t =? "queued"); [by apply transact_free|solve_conducts]].
  apply io_bind_ok in H as ([] & o5 & H4 & H5).
  apply reconcile_stages_served in H4 as [Hserved H4]; [|apply H3|].
  - apply quiet_grows in H5; [|apply H4|apply transact_same|by apply transact_free].
    intros s Hs. eapply served_wider; [by apply Hserved| |exact H5].
    trans (o_sys o1); [apply H1|]. trans (o_sys o3); [apply H2|apply H3].
  - intros s Hs. unfold seen. apply H3, H2, H1. by apply Hseen.
Qed.

(** C6: no runnable stage is left idle: take an orchestrator of a reachable system that is
    not closing and in which exactly the registered stages have a goroutine, each one (which
    [single_flight] proves of every run).  When its [Reconcile] of a task returns without
    error, one of three things holds of the task and the stages it read: the task was closed
    to work; or this run's load of the definition failed, the transaction that fails the task
    was acknowledged, and the task has ended; or every stage it saw runnable has a goroutine
    now, or its claim was refused as stale on the way, because things had moved on. *)
Theorem no_idle_stage id o o' :
  reachable (o_sys o) → flight o → o_closed o = false → o_done o = false →
  Reconcile id o = (Ok tt, o') →
  ∃ t stages o1 o2, path (o_sys o) (o_sys o1) ∧ path (o_sys o1) (o_sys o2) ∧
    path (o_sys o2) (o_sys o') ∧
    Task (sy_db (o_sys o1)) id = Ok t ∧ Stages (sy_db (o_sys o2)) id = Ok stages ∧
    (t_Status t ∈ ["failed"; "cancelled"; "completed"; "paused"; "blocked"] ∨
     (∃ e, load_definition (o_clock o2) (t_Workspace t) = Err e ∧
        failed_with (t_ID t) e (o_sys o2) (o_sys o')) ∨
     ∀ s, s ∈ stages → claim_mode s stages ≠ "" →
       (∃ t' s' i, JobRun t' s' i ∈ o_live o' ∧ t_ID t' = t_ID t ∧ s_ID s' = s_ID s) ∨
       refused s stages (o_sys o2) (o_sys o')).
Proof.
  intros Hreach Hflight Hc Hd H. assert (open_now o) as Ho by done.
  pose proof (Reconcile_flies _ _ _ _ H Hflight) as Hflight'. unfold Reconcile in H.
  apply io_bind_ok in H as (u1 & oa & [= _ <-] & H).
  apply io_bind_ok in H as (u2 & ob & H1 & H).
  apply quiet_grows in H1; [|done|apply task_run_same|apply task_run_legit].
  apply io_bind_ok in H as (t & o1 & Ht & H). pose proof (look_inv _ _ _ _ Ht) as Et.
  apply quiet_grows in Ht; [|apply H1|apply read_same|apply read_legit].
  apply io_bind_ok in H as (stages & o2 & Hss & H).
  pose proof (read_stages_inv _ _ _ _ Hss) as Es. pose proof (read_stages_seen _ _ _ _ Hss) as Hseen.
  apply quiet_grows in Hss; [|apply Ht|apply read_stages_same|apply read_stages_legit].
  exists t, stages, o1, o2. destruct (reconcile_task_legit _ _ _ _ _ _ H Hseen) as [[Hp2 _] _].
  apply reconcile_task_served in H; [| |apply Hss|exact Hseen].
  2:{ eapply reachable_path; [exact Hreach|]. trans (o_sys ob); [apply H1|].
      trans (o_sys o1); [apply Ht|apply Hss]. }
  split_and!; try done; [trans (o_sys ob); [apply H1|apply Ht]|apply Hss|].
  destruct H as [Hst|[Hd'|Hserved]]; [by left|by right; left|right; right].
  intros s Hs Hm. destruct (Hserved s Hs Hm) as [Hin|Hr]; [left|by right].
  by apply keys_job, (fl_registered _ Hflight').
Qed.
End idle.

(** ** A task woken, and its first stage run *)
Section demo.
#[local] Existing Instances demo_platform ascii_unicode.
Definition demo_env : Env := {|
  fate_at _ := Acked; interfere _ sys := sys; load_definition _ _ := Ok demo_def;
  accept _ _ _ _ := Ok tt; reset _ _ _ := Ok tt; WorkspaceRoot := ""; cleanup _ _ _ := Ok tt;
  branch_commit _ _ _ _ _ := Ok ("", false); push_branch_to _ _ _ _ _ := Ok tt |}.
Definition demo_world : AgentWorld := {|
  agent_registry := MkRegistry [] true; agent_timeout := 0%Z; open_at _ _ := Ok tt;
  chat_at _ _ _ := Ok (MkChatResponse "# plan" [] "fake/echo" (MkTokens 10 2 0 0));
  call_at _ _ _ _ := Ok ""; read_at _ _ _ := Ok ""; write_at _ _ _ _ := Ok tt; time_at _ := 0%Z |}.
#[local] Existing Instances demo_env demo_world.
#[local] Instance demo_env_laws : EnvLaws.
Proof. split; [done|]. intros n e [?|[??]]; done. Qed.
#[local] Instance demo_agent_laws : AgentLaws.
Proof. by split. Qed.
#[local] Existing Instances agent_runner agent_runner_laws.
#[local] Instance demo_publisher_laws : PublisherLaws None.
Proof. by intros R HR pub pr _. Qed.

Definition demo_sys : Sys := demo_run (take 2 demo_plan).
Definition demo_woken : Orch := (Wake "t1" (New demo_sys)).2.
(** After [Reconcile] the stage [design] has a goroutine. *)
Definition demo_awake : Orch := (wake_body "t1" (with_live demo_woken [])).2.
Lemma demo_awake_live : omap job_key (o_live demo_awake) = [("t1", "uuid-3")].
Proof. by vm_compute. Qed.
Lemma demo_runs : runs None demo_sys demo_awake.
Proof.
  eapply rtc_l; [eapply (turn_woken _ _ "t1"); apply surjective_pairing|].
  eapply rtc_l; [|apply rtc_refl].
  eapply (turn_wake _ demo_woken [] "t1" []); [by vm_compute|apply surjective_pairing].
Qed.
Lemma demo_sys_reachable : reachable demo_sys.
Proof. by apply demo_reachable. Qed.
Lemma orchestrator_refines_witness :
  reachable (o_sys demo_awake) ∧ length (o_live demo_awake) = 1.
Proof.
  split; [|by vm_compute].
  apply (orchestrator_refines None demo_sys demo_awake demo_sys_reachable demo_runs).
Defined.
Lemma single_flight_witness : NoDup (omap job_key (o_live demo_awake)).
Proof. apply (single_flight None demo_sys demo_awake demo_runs). Defined.
Lemma demo_flight : flight (with_live demo_woken []).
Proof.
  assert (same_flight (New demo_sys) demo_woken) as Hs
    by (apply (Wake_same "t1" _ (Wake "t1" (New demo_sys)).1), surjective_pairing).
  split; [apply NoDup_nil_2|]. intros id sid.
  change (registered (with_live demo_woken []) id) with (registered demo_woken id).
  rewrite (sf_registered _ _ Hs). apply (fl_registered _ (flight_New demo_sys)).
Qed.
Definition demo_reconciled : result unit * Orch := Reconcile "t1" (with_live demo_woken []).
Lemma no_idle_stage_witness :
  ∃ t stages o1 o2, path (o_sys (with_live demo_woken [])) (o_sys o1) ∧
    path (o_sys o1) (o_sys o2) ∧ Task (sy_db (o_sys o1)) "t1" = Ok t ∧
    Stages (sy_db (o_sys o2)) "t1" = Ok stages.
Proof.
  assert (demo_reconciled = (Ok tt, demo_reconciled.2)) as E.
  { assert (demo_reconciled.1 = Ok tt) as <- by by vm_compute. apply surjective_pairing. }
  assert (o_closed (with_live demo_woken []) = false) as Hc by by vm_compute.
  assert (o_done (with_live demo_woken []) = false) as Hd by by vm_compute.
  unfold demo_reconciled in E.
  assert (reachable (o_sys (with_live demo_woken []))) as Hr.
  { apply (reachable_path demo_sys); [exact demo_sys_reachable|].
    exact (lg_path _ _ (Wake_legit "t1" (New demo_sys) _ _ (surjective_pairing _))). }
  destruct (no_idle_stage "t1" _ _ Hr demo_flight Hc Hd E) as (t & stages & o1 & o2 & Hp & Hp' & _ & Ht & Hs & _).
  exists t, stages, o1, o2. exact (conj Hp (conj Hp' (conj Ht Hs))).
Defined.
End demo.
