(* ===== verification/Sha256.v ===== *)
(** * SHA-256

    [crypto/sha256.Sum256], on words of 32 bits; the sum is given by its eight words. *)
From S2P Require Import Prelude GoStrings.
#[local] Open Scope N_scope.

Definition word (x : N) : N := N.land x 0xffffffff.
Definition rotr (n x : N) : N := N.lor (N.shiftr x n) (word (N.shiftl x (32 - n))).
(** The constants: the first 32 bits of the fractional parts of the cube roots of the first 64
    primes, and of the square roots of the first eight. *)
Definition is_prime (n : nat) : bool :=
  forallb (λ d, negb (n mod d =? 0)%nat) (seq 2 (n - 2)).
Definition primes (count : nat) : list N :=
  map N.of_nat (take count (List.filter is_prime (seq 2 310))).
(** The largest [r + d] with [d < 2^bits] whose cube is at most [x]. *)
Fixpoint cube_root (bits : nat) (r x : N) : N :=
  match bits with
  | O => r
  | S bits =>
    let r' := r + N.shiftl 1 (N.of_nat bits) in
    cube_root bits (if r' * r' * r' <=? x then r' else r) x
  end.
Definition K : list N :=
  Eval vm_compute in map (λ p, word (cube_root 36 0 (N.shiftl p 96))) (primes 64).
Definition H0 : list N :=
  Eval vm_compute in map (λ p, word (N.sqrt (N.shiftl p 64))) (primes 8).

(** ** Padding and words *)
Fixpoint bytes_of (s : string) : list N :=
  match s with EmptyString => [] | String c s => byte_of c :: bytes_of s end.
Definition length_bytes (bits : N) : list N :=
  map (λ i, N.land (N.shiftr bits (8 * i)) 0xff) [7; 6; 5; 4; 3; 2; 1; 0].
Definition padded (l : list N) : list N :=
  let n := N.of_nat (length l) in
  l ++ 128 :: replicate (N.to_nat ((119 - n `mod` 64) `mod` 64)) 0 ++ length_bytes (8 * n).
Fixpoint words (l : list N) : list N :=
  match l with
  | a :: b :: c :: d :: l =>
    N.lor (N.shiftl a 24) (N.lor (N.shiftl b 16) (N.lor (N.shiftl c 8) d)) :: words l
  | _ => []
  end.

(** ** The compression of one block *)
(** The message schedule, the latest word first. *)
Definition extend (w : list N) : list N :=
  let at_ i := nth i w 0 in
  let s0 x := N.lxor (rotr 7 x) (N.lxor (rotr 18 x) (N.shiftr x 3)) in
  let s1 x := N.lxor (rotr 17 x) (N.lxor (rotr 19 x) (N.shiftr x 10)) in
  word (s1 (at_ 1%nat) + at_ 6%nat + s0 (at_ 14%nat) + at_ 15%nat) :: w.
Definition round (h : list N) (kw : N * N) : list N :=
  match h with
  | [a; b; c; d; e; f; g; h] =>
    let S1 := N.lxor (rotr 6 e) (N.lxor (rotr 11 e) (rotr 25 e)) in
    let ch := N.lxor (N.land e f) (N.land (N.lxor e 0xffffffff) g) in
    let t1 := h + S1 + ch + kw.1 + kw.2 in
    let S0 := N.lxor (rotr 2 a) (N.lxor (rotr 13 a) (rotr 22 a)) in
    let maj := N.lxor (N.land a b) (N.lxor (N.land a c) (N.land b c)) in
    [word (t1 + S0 + maj); a; b; c; word (d + t1); e; f; g]
  | _ => h
  end.
Definition compress (h block : list N) : list N :=
  let w := rev (Nat.iter 48 extend (rev block)) in
  zip_with (λ x y, word (x + y)) h (fold_left round (combine K w) h).
Fixpoint blocks (fuel : nat) (h ws : list N) : list N :=
  match fuel with
  | O => h
  | S fuel => blocks fuel (compress h (take 16 ws)) (drop 16 ws)
  end.
Definition Sum256 (s : string) : list N :=
  let ws := words (padded (bytes_of s)) in blocks (length ws / 16)%nat H0 ws.

Example sum_empty : Sum256 "" =
  [0xe3b0c442; 0x98fc1c14; 0x9afbf4c8; 0x996fb924; 0x27ae41e4; 0x649b934c; 0xa495991b; 0x7852b855].
Proof. vm_compute. reflexivity. Qed.
Example sum_abc : Sum256 "abc" =
  [0xba7816bf; 0x8f01cfea; 0x414140de; 0x5dae2223; 0xb00361a3; 0x96177a9c; 0xb410ff61; 0xf20015ad].
Proof. vm_compute. reflexivity. Qed.
(** A message whose padding needs a block of its own. *)
Example sum_two_blocks : Sum256 "aaaaaaaaaaaaaaaaaaaaaaaaaaaaaaaaaaaaaaaaaaaaaaaaaaaaaaaaaaaa" =
  [0x11ee3912; 0x11c62564; 0x60b6ed37; 0x5957fadd; 0x8061cafb; 0xb31daf96; 0x7db875ae; 0xbd5aaad4].
Proof. vm_compute. reflexivity. Qed.
