(* ===== verification/Auth.v ===== *)
(** * Authentication ([internal/auth/auth.go])

    One user logs in with a password and gets a signed token; the middleware lets requests to
    the API by that carry it.  The package that signs tokens is a parameter, with what it
    documents as laws.  Times are nanoseconds. *)
From S2P Require Import Prelude GoStrings Sha256.

(** ** Tokens *)
Record Claims := MkClaims {
  cl_Subject : string; cl_Issuer : string;
  cl_IssuedAt : option Z; cl_ExpiresAt : option Z; cl_NotBefore : option Z }.
Record ParseOptions := MkParseOptions {
  po_Methods : list string; po_Issuer : string; po_ExpirationRequired : bool; po_Time : Z }.
(** [verified key token] is the algorithm and the claims of a token whose signature is right. *)
Class JWT := {
  SignedString : string → Claims → string → result string;
  ParseWithClaims : ParseOptions → string → string → result Claims;
  verified : string → string → option (string * Claims) }.
Definition second : Z := 1000000000.
(** [Time.Truncate(time.Second)], and what [jwt.NewNumericDate] keeps of a time. *)
Definition Truncate (t : Z) : Z := t - t `mod` second.
Definition accepted (o : ParseOptions) (c : Claims) : Prop :=
  cl_Issuer c = po_Issuer o ∧
  match cl_ExpiresAt c with
  | Some e => (po_Time o < e)%Z
  | None => po_ExpirationRequired o = false
  end ∧
  match cl_NotBefore c with Some n => (n ≤ po_Time o)%Z | None => True end.
(** Dates that a token can carry. *)
Definition whole_seconds (c : Claims) : Prop :=
  ∀ t, cl_IssuedAt c = Some t ∨ cl_ExpiresAt c = Some t ∨ cl_NotBefore c = Some t → Truncate t = t.
Class JWTLaws `{!JWT} : Prop := {
  jwt_sign alg c key token :
    SignedString alg c key = Ok token → whole_seconds c → verified key token = Some (alg, c);
  jwt_parse o token key c : ParseWithClaims o token key = Ok c ↔
    ∃ alg, verified key token = Some (alg, c) ∧ alg ∈ po_Methods o ∧ accepted o c }.

(** src: internal/auth/auth.go 18-23 Authenticator *)
Record Authenticator := MkAuthenticator { au_Password : string; au_Secret : string; au_TTL : Z }.
Definition Cookie : string := "devsquad_token".
Definition Subject : string := "admin".
Definition Issuer : string := "devsquad".
Definition HS256 : string := "HS256".

(** ** Requests *)
(** What the middleware sees of a request: the header [Authorization] (empty when it is
    absent), the cookie of the token, the query parameter [token], and the user that the
    context carries. *)
Record Request := MkRequest {
  rq_Method : string; rq_Path : string; rq_Authorization : string; rq_Cookie : option string;
  rq_Token : string; rq_User : option string }.
(** src: internal/auth/auth.go 65-67 WithUser *)
Definition WithUser (r : Request) (user : string) : Request :=
  MkRequest (rq_Method r) (rq_Path r) (rq_Authorization r) (rq_Cookie r) (rq_Token r) (Some user).
(** src: internal/auth/auth.go 73-73 public *)
Definition public (path : string) : bool :=
  existsb (String.eqb path) ["/api/v1/health"; "/api/v1/auth/login"; "/api/v1/auth/logout"].
(** src: internal/auth/auth.go 75-77 protected *)
Definition protected (path : string) : bool :=
  (path =? "/ws") || (HasPrefix path "/api/" && negb (public path)).
(** The header comes first, then the cookie, then the query of a WebSocket.
    src: internal/auth/auth.go 83-90 Authenticator.Middleware (token) *)
Definition presented (r : Request) : string :=
  match CutPrefix (rq_Authorization r) "Bearer " with
  | Some v => v
  | None =>
    match rq_Cookie r with
    | Some v => v
    | None => if rq_Path r =? "/ws" then rq_Token r else ""
    end
  end.

Section auth.
Context {JW : JWT}.

(** A token and when it expires; the password is compared by its SHA-256 sum.
    src: internal/auth/auth.go 39-49 Authenticator.Login *)
Definition Login (a : Authenticator) (clock : Z) (password : string) : result (string * Z) :=
  if (au_Password a =? "") || negb (bool_decide (Sum256 (au_Password a) = Sum256 password))
  then Err ErrBadPassword else
  let now := Truncate clock in
  let expires := (now + au_TTL a)%Z in
  token ← SignedString HS256
    (MkClaims Subject Issuer (Some (Truncate now)) (Some (Truncate expires)) None) (au_Secret a);
  Ok (token, expires).
(** src: internal/auth/auth.go 50-61 Authenticator.Verify *)
Definition Verify (a : Authenticator) (clock : Z) (token : string) : result string :=
  claims ← ParseWithClaims (MkParseOptions [HS256] Issuer true clock) token (au_Secret a);
  if cl_Subject claims ≠? Subject then Err (ErrorText "unknown subject") else
  Ok (cl_Subject claims).

(** The answer without a valid token, from the caller of the API.
    src: internal/auth/auth.go 81-101 Authenticator.Middleware *)
Definition Middleware {R : Type} (unauthorized : R) (a : Authenticator) (clock : Z)
    (next : Request → R) (r : Request) : R :=
  match Verify a clock (presented r) with
  | Ok user => next (WithUser r user)
  | Err _ => if protected (rq_Path r) then unauthorized else next r
  end.
End auth.

(** ** What a token is worth *)
Section tokens.
Context {JW : JWT} {JL : JWTLaws}.

Lemma Truncate_whole t : Truncate (Truncate t) = Truncate t.
Proof.
  unfold Truncate, second. pose proof (Z.div_mod t 1000000000).
  rewrite (Z.mod_eq (t - _)) by lia.
  replace (t - t `mod` 1000000000)%Z with (t / 1000000000 * 1000000000)%Z by lia.
  rewrite Z.div_mul by lia. lia.
Qed.
Lemma Verify_ok a clock token user :
  Verify a clock token = Ok user ↔ user = Subject ∧
  ∃ c e, verified (au_Secret a) token = Some (HS256, c) ∧ cl_Subject c = Subject ∧
    cl_Issuer c = Issuer ∧ cl_ExpiresAt c = Some e ∧ (clock < e)%Z ∧
    match cl_NotBefore c with Some n => (n ≤ clock)%Z | None => True end.
Proof.
  unfold Verify. split.
  - destruct (ParseWithClaims _ _ _) as [c|e] eqn:E; [|done]. simpl.
    apply jwt_parse in E as (alg & Hv & ->%list_elem_of_singleton & Hi & He & Hn). simpl in *.
    destruct (String.eqb_spec (cl_Subject c) Subject) as [Hs|]; [|done]. simpl. intros [= <-].
    split; [done|]. destruct (cl_ExpiresAt c) as [e|] eqn:Hx; [|done]. by exists c, e.
  - intros (-> & c & e & Hv & Hs & Hi & He & Hlt & Hn).
    assert (ParseWithClaims (MkParseOptions [HS256] Issuer true clock) token (au_Secret a) = Ok c) as ->.
    { apply jwt_parse. exists HS256. split_and!; [done|by apply list_elem_of_singleton|].
      unfold accepted. simpl. by rewrite He. }
    simpl. by rewrite Hs.
Qed.
(** C29: a login succeeds only with the sum of a password that is set, and the token it gives is
    worth what it says: it is accepted as the subject's before the whole second in which it
    expires, and not after, by every authenticator with the same secret. *)
Theorem Login_Verify a b clock later password token expires :
  Login a clock password = Ok (token, expires) → au_Secret b = au_Secret a →
  au_Password a ≠ "" ∧ Sum256 password = Sum256 (au_Password a) ∧
  expires = (Truncate clock + au_TTL a)%Z ∧
  (Verify b later token = Ok Subject ↔ (later < Truncate expires)%Z).
Proof.
  intros H Hb. unfold Login in H. destruct (String.eqb_spec (au_Password a) ""); [done|]. simpl in H.
  case_bool_decide as Hsum; [|done]. simpl in H.
  destruct (SignedString _ _ _) as [t|] eqn:E; [|done]. injection H as -> <-.
  apply jwt_sign in E; [|by intros t [[= <-]|[[= <-]|[=]]]; apply Truncate_whole].
  split_and!; [done..|]. rewrite Verify_ok, Hb, E. split.
  - intros (_ & c & e & [= <-] & _ & _ & [= <-] & Hlt & _). done.
  - intros Hlt. split; [done|]. by eexists _, _.
Qed.
End tokens.

(** ** A session *)
#[export] Instance claims_eq_dec : EqDecision Claims.
Proof. solve_decision. Defined.
#[export] Instance accepted_dec o c : Decision (accepted o c).
Proof.
  unfold accepted. destruct (cl_ExpiresAt c), (cl_NotBefore c); apply _.
Defined.
Definition demo_key : string := "0123456789abcdef0123456789abcdef".
Definition demo_claims : Claims :=
  MkClaims Subject Issuer (Some (100 * second)%Z) (Some (160 * second)%Z) None.
(** Signatures by a table: the session of [demo_claims], and a token of somebody else. *)
Definition demo_table : list (string * (string * Claims)) :=
  [("session", (HS256, demo_claims));
   ("other", (HS256, MkClaims "root" Issuer None (Some (500 * second)%Z) None));
   ("unsigned", ("none", demo_claims))].
Definition demo_verified (key token : string) : option (string * Claims) :=
  if key =? demo_key then snd <$> find (λ e, e.1 =? token) demo_table else None.
#[export] Instance demo_jwt : JWT := {|
  SignedString alg c key :=
    if decide (alg = HS256 ∧ c = demo_claims ∧ key = demo_key) then Ok "session"
    else Err (ErrorText "key");
  ParseWithClaims o token key :=
    match demo_verified key token with
    | Some (alg, c) => if decide (alg ∈ po_Methods o ∧ accepted o c) then Ok c
                       else Err (ErrorText "token has invalid claims")
    | None => Err (ErrorText "token signature is invalid")
    end;
  verified := demo_verified |}.
#[export] Instance demo_jwt_laws : JWTLaws.
Proof.
  split.
  - intros alg c key token. simpl. case_decide as H; [|done]. destruct H as (-> & -> & ->).
    by intros [= <-] _.
  - intros o token key c. cbn [ParseWithClaims demo_jwt verified].
    destruct (demo_verified key token) as [[alg c']|].
    + case_decide as H; split; try done.
      * intros [= <-]. by exists alg.
      * intros (alg' & [= <- <-] & _ & _). done.
      * intros (alg' & [= <- <-] & H1 & H2). by destruct H.
    + by split; [|intros (? & ? & _)].
Qed.
Definition demo_admin : Authenticator := MkAuthenticator "pw" demo_key (60 * second)%Z.
Lemma Login_Verify_witness :
  Login demo_admin (100 * second + 7)%Z "pw" = Ok ("session", (160 * second)%Z) ∧
  (Verify demo_admin (159 * second)%Z "session" = Ok Subject ↔ (159 * second < Truncate (160 * second))%Z).
Proof.
  assert (Login demo_admin (100 * second + 7)%Z "pw" = Ok ("session", (160 * second)%Z)) as H.
  { vm_compute. reflexivity. }
  split; [exact H|].
  exact (proj2 (proj2 (proj2 (Login_Verify demo_admin demo_admin (100 * second + 7)%Z (159 * second)%Z
    "pw" "session" (160 * second)%Z H eq_refl)))).
Defined.
(** Another subject, another algorithm and an expired session are refused. *)
Example refused :
  is_ok (Verify demo_admin (100 * second)%Z "other") = false ∧
  is_ok (Verify demo_admin (100 * second)%Z "unsigned") = false ∧
  is_ok (Verify demo_admin (160 * second)%Z "session") = false ∧
  is_ok (Verify demo_admin (160 * second - 1)%Z "session") = true.
Proof. vm_compute. split_and!; reflexivity. Qed.
