(* ===== verification/Config.v ===== *)
(** * Configuration ([internal/config/config.go], and what [main.go] makes of it)

    The environment is read by a library; [Load] checks what it gives. *)
From S2P Require Import Prelude GoStrings Sha256 Auth.

(** src: internal/config/config.go 11-27 Config *)
Record Config := MkConfig {
  cf_DBURL : string; cf_HTTPAddr : string; cf_WorkspaceRoot : string; cf_FakeLLM : bool;
  cf_RecoveryInterval : Z; cf_TestTimeout : Z; cf_OllamaURL : string; cf_AuthDisabled : bool;
  cf_AdminPassword : string; cf_JWTSecret : string; cf_JWTTTL : Z;
  cf_GitHubToken : string; cf_GitHubAPIURL : string; cf_GitHubURL : string }.
(** [parsed] is [env.ParseAs].
    src: internal/config/config.go 29-43 Load *)
Definition Load (parsed : result Config) : result Config :=
  c ← parsed;
  if (cf_RecoveryInterval c <=? 0)%Z || (cf_TestTimeout c <=? 0)%Z
  then Err (ErrorText "recovery interval and test timeout must be positive") else
  if negb (cf_AuthDisabled c)
     && ((cf_AdminPassword c =? "") || (String.length (cf_JWTSecret c) <? 32)%nat || (cf_JWTTTL c <=? 0)%Z)
  then Err (ErrorText "set DEVSQUAD_ADMIN_PASSWORD, DEVSQUAD_JWT_SECRET (32+ characters) and a positive DEVSQUAD_JWT_TTL, or DEVSQUAD_AUTH_DISABLED=true for local development")
  else Ok c.
(** src: cmd/devsquad/main.go 93-98 run (authentication) *)
Definition authenticator (c : Config) : option Authenticator :=
  if cf_AuthDisabled c then None
  else Some (MkAuthenticator (cf_AdminPassword c) (cf_JWTSecret c) (cf_JWTTTL c)).

(** Authentication is off only when the configuration says so, and an authenticator that
    [Load] lets by has a password, a secret of 32 bytes and sessions that last. *)
Lemma Load_authenticates parsed c :
  Load parsed = Ok c →
  (0 < cf_RecoveryInterval c ∧ 0 < cf_TestTimeout c)%Z ∧
  match authenticator c with
  | None => cf_AuthDisabled c = true
  | Some a => cf_AuthDisabled c = false ∧ au_Password a ≠ "" ∧ 32 ≤ String.length (au_Secret a) ∧
      (0 < au_TTL a)%Z
  end.
Proof.
  unfold Load, authenticator. destruct parsed as [c'|]; [|done]. cbn [mbind result_bind].
  destruct (Z.leb_spec (cf_RecoveryInterval c') 0), (Z.leb_spec (cf_TestTimeout c') 0); try done.
  cbn [orb]. destruct (cf_AuthDisabled c') eqn:Hd; cbn [negb andb].
  - intros [= <-]. by rewrite Hd.
  - destruct (String.eqb_spec (cf_AdminPassword c') ""); [done|].
    destruct (Nat.ltb_spec (String.length (cf_JWTSecret c')) 32); [done|].
    destruct (Z.leb_spec (cf_JWTTTL c') 0); [done|]. cbn [orb]. intros [= <-]. rewrite Hd. simpl. done.
Qed.
