(* ===== verification/Boot.v ===== *)
(** * The life of a server process ([cmd/devsquad/main.go], [store/instance.go], [store/migrate.go])

    A process connects to the database, takes the lock of the server's instance, migrates,
    starts its engine and serves until it is told to stop; then it undoes all of it in the
    opposite order.  The database's driver, the migration tool and [errgroup] are an interface.
    The theorem: of all processes on a database, only the owner of the lock migrates it, starts
    an engine or serves; the registry of goroutines ([Flight]) is thus that of the only engine. *)
From S2P Require Import Prelude GoStrings Protocol Domain Pipeline PipelineJSON Agent Llm Scm.
From S2P Require Import Sha256 Auth Config.

(** ** The interface *)
(** A connection is taken from the pool and has a session of its own, which [sv_close] ends;
    [sv_try_lock] is [pg_try_advisory_lock] in that session. *)
Record Server (S : Type) := MkServer {
  sv_pool : string → io S unit;
  sv_ping : io S unit;
  sv_closepool : io S unit;
  sv_acquire : io S string;
  sv_try_lock : string → io S bool;
  sv_release : string → io S unit;
  sv_close : string → io S unit;
  sv_provider : io S unit;
  sv_up : io S unit;
  sv_closedb : io S unit;
  sv_start : Config → io S unit;
  sv_closehub : io S unit;
  sv_closeengine : io S unit }.
Arguments sv_pool {S}. Arguments sv_ping {S}. Arguments sv_closepool {S}. Arguments sv_acquire {S}.
Arguments sv_try_lock {S}. Arguments sv_release {S}. Arguments sv_close {S}.
Arguments sv_provider {S}. Arguments sv_up {S}. Arguments sv_closedb {S}. Arguments sv_start {S}.
Arguments sv_closehub {S}. Arguments sv_closeengine {S}.

(** [defer]: the clean-up runs whatever happens, and its own failure does not matter. *)
Definition deferred {S A} (m : io S A) (cleanup : io S unit) : io S A :=
  r ← attempt m; attempt cleanup;; give r.

Section boot.
Context {S : Type} (sv : Server S) (serve : string → Config → io S unit).
Definition another_instance : error := ErrorText "another devsquad instance owns this database schema".
(** src: internal/store/instance.go 12-27 AcquireInstance *)
Definition AcquireInstance : io S string :=
  conn ← sv_acquire sv;
  r ← attempt (sv_try_lock sv conn);
  match r with
  | Ok true => mret conn
  | Ok false => attempt (sv_release sv conn);; raise another_instance
  | Err e => attempt (sv_release sv conn);; raise e
  end.
(** src: internal/store/migrate.go 18-31 Migrate *)
Definition Migrate : io S unit := deferred (sv_provider sv;; sv_up sv) (sv_closedb sv).
(** What follows the migration: the engine's first goroutine starts with [sv_start], which is
    [StartRecovery], and [serve] runs until every goroutine of the process has ended.
    src: cmd/devsquad/main.go 79-83 run (engine) *)
Definition engine (conn : string) (c : Config) : io S unit :=
  deferred (deferred (sv_start sv c;; serve conn c) (sv_closehub sv)) (sv_closeengine sv).
(** src: cmd/devsquad/main.go 43-65 run *)
Definition run (parsed : result Config) : io S unit :=
  c ← give (Load parsed);
  sv_pool sv (cf_DBURL c);;
  deferred (
    sv_ping sv;;
    conn ← AcquireInstance;
    deferred (Migrate;; engine conn c) (attempt (sv_close sv conn);; sv_release sv conn))
  (sv_closepool sv).
End boot.

(** ** The goroutines of a serving process *)
Section serving.
Context {S : Type}.
(** The five-second ticker (false when the context is done), the check of the lock's connection,
    the notifier, the HTTP server, and [errgroup], which runs functions side by side. *)
Record Serving := MkServing {
  sg_tick : io S bool;
  sg_check : string → io S unit;
  sg_notify : io S unit;
  sg_listen : string → io S unit;
  sg_server_closed : error → bool;
  sg_wait : io S unit;
  sg_shutdown : io S unit;
  sg_group : list (io S unit) → io S unit }.
Context (sg : Serving) (closehub : io S unit).
(** [ticks], and [rounds] below, bound the ticks and the rounds in the life of the process.
    src: cmd/devsquad/main.go 102-118 run (watch) *)
Fixpoint watch (conn : string) (ticks : nat) : io S unit :=
  match ticks with
  | O => mret tt
  | Datatypes.S ticks =>
    more ← sg_tick sg;
    if more : bool then sg_check sg conn;; watch conn ticks else mret tt
  end.
(** A server that was shut down has not failed.
    src: cmd/devsquad/main.go 120-127 run (listen) *)
Definition listen (addr : string) : io S unit :=
  r ← attempt (sg_listen sg addr);
  match r with
  | Ok _ => mret tt
  | Err e => if sg_server_closed sg e then mret tt else raise e
  end.
(** src: cmd/devsquad/main.go 128-134 run (shutdown) *)
Definition shutdown : io S unit := sg_wait sg;; attempt closehub;; sg_shutdown sg.
(** src: cmd/devsquad/main.go 119-119 run (notifier) *)
Definition notifying : io S unit := attempt (sg_notify sg);; mret tt.
Definition group (ticks : nat) (conn : string) (c : Config) : io S unit :=
  sg_group sg [watch conn ticks; notifying; listen (cf_HTTPAddr c); shutdown].
(** The engine's first goroutine: it recovers at once and then after every interval, until its
    context is done ([sleep] is false); what goes wrong is only logged.
    src: internal/orchestrator/orchestrator.go 442-462 Orchestrator.StartRecovery *)
Fixpoint recoveryLoop (alive : io S bool) (recover : io S unit) (sleep : io S bool) (rounds : nat) : io S unit :=
  match rounds with
  | O => mret tt
  | Datatypes.S rounds =>
    more ← alive;
    if more : bool then
      attempt recover;;
      more ← sleep;
      if more : bool then recoveryLoop alive recover sleep rounds else mret tt
    else mret tt
  end.
End serving.
Arguments Serving : clear implicits.
(** The process, once its environment is parsed. *)
Definition main_run {S} (sv : Server S) (sg : Serving S) (ticks : nat) (parsed : result Config) : io S unit :=
  run sv (group sg (sv_closehub sv) ticks) parsed.

(** ** What the configuration makes of the parts *)
(** src: cmd/devsquad/main.go 66-74 run (registry) *)
Definition registry_of (c : Config) : Registry :=
  MkRegistry ["anthropic"; "openai"; "ollama"] (cf_FakeLLM c).
(** Without a token there is no hosting service.
    src: cmd/devsquad/main.go 86-89 run (hosting) *)
Definition hosting_of (c : Config) : option GitHub :=
  if cf_GitHubToken c ≠? ""
  then Some (MkGitHub (cf_GitHubToken c) (cf_GitHubAPIURL c) (cf_GitHubURL c) "") else None.

(** ** The order of a process's actions *)
Inductive action := APool | APing | AClosePool | AAcquire | ALock (taken : bool) | ARelease | AClose
  | AProvider | AUp | ACloseDB | AStart | AServe | ACloseHub | ACloseEngine.
Abbreviation Log := (list (action * bool)).
(** Each action leaves its mark; that of the lock says whether it was taken. *)
Section recorded.
Context {S : Type}.
Definition record_lock (m : io S bool) : io (S * Log) bool := λ '(σ, l),
  let '(r, σ') := m σ in
  (r, (σ', l ++ [(ALock (if r is Ok b then b else false), is_ok r)])).
Definition recorded (sv : Server S) : Server (S * Log) := {|
  sv_pool url := record APool (sv_pool sv url);
  sv_ping := record APing (sv_ping sv);
  sv_closepool := record AClosePool (sv_closepool sv);
  sv_acquire := record AAcquire (sv_acquire sv);
  sv_try_lock conn := record_lock (sv_try_lock sv conn);
  sv_release conn := record ARelease (sv_release sv conn);
  sv_close conn := record AClose (sv_close sv conn);
  sv_provider := record AProvider (sv_provider sv);
  sv_up := record AUp (sv_up sv);
  sv_closedb := record ACloseDB (sv_closedb sv);
  sv_start c := record AStart (sv_start sv c);
  sv_closehub := record ACloseHub (sv_closehub sv);
  sv_closeengine := record ACloseEngine (sv_closeengine sv) |}.
(** A run of the process and its log. *)
Definition logged_run (sv : Server S) (serve : string → Config → io S unit) (parsed : result Config)
    : io (S * Log) unit :=
  run (recorded sv) (λ conn c, record AServe (serve conn c)) parsed.
End recorded.

(** The stages of a life: [Held] to [Unlocking] own the lock. *)
Inductive stage := Fresh | Pooled | Pinged | Asked | Refused | Held | Provided | Migrated
  | Unmigrated | Ready | Started | Served | HubClosed | Unlocking | Closed | Leaving | Ended.
#[export] Instance stage_eq_dec : EqDecision stage.
Proof. solve_decision. Defined.
Definition delta (p : stage) (e : action * bool) : option stage :=
  match p, e with
  | Fresh, (APool, ok) => Some (if ok then Pooled else Ended)
  | Pooled, (APing, ok) => Some (if ok then Pinged else Leaving)
  | Pinged, (AAcquire, ok) => Some (if ok then Asked else Leaving)
  | Asked, (ALock taken, ok) => Some (if ok && taken then Held else Refused)
  | Refused, (ARelease, _) => Some Leaving
  | Held, (AProvider, ok) => Some (if ok then Provided else Unmigrated)
  | Provided, (AUp, ok) => Some (if ok then Migrated else Unmigrated)
  | Migrated, (ACloseDB, _) => Some Ready
  | Unmigrated, (ACloseDB, _) => Some Unlocking
  | Ready, (AStart, ok) => Some (if ok then Started else Served)
  | Started, (AServe, _) => Some Served
  | Served, (ACloseHub, _) => Some HubClosed
  | HubClosed, (ACloseEngine, _) => Some Unlocking
  | Unlocking, (AClose, _) => Some Closed
  | Closed, (ARelease, _) => Some Leaving
  | Leaving, (AClosePool, _) => Some Ended
  | _, _ => None
  end.
Definition holds (p : stage) : bool :=
  bool_decide (p ∈ [Held; Provided; Migrated; Unmigrated; Ready; Started; Served; HubClosed; Unlocking]).

Section life.
Context {S : Type} (sv : Server S) (serve : string → Config → io S unit).
Abbreviation at_p := (at_ delta Fresh (S:=S)).
Lemma triple_deferred {X A} (P : X → Prop) (m : io X A) c I I' J J' :
  triple P m (λ _, I) (λ _, I') →
  triple I (attempt c) (λ _ : result unit, J) (λ _, J) →
  triple I' (attempt c) (λ _ : result unit, J') (λ _, J') →
  triple P (deferred m c) (λ _, J) (λ _, J').
Proof.
  intros Hm Hc Hc' σ r σ' HP. unfold deferred, mbind, io_bind, attempt.
  specialize (Hm σ). destruct (m σ) as [[a|e] σ1]; pose proof (Hm _ _ HP eq_refl) as H1; simpl in H1.
  - specialize (Hc σ1). unfold attempt in Hc. destruct (c σ1) as [r2 σ2].
    intros [= <- <-]. exact (Hc _ _ H1 eq_refl).
  - specialize (Hc' σ1). unfold attempt in Hc'. destruct (c σ1) as [r2 σ2].
    intros [= <- <-]. exact (Hc' _ _ H1 eq_refl).
Qed.
(** An action, with the stage that it leads to when it succeeds and when it fails. *)
Lemma act {A} o (m : io S A) p q q' :
  delta p (o, true) = Some q → delta p (o, false) = Some q' →
  triple (at_p p) (record o m) (λ _, at_p q) (λ _, at_p q').
Proof.
  intros Hq Hq' [σ l] r σ' Hp. unfold record, at_ in *. simpl in Hp. destruct (m σ) as [r1 σ1].
  intros [= <- <-]. simpl. destruct r1; rewrite protocol_snoc, Hp; [exact Hq|exact Hq'].
Qed.
Lemma tried {A} o (m : io S A) p q E :
  (∀ ok, delta p (o, ok) = Some q) → triple (at_p p) (attempt (record o m)) (λ _, at_p q) E.
Proof. intros Hq. by apply triple_tried with (q := λ _, q). Qed.
Lemma then_ {A B} (m : io (S * Log) A) (f : A → io (S * Log) B) P I I' J J' :
  triple P m (λ _, I) (λ _, I') → (∀ a, triple I (f a) (λ _, J) (λ _, J')) → (∀ σ, I' σ → J' σ) →
  triple P (m ≫= f) (λ _, J) (λ _, J').
Proof.
  intros Hm Hf HI. eapply triple_bind; [|exact Hf]. eapply triple_conseq; [exact Hm|done..|by simpl].
Qed.

Lemma AcquireInstance_life :
  triple (at_p Pinged) (AcquireInstance (recorded sv)) (λ _, at_p Held) (λ _, at_p Leaving).
Proof.
  unfold AcquireInstance. eapply then_; [by apply act with (q := Asked) (q' := Leaving)| |done].
  intros conn [σ l] r σ' Hp. simpl. unfold attempt, record_lock, mbind, io_bind.
  unfold at_ in *. simpl in Hp. destruct (sv_try_lock sv conn σ) as [[[]|e] σ1]; simpl.
  - intros [= <- <-]. simpl. by rewrite protocol_snoc, Hp.
  - destruct (sv_release sv conn σ1) as [r2 σ2]. intros [= <- <-]. simpl.
    by rewrite protocol_snoc, protocol_snoc, Hp.
  - destruct (sv_release sv conn σ1) as [r2 σ2]. intros [= <- <-]. simpl.
    by rewrite protocol_snoc, protocol_snoc, Hp.
Qed.
Lemma Migrate_life :
  triple (at_p Held) (Migrate (recorded sv)) (λ _, at_p Ready) (λ _, at_p Unlocking).
Proof.
  eapply triple_deferred with (I := at_p Migrated) (I' := at_p Unmigrated); [|by apply tried..].
  eapply then_; [by apply act with (q := Provided) (q' := Unmigrated)| |done].
  intros u. by apply act with (q := Migrated) (q' := Unmigrated).
Qed.
Lemma engine_life conn c :
  triple (at_p Ready) (engine (recorded sv) (λ conn c, record AServe (serve conn c)) conn c)
    (λ _, at_p Unlocking) (λ _, at_p Unlocking).
Proof.
  eapply triple_deferred with (I := at_p HubClosed) (I' := at_p HubClosed); [|by apply tried..].
  eapply triple_deferred with (I := at_p Served) (I' := at_p Served); [|by apply tried..].
  eapply then_; [by apply act with (q := Started) (q' := Served)| |done].
  intros u. by apply act with (q := Served) (q' := Served).
Qed.
(** A process goes through its life in order, and leaves nothing behind however it ends. *)
Lemma run_life parsed :
  triple (at_p Fresh) (logged_run sv serve parsed) (λ _, at_p Ended)
    (λ _ σ, at_p Ended σ ∨ at_p Fresh σ).
Proof.
  unfold logged_run, run. eapply triple_bind with (M := λ _, at_p Fresh).
  { intros σ r σ' Hp [= <- <-]. destruct (Load parsed); [done|by right]. }
  intros c. eapply triple_conseq with (P := at_p Fresh) (Q := λ _, at_p Ended) (E := λ _, at_p Ended);
    [|done|done|by left].
  eapply then_; [by apply act with (q := Pooled) (q' := Ended)| |done]. intros u.
  eapply triple_deferred with (I := at_p Leaving) (I' := at_p Leaving); [|by apply tried..].
  eapply then_; [by apply act with (q := Pinged) (q' := Leaving)| |done]. intros u1.
  eapply then_; [apply AcquireInstance_life| |done]. intros conn.
  assert (triple (at_p Unlocking) (attempt (attempt (sv_close (recorded sv) conn);; sv_release (recorded sv) conn))
    (λ _, at_p Leaving) (λ _, at_p Leaving)) as Hclose.
  { intros σ r σ' Hp. unfold attempt, mbind, io_bind. simpl. unfold record. destruct σ as [σ l].
    destruct (sv_close sv conn σ) as [r1 σ1], (sv_release sv conn σ1) as [r2 σ2].
    intros [= <- <-]. unfold at_ in *. simpl in *. by rewrite !protocol_snoc, Hp. }
  eapply triple_deferred; [|exact Hclose|exact Hclose].
  eapply then_; [apply Migrate_life|intros u2; apply engine_life|done].
Qed.
End life.

(** ** Processes on one database *)
(** What happens: an action of a process, or its session is dropped. *)
Inductive happening := Act (p : nat) (e : action * bool) | Drop (p : nat).
Definition actions_of (p : nat) (trace : list happening) : Log :=
  omap (λ h, if h is Act q e then if decide (q = p) then Some e else None else None) trace.
(** The owner of the lock, which a session keeps until it ends. *)
Definition owner_step (owner : option nat) (h : happening) : option nat :=
  match h with
  | Act p (ALock true, true) => Some p
  | Act p (AClose, _) | Drop p => if decide (owner = Some p) then None else owner
  | _ => owner
  end.
Definition owner (trace : list happening) : option nat := fold_left owner_step trace None.
(** [pg_try_advisory_lock] gives a lock that nobody else owns. *)
Definition locking (trace : list happening) : Prop :=
  ∀ before p after, trace = before ++ Act p (ALock true, true) :: after →
    owner before = None ∨ owner before = Some p.
(** Each process runs the program. *)
Definition running (trace : list happening) : Prop :=
  ∀ p, ∃ (S : Type) (sv : Server S) serve parsed σ r σ' l,
    logged_run sv serve parsed (σ, []) = (r, (σ', l)) ∧ actions_of p trace `prefix_of` l.
(** A process is in charge from taking the lock to closing its connection. *)
Definition in_charge (p : nat) (trace : list happening) : Prop :=
  (ALock true, true) ∈ actions_of p trace ∧ ∀ ok, (AClose, ok) ∉ actions_of p trace.
(** Migrating, running the engine and serving. *)
Definition working (o : action) : bool :=
  match o with
  | AProvider | AUp | ACloseDB | AStart | AServe | ACloseHub | ACloseEngine => true
  | _ => false
  end.

Abbreviation life := (protocol delta Fresh).
Lemma actions_of_snoc p trace h :
  actions_of p (trace ++ [h]) = actions_of p trace ++ actions_of p [h].
Proof. apply omap_app. Qed.
Lemma life_prefix l l' : l `prefix_of` l' → is_Some (life l') → is_Some (life l).
Proof.
  intros [k ->]. unfold protocol. rewrite progress_app.
  destruct (progress _ _ l); [by eexists|by intros []].
Qed.
Lemma running_life trace : running trace → ∀ p, is_Some (life (actions_of p trace)).
Proof.
  intros H p. destruct (H p) as (S & sv & serve & parsed & σ & r & σ' & l & Hr & Hl).
  eapply life_prefix; [exact Hl|].
  pose proof (run_life sv serve parsed (σ, []) r (σ', l) eq_refl Hr) as Hlife.
  unfold at_ in Hlife. simpl in Hlife. destruct r; [by eexists|]. destruct Hlife as [E|E]; by eexists.
Qed.
Lemma running_before before after : running (before ++ after) → running before.
Proof.
  intros H p. destruct (H p) as (S & sv & serve & parsed & σ & r & σ' & l & Hr & Hl).
  exists S, sv, serve, parsed, σ, r, σ', l. split; [done|].
  etrans; [|exact Hl]. unfold actions_of. rewrite omap_app. by eexists.
Qed.
Lemma locking_before before after : locking (before ++ after) → locking before.
Proof.
  intros H b p a E. apply (H b p (a ++ after)). by rewrite E, <- app_assoc.
Qed.

(** The stages that hold the lock are those of a process in charge. *)
Definition early (p : stage) : bool := bool_decide (p ∈ [Fresh; Pooled; Pinged; Asked]).
Definition charge_at (p : stage) (l : Log) : Prop :=
  if holds p then (ALock true, true) ∈ l ∧ ∀ ok, (AClose, ok) ∉ l
  else ((ALock true, true) ∉ l ∨ ∃ ok, (AClose, ok) ∈ l) ∧ (early p = true → ∀ ok, (AClose, ok) ∉ l).
Lemma life_charge l p : life l = Some p → charge_at p l.
Proof.
  revert p. induction l as [|[o ok] l IH] using rev_ind; intros p.
  { intros [= <-]. split; [left; apply not_elem_of_nil|intros _ ok; apply not_elem_of_nil]. }
  rewrite protocol_snoc. destruct (life l) as [q|] eqn:E; [|done]. specialize (IH q eq_refl).
  simpl. intros Hd. unfold charge_at in *.
  destruct q, o as [| | | |taken| | | | | | | | |], ok; try discriminate Hd; try destruct taken; simpl in Hd;
    injection Hd as <-; simpl in *; set_solver.
Qed.
Lemma in_charge_holds p trace ph :
  life (actions_of p trace) = Some ph → in_charge p trace ↔ holds ph = true.
Proof.
  intros E%life_charge. unfold charge_at, in_charge in *. destruct (holds ph); [tauto|].
  destruct E as [[Hl|[ok Hc]] _]; (split; [intros [H1 H2]|done]); [done|by destruct (H2 ok)].
Qed.
(** A process in charge owns the lock, unless its session was dropped. *)
Lemma in_charge_owner trace p :
  running trace → locking trace → in_charge p trace → owner trace = Some p ∨ Drop p ∈ trace.
Proof.
  revert p. induction trace as [|h trace IH] using rev_ind; intros p Hrun Hlock Hp.
  { destruct Hp as [Hp _]. by apply elem_of_nil in Hp. }
  assert (∀ q, in_charge q trace → owner trace = Some q ∨ Drop q ∈ trace) as IHq.
  { intros q. apply IH; [by eapply running_before|by eapply locking_before]. }
  destruct (running_life _ Hrun p) as [ph' Eph'].
  destruct (running_life _ (running_before _ _ Hrun) p) as [ph Eph].
  unfold owner. rewrite fold_left_app. simpl. fold (owner trace).
  pose proof (proj1 (in_charge_holds _ _ _ Eph') Hp) as Hh. rewrite actions_of_snoc in Eph'.
  destruct h as [q [o ok]|q]; simpl in *.
  - destruct (decide (q = p)) as [->|Hne]; simpl in Eph'.
    + rewrite protocol_snoc, Eph in Eph'. simpl in Eph'. destruct (holds ph) eqn:Hph.
      * assert (owner_step (owner trace) (Act p (o, ok)) = owner trace) as Eo.
        { destruct ph, o as [| | | |taken| | | | | | | | |], ok; try discriminate Eph'; try discriminate Hph;
            try reflexivity; injection Eph' as <-; discriminate Hh. }
        simpl in Eo. rewrite Eo. destruct (IHq p) as [?|?]; [by eapply in_charge_holds|by left|right; set_solver].
      * left. destruct ph, o as [| | | |[]| | | | | | | | |], ok; try discriminate Eph'; try discriminate Hph;
          injection Eph' as <-; try discriminate Hh. reflexivity.
    + rewrite app_nil_r in Eph'. rewrite Eph in Eph'. injection Eph' as <-.
      destruct (IHq p) as [Ho|?]; [by eapply in_charge_holds| |right; set_solver].
      destruct o as [| | | |[]| | | | | | | | |]; try by left.
      * destruct ok; [|by left]. destruct (Hlock trace q [] eq_refl) as [E|E]; rewrite E in Ho; [done|].
        injection Ho as ->. done.
      * left. rewrite decide_False; [done|]. rewrite Ho. by intros [= ->].
  - rewrite app_nil_r in Eph'. destruct (decide (q = p)) as [->|Hne]; [right; set_solver|].
    rewrite Eph in Eph'. injection Eph' as <-.
    destruct (IHq p) as [Ho|?]; [by eapply in_charge_holds| |right; set_solver].
    left. rewrite decide_False; [done|]. rewrite Ho. by intros [= ->].
Qed.

(** C13: one server works on a database. Whatever processes run the program on it, in whatever
    interleaving: a process migrates the database, runs its engine and serves only while it is in
    charge, from taking the lock to closing the lock's connection; and of two processes that are
    in charge at the same time, one has lost its session. *)
Theorem one_server trace :
  running trace → locking trace →
  (∀ before p o ok after, trace = before ++ Act p (o, ok) :: after → working o = true → in_charge p before) ∧
  (∀ before after p q, trace = before ++ after → in_charge p before → in_charge q before → p ≠ q →
     Drop p ∈ before ∨ Drop q ∈ before).
Proof.
  intros Hrun Hlock. split.
  - intros before p o ok after -> Hw.
    destruct (running_life _ (running_before _ _ Hrun) p) as [ph Eph]. apply (in_charge_holds _ _ _ Eph).
    rewrite cons_middle, app_assoc in Hrun. apply running_before in Hrun.
    destruct (running_life _ Hrun p) as [ph' Eph']. rewrite actions_of_snoc in Eph'. simpl in Eph'.
    rewrite decide_True in Eph' by done. rewrite protocol_snoc, Eph in Eph'. simpl in Eph'.
    by destruct ph, o as [| | | |taken| | | | | | | | |].
  - intros before after p q -> Hp Hq Hne.
    assert (∀ p, in_charge p before → owner before = Some p ∨ Drop p ∈ before) as H.
    { intros p'. apply in_charge_owner; [by eapply running_before|by eapply locking_before]. }
    destruct (H p Hp) as [E1|]; [|by left]. destruct (H q Hq) as [E2|]; [|by right].
    rewrite E1 in E2. by injection E2.
Qed.

(** ** Two processes, of which one serves *)
Section demo.
Fixpoint locks (o : option nat) (trace : list happening) : bool :=
  match trace with
  | [] => true
  | h :: trace =>
    match h with
    | Act p (ALock true, true) => bool_decide (o = None ∨ o = Some p)
    | _ => true
    end && locks (owner_step o h) trace
  end.
Lemma locks_from o trace before p after :
  locks o trace = true → trace = before ++ Act p (ALock true, true) :: after →
  fold_left owner_step before o = None ∨ fold_left owner_step before o = Some p.
Proof.
  revert o before. induction trace as [|h trace IH]; intros o before H E; [by destruct before|].
  simpl in H. apply andb_true_iff in H as [H1 H2]. destruct before as [|h' before]; injection E as -> E.
  - by apply bool_decide_eq_true in H1.
  - simpl. by eapply IH.
Qed.
Lemma locks_ok trace : locks None trace = true → locking trace.
Proof. intros H before p after. by apply locks_from. Qed.
(** The driver as a process finds it: the lock is free, or it is not. *)
Definition demo_server (free : bool) : Server unit :=
  MkServer unit (λ _, mret tt) (mret tt) (mret tt) (mret "c") (λ _, mret free) (λ _, mret tt) (λ _, mret tt)
    (mret tt) (mret tt) (mret tt) (λ _, mret tt) (mret tt) (mret tt).
Definition demo_config : Config :=
  MkConfig "db" ":8080" "/w" true 300 600 "" true "" "" 0 "" "" "".
Definition demo_log (free : bool) : Log :=
  (logged_run (demo_server free) (λ _ _, mret tt) (Ok demo_config) (tt, [])).2.2.
Definition demo_trace : list happening :=
  map (Act 0) (take 8 (demo_log true)) ++ map (Act 1) (demo_log false) ++ map (Act 0) (drop 8 (demo_log true)).
Example demo_refused : demo_log false =
  [(APool, true); (APing, true); (AAcquire, true); (ALock false, true); (ARelease, true); (AClosePool, true)].
Proof. reflexivity. Qed.
Lemma demo_running : running demo_trace.
Proof.
  intros p. exists unit, (demo_server (bool_decide (p = 0))), (λ _ _, mret tt), (Ok demo_config), tt.
  destruct (decide (p = 0)) as [->|H0].
  { exists (Ok tt), tt, (demo_log true). split; [reflexivity|]. by exists []. }
  rewrite bool_decide_eq_false_2 by done. exists (Err another_instance), tt, (demo_log false).
  split; [reflexivity|]. destruct (decide (p = 1)) as [->|H1]; [by exists []|].
  destruct p as [|[|p]]; [done..|]. by exists (demo_log false).
Qed.
Definition both_at_work : list happening :=
  map (Act 0) (take 8 (demo_log true)) ++ map (Act 1) (demo_log false).
Lemma one_server_witness :
  in_charge 0 both_at_work ∧ ¬ in_charge 1 both_at_work.
Proof.
  destruct (one_server demo_trace demo_running (locks_ok demo_trace eq_refl)) as [H1 H2].
  assert (in_charge 0 both_at_work) as H0.
  { by apply (H1 both_at_work 0 AServe true (map (Act 0) (drop 9 (demo_log true)))). }
  split; [exact H0|]. intros H.
  assert (∀ p, Drop p ∉ both_at_work) as Hd.
  { intros p Hp. vm_compute in Hp. set_solver. }
  destruct (H2 both_at_work (map (Act 0) (drop 8 (demo_log true))) 0 1) as [Hp|Hp]; [reflexivity|done..| |].
  - by apply (Hd 0).
  - by apply (Hd 1).
Defined.
End demo.
