(* ===== verification/Http.v ===== *)
(** * The HTTP API ([internal/httpapi])

    The routes, what each does with its decoded input, the mapping of errors, and the handler
    with and without authentication.  The framework, which decodes the requests and serves the
    documentation of the API, and the handlers mounted beside it are interfaces. *)
From S2P Require Import Prelude GoStrings Domain Pipeline PipelineJSON Agent Llm Tools PathGuard.
From S2P Require Import Splitting Store Event History Derived Approval Task Sha256 Auth Config.

(** ** Routes *)
Record Route := MkRoute { rt_ID : string; rt_Method : string; rt_Path : string; rt_Status : Z }.
(** src: internal/httpapi/http.go 118-126 ProjectController.Register (routes) *)
Definition project_routes : list Route :=
  [MkRoute "projects-list" "GET" "/api/v1/projects" 200;
   MkRoute "projects-get" "GET" "/api/v1/projects/{id}" 200;
   MkRoute "projects-create" "POST" "/api/v1/projects" 201].
(** src: internal/httpapi/http.go 127-163 TaskController.Register (routes) *)
Definition task_routes : list Route :=
  [MkRoute "tasks-list" "GET" "/api/v1/tasks" 200; MkRoute "tasks-get" "GET" "/api/v1/tasks/{id}" 200;
   MkRoute "tasks-create" "POST" "/api/v1/tasks" 201]
  ++ map (λ action, MkRoute ("tasks-" +:+ action) "POST" ("/api/v1/tasks/{id}/" +:+ action) 200)
       ["pause"; "resume"; "cancel"]
  ++ [MkRoute "tasks-budget" "POST" "/api/v1/tasks/{id}/budget" 200;
      MkRoute "tasks-events" "GET" "/api/v1/tasks/{id}/events" 200].
(** src: internal/httpapi/http.go 164-181 ApprovalController.Register (routes) *)
Definition approval_routes : list Route :=
  [MkRoute "approvals-list" "GET" "/api/v1/approvals" 200;
   MkRoute "approvals-get" "GET" "/api/v1/approvals/{id}" 200;
   MkRoute "approvals-decide" "POST" "/api/v1/approvals/{id}/decide" 200;
   MkRoute "tasks-approvals" "GET" "/api/v1/tasks/{id}/approvals" 200].
(** src: internal/httpapi/auth.go 60-71 AuthController.Register (routes) *)
Definition auth_routes : list Route :=
  [MkRoute "auth-login" "POST" "/api/v1/auth/login" 200;
   MkRoute "auth-logout" "POST" "/api/v1/auth/logout" 204].
(** The operations of the API.
    src: internal/httpapi/http.go 92-107 Handler (operations) *)
Definition operations (authn : option Authenticator) : list Route :=
  project_routes ++ task_routes ++ approval_routes ++ [MkRoute "me" "GET" "/api/v1/me" 200]
  ++ (if authn is Some _ then auth_routes else [])
  ++ [MkRoute "health" "GET" "/api/v1/health" 200; MkRoute "health-compat" "GET" "/actuator/health" 200].

(** A clean path by its decoded elements; [http.ServeMux] matches them one by one. *)
Fixpoint matches (pattern elements : list string) : bool :=
  match pattern, elements with
  | [], [] => true
  | p :: pattern, e :: elements =>
    (if HasPrefix p "{" then e ≠? "" else p =? e) && matches pattern elements
  | _, _ => false
  end.
Definition elements_of (pattern : string) : list string := tail (Split slash pattern).
Definition path_with (elements : list string) : string := "/" +:+ Join "/" elements.

(** ** Requests and answers *)
(** A request that arrives; [in_Raw] is what only the framework looks at. *)
Record Incoming (Raw : Type) := MkIncoming {
  in_Method : string; in_Elements : list string; in_Authorization : string;
  in_Cookie : option string; in_Token : string; in_Raw : Raw }.
Arguments MkIncoming {Raw}. Arguments in_Method {Raw}. Arguments in_Elements {Raw}.
Arguments in_Authorization {Raw}. Arguments in_Cookie {Raw}. Arguments in_Token {Raw}.
Arguments in_Raw {Raw}.
(** The decoded input of an operation.
    src: internal/httpapi/http.go 23-58 Empty, ID, CreateProject, CreateTask, SetBudget, Decide, TasksQuery, ApprovalQuery, TaskApprovalQuery, EventsQuery *)
Inductive Call :=
  | ProjectsList
  | ProjectsGet (id : string)
  | ProjectsCreate (body : CreateProjectRequest)
  | TasksList (project legacy : string) (status : list string)
  | TasksGet (id : string)
  | TasksCreate (user project command : string)
  | TasksAction (action id : string)
  | TasksBudget (id : string) (budget : Z)
  | TasksEvents (id : string) (after legacy limit : Z)
  | ApprovalsList (status : string)
  | ApprovalsGet (id : string)
  | ApprovalsDecide (id user : string) (body : DecisionRequest)
  | TasksApprovals (id status : string)
  | MeGet (user : string)
  | AuthLogin (proto password : string)
  | AuthLogout (proto : string)
  | Health.
Definition operation (c : Call) : string :=
  match c with
  | ProjectsList => "projects-list" | ProjectsGet _ => "projects-get"
  | ProjectsCreate _ => "projects-create" | TasksList _ _ _ => "tasks-list"
  | TasksGet _ => "tasks-get" | TasksCreate _ _ _ => "tasks-create"
  | TasksAction action _ => "tasks-" +:+ action | TasksBudget _ _ => "tasks-budget"
  | TasksEvents _ _ _ _ => "tasks-events" | ApprovalsList _ => "approvals-list"
  | ApprovalsGet _ => "approvals-get" | ApprovalsDecide _ _ _ => "approvals-decide"
  | TasksApprovals _ _ => "tasks-approvals" | MeGet _ => "me" | AuthLogin _ _ => "auth-login"
  | AuthLogout _ => "auth-logout" | Health => "health"
  end.
(** The call with another [X-User]. *)
Definition as_user (user : string) (c : Call) : Call :=
  match c with
  | TasksCreate _ project command => TasksCreate user project command
  | ApprovalsDecide id _ body => ApprovalsDecide id user body
  | MeGet _ => MeGet user
  | c => c
  end.
(** src: internal/httpapi/auth.go 27-31 Session *)
Record Session := MkSession { se_User : string; se_Token : string; se_ExpiresAt : Z }.
(** src: internal/httpapi/auth.go 32-35 Me *)
Record Me := MkMe { me_User : string; me_AuthEnabled : bool }.
Record HttpCookie := MkCookie {
  ck_Name : string; ck_Value : string; ck_Path : string; ck_MaxAge : Z; ck_HttpOnly : bool;
  ck_SameSiteLax : bool; ck_Secure : bool }.
(** What an answer holds. *)
Inductive Body :=
  | BError (code message : string)
  | BProjects (l : list ProjectEntity) | BProject (p : ProjectEntity)
  | BTasks (l : list TaskResponse) | BTask (t : TaskResponse) | BEvents (p : EventPage)
  | BApprovals (l : list ApprovalResponse) | BApproval (a : ApprovalResponse)
  | BDecided (d : DecidedResponse) | BMe (m : Me) | BSession (s : Session) | BHealth (ts : Z)
  | BOther.
Record Response := MkResponse { rs_Status : Z; rs_Cookie : option HttpCookie; rs_Body : Body }.

(** ** The framework

    It decodes the input of an operation, or says what is wrong with it: a status and a
    message.  With its default configuration it also serves the documentation of the API:
    [documentation] are the patterns, [document] its answers. *)
Class Huma (Raw : Type) := {
  decode : string → Incoming Raw → (Z * string) + Call;
  documentation : list string;
  document : string → Incoming Raw → Response }.
(** It decodes the input of the operation that was registered; [health] is registered twice.
    The documentation is the OpenAPI document, the page that shows it and the schemas; the
    first two are always there. *)
Class HumaLaws (Raw : Type) `{!Huma Raw} : Prop := {
  decode_operation id r c :
    decode id r = inr c → operation c = id ∨ id = "health-compat" ∧ c = Health;
  documentation_patterns p : p ∈ documentation →
    p ∈ ["/openapi.json"; "/openapi.yaml"; "/openapi-3.0.json"; "/openapi-3.0.yaml"; "/docs";
         "/schemas/{schema}"];
  documentation_served p : p ∈ ["/openapi.json"; "/docs"] →
    p ∈ documentation ∧ ∀ r, rs_Status (document p r) = 200%Z }.
(** The handlers that [main.go] passes, when there are any: the WebSocket and the metrics. *)
Record Mounts (Raw : Type) := MkMounts {
  mt_WS : option (Incoming Raw → Response); mt_Metrics : option (Incoming Raw → Response) }.
Arguments MkMounts {Raw}. Arguments mt_WS {Raw}. Arguments mt_Metrics {Raw}.
(** Everything the router knows: an operation of the API, or a handler of its own.
    src: internal/httpapi/http.go 88-112 Handler (routes) *)
Definition routes {Raw} `{!Huma Raw} (mt : Mounts Raw) (authn : option Authenticator)
    : list (Route * option (Incoming Raw → Response)) :=
  map (λ p, (MkRoute "documentation" "GET" p 200, Some (document p))) documentation
  ++ map (λ rt, (rt, None)) (operations authn)
  ++ (if mt_WS mt is Some ws then [(MkRoute "ws" "GET" "/ws" 101, Some ws)] else [])
  ++ (if mt_Metrics mt is Some m then [(MkRoute "metrics" "GET" "/metrics" 200, Some m)] else []).

(** ** Errors *)
(** src: internal/httpapi/http.go 63-76 register *)
Definition register {A} (status : Z) (body : A → Body) (r : result A) : Response :=
  match r with
  | Ok v => MkResponse status None (body v)
  | Err e =>
    match errors_as is_fault e with
    | Some (Fault s code message) => MkResponse s None (BError code message)
    | _ => MkResponse 500 None (BError "INTERNAL_ERROR" "internal server error")
    end
  end.
(** src: internal/httpapi/http.go 81-86 Handler (NewError) *)
Definition NewError (status : Z) (message : string) : Response :=
  MkResponse (if (status =? 422)%Z then 400%Z else status) None (BError "BAD_REQUEST" message).
(** src: internal/auth/auth.go 94-98 Authenticator.Middleware (unauthorized) *)
Definition unauthorized : Response :=
  MkResponse 401 None (BError "UNAUTHORIZED" "authentication required").
(** The router's own answers. *)
Definition not_found : Response := MkResponse 404 None BOther.
Definition method_not_allowed : Response := MkResponse 405 None BOther.

(** ** Operations *)
(** What the services meet outside: the fate of the transaction, the file system's part in
    making a task, the database's answer to a ping, and the clock. *)
Record Outside := MkOutside {
  os_Fate : Fate; os_UUID : string → bool; os_Registry : Registry;
  os_Made : string → ProjectEntity → result string; os_Loaded : result Def; os_Saved : result unit;
  os_Ping : result unit; os_Clock : Z }.

(** src: internal/httpapi/auth.go 43-48 actor *)
Definition actor (user : option string) (header : string) : string :=
  if user is Some u then u else header.
(** src: internal/httpapi/auth.go 49-51 sessionCookie *)
Definition sessionCookie (value proto : string) (maxAge : Z) : HttpCookie :=
  MkCookie Cookie value "/" maxAge true true (proto =? "https").

Section http.
Context {PF : Platform} {UC : Unicode} {JW : JWT}.
Context (os : Outside).

(** The rows of the statuses, which may be lists with commas; none is no filter.
    src: internal/httpapi/http.go 129-142 TaskController.Register (query) *)
Definition tasks_query (db : DB) (project legacy : string) (status : list string)
    : result (list TaskResponse) :=
  let p := if project =? "" then legacy else project in
  FetchTasks db (if p =? "" then None else Some p)
    (if status is [] then None else Some (concat (map (Split (chr 44)) status))).
(** src: internal/httpapi/auth.go 61-67 AuthController.Register (login) *)
Definition login (a : Authenticator) (proto password : string) : Response :=
  match Login a (os_Clock os) password with
  | Err _ => MkResponse 401 None (BError "UNAUTHORIZED" "invalid password")
  | Ok (token, expires) =>
    MkResponse 200 (Some (sessionCookie token proto (Z.quot (au_TTL a) second)))
      (BSession (MkSession Subject token expires))
  end.

(** src: internal/httpapi/auth.go 68-70 AuthController.Register (logout) *)
Definition logout (proto : string) : Response :=
  MkResponse 204 (Some (sessionCookie "" proto (-1))) BOther.
(** src: internal/httpapi/auth.go 52-59 registerMe *)
Definition me (user : option string) (header : string) : Me :=
  if user is Some u then MkMe u true else MkMe header false.

(** An operation, for the user that the context carries.
    src: internal/httpapi/http.go 99-181 Handler, ProjectController.Register, TaskController.Register, ApprovalController.Register *)
Definition perform (authn : option Authenticator) (rt : Route) (user : option string) (c : Call)
    (w : World) : Response * World :=
  let db := w_db w in
  let reg {A} (body : A → Body) (r : result A) : Response := register (rt_Status rt) body r in
  let regw {A} (body : A → Body) (r : result A * World) : Response * World := (reg body r.1, r.2) in
  match c with
  | ProjectsList => (reg BProjects (FetchProjects db), w)
  | ProjectsGet id => (reg BProject (FetchProject db id), w)
  | ProjectsCreate body => regw BProject (Service_CreateProject (os_Fate os) body w)
  | TasksList project legacy status => (reg BTasks (tasks_query db project legacy status), w)
  | TasksGet id => (reg BTask (FetchTask db id), w)
  | TasksCreate u project command =>
    let '(r, w, _) := Service_CreateTask (os_UUID os) (os_Registry os) (os_Fate os) (os_Made os)
                        (os_Loaded os) (os_Saved os) project command (actor user u) w in
    (reg BTask r, w)
  | TasksAction action id => regw BTask (UpdateTask (os_Fate os) id action w)
  | TasksBudget id budget => regw BTask (SetBudget (os_Fate os) id budget w)
  | TasksEvents id after legacy limit =>
    (reg BEvents (FetchEvents db id (if (after =? 0)%Z then legacy else after) limit), w)
  | ApprovalsList status => (reg BApprovals (FetchApprovals db None (Some status) true), w)
  | ApprovalsGet id => (reg BApproval (FetchApproval db id), w)
  | ApprovalsDecide id u body =>
    regw BDecided (UpdateApproval (os_Fate os) id body (actor user u) w)
  | TasksApprovals id status =>
    (reg BApprovals (FetchApprovals db (Some id)
       (if TrimSpace status =? "" then None else Some status) false), w)
  | MeGet u => (reg BMe (Ok (me user u)), w)
  | AuthLogin proto password => (if authn is Some a then login a proto password else not_found, w)
  | AuthLogout proto => (logout proto, w)
  | Health => (reg BHealth (_ ← os_Ping os; Ok (os_Clock os)), w)
  end.

Definition path_ok {Raw} (r : Incoming Raw) (rt : Route) : bool :=
  matches (elements_of (rt_Path rt)) (in_Elements r).
(** A pattern for GET also serves HEAD. *)
Definition route_ok {Raw} (r : Incoming Raw) (rt : Route) : bool :=
  ((rt_Method rt =? in_Method r) || ((rt_Method rt =? "GET") && (in_Method r =? "HEAD"))) &&
  path_ok r rt.
Definition routed {Raw} `{!Huma Raw} (mt : Mounts Raw) (authn : option Authenticator)
    (r : Incoming Raw) : option (Route * option (Incoming Raw → Response)) :=
  find (λ x, route_ok r x.1) (routes mt authn).
(** src: internal/httpapi/http.go 88-112 Handler (mux) *)
Definition mux {Raw} `{!Huma Raw} (mt : Mounts Raw) (authn : option Authenticator)
    (r : Incoming Raw) (user : option string) (w : World) : Response * World :=
  match routed mt authn r with
  | None => (if existsb (λ x, path_ok r x.1) (routes mt authn) then method_not_allowed
             else not_found, w)
  | Some (_, Some serve) => (serve r, w)
  | Some (rt, None) =>
    match decode (rt_ID rt) r with
    | inl (status, message) => (NewError status message, w)
    | inr c => perform authn rt user c w
    end
  end.
(** What the middleware sees of a request from the network. *)
Definition request {Raw} (r : Incoming Raw) : Request :=
  MkRequest (in_Method r) (path_with (in_Elements r)) (in_Authorization r) (in_Cookie r)
    (in_Token r) None.
(** src: internal/httpapi/http.go 79-117 Handler *)
Definition Handler {Raw} `{!Huma Raw} (mt : Mounts Raw) (authn : option Authenticator)
    (r : Incoming Raw) (w : World) : Response * World :=
  match authn with
  | None => mux mt authn r None w
  | Some a =>
    Middleware (unauthorized, w) a (os_Clock os) (λ q, mux mt authn r (rq_User q) w) (request r)
  end.
End http.

(** ** What is open *)
(** The routes that answer without a token. *)
Definition open_operations : list string :=
  ["auth-login"; "auth-logout"; "health"; "health-compat"; "metrics"; "documentation"].
Definition literal (p : string) : bool := negb (HasPrefix p "{").
Lemma matches_literals l rest elements :
  forallb literal l = true → matches (l ++ rest) elements = true →
  ∃ t, elements = l ++ t ∧ matches rest t = true.
Proof.
  revert elements. induction l as [|p l IH]; intros elements Hl H; [by exists elements|].
  simpl in Hl, H. destruct elements as [|e elements]; [done|].
  apply andb_true_iff in Hl as [Hp Hl]. apply andb_true_iff in H as [He H].
  unfold literal in Hp. apply negb_true_iff in Hp. rewrite Hp in He.
  apply String.eqb_eq in He as ->. destruct (IH elements Hl H) as (t & -> & Ht). by exists t.
Qed.
Lemma matches_itself l : forallb literal l = true → matches l l = true.
Proof.
  induction l as [|p l IH]; [done|]. simpl. intros [Hp Hl]%andb_true_iff.
  apply negb_true_iff in Hp. by rewrite Hp, String.eqb_refl, (IH Hl).
Qed.
(** Everything below the collections is protected, whatever follows. *)
Lemma collection_protected name t :
  name ∈ ["projects"; "tasks"; "approvals"; "me"] →
  protected (path_with (["api"; "v1"; name] ++ t)) = true.
Proof.
  rewrite !elem_of_cons, elem_of_nil.
  intros [->|[->|[->|[->|[]]]]]; destruct t; reflexivity.
Qed.

Section guarded.
Context {PF : Platform} {UC : Unicode} {JW : JWT} {JL : JWTLaws} (os : Outside).
Context {Raw : Type} {HU : Huma Raw} {HL : HumaLaws Raw} (mt : Mounts Raw).

(** An operation belongs to a collection, or is open. *)
Lemma operations_shape authn :
  Forall (λ rt, rt_ID rt ∈ open_operations ∨
    ∃ name rest, name ∈ ["projects"; "tasks"; "approvals"; "me"] ∧
      elements_of (rt_Path rt) = ["api"; "v1"; name] ++ rest) (operations authn).
Proof.
  destruct authn; repeat (constructor; [
    first [left; unfold open_operations; set_solver |
           right; eexists _, _; split; [|reflexivity]; set_solver]|]); constructor.
Qed.
Lemma routes_cases authn x :
  x ∈ routes mt authn →
  (∃ p, x = (MkRoute "documentation" "GET" p 200, Some (document p)) ∧ p ∈ documentation) ∨
  (∃ rt, x = (rt, None) ∧ rt ∈ operations authn) ∨
  (∃ ws, x = (MkRoute "ws" "GET" "/ws" 101, Some ws)) ∨
  (∃ m, x = (MkRoute "metrics" "GET" "/metrics" 200, Some m)).
Proof.
  unfold routes. rewrite !elem_of_app.
  intros [(p & E & Hp)%list_elem_of_fmap|[(rt & E & Hrt)%list_elem_of_fmap|[H|H]]].
  - left. by exists p.
  - right. left. by exists rt.
  - destruct (mt_WS mt) as [ws|]; [|by apply elem_of_nil in H].
    apply list_elem_of_singleton in H as ->. right. right. left. by exists ws.
  - destruct (mt_Metrics mt) as [m|]; [|by apply elem_of_nil in H].
    apply list_elem_of_singleton in H as ->. right. right. right. by exists m.
Qed.
Lemma routed_in authn (r : Incoming Raw) x :
  routed mt authn r = Some x → x ∈ routes mt authn ∧ path_ok r x.1 = true.
Proof.
  intros [Hin Hok]%find_some. split; [by apply list_elem_of_In|].
  by apply andb_true_iff in Hok as [_ Hok].
Qed.
Lemma routed_protected authn (r : Incoming Raw) x :
  routed mt authn r = Some x → rt_ID x.1 ∉ open_operations →
  protected (path_with (in_Elements r)) = true.
Proof.
  intros [Hin Hm]%routed_in Hopen. unfold path_ok in Hm.
  destruct (routes_cases _ _ Hin) as [(p & -> & _)|[(rt & -> & Hrt)|[(ws & ->)|(m & ->)]]].
  - exfalso. apply Hopen. unfold open_operations. set_solver.
  - pose proof (operations_shape authn) as Hs. rewrite Forall_forall in Hs.
    destruct (Hs rt Hrt) as [?|(name & rest & Hname & E)];
      [done|]. simpl in Hm. rewrite E in Hm.
    apply matches_literals in Hm as (t & -> & _); [by apply collection_protected|].
    rewrite !elem_of_cons, elem_of_nil in Hname. by destruct Hname as [->|[->|[->|[->|[]]]]].
  - change (elements_of _) with (["ws"] ++ []) in Hm.
    apply matches_literals in Hm as (t & -> & Ht); [|done]. by destruct t.
  - exfalso. apply Hopen. unfold open_operations. set_solver.
Qed.

(** The open operations change nothing. *)
Lemma open_unchanged authn rt user c w resp w' :
  perform os authn rt user c w = (resp, w') → operation c ∈ open_operations → w' = w.
Proof.
  intros H Hop. destruct c; simpl in H; try (by injection H as _ <-);
    exfalso; revert Hop; unfold open_operations; rewrite !elem_of_cons, elem_of_nil; simpl;
    intros Hop; repeat destruct Hop as [Hop|Hop]; done.
Qed.
Lemma mux_unchanged authn (r : Incoming Raw) user w :
  (∀ x, routed mt authn r = Some x → rt_ID x.1 ∈ open_operations) →
  (mux os mt authn r user w).2 = w.
Proof.
  intros Ho. unfold mux. destruct (routed mt authn r) as [[rt [serve|]]|]; [done| |done].
  specialize (Ho _ eq_refl). simpl in Ho.
  destruct (decode (rt_ID rt) r) as [[status message]|c] eqn:Hd; [done|].
  apply decode_operation in Hd as [E|[_ ->]]; [|done]. rewrite <- E in Ho.
  destruct (perform _ _ _ _ _ _) as [resp w'] eqn:H. by eapply open_unchanged.
Qed.
(** The documents are served to everybody. *)
Definition documents : list (list string) := [["openapi.json"]; ["docs"]].
Lemma documents_open elements : elements ∈ documents → protected (path_with elements) = false.
Proof. unfold documents. rewrite !elem_of_cons, elem_of_nil. by intros [->|[->|[]]]. Qed.
Lemma documents_apart authn elements rt :
  elements ∈ documents → rt ∈ operations authn → matches (elements_of (rt_Path rt)) elements = false.
Proof.
  unfold documents. rewrite !elem_of_cons, elem_of_nil. intros He Hrt.
  assert (Forall (λ rt, matches (elements_of (rt_Path rt)) elements = false) (operations authn))
    as Hall by by destruct He as [->|[->|[]]], authn; repeat constructor.
  rewrite Forall_forall in Hall. by apply Hall.
Qed.
(** The only pattern that a document's path matches is its own. *)
Lemma document_routed authn (r : Incoming Raw) x :
  in_Elements r ∈ documents → routed mt authn r = Some x →
  ∃ p, x = (MkRoute "documentation" "GET" p 200, Some (document p)) ∧
    p ∈ ["/openapi.json"; "/docs"].
Proof.
  intros He [Hin Hm]%routed_in. unfold path_ok in Hm.
  destruct (routes_cases _ _ Hin) as [(p & -> & Hp)|[(rt & -> & Hrt)|[(ws & ->)|(m & ->)]]].
  - exists p. split; [done|]. apply documentation_patterns in Hp. revert Hp He Hm. simpl.
    unfold documents. rewrite !elem_of_cons, !elem_of_nil.
    intros Hp [->|[->|[]]]; repeat destruct Hp as [->|Hp]; (done || naive_solver).
  - simpl in Hm. by rewrite (documents_apart authn) in Hm.
  - exfalso. revert He Hm. unfold documents. rewrite !elem_of_cons, elem_of_nil.
    by intros [->|[->|[]]].
  - exfalso. revert He Hm. unfold documents. rewrite !elem_of_cons, elem_of_nil.
    by intros [->|[->|[]]].
Qed.
Lemma document_found authn (r : Incoming Raw) :
  in_Elements r ∈ documents → in_Method r = "GET" → routed mt authn r ≠ None.
Proof.
  intros He Hm Hr.
  assert (∃ p, p ∈ documentation ∧ matches (elements_of p) (in_Elements r) = true) as (p & Hp & Ho).
  { revert He. unfold documents. rewrite !elem_of_cons, elem_of_nil. intros [->|[->|[]]].
    - exists "/openapi.json". split; [apply documentation_served; set_solver|done].
    - exists "/docs". split; [apply documentation_served; set_solver|done]. }
  pose proof (find_none _ _ Hr (MkRoute "documentation" "GET" p 200, Some (document p))) as Hn.
  unfold route_ok, path_ok in Hn. simpl in Hn. rewrite Hm, Ho in Hn. apply diff_true_false, Hn.
  apply list_elem_of_In, elem_of_app. left. apply list_elem_of_fmap. by exists p.
Qed.
Lemma mux_document authn (r : Incoming Raw) user w :
  in_Elements r ∈ documents → in_Method r = "GET" →
  rs_Status (mux os mt authn r user w).1 = 200%Z ∧ (mux os mt authn r user w).2 = w.
Proof.
  intros He Hm. pose proof (document_found authn r He Hm) as Hf. unfold mux.
  destruct (routed mt authn r) as [x|] eqn:Hr; [|done].
  destruct (document_routed _ _ _ He Hr) as (p & -> & Hp). split; [|done].
  by apply documentation_served.
Qed.

(** With a user in the context, [X-User] means nothing. *)
Lemma perform_as authn rt user header c w :
  perform os authn rt (Some user) (as_user header c) w = perform os authn rt (Some user) c w.
Proof. by destruct c. Qed.
(** The framework with another [X-User] in every request. *)
Definition renamed (header : string) : Huma Raw := {|
  decode id r := match decode id r with inl e => inl e | inr c => inr (as_user header c) end;
  documentation := documentation; document := document |}.
Lemma mux_renamed header authn (r : Incoming Raw) user w :
  mux (Huma0:=renamed header) os mt authn r (Some user) w = mux os mt authn r (Some user) w.
Proof.
  unfold mux. change (routed (Huma0:=renamed header) mt authn r) with (routed mt authn r).
  change (routes (Huma0:=renamed header) mt authn) with (routes mt authn).
  destruct (routed mt authn r) as [[rt [serve|]]|]; [done| |done]. simpl.
  destruct (decode (rt_ID rt) r) as [[status message]|c]; [done|]. apply perform_as.
Qed.
(** C14: with authentication on, a request without a token of the subject that is signed with
    the secret, is the issuer's and has not expired changes nothing.  If its path is protected
    it is answered with 401; otherwise the router answers it, without a user, and what it
    reaches is a login, logout, health, metrics or documentation route, or nothing.  A request
    with such a token is served as the subject's: the answer is the one for any other user
    that its headers could name.  The OpenAPI document and the page that shows it are
    answered with 200, token or not. *)
Theorem Handler_guards a (r : Incoming Raw) w resp w' :
  Handler os mt (Some a) r w = (resp, w') →
  ((is_ok (Verify a (os_Clock os) (presented (request r))) = false ∧ w' = w ∧
    if protected (path_with (in_Elements r)) then resp = unauthorized
    else (resp, w') = mux os mt (Some a) r None w ∧
      ∀ x, routed mt (Some a) r = Some x → rt_ID x.1 ∈ open_operations) ∨
   (∃ c e, verified (au_Secret a) (presented (request r)) = Some (HS256, c) ∧
      cl_Subject c = Subject ∧ cl_Issuer c = Issuer ∧
      cl_ExpiresAt c = Some e ∧ (os_Clock os < e)%Z ∧
      ∀ header, (resp, w') = mux (Huma0:=renamed header) os mt (Some a) r (Some Subject) w)) ∧
  (in_Elements r ∈ documents → in_Method r = "GET" → rs_Status resp = 200%Z ∧ w' = w).
Proof.
  intros H. unfold Handler, Middleware in H.
  change (rq_Path (request r)) with (path_with (in_Elements r)) in H.
  destruct (Verify a (os_Clock os) (presented (request r))) as [user|e] eqn:Hv; split.
  - right. apply Verify_ok in Hv as (-> & c & e & Hv & Hs & Hi & He & Hlt & _).
    exists c, e. split_and!; try done. intros header. by rewrite mux_renamed.
  - intros He Hm. destruct (mux_document (Some a) r (Some user) w He Hm) as [H1 H2].
    simpl in H. by rewrite H in H1, H2.
  - left. split; [done|]. destruct (protected (path_with (in_Elements r))) eqn:Hp;
      [by injection H as <- <-|]. simpl in H.
    assert (∀ x, routed mt (Some a) r = Some x → rt_ID x.1 ∈ open_operations) as Ho.
    { intros x Hx. destruct (decide (rt_ID x.1 ∈ open_operations)) as [|Hno]; [done|].
      by rewrite (routed_protected _ _ _ Hx Hno) in Hp. }
    pose proof (mux_unchanged (Some a) r None w Ho) as Hw. rewrite H in Hw. by split_and!.
  - intros He Hm. rewrite (documents_open _ He) in H. simpl in H.
    destruct (mux_document (Some a) r None w He Hm) as [H1 H2]. by rewrite H in H1, H2.
Qed.
End guarded.

(** ** Two requests *)
(** A framework that is handed decoded input. *)
#[export] Instance demo_huma : Huma Call := {|
  decode id r :=
    if (operation (in_Raw r) =? id) then inr (in_Raw r)
    else match in_Raw r with
         | Health => if id =? "health-compat" then inr Health else inl (422%Z, "validation failed")
         | _ => inl (422%Z, "validation failed")
         end;
  documentation := ["/openapi.json"; "/docs"; "/schemas/{schema}"];
  document p r := MkResponse 200 None BOther |}.
#[export] Instance demo_huma_laws : HumaLaws Call.
Proof.
  split.
  - intros id r c. unfold decode, demo_huma. destruct (String.eqb_spec (operation (in_Raw r)) id).
    + intros [= <-]. by left.
    + destruct (in_Raw r); try done. destruct (String.eqb_spec id "health-compat"); [|done].
      intros [= <-]. by right.
  - simpl. set_solver.
  - simpl. set_solver.
Qed.
Definition demo_outside : Outside :=
  MkOutside Acked (λ _, true) (MkRegistry [] true) (λ _ _, Err ErrNoRows) (Err ErrNoRows) (Ok tt)
    (Ok tt) (120 * second)%Z.
Definition demo_mounts : Mounts Call :=
  MkMounts (Some (λ _, MkResponse 101 None BOther)) (Some (λ _, MkResponse 200 None BOther)).
Definition demo_body : CreateProjectRequest := MkProjectRequest "web" "acme" "web" "" None (Some "/src").
Definition demo_request (token : string) : Incoming Call :=
  MkIncoming "POST" ["api"; "v1"; "projects"] token None "" (ProjectsCreate demo_body).
Definition demo_docs : Incoming Call := MkIncoming "GET" ["docs"] "" None "" Health.
Definition demo_serve (r : Incoming Call) : Response * World :=
  Handler (PF:=demo_platform) (UC:=ascii_unicode) demo_outside demo_mounts (Some demo_admin)
    r demo_world.
Definition demo_created : Response * World :=
  Eval vm_compute in demo_serve (demo_request "Bearer session").
Lemma Handler_guards_witness :
  (rs_Status (demo_serve (demo_request "")).1 = 401%Z ∧ rs_Status demo_created.1 = 201%Z ∧
   bool_decide (db_projects (w_db demo_created.2) = ∅) = false) ∧
  (∃ c e, verified demo_key (presented (request (demo_request "Bearer session"))) = Some (HS256, c) ∧
     cl_Subject c = Subject ∧ cl_ExpiresAt c = Some e ∧ (os_Clock demo_outside < e)%Z) ∧
  (rs_Status (demo_serve demo_docs).1 = 200%Z ∧ (demo_serve demo_docs).2 = demo_world).
Proof.
  split; [vm_compute; split; [reflexivity|split; reflexivity]|]. split.
  - assert (demo_serve (demo_request "Bearer session") = (demo_created.1, demo_created.2)) as H
      by (vm_compute; reflexivity).
    destruct (@Handler_guards demo_platform ascii_unicode demo_jwt demo_jwt_laws demo_outside Call
      demo_huma demo_huma_laws demo_mounts demo_admin (demo_request "Bearer session") demo_world
      demo_created.1 demo_created.2 H) as [[(Hno & _)|(c & e & Hv & Hs & _ & He & Hlt & _)] _].
    + exfalso. revert Hno. vm_compute. discriminate.
    + exists c, e. exact (conj Hv (conj Hs (conj He Hlt))).
  - apply (@Handler_guards demo_platform ascii_unicode demo_jwt demo_jwt_laws demo_outside Call
      demo_huma demo_huma_laws demo_mounts demo_admin demo_docs demo_world _ _
      (surjective_pairing _)); [|reflexivity].
    unfold documents. apply list_elem_of_further, list_elem_of_here.
Defined.
